(* ===== verification/_CoqProject ===== *)
-Q . S2P
Prelude.v
NameGenerator.v
Model.v
Migrate.v
Repository.v
Manifests.v
Crypto.v
Cluster.v
SimCluster.v
Wait.v
World.v
Provisioners.v
Cleanup.v
Queue.v
Routes.v
Actions.v
Observe.v
Env.v
Server.v
Frontend.v
Tabs.v
Board.v
Dashboard.v
Panels.v
RateLimit.v
