(* ===== verification/Prelude.v ===== *)
(** * A verification development of the k8s store platform backend

    The program (TypeScript, [src/backend/src]) provisions one isolated
    WooCommerce stack per tenant ("store") in its own Kubernetes namespace.
    Its parts and how they interact:

    - [utils/nameGenerator.ts] derives the slug and the namespace of a store
      from its display name (pure string code);
    - [db/repositories/*.ts] keep the durable state in SQLite: the [stores]
      table, the append-only [provisioning_events] log and the [audit_log];
    - [k8s/client.ts] is the only gateway to the cluster control plane, and
      [k8s/resourceBuilder.ts] / [k8s/secretGenerator.ts] build the resource
      bodies it is sent;
    - [services/provisioners/*.ts] are the provisioning pipelines (the
      WooCommerce one, and a Medusa stub), selected by [getProvisioner];
    - [services/provisioningService.ts] runs the pipelines through a
      bounded-concurrency FIFO queue (p-queue) and turns an escaped error
      into a [Failed] store;
    - [services/cleanupService.ts] is the teardown pipeline;
    - [routes/stores.ts] is the HTTP layer that creates stores, enqueues
      them, triggers deletion, restarts pods, resets the admin password
      and reads logs and health, behind two rate limiters;
      [routes/health.ts] holds the probes and the audit trail;
    - the React dashboard ([src/frontend/src]) calls that layer through
      [api/stores.ts] and shows the stores and their provisioning timeline
      ([App.tsx]).

    The files of the development, in dependency order (one per component):

    - [Prelude] (this file): the state-and-exception monad every effectful
      component is written in ([stM], with stdpp's [≫=] notation), its run
      lemmas, the frame predicates [keeps]/[keeps_on_err] with their
      composition lemmas, the [platform] hint database, decimal rendering
      of numbers for error messages, and JavaScript's [String.includes].
    - [NameGenerator]: [generateSlug] as the exact chain of [toLowerCase],
      [trim], the four regular-expression replacements and [substring], over
      8-bit characters with JavaScript's whitespace class; [generateNamespace];
      the name schema of [routes/stores.ts].
    - [Model]: the types of [types/store.ts] (Store, ProvisioningEvent,
      AuditEntry as records, statuses and plans as inductives), the
      configuration of [config.ts], and the [Error] values the program
      throws, with their [message] texts and HTTP status codes.
    - [Repository]: the three SQLite tables as a record [Db] (stores by id
      in a gmap, events and audit entries as append-only lists, the uuid
      counter), one definition per repository function, the [Write]
      commands and the well-formedness invariant [db_wf] (row keys are ids,
      slugs and namespaces are unique, ids were issued).
    - [Env]: [config.ts] as a function of [process.env], numbers by
      [parseInt] ([NaN] included), with the store limit comparison and
      the [p-queue] concurrency check as JavaScript evaluates them.
    - [Server]: the start-up of [index.ts] (the [p-queue] built when the
      routers are imported, [runMigrations], [app.listen] with its port
      check and log lines, the morgan format) and the kubeconfig source
      of [k8s/client.ts].
    - [Migrate]: [runMigrations] of [db/migrate.ts] over the schema
      objects and the rows of [_migrations], the migrations' SQL as
      [CREATE ... IF NOT EXISTS] statements.
    - [Manifests]: JSON values and the resource bodies of
      [resourceBuilder.ts] and [secretGenerator.ts], field by field, the
      setup script as its template literal; a [Resource] is a create call
      (kind, namespace, name, body).
    - [Crypto]: [utils/crypto.ts] and [generateStoreSecrets]: the
      passwords and salts as functions of the buffers [crypto.randomBytes]
      returns, with [Buffer.toString('hex')] and [toString('base64')]
      written out, and a reference hexadecimal decoder.
    - [Cluster]: the control plane as the type class [ClusterApi] (the calls
      [k8s/client.ts] makes) and its laws [ClusterLaws] (create of a present
      object answers 409 and changes nothing; a successful create adds
      exactly its object).
    - [SimCluster]: two executable clusters satisfying the laws: [Sim]
      (creation times, readiness delays, job outcomes, namespace deletion
      delays, injected faults) and the cooperative [IdealCluster].
    - [Wait]: the polling loops of [waitForDeploymentReady],
      [waitForJobComplete] and [waitForNamespaceDeletion] as one fuelled
      [poll] over a probe; the fuel [poll_fuel] is one unit per millisecond
      before the deadline plus one, enough because every poll advances the
      clock by a positive interval ([poll_fuel_enough]).
    - [World]: the state a pipeline runs against (database, cluster, clock
      in milliseconds, the number of secret generations so far) and the
      primitive steps of the pipelines in the monad [PM].
    - [Provisioners]: the WooCommerce pipeline, one definition per numbered
      step of [woocommerceProvisioner.ts], the Medusa stub and
      [getProvisioner]; a calculus of quiet runs ([quiet], [qrun]: a run
      that succeeds, appends a known event trace, changes rows by a known
      map and grows the cluster by known keys) with one lemma per step.
    - [Cleanup]: [cleanupStore] and its inner [try]s.
    - [Queue]: [p-queue] as a scheduler ([PQueue], [add], [settle], a step
      relation and its reachable states) and the job [enqueueProvisioning]
      adds ([provisioning_job]).
    - [Routes]: the create, delete, list, get and events handlers of
      [routes/stores.ts] over the platform state (world, queue, pending
      cleanups), and the platform's step relation [pstep]: a request, a
      queued job run to its end, or a pending cleanup run to its end.
    - [Actions]: the restart and reset-password handlers of
      [routes/stores.ts] against the class [PodApi] (listing pods,
      patching a deployment, [Exec]) and its laws [PodLaws], implemented
      by [IdealCluster]; [astep] extends [pstep] with both requests.
    - [Observe]: the read-only routes: logs and health of a store, the
      probes and the audit trail of [routes/health.ts], against the class
      [ObserveApi] of the cluster reads they make; JavaScript's
      [parseInt(s, 10)] and [Date.prototype.toISOString].
    - [Frontend]: the logic of [App.tsx]: JavaScript's [Map] as an
      association list, [deduplicateEvents] with a reference
      specification, the status and step tables, the date, duration and
      uptime formatters, and the [App] component's state as a record with
      one definition per handler ([fetchStores], [handleCreate],
      [handleDelete], [toggleTheme]); an API call enters a handler as the
      outcome its promise settles with.
    - [Dashboard]: the client of [api/stores.ts] as the requests it sends,
      axios's rejection of non-2xx answers, and the Express dispatch of
      [index.ts] and [routes/stores.ts] ([serve]) that answers them; the
      composition of the dashboard with the back end.
    - [Tabs]: the store card's tabs: [HealthTab] and [AuditLogPanel] as
      one polling component whose effect runs own a [mounted] flag, with
      its step relation; [LogsTab]; [ActionsTab]; the audit table rows.
    - [Board]: what [App], [StoreCard] and [TimelineTab] render (header
      badges, cards, the selected card's panel, the timeline rows),
      without styles; the [App] state extended with [showAuditLog], each
      card's [activeTab] and the [fetchEvents] calls in flight of the
      events effect; [CreateStoreModal] with its inputs, plan buttons,
      the browser's constraint validation and [handleSubmit].
    - [Panels]: what the health, logs and actions tabs show (pod cards,
      volumes, the quota table, the log viewer, the action buttons) and
      the actions tab's click guard with its step relation in one
      mounting.
    - [RateLimit]: [createLimiter] and [actionLimiter] with the memory
      store of [express-rate-limit], and the dispatch behind them.

    Theorems, by group:

    - platform: the create handler on each branch (201 with a new
      [Provisioning] store that is inserted, counted and enqueued; 429 at
      the limit; 409 on a taken slug; 400 on an invalid body) and a created
      store is what [GET] returns; the delete handler followed by its
      pending continuation is exactly [cleanupStore] (refinement); the
      schema invariant holds along every interleaving of requests, jobs,
      cleanups, restarts and password resets; a restart of a [Ready]
      store answers [200] and reports only requested targets whose
      deployment is present (none for an unknown target); a password
      reset stores and returns 16 hexadecimal digits drawn from 8 bytes; and three runs the code allows: a store deleted while
      its job is queued comes back [Ready], two stores count against a
      limit of one, and a namespace recreated by a job outlives its
      deleted store.
    - dashboard: a store the dashboard creates is the one its [getStore]
      request then reads back; a create at the limit shows the back end's
      429 message, clears [loading] and keeps the form and the list; after
      a successful WooCommerce run the timeline [deduplicateEvents] shows
      is the exact list of steps and statuses of the run (step 10 left at
      [started] when the network policy existed); [deduplicateEvents]
      equals a declarative reference (per step, the latest terminal event,
      else the first one, in order of first appearance); a stored theme
      other than [light] and [dark] leaves the background undefined; a
      restart button shows the back end's list of restarted deployments
      or its refusal; the log tail asked for is the tail the cluster is
      read with.
    - observation: the health route answers [200] for a known store
      whatever the cluster answers, with the pods of each app in listing
      order; the logs shown are those of the first pod the health view
      lists; the audit route answers the [n] latest entries ([parseInt]
      reads back every rendered integer).
    - limiters: within one window of a client at most [max] hits pass;
      the windows are fixed, so [2 max] hits pass within [windowMs + 1]
      milliseconds.
    - tabs: along every run of a polling tab only answers of the live
      effect run, for the current store, change what is shown; the log
      tab can show the logs of the pod it has just left; the audit panel
      shows every entry the routes write unlabelled, its maps being keyed
      by names no route logs.
    - board: a newly selected card first shows the previous store's
      timeline, and a late answer for that store replaces the new one's;
      the create form only ever submits the [woocommerce] plan, and a name
      it lets through (it checks lengths only) can be refused by the back
      end with a bare ["Validation failed"]; within one mounting of the
      actions tab at most one action is in flight, the one whose button
      spins.
    - manifests: the fourteen resources of a store agree with their
      bodies, have distinct identities and refer to one another
      consistently (secret keys, claims, selectors, ports, backends); the
      [wordpress-secrets] secret is used by no pod, and the admin password
      is in clear in the setup job's command line.
    - secrets: the passwords are hexadecimal strings of the requested
      length and the salts base64 strings of 64 characters; a password of
      [2k] characters is the rendering of the first [k] of its [2k] drawn
      bytes and determines them (the hexadecimal rendering decodes back).

    - provisioning: against any cluster satisfying the laws whose creates
      in the store's namespace answer OK or 409 and whose workloads become
      ready, the WooCommerce run succeeds, logs the exact event trace
      (without step 10's [completed] exactly when the network policy
      existed), marks only its own row [Ready] with the password it drew,
      and leaves every guaranteed resource present; a failing run leaves
      every row as it was; when the MySQL secret exists, step 2 skips the
      WordPress secret yet reports success.
    - queue: at most [concurrency] jobs run, no slot idles while jobs wait,
      admission is FIFO, [getQueueSize] counts unsettled jobs; liveness:
      with a positive concurrency, the job at position [p] of the waiting
      list runs after any [p + 1] settlements, which are always possible; the job
      never throws, turns a pipeline error into [Failed] plus an event, and
      overwrites the Medusa provisioner's own message.
    - cleanup: unknown ids throw before any write; a completed cleanup
      removes exactly the store's row and events; a failed one leaves the
      row [Failed] with ["Cleanup failed: ..."]; a namespace still present
      after 120 s gives the timeout.
    - waits: termination and a declarative characterisation of [poll];
      timeout bounds; a failed setup job is reported before the timeout.
    - configuration: with no variable set [config] is [Config.default];
      when the variables parse, the model's store limit check is the
      JavaScript comparison, while a [MAX_STORES] that is not a number
      turns the limit off and a negative one refuses every creation.
    - repository: [db_wf] is preserved by every write; [createStore] on
      both branches; [runMigrations] never fails, runs exactly the
      pending migrations in order and is idempotent; the server starts
      by running them and then listening, a bad concurrency stops it
      before any migration and a bad port after them.
    - slugs: the character set, no doubled or leading hyphen, the length
      bound, and idempotence exactly
      when the slug has no trailing hyphen; a concrete 41-character name
      whose slug ends in a hyphen, so the specification's idempotence claim
      fails for it.

    Every theorem with hypotheses has a witness applying it on a concrete
    input, usually a [Sim] or [IdealCluster] world evaluated by [vm_compute].

    Fuel: [poll] runs on [poll_fuel deadline now], one unit per
    millisecond before the deadline plus one; every poll advances the
    clock by a positive interval, so this is enough, and more fuel gives
    the same result ([poll_fuel_enough]).

    Not modelled: the rate limiters' standard headers; the helmet, cors
    and JSON-body middleware of [index.ts] and its error handler
    ([middleware/errorHandler.ts]), library glue or not among the
    sources; the database connection of [db/connection.ts], which is not
    among the sources; of
    the front end, the styles and CSS keyframes, the locale text of dates
    and the clock (parameters of the card view), the browser's e-mail
    check (a parameter of the form), the periods of the polling timers
    (a tick is an event of the step relation), and [api/client.ts], which is
    not among the sources (its axios instance is modelled from its use:
    base URL [/api], 2xx resolves); the serialisation of the resource
    objects by the client library; zod's e-mail rule (a parameter of the
    request schema); the interleaving of the steps inside one pipeline run
    (a job and a cleanup each run to their end in [pstep]; requests
    interleave with them), and other steps at the [await]s of the restart
    and reset-password handlers, which [astep] runs to their end.

    Modelling choices: strings are Stdlib [string]s of 8-bit characters,
    read as the code points 0-255 of a JavaScript string (UTF-16 code units
    above 255 are not modelled); SQLite's [datetime('now')] is the clock in
    seconds; the [n]-th secret generation ([secrets_of n]) reads the
    buffers [urandom (11 n + k)] of a fixed byte stream, one per call [k]
    to [crypto.randomBytes]; the theorems on secrets hold for every byte
    source whose buffers have the requested length.  *)

From stdpp Require Export base gmap strings list.
From Stdlib Require Export String Ascii ZArith Lia.
From Stdlib Require Import DecimalString DecimalNat.

(** [String] shadows the length of lists; [String.length] stays qualified. *)
Abbreviation length := List.length (only parsing).

Declare Scope platform_scope.
Delimit Scope platform_scope with platform.
Create HintDb platform.
Create HintDb platform_wf.
Create Rewrite HintDb platform_rw.

(** ** The state-and-exception monad

    JavaScript code that awaits cluster calls, writes to SQLite and throws
    is modelled as a function from the world to an outcome and the new
    world.  The world survives a throw: a row inserted before the [throw]
    stays in the database, as it does in the program. *)

Inductive outcome (E A : Type) : Type :=
| Ok (a : A)
| Err (e : E).
Arguments Ok {E A} a.
Arguments Err {E A} e.

(** [promise.then(f)] on a settled promise. *)
Definition outcome_map {E A B} (f : A -> B) (o : outcome E A) : outcome E B :=
  match o with Ok a => Ok (f a) | Err e => Err e end.

Definition stM (S E A : Type) : Type := S -> outcome E A * S.

#[export] Instance stM_ret S E : MRet (stM S E) := fun A a s => (Ok a, s).
#[export] Instance stM_bind S E : MBind (stM S E) := fun A B f c s =>
  match c s with
  | (Ok a, s') => f a s'
  | (Err e, s') => (Err e, s')
  end.

Section Monad.
Context {S E : Type}.

Definition throw {A} (e : E) : stM S E A := fun s => (Err e, s).
Definition get : stM S E S := fun s => (Ok s, s).
Definition put (s : S) : stM S E unit := fun _ => (Ok tt, s).
Definition modify (f : S -> S) : stM S E unit := fun s => (Ok tt, f s).
Definition gets {A} (f : S -> A) : stM S E A := fun s => (Ok (f s), s).

(** [try { c } catch (e) { h(e) }] *)
Definition catch {A} (c : stM S E A) (h : E -> stM S E A) : stM S E A :=
  fun s => match c s with
           | (Ok a, s') => (Ok a, s')
           | (Err e, s') => h e s'
           end.

(** Lift a pure fallible computation. *)
Definition lift_outcome {A} (o : outcome E A) : stM S E A :=
  fun s => (o, s).

Lemma run_ret {A} (a : A) s : (mret a : stM S E A) s = (Ok a, s).
Proof. reflexivity. Qed.

Lemma run_bind_ok {A B} (c : stM S E A) (f : A -> stM S E B) s a s' :
  c s = (Ok a, s') -> (c ≫= f) s = f a s'.
Proof. intros H. unfold mbind, stM_bind. by rewrite H. Qed.

Lemma run_bind_err {A B} (c : stM S E A) (f : A -> stM S E B) s e s' :
  c s = (Err e, s') -> (c ≫= f) s = (Err e, s').
Proof. intros H. unfold mbind, stM_bind. by rewrite H. Qed.

Lemma run_catch_ok {A} (c : stM S E A) h s a s' :
  c s = (Ok a, s') -> catch c h s = (Ok a, s').
Proof. intros H. unfold catch. by rewrite H. Qed.

Lemma run_catch_err {A} (c : stM S E A) h s e s' :
  c s = (Err e, s') -> catch c h s = h e s'.
Proof. intros H. unfold catch. by rewrite H. Qed.

Lemma run_bind_assoc {A B D} (c : stM S E A) (f : A -> stM S E B)
      (g : B -> stM S E D) s :
  ((c ≫= f) ≫= g) s = (c ≫= (fun a => f a ≫= g)) s.
Proof. unfold mbind, stM_bind. by destruct (c s) as [[a|e] s']. Qed.

Lemma run_bind_ret_l {A B} (a : A) (f : A -> stM S E B) s :
  (mret a ≫= f) s = f a s.
Proof. reflexivity. Qed.

Lemma run_bind_ret_r {A} (c : stM S E A) s :
  (c ≫= mret) s = c s.
Proof. unfold mbind, stM_bind. by destruct (c s) as [[a|e] s']. Qed.
End Monad.

#[export] Hint Rewrite @run_ret @run_bind_ret_l @run_bind_assoc : platform_rw.
#[export] Hint Resolve run_bind_ok run_bind_err run_catch_ok run_catch_err : platform.


(** ** Frame properties of computations

    [keeps f m]: whatever [m] returns, the part [f] of the state is as it
    was.  [keeps_on_err f m]: the same, when [m] throws. *)
Section Keeps.
Context {S E B : Type} (f : S -> B).

Definition keeps {A} (m : stM S E A) : Prop :=
  forall s o s', m s = (o, s') -> f s' = f s.

Definition keeps_on_err {A} (m : stM S E A) : Prop :=
  forall s e s', m s = (Err e, s') -> f s' = f s.

Lemma keeps_ret {A} (a : A) : keeps (mret a).
Proof. by intros s o s' [= _ <-]. Qed.

Lemma keeps_throw {A} e : keeps (throw (A:=A) e).
Proof. by intros s o s' [= _ <-]. Qed.

Lemma keeps_bind {A A'} (m : stM S E A) (k : A -> stM S E A') :
  keeps m -> (forall a, keeps (k a)) -> keeps (m ≫= k).
Proof.
  intros Hm Hk s o s'. unfold mbind, stM_bind.
  destruct (m s) as [[a|e] s1] eqn:Hms; intros H.
  - rewrite (Hk a _ _ _ H). by apply (Hm _ _ _ Hms).
  - injection H as _ <-. by apply (Hm _ _ _ Hms).
Qed.

Lemma keeps_catch {A} (m : stM S E A) h :
  keeps m -> (forall e, keeps (h e)) -> keeps (catch m h).
Proof.
  intros Hm Hh s o s'. unfold catch.
  destruct (m s) as [[a|e] s1] eqn:Hms; intros H.
  - injection H as _ <-. by apply (Hm _ _ _ Hms).
  - rewrite (Hh e _ _ _ H). by apply (Hm _ _ _ Hms).
Qed.

Lemma keeps_err {A} (m : stM S E A) : keeps m -> keeps_on_err m.
Proof. intros Hm s e s'. apply Hm. Qed.

(** A computation that cannot throw keeps everything on its errors. *)
Lemma keeps_on_err_total {A} (m : stM S E A) :
  (forall s, exists a s', m s = (Ok a, s')) -> keeps_on_err m.
Proof. intros Hm s e s' H. destruct (Hm s) as (a & s1 & H'). congruence. Qed.

Lemma keeps_on_err_bind {A A'} (m : stM S E A) (k : A -> stM S E A') :
  keeps m -> (forall a, keeps_on_err (k a)) -> keeps_on_err (m ≫= k).
Proof.
  intros Hm Hk s e s'. unfold mbind, stM_bind.
  destruct (m s) as [[a|e'] s1] eqn:Hms; intros H.
  - rewrite (Hk a _ _ _ H). by apply (Hm _ _ _ Hms).
  - injection H as _ <-. by apply (Hm _ _ _ Hms).
Qed.
End Keeps.

#[export] Hint Resolve keeps_ret keeps_throw keeps_err : platform.

(** ** Invariants of computations

    [preserves P m]: a run of [m] from a state satisfying [P] ends in a
    state satisfying [P], whether it returns or throws. *)
Section Preserves.
Context {S E : Type} (P : S -> Prop).

Definition preserves {A} (m : stM S E A) : Prop :=
  forall s o s', P s -> m s = (o, s') -> P s'.

Lemma preserves_ret {A} (a : A) : preserves (mret a).
Proof. by intros s o s' Hs [= _ <-]. Qed.

Lemma preserves_throw {A} e : preserves (throw (A:=A) e).
Proof. by intros s o s' Hs [= _ <-]. Qed.

Lemma preserves_bind {A A'} (m : stM S E A) (k : A -> stM S E A') :
  preserves m -> (forall a, preserves (k a)) -> preserves (m ≫= k).
Proof.
  intros Hm Hk s o s' Hs. unfold mbind, stM_bind.
  destruct (m s) as [[a|e] s1] eqn:Hms; intros H.
  - exact (Hk a _ _ _ (Hm _ _ _ Hs Hms) H).
  - injection H as _ <-. exact (Hm _ _ _ Hs Hms).
Qed.

Lemma preserves_catch {A} (m : stM S E A) h :
  preserves m -> (forall e, preserves (h e)) -> preserves (catch m h).
Proof.
  intros Hm Hh s o s' Hs. unfold catch.
  destruct (m s) as [[a|e] s1] eqn:Hms; intros H.
  - injection H as _ <-. exact (Hm _ _ _ Hs Hms).
  - exact (Hh e _ _ _ (Hm _ _ _ Hs Hms) H).
Qed.

Lemma preserves_lift {A} (o : outcome E A) : preserves (lift_outcome o).
Proof. intros s o' s' Hs. unfold lift_outcome. by intros [= _ <-]. Qed.

(** Binding a known outcome: only its value reaches the continuation. *)
Lemma preserves_lift_bind {A A'} (o : outcome E A) (k : A -> stM S E A') :
  (forall a, o = Ok a -> preserves (k a)) -> preserves (lift_outcome o ≫= k).
Proof.
  intros Hk s o' s' Hs. unfold mbind, stM_bind, lift_outcome.
  destruct o as [a|e]; [exact (Hk a eq_refl s o' s' Hs)|by intros [= _ <-]].
Qed.

(** A computation that leaves alone the part of the state [P] reads
    preserves [P]. *)
Lemma keeps_preserves {B A} (f : S -> B) (m : stM S E A) :
  (forall s s', f s' = f s -> P s -> P s') -> keeps f m -> preserves m.
Proof. intros HP Hm s o s' Hs Hrun. exact (HP s s' (Hm _ _ _ Hrun) Hs). Qed.
End Preserves.

#[export] Hint Resolve preserves_ret preserves_throw preserves_lift : platform_wf.

(** [run_step H] rewrites the first bind of the goal with the run [H] of
    its head computation. *)
Ltac run_step H :=
  first [ rewrite (run_bind_ok _ _ _ _ _ H)
        | rewrite (run_bind_err _ _ _ _ _ H)
        | rewrite (run_catch_ok _ _ _ _ _ H)
        | rewrite (run_catch_err _ _ _ _ _ H) ].

(** Two updates of a present key are one insertion. *)
Lemma alter_alter_lookup {A} (f g : A -> A) (m : gmap string A) i x :
  m !! i = Some x -> alter f i (alter g i m) = <[i := f (g x)]> m.
Proof.
  intros Hi. apply map_eq. intros j. destruct (decide (j = i)) as [->|Hne].
  - rewrite lookup_insert_eq, !lookup_alter_eq, Hi. done.
  - by rewrite !lookup_alter_ne, lookup_insert_ne by congruence.
Qed.

(** ** Strings *)

Local Open Scope string_scope.

(** Decimal rendering, as JavaScript's template literals print numbers. *)
Definition string_of_nat (n : nat) : string :=
  NilEmpty.string_of_uint (Nat.to_uint n).

Definition string_of_Z (z : Z) : string :=
  NilEmpty.string_of_int (Z.to_int z).

Lemma string_of_nat_inj n m : string_of_nat n = string_of_nat m -> n = m.
Proof.
  unfold string_of_nat. intros H.
  apply (f_equal NilEmpty.uint_of_string) in H.
  rewrite !NilEmpty.usu in H. injection H as H.
  by apply Unsigned.to_uint_inj.
Qed.

(** [x || d] on an optional string: [undefined], [null] and the empty
    string are falsy. *)
Definition js_or_str (o : option string) (d : string) : string :=
  match o with Some s => if String.eqb s "" then d else s | None => d end.

(** [hay.includes(needle)] *)
Definition includes (hay needle : string) : bool :=
  match String.index 0 needle hay with
  | Some _ => true
  | None => false
  end.

Lemma string_app_assoc (a b c : string) : (a ++ b) ++ c = a ++ b ++ c.
Proof. induction a as [|x a IH]; [reflexivity|exact (f_equal (String x) IH)]. Qed.

Lemma string_app_nil_r (a : string) : a ++ EmptyString = a.
Proof. induction a as [|x a IH]; [reflexivity|exact (f_equal (String x) IH)]. Qed.

Lemma substring_prefix (b c : string) :
  String.substring 0 (String.length b) (b ++ c) = b.
Proof. induction b as [|x b IH]; simpl. - destruct c; reflexivity. - rewrite IH. reflexivity. Qed.

Lemma substring_app_mid (a b c : string) :
  String.substring (String.length a) (String.length b) (a ++ b ++ c) = b.
Proof. induction a as [|x a IH]; [exact (substring_prefix b c)|exact IH]. Qed.

(** A non-empty string is included in any string that has it in the
    middle. *)
Lemma includes_app_mid (a b c : string) :
  b <> "" -> includes (a ++ b ++ c) b = true.
Proof.
  intros Hb. unfold includes. destruct (String.index 0 b _) eqn:E; [done|].
  exfalso. eapply (String.index_correct3 0 (String.length a)); [done|done|lia|].
  apply substring_app_mid.
Qed.

(** ** Characters

    A property of every 8-bit character is decided by checking the 256 of
    them: [ascii_forall] turns that computation into the universal
    statement. *)

Definition all_ascii : list ascii := map ascii_of_nat (seq 0 256).

Lemma ascii_forall (P : ascii -> bool) :
  forallb P all_ascii = true -> forall c, P c = true.
Proof.
  intros H c. rewrite <- (ascii_nat_embedding c).
  apply forallb_forall with (x := ascii_of_nat (nat_of_ascii c)) in H; [done|].
  apply in_map, in_seq. pose proof (nat_ascii_bounded c). lia.
Qed.

(** Close a goal [forall c, P c = true] by evaluation. *)
Ltac ascii_cases := apply ascii_forall; vm_compute; reflexivity.

(** ** Lists *)

Lemma forallb_weaken {A} (P Q : A -> bool) (l : list A) :
  (forall x, P x = true -> Q x = true) -> forallb P l = true -> forallb Q l = true.
Proof.
  intros HPQ. rewrite !forallb_forall. intros H x Hx. by apply HPQ, H.
Qed.

Lemma filter_forallb {A} (P : A -> bool) (l : list A) :
  forallb P (List.filter P l) = true.
Proof. induction l as [|x l IH]; simpl; [done|]. destruct (P x) eqn:E; simpl; by rewrite ?E. Qed.

Lemma filter_id {A} (P : A -> bool) (l : list A) :
  forallb P l = true -> List.filter P l = l.
Proof.
  induction l as [|x l IH]; simpl; [done|].
  intros [-> H]%andb_prop. by rewrite IH.
Qed.

Lemma list_ascii_of_string_app (a b : string) :
  list_ascii_of_string (a ++ b) = (list_ascii_of_string a ++ list_ascii_of_string b)%list.
Proof. induction a as [|x a IH]; unfold append; fold append; cbn; by rewrite ?IH. Qed.

Lemma find_app {A} (f : A -> bool) l1 l2 :
  List.find f (l1 ++ l2) = match List.find f l1 with Some x => Some x | None => List.find f l2 end.
Proof. induction l1 as [|x l1 IH]; cbn; [done|]. by destruct (f x). Qed.

#[export] Hint Resolve filter_forallb filter_id : platform.
