(* ===== verification/NameGenerator.v ===== *)
(** * NameGenerator: slugs and namespaces ([utils/nameGenerator.ts])

    [generateSlug] is written as the source writes it, one stage per call
    of the method chain, over the list of characters of the name:
    [toLowerCase], [trim], [replace(/[^a-z0-9\s-]/g, '')],
    [replace(/[\s]+/g, '-')], [replace(/-+/g, '-')], [replace(/^-|-$/g, '')]
    and [substring(0, 40)].  The schema [createStoreSchema] of
    [routes/stores.ts] that validates the name before it reaches
    [generateSlug] is [valid_store_name].

    The theorems give the shape of every slug (character set, no doubled
    or leading hyphen, at most 40 characters), show that a trailing hyphen
    only comes from the truncation, that slug-shaped strings are fixed
    points, and that [generateSlug] is idempotent on a name exactly when
    its slug has no trailing hyphen; a valid 41-character name has a slug
    with a trailing hyphen. *)

From S2P Require Import Prelude.
Local Open Scope list_scope.

Module NameGenerator.

(** ** Character classes *)

(** The characters [toLowerCase] changes among the code points 0-255:
    A-Z and the Latin-1 capitals from 192 to 222 except 215 (the
    multiplication sign). *)
Definition is_upper (c : ascii) : bool :=
  let n := nat_of_ascii c in
  ((65 <=? n) && (n <=? 90)) || ((192 <=? n) && (n <=? 222) && negb (n =? 215)).

Definition lower_char (c : ascii) : ascii :=
  if is_upper c then ascii_of_nat (nat_of_ascii c + 32) else c.

(** JavaScript's [\s] restricted to the code points 0-255 (tab, line
    feed, vertical tab, form feed, carriage return, space, no-break
    space); [String.prototype.trim] removes the same set. *)
Definition is_space (c : ascii) : bool :=
  let n := nat_of_ascii c in
  ((9 <=? n) && (n <=? 13)) || (n =? 32) || (n =? 160).

Definition is_lower_alnum (c : ascii) : bool :=
  let n := nat_of_ascii c in
  ((97 <=? n) && (n <=? 122)) || ((48 <=? n) && (n <=? 57)).

Definition is_hyphen (c : ascii) : bool := (c =? "-")%char.

(** The class [[a-z0-9\s-]] kept by the first replacement. *)
Definition keep_char (c : ascii) : bool :=
  is_lower_alnum c || is_space c || is_hyphen c.

(** ** The stages of the chain *)

Definition toLowerCase (l : list ascii) : list ascii := map lower_char l.

Fixpoint trim_start (l : list ascii) : list ascii :=
  match l with
  | [] => []
  | c :: l' => if is_space c then trim_start l' else l
  end.

Definition trim (l : list ascii) : list ascii :=
  rev (trim_start (rev (trim_start l))).

(** [replace(/[^a-z0-9\s-]/g, '')] *)
Definition strip_invalid (l : list ascii) : list ascii := List.filter keep_char l.

(** [replace(/[p]+/g, r)]: every maximal run of characters of class [p]
    becomes the one character [r]; [in_run] says whether the previous
    character belonged to such a run. *)
Fixpoint replace_runs (p : ascii -> bool) (r : ascii) (in_run : bool)
         (l : list ascii) : list ascii :=
  match l with
  | [] => []
  | c :: l' =>
      if p c then
        if in_run then replace_runs p r true l' else r :: replace_runs p r true l'
      else c :: replace_runs p r false l'
  end.

Definition drop_leading_hyphen (l : list ascii) : list ascii :=
  match l with
  | c :: l' => if is_hyphen c then l' else l
  | [] => []
  end.

Definition drop_trailing_hyphen (l : list ascii) : list ascii :=
  match rev l with
  | c :: r => if is_hyphen c then rev r else l
  | [] => []
  end.

(** [replace(/^-|-$/g, '')]: the global search first matches a hyphen at
    index 0, then a hyphen at the last index of what is left. *)
Definition strip_edge_hyphens (l : list ascii) : list ascii :=
  drop_trailing_hyphen (drop_leading_hyphen l).

Definition slug_chars (l : list ascii) : list ascii :=
  take 40
    (strip_edge_hyphens
       (replace_runs is_hyphen "-" false
          (replace_runs is_space "-" false
             (strip_invalid (trim (toLowerCase l)))))).

Definition generateSlug (name : string) : string :=
  string_of_list_ascii (slug_chars (list_ascii_of_string name)).

Definition generateNamespace (slug : string) : string := "store-" ++ slug.

(** The [name] field of [createStoreSchema]: 2 to 50 characters, all of
    [[a-zA-Z0-9\s-]]. *)
Definition name_char (c : ascii) : bool :=
  is_lower_alnum c || (let n := nat_of_ascii c in (65 <=? n) && (n <=? 90))
  || is_space c || is_hyphen c.

Definition valid_store_name (name : string) : bool :=
  let l := list_ascii_of_string name in
  (2 <=? length l) && (length l <=? 50) && forallb name_char l.

(** ** Shape predicates *)

Definition slug_char (c : ascii) : bool := is_lower_alnum c || is_hyphen c.

Fixpoint no_double (p : ascii -> bool) (l : list ascii) : bool :=
  match l with
  | c :: ((d :: _) as t) => negb (p c && p d) && no_double p t
  | _ => true
  end.

Definition starts_with (p : ascii -> bool) (l : list ascii) : bool :=
  match l with
  | c :: _ => p c
  | [] => false
  end.

Definition ends_with (p : ascii -> bool) (l : list ascii) : bool :=
  starts_with p (rev l).

(** A string is slug-shaped when it has the character set of slugs, no
    doubled hyphen, no hyphen at either end and at most 40 characters. *)
Definition slug_shaped (l : list ascii) : bool :=
  forallb slug_char l && no_double is_hyphen l
  && negb (starts_with is_hyphen l) && negb (ends_with is_hyphen l)
  && (length l <=? 40).

(** ** Character facts, decided over the 256 characters *)

Lemma slug_char_not_upper : forall c, implb (slug_char c) (negb (is_upper c)) = true.
Proof. ascii_cases. Qed.

Lemma slug_char_not_space : forall c, implb (slug_char c) (negb (is_space c)) = true.
Proof. ascii_cases. Qed.

Lemma slug_char_keep : forall c, implb (slug_char c) (keep_char c) = true.
Proof. ascii_cases. Qed.

Lemma keep_not_space_slug :
  forall c, implb (keep_char c && negb (is_space c)) (slug_char c) = true.
Proof. ascii_cases. Qed.

Lemma hyphen_slug_char : slug_char "-" = true.
Proof. reflexivity. Qed.

Lemma is_hyphen_eq c : is_hyphen c = true -> c = "-"%char.
Proof. unfold is_hyphen. by intros ->%Ascii.eqb_eq. Qed.

(** From a [implb] fact to an implication between [true]s. *)
Lemma implb_true (b1 b2 : bool) : implb b1 b2 = true -> b1 = true -> b2 = true.
Proof. by destruct b1, b2. Qed.

(** ** [no_double], [starts_with] and [ends_with] *)

Lemma no_double_cons p c l :
  no_double p (c :: l) = negb (p c && starts_with p l) && no_double p l.
Proof. destruct l as [|d l]; simpl; [by destruct (p c)|done]. Qed.

Lemma starts_with_app p l1 l2 :
  l1 <> [] -> starts_with p (l1 ++ l2) = starts_with p l1.
Proof. by destruct l1. Qed.

Lemma rev_neq_nil {A} (l : list A) : l <> [] -> rev l <> [].
Proof. intros Hl H. apply Hl. by rewrite <- (rev_involutive l), H. Qed.

Lemma ends_with_cons p c l : l <> [] -> ends_with p (c :: l) = ends_with p l.
Proof. intros Hl. unfold ends_with. simpl. by apply starts_with_app, rev_neq_nil. Qed.

Lemma ends_with_snoc p l c : ends_with p (l ++ [c]) = p c.
Proof. unfold ends_with. by rewrite rev_unit. Qed.

Lemma no_double_app p l1 l2 :
  no_double p (l1 ++ l2) =
  no_double p l1 && no_double p l2 && negb (ends_with p l1 && starts_with p l2).
Proof.
  induction l1 as [|c l1 IH]; cbn [app].
  - unfold ends_with. simpl. by destruct (no_double p l2).
  - rewrite !no_double_cons, IH. destruct l1 as [|d l1].
    + unfold ends_with. simpl.
      destruct (p c), (starts_with p l2), (no_double p l2); reflexivity.
    + rewrite (starts_with_app p (d :: l1) l2), (ends_with_cons p c (d :: l1)) by discriminate.
      destruct (p c), (starts_with p (d :: l1)), (no_double p (d :: l1)),
        (no_double p l2), (ends_with p (d :: l1)), (starts_with p l2); reflexivity.
Qed.

Lemma forallb_rev {A} (P : A -> bool) l : forallb P (rev l) = forallb P l.
Proof.
  induction l as [|x l IH]; simpl; [done|].
  rewrite forallb_app, IH. simpl. by destruct (P x), (forallb P l).
Qed.

(** The prefix of a list keeps every property that [++] splits. *)
Lemma take_shape P p n l :
  forallb P l = true -> no_double p l = true ->
  forallb P (take n l) = true /\ no_double p (take n l) = true.
Proof.
  rewrite <- (take_drop n l) at 1 2. rewrite forallb_app, no_double_app.
  intros [? ?]%andb_prop [[? ?]%andb_prop ?]%andb_prop. done.
Qed.

(** ** The run replacements *)

Lemma replace_runs_forallb P p r b l :
  P r = true -> forallb P l = true -> forallb P (replace_runs p r b l) = true.
Proof.
  intros Hr. revert b. induction l as [|c l IH]; intros b Hl; simpl in *; [done|].
  apply andb_prop in Hl as [Hc Hl].
  destruct (p c), b; simpl; rewrite ?Hr, ?Hc; by apply IH.
Qed.

Lemma replace_runs_no_double p r : p r = true -> forall l b,
  no_double p (replace_runs p r b l) = true /\
  (b = true -> starts_with p (replace_runs p r b l) = false).
Proof.
  intros Hr l. induction l as [|c l IH]; intros b; cbn [replace_runs]; [by split|].
  destruct (IH true) as [H1 H2], (IH false) as [H3 H4].
  destruct (p c) eqn:Hc, b.
  - split; [done | by intros _; apply H2].
  - rewrite no_double_cons, H1, H2, Hr by done. split; [done | discriminate].
  - rewrite no_double_cons, H3; cbn [starts_with]; rewrite Hc. by split.
  - rewrite no_double_cons, H3; cbn [starts_with]; rewrite Hc. by split.
Qed.

Lemma replace_runs_id p r : (forall c, p c = true -> c = r) -> forall l b,
  no_double p l = true -> (b = true -> starts_with p l = false) ->
  replace_runs p r b l = l.
Proof.
  intros Hpr l. induction l as [|c l IH]; intros b Hnd Hb; simpl; [done|].
  rewrite no_double_cons in Hnd. apply andb_prop in Hnd as [Hcl Hnd].
  destruct (p c) eqn:Hc.
  - destruct b; [by specialize (Hb eq_refl); simpl in Hb; rewrite Hc in Hb|].
    rewrite (Hpr c Hc), IH; [done|done|].
    intros _. by destruct (starts_with p l).
  - rewrite IH; [done|done|discriminate].
Qed.

Lemma replace_runs_none p r b l :
  forallb (fun c => negb (p c)) l = true -> replace_runs p r b l = l.
Proof.
  revert b. induction l as [|c l IH]; intros b Hl; simpl in *; [done|].
  apply andb_prop in Hl as [Hc Hl]. destruct (p c); [done|]. by rewrite IH.
Qed.

(** Replacing the whitespace runs of a string of the kept class leaves
    only slug characters. *)
Lemma replace_spaces_slug_chars b l :
  forallb keep_char l = true ->
  forallb slug_char (replace_runs is_space "-" b l) = true.
Proof.
  revert b. induction l as [|c l IH]; intros b Hl; simpl in *; [done|].
  apply andb_prop in Hl as [Hc Hl].
  destruct (is_space c) eqn:Hs, b; simpl; rewrite ?IH, ?andb_true_r by done;
    try done; apply (implb_true _ _ (keep_not_space_slug c)); by rewrite Hc, Hs.
Qed.

(** ** The stages before the edge strip *)

Definition collapsed (l : list ascii) : list ascii :=
  replace_runs is_hyphen "-" false
    (replace_runs is_space "-" false (strip_invalid (trim (toLowerCase l)))).

Lemma slug_chars_collapsed l :
  slug_chars l = take 40 (strip_edge_hyphens (collapsed l)).
Proof. reflexivity. Qed.

Lemma collapsed_shape l :
  forallb slug_char (collapsed l) = true /\
  no_double is_hyphen (collapsed l) = true.
Proof.
  unfold collapsed. split.
  - apply replace_runs_forallb; [done|].
    apply replace_spaces_slug_chars, filter_forallb.
  - by apply replace_runs_no_double.
Qed.

Lemma toLowerCase_id l :
  forallb slug_char l = true -> toLowerCase l = l.
Proof.
  induction l as [|c l IH]; simpl; [done|]. intros [Hc Hl]%andb_prop.
  rewrite IH by done. unfold lower_char.
  pose proof (implb_true _ _ (slug_char_not_upper c) Hc) as Hu.
  by destruct (is_upper c).
Qed.

Lemma slug_chars_not_space l :
  forallb slug_char l = true -> forallb (fun c => negb (is_space c)) l = true.
Proof. apply forallb_weaken. intros c. apply implb_true, slug_char_not_space. Qed.

Lemma trim_start_id l :
  forallb (fun c => negb (is_space c)) l = true -> trim_start l = l.
Proof. destruct l as [|c l]; simpl; [done|]. by destruct (is_space c). Qed.

Lemma trim_id l : forallb slug_char l = true -> trim l = l.
Proof.
  intros H%slug_chars_not_space. unfold trim.
  rewrite (trim_start_id l) by done.
  rewrite (trim_start_id (rev l)) by (by rewrite forallb_rev).
  apply rev_involutive.
Qed.

Lemma collapsed_id l :
  forallb slug_char l = true -> no_double is_hyphen l = true -> collapsed l = l.
Proof.
  intros Hc Hnd. unfold collapsed, strip_invalid.
  assert (forallb keep_char l = true).
  { revert Hc. apply forallb_weaken. intros c. apply implb_true, slug_char_keep. }
  rewrite toLowerCase_id, trim_id, filter_id by done.
  rewrite (replace_runs_none is_space) by (by apply slug_chars_not_space).
  apply replace_runs_id; [apply is_hyphen_eq | done | discriminate].
Qed.

(** ** The edge strip *)

Lemma drop_leading_hyphen_shape m :
  forallb slug_char m = true -> no_double is_hyphen m = true ->
  forallb slug_char (drop_leading_hyphen m) = true /\
  no_double is_hyphen (drop_leading_hyphen m) = true /\
  starts_with is_hyphen (drop_leading_hyphen m) = false.
Proof.
  destruct m as [|c m]; [done|]. cbn [drop_leading_hyphen].
  rewrite no_double_cons. cbn [forallb].
  intros [Hc Hm]%andb_prop [Hcm Hnd]%andb_prop.
  destruct (is_hyphen c) eqn:Hh; cbn [starts_with].
  - split_and!; [done|done|]. by destruct (starts_with is_hyphen m).
  - rewrite no_double_cons, Hh, Hnd. cbn [forallb]. by rewrite Hc, Hm.
Qed.

Lemma drop_trailing_hyphen_cases l :
  (ends_with is_hyphen l = false /\ drop_trailing_hyphen l = l) \/
  (l = drop_trailing_hyphen l ++ ["-"%char]).
Proof.
  unfold drop_trailing_hyphen, ends_with. destruct (rev l) as [|c r] eqn:E.
  - left. split; [done|]. by rewrite <- (rev_involutive l), E.
  - cbn [starts_with]. destruct (is_hyphen c) eqn:Hh; [right | by left].
    rewrite <- (rev_involutive l), E, (is_hyphen_eq c Hh). reflexivity.
Qed.

Lemma strip_edge_hyphens_shape m :
  forallb slug_char m = true -> no_double is_hyphen m = true ->
  let s := strip_edge_hyphens m in
  forallb slug_char s = true /\ no_double is_hyphen s = true /\
  starts_with is_hyphen s = false /\ ends_with is_hyphen s = false.
Proof.
  intros Hc Hnd s. unfold s, strip_edge_hyphens.
  destruct (drop_leading_hyphen_shape m Hc Hnd) as (Hc' & Hnd' & Hs').
  set (d := drop_leading_hyphen m) in *.
  destruct (drop_trailing_hyphen_cases d) as [[He ->] | Hd]; [done|].
  set (r := drop_trailing_hyphen d) in *. rewrite Hd in Hc', Hnd', Hs'.
  rewrite forallb_app in Hc'. rewrite no_double_app in Hnd'.
  apply andb_prop in Hc' as [Hr _]. apply andb_prop in Hnd' as [[Hr' _]%andb_prop Hend].
  split_and!; [done|done| |].
  - destruct r as [|c r]; [done|]. by rewrite starts_with_app in Hs'.
  - simpl in Hend. by destruct (ends_with is_hyphen r).
Qed.

(** ** Properties of slugs *)

Lemma list_ascii_of_generateSlug name :
  list_ascii_of_string (generateSlug name) = slug_chars (list_ascii_of_string name).
Proof. apply list_ascii_of_string_of_list_ascii. Qed.

(** The slug before truncation. *)
Definition untruncated (name : string) : list ascii :=
  strip_edge_hyphens (collapsed (list_ascii_of_string name)).

Lemma untruncated_shape name :
  let s := untruncated name in
  forallb slug_char s = true /\ no_double is_hyphen s = true /\
  starts_with is_hyphen s = false /\ ends_with is_hyphen s = false.
Proof.
  destruct (collapsed_shape (list_ascii_of_string name)).
  by apply strip_edge_hyphens_shape.
Qed.

Lemma generateSlug_untruncated name :
  list_ascii_of_string (generateSlug name) = take 40 (untruncated name).
Proof. apply list_ascii_of_generateSlug. Qed.

(** The shape of every slug (proof of [generateSlug_shape]). *)
Lemma slug_shape name :
  let l := list_ascii_of_string (generateSlug name) in
  forallb slug_char l = true /\ no_double is_hyphen l = true /\
  starts_with is_hyphen l = false /\ length l <= 40.
Proof.
  intros l. unfold l. rewrite generateSlug_untruncated.
  destruct (untruncated_shape name) as (Hc & Hnd & Hs & _).
  destruct (take_shape _ _ 40 _ Hc Hnd) as [Hc' Hnd'].
  split_and!; [done|done| |by rewrite length_take; lia].
  by destruct (untruncated name).
Qed.

(** A slug ends with a hyphen only when the truncation to 40
    characters cut it just after a hyphen: such a slug has exactly 40
    characters. *)
Theorem generateSlug_trailing_hyphen name :
  ends_with is_hyphen (list_ascii_of_string (generateSlug name)) = true ->
  length (list_ascii_of_string (generateSlug name)) = 40.
Proof.
  rewrite generateSlug_untruncated.
  destruct (untruncated_shape name) as (_ & _ & _ & He).
  destruct (Nat.le_gt_cases (length (untruncated name)) 40).
  - rewrite take_ge by done. by rewrite He.
  - intros _. rewrite length_take. lia.
Qed.

Lemma drop_leading_hyphen_id l :
  starts_with is_hyphen l = false -> drop_leading_hyphen l = l.
Proof. destruct l as [|c l]; [done|]. simpl. by intros ->. Qed.

(** The slug of a slug-shaped string, and of a string that is
    slug-shaped but for a trailing hyphen. *)
Lemma slug_chars_shaped l :
  forallb slug_char l = true -> no_double is_hyphen l = true ->
  starts_with is_hyphen l = false -> length l <= 40 ->
  slug_chars l = drop_trailing_hyphen l.
Proof.
  intros Hc Hnd Hs Hlen.
  rewrite slug_chars_collapsed, collapsed_id by done.
  unfold strip_edge_hyphens. rewrite drop_leading_hyphen_id by done.
  apply take_ge. destruct (drop_trailing_hyphen_cases l) as [[_ ->] | Hl]; [done|].
  rewrite Hl, length_app in Hlen. simpl in Hlen. lia.
Qed.

(** A slug-shaped string is its own slug (proof of [generateSlug_fixpoint]). *)
Lemma slug_fixpoint s :
  slug_shaped (list_ascii_of_string s) = true -> generateSlug s = s.
Proof.
  unfold slug_shaped. intros [[[[Hc Hnd]%andb_prop Hs]%andb_prop He]%andb_prop Hlen]%andb_prop.
  apply negb_true_iff in Hs, He. apply Nat.leb_le in Hlen.
  unfold generateSlug. rewrite slug_chars_shaped by done.
  destruct (drop_trailing_hyphen_cases (list_ascii_of_string s)) as [[_ ->] | Hl].
  - apply string_of_list_ascii_of_string.
  - rewrite Hl, ends_with_snoc in He. discriminate.
Qed.

(** Every slug is made of [a-z0-9-], has no doubled hyphen, does not
    start with a hyphen and has at most 40 characters. *)
Theorem generateSlug_shape name :
  let l := list_ascii_of_string (generateSlug name) in
  forallb slug_char l = true /\ no_double is_hyphen l = true /\
  starts_with is_hyphen l = false /\ length l <= 40.
Proof. exact (slug_shape name). Qed.

(** A slug-shaped string is its own slug. *)
Theorem generateSlug_fixpoint s :
  slug_shaped (list_ascii_of_string s) = true -> generateSlug s = s.
Proof. exact (slug_fixpoint s). Qed.

(** Applying [generateSlug] to a slug gives the slug back exactly
    when the slug does not end with a hyphen. *)
Theorem generateSlug_idempotent_iff name :
  generateSlug (generateSlug name) = generateSlug name <->
  ends_with is_hyphen (list_ascii_of_string (generateSlug name)) = false.
Proof.
  destruct (slug_shape name) as (Hc & Hnd & Hs & Hlen).
  set (l := list_ascii_of_string (generateSlug name)) in *.
  split.
  - intros Heq. apply (f_equal list_ascii_of_string) in Heq.
    rewrite list_ascii_of_generateSlug in Heq. fold l in Heq.
    rewrite slug_chars_shaped in Heq by done.
    destruct (drop_trailing_hyphen_cases l) as [[He _] | Hl]; [done|].
    rewrite Heq in Hl. apply (f_equal length) in Hl.
    rewrite length_app in Hl. simpl in Hl. lia.
  - intros He. apply slug_fixpoint. unfold slug_shaped. fold l.
    rewrite Hc, Hnd, Hs, He. simpl. by apply Nat.leb_le.
Qed.

(** The 41-character name of 39 letters, a space and a letter passes
    the schema, but its slug ends with a hyphen (the strip of edge
    hyphens runs before the truncation), and the slug of that slug drops
    the hyphen: [generateSlug] is not idempotent. *)
Theorem generateSlug_not_idempotent :
  let name := "aaaaaaaaaaaaaaaaaaaaaaaaaaaaaaaaaaaaaaa b"%string in
  valid_store_name name = true /\
  generateSlug name = "aaaaaaaaaaaaaaaaaaaaaaaaaaaaaaaaaaaaaaa-"%string /\
  generateSlug (generateSlug name) <> generateSlug name.
Proof. vm_compute. split_and!; [done|done|discriminate]. Qed.

Lemma generateSlug_trailing_hyphen_witness :
  let name := "aaaaaaaaaaaaaaaaaaaaaaaaaaaaaaaaaaaaaaa b"%string in
  ends_with is_hyphen (list_ascii_of_string (generateSlug name)) = true /\
  length (list_ascii_of_string (generateSlug name)) = 40.
Proof.
  intros name. split; [vm_compute; reflexivity|].
  apply generateSlug_trailing_hyphen. vm_compute. reflexivity.
Defined.

Lemma generateSlug_fixpoint_witness :
  slug_shaped (list_ascii_of_string "my-cool-store") = true /\
  generateSlug "my-cool-store" = "my-cool-store"%string.
Proof.
  split; [vm_compute; reflexivity|].
  apply generateSlug_fixpoint. vm_compute. reflexivity.
Defined.

Lemma generateNamespace_inj s1 s2 :
  generateNamespace s1 = generateNamespace s2 -> s1 = s2.
Proof. unfold generateNamespace. simpl. intros H. by inversion H. Qed.

End NameGenerator.
