(* ===== verification/Model.v ===== *)
(** * Model: the data of the platform

    The [Store] and [ProvisioningEvent] interfaces and their status
    enumerations ([types/store.ts]), the audit entry of
    [db/repositories/auditRepository.ts], the configuration constants of
    [config.ts] that the core reads, and the JavaScript error values the
    core throws and catches, with the exact text of their [message].

    Error values are a tagged union with one constructor per place that
    creates them; [statusCode] is [err?.response?.statusCode], defined only
    for the errors of the Kubernetes client, and [message] renders the
    template literal of the [new Error(...)] that creates each one. *)

From S2P Require Import Prelude.
Local Open Scope string_scope.

Module Types.

(** [StoreStatus] and [StorePlan]: the [CHECK] constraints of the [stores]
    table ([db/migrate.ts]) admit exactly these values. *)
Inductive StoreStatus := Provisioning | Ready | Failed | Deleting.
Inductive StorePlan := woocommerce | medusa.
Inductive EventStatus := started | completed | failed.

#[export] Instance StoreStatus_eq_dec : EqDecision StoreStatus.
Proof. solve_decision. Defined.
#[export] Instance StorePlan_eq_dec : EqDecision StorePlan.
Proof. solve_decision. Defined.
#[export] Instance EventStatus_eq_dec : EqDecision EventStatus.
Proof. solve_decision. Defined.

Definition plan_name (p : StorePlan) : string :=
  match p with woocommerce => "woocommerce" | medusa => "medusa" end.

(** Timestamps are the seconds of SQLite's [datetime('now')]. *)
Definition timestamp := Z.

End Types.
Export Types.

Module Store.
Record t := mk {
  id : string;
  name : string;
  slug : string;
  namespace : string;
  status : StoreStatus;
  plan : StorePlan;
  url : option string;
  adminUrl : option string;
  adminEmail : string;
  adminPassword : option string;
  errorMessage : option string;
  createdAt : timestamp;
  provisionedAt : option timestamp
}.
End Store.

#[export] Instance Store_eq_dec : EqDecision Store.t.
Proof. solve_decision. Defined.

Module ProvisioningEvent.
Record t := mk {
  id : string;
  storeId : string;
  step : string;
  status : EventStatus;
  message : string;
  createdAt : timestamp
}.
End ProvisioningEvent.

Module AuditEntry.
Record t := mk {
  id : string;
  action : string;
  resourceType : string;
  resourceId : option string;
  resourceName : option string;
  details : option string;
  ipAddress : option string;
  createdAt : timestamp
}.
End AuditEntry.

(** ** Configuration ([config.ts]) *)
Module Config.
Record t := mk {
  storeDomain : string;
  externalPort : string;
  provisioningConcurrency : nat;
  woocommerceInitTimeout : Z;
  maxStores : nat;
  ingressClass : string;
  mysqlImage : string;
  wordpressImage : string;
  imagePullPolicy : string;
  mysqlStorageSize : string;
  wordpressStorageSize : string;
  storageClass : string
}.

(** The values [config.ts] takes when no environment variable is set. *)
Definition default : t := {|
  storeDomain := "store.127.0.0.1.nip.io";
  externalPort := "";
  provisioningConcurrency := 3;
  woocommerceInitTimeout := 300;
  maxStores := 10;
  ingressClass := "nginx";
  mysqlImage := "mysql:8.0";
  wordpressImage := "wordpress-store:latest";
  imagePullPolicy := "IfNotPresent";
  mysqlStorageSize := "1Gi";
  wordpressStorageSize := "1Gi";
  storageClass := EmptyString
|}.
End Config.

(** ** Error values *)
Module Errors.

Inductive Error :=
(** an error of [@kubernetes/client-node]: an HTTP error carries
    [response.statusCode]; a transport error has no response *)
| HttpError (statusCode : option Z) (message : string)
(** an SQLite constraint violation raised by [better-sqlite3] *)
| SqliteError (message : string)
(** [waitForDeploymentReady] *)
| DeploymentTimeout (name namespace : string) (seconds : Z)
(** [waitForJobComplete] *)
| JobFailed (name : string)
| JobTimeout (name namespace : string) (seconds : Z)
(** [waitForNamespaceDeletion] *)
| NamespaceDeletionTimeout (namespace : string) (seconds : Z)
(** [cleanupStore] *)
| StoreNotFound (storeId : string)
(** [getProvisioner] *)
| UnknownPlan (plan : string)
(** [MedusaProvisioner.provision] *)
| MedusaNotImplemented.

(** [err?.response?.statusCode] *)
Definition statusCode (e : Error) : option Z :=
  match e with
  | HttpError c _ => c
  | _ => None
  end.

Definition available_plans : string := "woocommerce, medusa".

(** [err.message] *)
Definition message (e : Error) : string :=
  match e with
  | HttpError _ m => m
  | SqliteError m => m
  | DeploymentTimeout name ns secs =>
      "Deployment " ++ name ++ " in " ++ ns ++ " not ready after " ++ string_of_Z secs ++ "s"
  | JobFailed name => "Job " ++ name ++ " failed after 3 attempts"
  | JobTimeout name ns secs =>
      "Job " ++ name ++ " in " ++ ns ++ " not completed after " ++ string_of_Z secs ++ "s"
  | NamespaceDeletionTimeout ns secs =>
      "Namespace " ++ ns ++ " deletion timed out after " ++ string_of_Z secs ++ "s"
  | StoreNotFound id => "Store " ++ id ++ " not found"
  | UnknownPlan plan => "Unknown store plan: " ++ plan ++ ". Available: " ++ available_plans
  | MedusaNotImplemented => "MedusaJS provisioning is not yet implemented."
  end.

(** A create call whose error is [409 Conflict] is an idempotent success. *)
Definition is_conflict (e : Error) : bool :=
  match statusCode e with Some 409%Z => true | _ => false end.

Definition is_not_found (e : Error) : bool :=
  match statusCode e with Some 404%Z => true | _ => false end.

(** The message of [JobFailed] is recognised by the [catch] of
    [waitForJobComplete], which looks for ["failed after"] in it. *)
Lemma JobFailed_includes name : includes (message (JobFailed name)) "failed after" = true.
Proof.
  replace (message (JobFailed name)) with (("Job " ++ name ++ " ") ++ "failed after" ++ " 3 attempts")
    by (rewrite !string_app_assoc; reflexivity).
  by apply includes_app_mid.
Qed.

End Errors.
Export Errors.
