(* ===== verification/Migrate.v ===== *)
(** * Migrate: the migration runner of [db/migrate.ts]

    [runMigrations] creates the [_migrations] table, reads the names it
    holds once, then runs, in order, every migration whose name is not
    among them: it logs ["Running migration: <name>"], executes the SQL
    and records the name.  The SQL of the three migrations is a list of
    [CREATE TABLE IF NOT EXISTS] and [CREATE INDEX IF NOT EXISTS]
    statements, modelled as [Stmt]s over the set of schema objects; the
    columns and constraints those tables declare are the [Repository]
    model.  Inserting a name that is already recorded fails, as the
    [PRIMARY KEY] of [_migrations] makes the [INSERT] throw.

    The theorems: a run never fails, runs exactly the migrations not yet
    recorded, in order, logging one line for each, creates their tables
    and indexes and records their names; a second run does nothing but
    log the completion line. *)

From S2P Require Import Prelude.
Local Open Scope string_scope.

Module Migrate.

(** The statements of the migrations' SQL. *)
Inductive Stmt := CreateTable (name : string) | CreateIndex (name table : string).

Record Migration := mkMigration { mig_name : string; mig_sql : list Stmt }.

Definition migrations : list Migration := [
  mkMigration "001_create_stores"
    [CreateTable "stores"; CreateIndex "idx_stores_status" "stores";
     CreateIndex "idx_stores_slug" "stores"];
  mkMigration "002_create_events"
    [CreateTable "provisioning_events"; CreateIndex "idx_events_store_id" "provisioning_events";
     CreateIndex "idx_events_created_at" "provisioning_events"];
  mkMigration "003_create_audit_log"
    [CreateTable "audit_log"; CreateIndex "idx_audit_action" "audit_log";
     CreateIndex "idx_audit_created_at" "audit_log"]].

(** What the runner reads and writes: the names of the schema objects
    and the rows of [_migrations], in insertion order. *)
Record Schema := mkSchema { objects : list string; applied_rows : list string }.

Definition object_name (s : Stmt) : string :=
  match s with CreateTable n => n | CreateIndex n _ => n end.

(** [CREATE ... IF NOT EXISTS]: nothing when the name is taken. *)
Definition exec_stmt (d : Schema) (s : Stmt) : Schema :=
  if bool_decide (object_name s ∈ objects d) then d
  else mkSchema (objects d ++ [object_name s])%list (applied_rows d).

(** [db.exec(sql)] *)
Definition exec (sql : list Stmt) (d : Schema) : Schema := fold_left exec_stmt sql d.

(** [INSERT INTO _migrations (name) VALUES (?)]: the [PRIMARY KEY]
    refuses a recorded name. *)
Definition insert_applied (n : string) (d : Schema) : option Schema :=
  if bool_decide (n ∈ applied_rows d) then None
  else Some (mkSchema (objects d) (applied_rows d ++ [n])%list).

Definition run_log (m : Migration) : string := "Running migration: " ++ mig_name m.

(** The [for] loop over [migrations], with the set [applied] read
    before it; the lines logged come with the outcome, an error being
    the exception the [INSERT] throws. *)
Fixpoint run_loop (applied : list string) (ms : list Migration) (d : Schema)
    : list string * outcome string Schema :=
  match ms with
  | [] => ([], Ok d)
  | m :: ms' =>
      if bool_decide (mig_name m ∈ applied) then run_loop applied ms' d
      else match insert_applied (mig_name m) (exec (mig_sql m) d) with
           | None => ([run_log m], Err "UNIQUE constraint failed: _migrations.name")
           | Some d' => let '(logs, r) := run_loop applied ms' d' in (run_log m :: logs, r)
           end
  end.

(** [runMigrations()] *)
Definition runMigrations (d : Schema) : list string * outcome string Schema :=
  let d1 := exec [CreateTable "_migrations"] d in
  let '(logs, r) := run_loop (applied_rows d1) migrations d1 in
  match r with
  | Ok d' => ((logs ++ ["Database migrations complete."])%list, Ok d')
  | Err e => (logs, Err e)
  end.

(** The migrations not recorded in [applied], in order. *)
Definition pending (applied : list string) (ms : list Migration) : list Migration :=
  List.filter (fun m => negb (bool_decide (mig_name m ∈ applied))) ms.

(** ** Theory *)

Lemma exec_rows sql d : applied_rows (exec sql d) = applied_rows d.
Proof.
  revert d. induction sql as [|s sql IH]; intros d; [done|]. cbn. rewrite IH.
  unfold exec_stmt. by case_bool_decide.
Qed.

Lemma exec_objects sql d :
  objects d ⊆ objects (exec sql d) /\ (forall s, s ∈ sql -> object_name s ∈ objects (exec sql d)).
Proof.
  revert d. induction sql as [|s sql IH]; intros d; [split; [done|set_solver]|].
  cbn. destruct (IH (exec_stmt d s)) as [Hsub Hin].
  assert (Hs : objects d ⊆ objects (exec_stmt d s) /\ object_name s ∈ objects (exec_stmt d s)).
  { unfold exec_stmt. case_bool_decide; cbn; set_solver. }
  split; [set_solver|]. intros s' [->|Hs']%elem_of_cons; set_solver.
Qed.

(** Recorded names are skipped; the others run, are recorded and logged. *)
Lemma run_loop_spec applied ms d :
  NoDup (map mig_name ms) ->
  (forall m, m ∈ ms -> mig_name m ∉ applied -> mig_name m ∉ applied_rows d) ->
  exists d', run_loop applied ms d = (map run_log (pending applied ms), Ok d') /\
    applied_rows d' = (applied_rows d ++ map mig_name (pending applied ms))%list /\
    objects d ⊆ objects d' /\
    (forall m s, m ∈ pending applied ms -> s ∈ mig_sql m -> object_name s ∈ objects d').
Proof.
  revert d. induction ms as [|m ms IH]; intros d Hnd Hfresh.
  { exists d. rewrite app_nil_r. cbn. split_and!; [done|done|done|set_solver]. }
  cbn in Hnd. apply NoDup_cons in Hnd as [Hm Hnd]. cbn. unfold pending; cbn.
  case_bool_decide as Happ; cbn.
  { apply IH; [done|]. intros m' Hm'. apply Hfresh. set_solver. }
  unfold insert_applied. rewrite exec_rows, bool_decide_false
    by (apply Hfresh; set_solver).
  destruct (exec_objects (mig_sql m) d) as [Hsub Hin].
  set (d1 := mkSchema (objects (exec (mig_sql m) d)) (applied_rows d ++ [mig_name m])%list).
  assert (Hfresh1 : forall m', m' ∈ ms -> mig_name m' ∉ applied -> mig_name m' ∉ applied_rows d1).
  { intros m' Hm' Hna. cbn. rewrite elem_of_app, list_elem_of_singleton.
    intros [Hr|Heq]; [exact (Hfresh m' ltac:(set_solver) Hna Hr)|].
    apply Hm, list_elem_of_In, in_map_iff. exists m'. split; [done|]. by apply list_elem_of_In. }
  destruct (IH d1 Hnd Hfresh1) as (d' & Hrun & Hrows & Hobj & Hnew).
  exists d'. fold (pending applied ms). rewrite Hrun. split_and!; [done| |set_solver|].
  - rewrite Hrows. cbn. by rewrite <- app_assoc.
  - intros m' s' [->|Hm']%elem_of_cons; [|by apply Hnew]. set_solver.
Qed.

Lemma run_loop_applied applied ms d :
  (forall m, m ∈ ms -> mig_name m ∈ applied) -> run_loop applied ms d = ([], Ok d).
Proof.
  induction ms as [|m ms IH]; intros Hall; [done|]. cbn.
  rewrite bool_decide_true by (apply Hall; set_solver). apply IH. set_solver.
Qed.

Lemma exec_existing n d : n ∈ objects d -> exec [CreateTable n] d = d.
Proof. intros H. cbn. unfold exec_stmt. by rewrite bool_decide_true. Qed.

Lemma migrations_names_nodup : NoDup (map mig_name migrations).
Proof. apply (bool_decide_unpack _). vm_compute. reflexivity. Qed.

Lemma pending_applied applied ms m :
  m ∈ ms -> mig_name m ∈ (applied ++ map mig_name (pending applied ms))%list.
Proof.
  intros Hm. rewrite elem_of_app. destruct (decide (mig_name m ∈ applied)) as [|Hna]; [by left|right].
  apply list_elem_of_In, in_map_iff. exists m. split; [done|].
  apply filter_In. split; [by apply list_elem_of_In|]. by rewrite bool_decide_false.
Qed.

(** ** Claims *)

(** C36: [runMigrations] never fails; it runs the migrations not yet
    recorded, in order, logging one line for each and then the
    completion line, records their names after the ones there were,
    keeps every schema object, creates [_migrations] and each object of
    the migrations it ran; and a second run only logs the completion
    line and changes nothing. *)
Theorem runMigrations_spec d :
  exists d',
    runMigrations d = ((map run_log (pending (applied_rows d) migrations) ++
                        ["Database migrations complete."])%list, Ok d') /\
    applied_rows d' = (applied_rows d ++ map mig_name (pending (applied_rows d) migrations))%list /\
    objects d ⊆ objects d' /\ "_migrations" ∈ objects d' /\
    (forall m s, m ∈ pending (applied_rows d) migrations -> s ∈ mig_sql m -> object_name s ∈ objects d') /\
    runMigrations d' = (["Database migrations complete."], Ok d').
Proof.
  unfold runMigrations at 1.
  destruct (exec_objects [CreateTable "_migrations"] d) as [S1 I1].
  pose proof (exec_rows [CreateTable "_migrations"] d) as R1.
  destruct (run_loop_spec (applied_rows (exec [CreateTable "_migrations"] d)) migrations
              (exec [CreateTable "_migrations"] d) migrations_names_nodup)
    as (d' & Hrun & Hrows & Hobj & Hnew); [by intros m _ Hna|].
  rewrite R1 in Hrun, Hrows, Hnew. rewrite R1, Hrun.
  assert (Hm : "_migrations" ∈ objects d') by (apply Hobj, (I1 (CreateTable "_migrations")); set_solver).
  exists d'. split_and!; [done|done|set_solver|done|done|].
  unfold runMigrations. rewrite exec_existing by done.
  rewrite run_loop_applied; [done|]. intros m Hin. rewrite Hrows. by apply pending_applied.
Qed.

End Migrate.
