(* ===== verification/Repository.v ===== *)
(** * Repository: the durable state ([db/repositories/*.ts], [db/migrate.ts])

    The SQLite database is a record [Db]: the [stores] table as a finite
    map from the primary key [id] to the row, the [provisioning_events]
    and [audit_log] tables as lists in insertion order, and the seed of the
    identifier supply that stands for [uuidv4()].  Every exported function
    of the three repositories is one definition over [Db]; [createStore]
    fails as the [INSERT] does when a [UNIQUE] column is taken.

    [db_wf] is the invariant the schema maintains: rows are stored under
    their own [id], slugs and namespaces are unique, and every identifier
    in use was issued by the supply, so fresh ones never collide.  The
    theorems show that every write preserves it, what [createStore] does on
    each branch, and that the event log is append-only per store and that
    purging one store's events leaves the others' untouched.

    Not modelled: the ordering of [getAllStores] (a [gmap] is returned),
    and foreign-key enforcement, which depends on a pragma set in
    [db/connection.ts], a file that is not part of the sources; events are
    inserted whether or not their store exists. *)

From S2P Require Import Prelude Model.
Local Open Scope string_scope.

Module Repository.

Record Db := mkDb {
  stores : gmap string Store.t;
  events : list ProvisioningEvent.t;
  audit_log : list AuditEntry.t;
  uuid_seed : nat
}.

(** [uuidv4()]: the [n]-th identifier of the supply. *)
Definition uuid_of (n : nat) : string := string_of_nat n.

Definition next_uuid (db : Db) : string * Db :=
  (uuid_of (uuid_seed db),
   mkDb (stores db) (events db) (audit_log db) (S (uuid_seed db))).

Definition with_stores (f : gmap string Store.t -> gmap string Store.t) (db : Db) : Db :=
  mkDb (f (stores db)) (events db) (audit_log db) (uuid_seed db).

Definition with_events (f : list ProvisioningEvent.t -> list ProvisioningEvent.t) (db : Db) : Db :=
  mkDb (stores db) (f (events db)) (audit_log db) (uuid_seed db).

Definition with_audit (f : list AuditEntry.t -> list AuditEntry.t) (db : Db) : Db :=
  mkDb (stores db) (events db) (f (audit_log db)) (uuid_seed db).

(** ** [storeRepository] *)

Definition slug_taken (slug : string) (db : Db) : bool :=
  bool_decide (map_Exists (fun _ s => Store.slug s = slug) (stores db)).

Definition namespace_taken (ns : string) (db : Db) : bool :=
  bool_decide (map_Exists (fun _ s => Store.namespace s = ns) (stores db)).

Definition new_store (id name slug namespace adminEmail : string) (plan : StorePlan)
    (now : timestamp) : Store.t :=
  {| Store.id := id; Store.name := name; Store.slug := slug;
     Store.namespace := namespace; Store.status := Provisioning; Store.plan := plan;
     Store.url := None; Store.adminUrl := None; Store.adminEmail := adminEmail;
     Store.adminPassword := None; Store.errorMessage := None;
     Store.createdAt := now; Store.provisionedAt := None |}.

(** [INSERT INTO stores ... VALUES (?, ?, ?, ?, ?, ?, 'Provisioning')], then
    [getStoreById(id)!]. *)
Definition createStore (name slug namespace adminEmail : string) (plan : StorePlan)
    (now : timestamp) (db : Db) : outcome Error Store.t * Db :=
  let '(id, db1) := next_uuid db in
  if bool_decide (is_Some (stores db1 !! id)) then
    (Err (SqliteError "UNIQUE constraint failed: stores.id"), db1)
  else if slug_taken slug db1 then
    (Err (SqliteError "UNIQUE constraint failed: stores.slug"), db1)
  else if namespace_taken namespace db1 then
    (Err (SqliteError "UNIQUE constraint failed: stores.namespace"), db1)
  else
    let s := new_store id name slug namespace adminEmail plan now in
    (Ok s, with_stores (insert id s) db1).

(** [SELECT * FROM stores WHERE status != 'Deleting']; the order of the
    rows is not modelled. *)
Definition getAllStores (db : Db) : gmap string Store.t :=
  filter (fun '(_, s) => Store.status s <> Deleting) (stores db).

Definition getStoreById (id : string) (db : Db) : option Store.t := stores db !! id.

(** [SELECT * FROM stores WHERE slug = ?] and [.get()]: the first row. *)
Definition getStoreBySlug (slug : string) (db : Db) : option Store.t :=
  snd <$> List.find (fun '(_, s) => bool_decide (Store.slug s = slug))
                    (map_to_list (stores db)).

(** JavaScript's [if (errorMessage)]: an absent or empty message is falsy. *)
Definition truthy (m : option string) : option string :=
  match m with
  | Some s => if bool_decide (s = "") then None else Some s
  | None => None
  end.

Definition set_status (status : StoreStatus) (em : option string) (s : Store.t) : Store.t :=
  {| Store.id := Store.id s; Store.name := Store.name s; Store.slug := Store.slug s;
     Store.namespace := Store.namespace s; Store.status := status; Store.plan := Store.plan s;
     Store.url := Store.url s; Store.adminUrl := Store.adminUrl s;
     Store.adminEmail := Store.adminEmail s; Store.adminPassword := Store.adminPassword s;
     Store.errorMessage := match em with Some m => Some m | None => Store.errorMessage s end;
     Store.createdAt := Store.createdAt s; Store.provisionedAt := Store.provisionedAt s |}.

(** [UPDATE stores SET status = ?[, error_message = ?] WHERE id = ?] *)
Definition updateStoreStatus (id : string) (status : StoreStatus) (errorMessage : option string)
    (db : Db) : Db :=
  with_stores (alter (set_status status (truthy errorMessage)) id) db.

Definition set_ready (url adminUrl adminPassword : string) (now : timestamp) (s : Store.t) : Store.t :=
  {| Store.id := Store.id s; Store.name := Store.name s; Store.slug := Store.slug s;
     Store.namespace := Store.namespace s; Store.status := Ready; Store.plan := Store.plan s;
     Store.url := Some url; Store.adminUrl := Some adminUrl;
     Store.adminEmail := Store.adminEmail s; Store.adminPassword := Some adminPassword;
     Store.errorMessage := Store.errorMessage s;
     Store.createdAt := Store.createdAt s; Store.provisionedAt := Some now |}.

Definition updateStoreReady (id url adminUrl adminPassword : string) (now : timestamp)
    (db : Db) : Db :=
  with_stores (alter (set_ready url adminUrl adminPassword now) id) db.

Definition deleteStore (id : string) (db : Db) : Db := with_stores (delete id) db.

(** The row count of [SELECT COUNT ... WHERE status NOT IN ('Deleting')]. *)
Definition getStoreCount (db : Db) : nat := size (getAllStores db).

Definition set_password (password : string) (s : Store.t) : Store.t :=
  {| Store.id := Store.id s; Store.name := Store.name s; Store.slug := Store.slug s;
     Store.namespace := Store.namespace s; Store.status := Store.status s;
     Store.plan := Store.plan s; Store.url := Store.url s; Store.adminUrl := Store.adminUrl s;
     Store.adminEmail := Store.adminEmail s; Store.adminPassword := Some password;
     Store.errorMessage := Store.errorMessage s;
     Store.createdAt := Store.createdAt s; Store.provisionedAt := Store.provisionedAt s |}.

Definition updateAdminPassword (id password : string) (db : Db) : Db :=
  with_stores (alter (set_password password) id) db.

(** ** [eventRepository] *)

Definition logEvent (storeId step : string) (status : EventStatus) (message : string)
    (now : timestamp) (db : Db) : ProvisioningEvent.t * Db :=
  let '(id, db1) := next_uuid db in
  let ev := {| ProvisioningEvent.id := id; ProvisioningEvent.storeId := storeId;
               ProvisioningEvent.step := step; ProvisioningEvent.status := status;
               ProvisioningEvent.message := message; ProvisioningEvent.createdAt := now |} in
  (ev, with_events (fun es => (es ++ [ev])%list) db1).

(** [SELECT * FROM provisioning_events WHERE store_id = ? ORDER BY
    created_at ASC]: the clock never goes back, so the rows come in
    insertion order. *)
Definition getEventsByStoreId (storeId : string) (db : Db) : list ProvisioningEvent.t :=
  List.filter (fun e => bool_decide (ProvisioningEvent.storeId e = storeId)) (events db).

Definition deleteEventsByStoreId (storeId : string) (db : Db) : Db :=
  with_events (List.filter (fun e => bool_decide (ProvisioningEvent.storeId e <> storeId))) db.

(** ** [auditRepository] *)

Definition logAudit (action resourceType : string) (resourceId resourceName details ipAddress : option string)
    (now : timestamp) (db : Db) : Db :=
  let '(id, db1) := next_uuid db in
  with_audit (fun a => app a [{| AuditEntry.id := id; AuditEntry.action := action;
                               AuditEntry.resourceType := resourceType;
                               AuditEntry.resourceId := resourceId;
                               AuditEntry.resourceName := resourceName;
                               AuditEntry.details := details; AuditEntry.ipAddress := ipAddress;
                               AuditEntry.createdAt := now |}]) db1.

(** [ORDER BY created_at DESC LIMIT ?]: SQLite reads a negative limit as
    no limit. *)
Definition getAuditLog (limit : Z) (db : Db) : list AuditEntry.t :=
  if bool_decide (limit < 0)%Z then rev (audit_log db)
  else take (Z.to_nat limit) (rev (audit_log db)).

(** ** Every write, as one type *)

Inductive Write :=
| WCreateStore (name slug namespace adminEmail : string) (plan : StorePlan) (now : timestamp)
| WUpdateStoreStatus (id : string) (status : StoreStatus) (errorMessage : option string)
| WUpdateStoreReady (id url adminUrl adminPassword : string) (now : timestamp)
| WDeleteStore (id : string)
| WUpdateAdminPassword (id password : string)
| WLogEvent (storeId step : string) (status : EventStatus) (message : string) (now : timestamp)
| WDeleteEventsByStoreId (storeId : string)
| WLogAudit (action resourceType : string) (resourceId resourceName details ipAddress : option string)
    (now : timestamp).

Definition apply_write (w : Write) (db : Db) : Db :=
  match w with
  | WCreateStore name slug ns email plan now => snd (createStore name slug ns email plan now db)
  | WUpdateStoreStatus id st em => updateStoreStatus id st em db
  | WUpdateStoreReady id url aurl pw now => updateStoreReady id url aurl pw now db
  | WDeleteStore id => deleteStore id db
  | WUpdateAdminPassword id pw => updateAdminPassword id pw db
  | WLogEvent sid step st msg now => snd (logEvent sid step st msg now db)
  | WDeleteEventsByStoreId sid => deleteEventsByStoreId sid db
  | WLogAudit a rt rid rn d ip now => logAudit a rt rid rn d ip now db
  end.

(** ** The schema invariant *)

Definition same_identity (s s' : Store.t) : Prop :=
  Store.id s' = Store.id s /\ Store.slug s' = Store.slug s /\
  Store.namespace s' = Store.namespace s.

Record db_wf (db : Db) : Prop := {
  wf_keys : map_Forall (fun k s => Store.id s = k) (stores db);
  wf_slug : forall k1 k2 s1 s2, stores db !! k1 = Some s1 -> stores db !! k2 = Some s2 ->
            Store.slug s1 = Store.slug s2 -> k1 = k2;
  wf_namespace : forall k1 k2 s1 s2, stores db !! k1 = Some s1 -> stores db !! k2 = Some s2 ->
            Store.namespace s1 = Store.namespace s2 -> k1 = k2;
  wf_issued : forall k, is_Some (stores db !! k) -> exists j, j < uuid_seed db /\ k = uuid_of j
}.

Lemma uuid_fresh db : db_wf db -> stores db !! uuid_of (uuid_seed db) = None.
Proof.
  intros Hwf. destruct (stores db !! _) eqn:E; [|done].
  destruct (wf_issued db Hwf _ ltac:(by eexists)) as (j & Hj & Heq).
  apply string_of_nat_inj in Heq. lia.
Qed.

(** A write that keeps or removes rows, without changing their identity
    columns, and does not go back in the identifier supply, keeps the
    invariant. *)
Lemma db_wf_shrink db db' :
  db_wf db -> uuid_seed db <= uuid_seed db' ->
  (forall k s', stores db' !! k = Some s' ->
     exists s, stores db !! k = Some s /\ same_identity s s') ->
  db_wf db'.
Proof.
  intros Hwf Hseed Hrows. constructor.
  - intros k s' (s & Hs & Hid & _)%Hrows. rewrite Hid. by apply (wf_keys db Hwf).
  - intros k1 k2 s1' s2' (s1 & H1 & _ & Hsl1 & _)%Hrows (s2 & H2 & _ & Hsl2 & _)%Hrows Heq.
    apply (wf_slug db Hwf k1 k2 s1 s2); congruence.
  - intros k1 k2 s1' s2' (s1 & H1 & _ & _ & Hn1)%Hrows (s2 & H2 & _ & _ & Hn2)%Hrows Heq.
    apply (wf_namespace db Hwf k1 k2 s1 s2); congruence.
  - intros k [s' (s & Hs & _)%Hrows].
    destruct (wf_issued db Hwf k ltac:(by eexists)) as (j & ? & ?).
    exists j. split; [lia|done].
Qed.

Lemma same_identity_refl s : same_identity s s.
Proof. done. Qed.

Lemma alter_rows (f : Store.t -> Store.t) id (m : gmap string Store.t) :
  (forall s, same_identity s (f s)) ->
  forall k s', alter f id m !! k = Some s' -> exists s, m !! k = Some s /\ same_identity s s'.
Proof.
  intros Hf k s' [(<- & s & Hs & ->) | (_ & Hs)]%lookup_alter_Some; eexists; split; eauto.
  done.
Qed.

Lemma delete_rows id (m : gmap string Store.t) :
  forall k s', delete id m !! k = Some s' -> exists s, m !! k = Some s /\ same_identity s s'.
Proof. intros k s' [_ Hs]%lookup_delete_Some. eauto using same_identity_refl. Qed.

Lemma set_status_identity st em s : same_identity s (set_status st em s).
Proof. done. Qed.
Lemma set_ready_identity url aurl pw now s : same_identity s (set_ready url aurl pw now s).
Proof. done. Qed.
Lemma set_password_identity pw s : same_identity s (set_password pw s).
Proof. done. Qed.

(** A column that is unique stays unique when a row with a value not yet
    in the column is inserted. *)
Lemma unique_insert (proj : Store.t -> string) (m : gmap string Store.t) id s :
  (forall k1 k2 s1 s2, m !! k1 = Some s1 -> m !! k2 = Some s2 -> proj s1 = proj s2 -> k1 = k2) ->
  ~ map_Exists (fun _ s' => proj s' = proj s) m ->
  forall k1 k2 s1 s2, <[id:=s]> m !! k1 = Some s1 -> <[id:=s]> m !! k2 = Some s2 ->
  proj s1 = proj s2 -> k1 = k2.
Proof.
  intros Hu Hfree k1 k2 s1 s2. rewrite !lookup_insert_Some.
  intros [[<- <-]|[? H1]] [[<- <-]|[? H2]] Heq; try done.
  - exfalso. apply Hfree. by exists k2, s2.
  - exfalso. apply Hfree. by exists k1, s1.
  - by eapply Hu.
Qed.

Lemma db_wf_insert db s ev au :
  db_wf db -> Store.id s = uuid_of (uuid_seed db) ->
  ~ map_Exists (fun _ s' => Store.slug s' = Store.slug s) (stores db) ->
  ~ map_Exists (fun _ s' => Store.namespace s' = Store.namespace s) (stores db) ->
  db_wf (mkDb (<[Store.id s:=s]> (stores db)) ev au (S (uuid_seed db))).
Proof.
  intros Hwf Hid Hsl Hns. constructor; cbn [stores uuid_seed].
  - apply map_Forall_insert_2; [done|]. apply (wf_keys db Hwf).
  - apply unique_insert; [apply (wf_slug db Hwf)|done].
  - apply unique_insert; [apply (wf_namespace db Hwf)|done].
  - intros k [<-|[_ Hk]]%lookup_insert_is_Some.
    + exists (uuid_seed db). split; [lia|done].
    + destruct (wf_issued db Hwf k Hk) as (j & ? & ?). exists j. split; [lia|done].
Qed.

Lemma createStore_wf name slug ns email plan now db :
  db_wf db -> db_wf (snd (createStore name slug ns email plan now db)).
Proof.
  intros Hwf. unfold createStore, next_uuid. cbn [stores uuid_seed].
  rewrite (uuid_fresh db Hwf). simpl.
  unfold slug_taken, namespace_taken. cbn [stores].
  case_bool_decide as Hsl; [|case_bool_decide as Hns]; cbn [snd].
  - eapply db_wf_shrink; [done|simpl; lia|]. cbn [stores]. eauto using same_identity_refl.
  - eapply db_wf_shrink; [done|simpl; lia|]. cbn [stores]. eauto using same_identity_refl.
  - unfold with_stores. cbn [stores events audit_log uuid_seed].
    by apply (db_wf_insert db (new_store _ name slug ns email plan now)).
Qed.

(** Every write keeps the schema invariant (proof of [apply_write_wf]). *)
Lemma write_wf w db : db_wf db -> db_wf (apply_write w db).
Proof.
  intros Hwf. destruct w; cbn [apply_write].
  - by apply createStore_wf.
  - eapply db_wf_shrink; [done|done|]. apply alter_rows, set_status_identity.
  - eapply db_wf_shrink; [done|done|]. apply alter_rows, set_ready_identity.
  - eapply db_wf_shrink; [done|done|]. apply delete_rows.
  - eapply db_wf_shrink; [done|done|]. apply alter_rows, set_password_identity.
  - eapply db_wf_shrink; [done|simpl; lia|]. simpl. eauto using same_identity_refl.
  - eapply db_wf_shrink; [done|done|]. simpl. eauto using same_identity_refl.
  - eapply db_wf_shrink; [done|simpl; lia|]. simpl. eauto using same_identity_refl.
Qed.

Definition empty_db : Db := mkDb ∅ [] [] 0.

Lemma db_wf_empty : db_wf empty_db.
Proof.
  constructor; unfold empty_db; cbn [stores uuid_seed].
  - apply map_Forall_empty.
  - intros k1 k2 s1 s2. by rewrite lookup_empty.
  - intros k1 k2 s1 s2. by rewrite lookup_empty.
  - intros k [? Hk]. by rewrite lookup_empty in Hk.
Qed.

(** The invariant of the schema holds after every write. *)
Theorem apply_write_wf w db : db_wf db -> db_wf (apply_write w db).
Proof. exact (write_wf w db). Qed.

Lemma apply_write_wf_witness :
  db_wf empty_db /\
  db_wf (apply_write (WCreateStore "My Store" "my-store" "store-my-store" "a@b.c" woocommerce 0%Z)
                     empty_db).
Proof. split; [apply db_wf_empty|apply apply_write_wf, db_wf_empty]. Defined.

(** ** Lookups *)

Lemma getStoreBySlug_Some slug db s :
  getStoreBySlug slug db = Some s ->
  exists k, stores db !! k = Some s /\ Store.slug s = slug.
Proof.
  unfold getStoreBySlug. destruct (List.find _ _) as [[k s']|] eqn:E; simpl; [|done].
  intros [= <-]. apply find_some in E as [Hin Hf]. exists k. split.
  - by apply elem_of_map_to_list, list_elem_of_In.
  - by apply bool_decide_eq_true in Hf.
Qed.

Lemma getStoreBySlug_None slug db :
  getStoreBySlug slug db = None <-> slug_taken slug db = false.
Proof.
  unfold getStoreBySlug, slug_taken. rewrite bool_decide_eq_false.
  destruct (List.find _ _) as [[k s]|] eqn:E; simpl; split; try done.
  - intros Hn. exfalso. apply find_some in E as [Hin Hf]. apply Hn.
    exists k, s. split; [by apply elem_of_map_to_list, list_elem_of_In|].
    by apply bool_decide_eq_true in Hf.
  - intros _ (k & s & Hk & Hs). apply elem_of_map_to_list, list_elem_of_In in Hk.
    pose proof (find_none _ _ E _ Hk) as Hf. simpl in Hf.
    by apply bool_decide_eq_false in Hf.
Qed.

(** ** [createStore] *)

(** The outcome of [createStore] (proof of [createStore_spec]). *)
Lemma createStore_cases name slug ns email plan now db :
  db_wf db ->
  match createStore name slug ns email plan now db with
  | (Ok s, db') =>
      slug_taken slug db = false /\ namespace_taken ns db = false /\
      s = new_store (Store.id s) name slug ns email plan now /\
      stores db !! Store.id s = None /\
      stores db' = <[Store.id s := s]> (stores db) /\
      getStoreCount db' = S (getStoreCount db)
  | (Err e, db') =>
      (slug_taken slug db = true \/ namespace_taken ns db = true) /\
      stores db' = stores db
  end.
Proof.
  intros Hwf. unfold createStore, next_uuid. cbn [stores uuid_seed].
  pose proof (uuid_fresh db Hwf) as Hfresh. rewrite Hfresh. simpl.
  destruct (slug_taken slug _) eqn:Hsl; [by auto|].
  destruct (namespace_taken ns _) eqn:Hns; [by auto|].
  split_and!; try done.
  unfold getStoreCount, getAllStores. cbn [stores with_stores].
  rewrite map_filter_insert_True by done. apply map_size_insert_None.
  apply map_lookup_filter_None. by left.
Qed.

(** [createStore] on a well-formed database: when the slug and the
    namespace are free, it inserts a [Provisioning] row with empty
    provisioning fields under a fresh identifier, leaves every other row
    alone and adds one to [getStoreCount]; when either is taken, the
    [INSERT] fails and no row changes. *)
Theorem createStore_spec name slug ns email plan now db :
  db_wf db ->
  match createStore name slug ns email plan now db with
  | (Ok s, db') =>
      slug_taken slug db = false /\ namespace_taken ns db = false /\
      s = new_store (Store.id s) name slug ns email plan now /\
      stores db !! Store.id s = None /\
      stores db' = <[Store.id s := s]> (stores db) /\
      getStoreCount db' = S (getStoreCount db)
  | (Err e, db') =>
      (slug_taken slug db = true \/ namespace_taken ns db = true) /\
      stores db' = stores db
  end.
Proof. exact (createStore_cases name slug ns email plan now db). Qed.

Lemma createStore_spec_witness :
  db_wf empty_db /\
  match createStore "My Store" "my-store" "store-my-store" "a@b.c" woocommerce 0%Z empty_db with
  | (Ok s, db') =>
      slug_taken "my-store" empty_db = false /\ namespace_taken "store-my-store" empty_db = false /\
      s = new_store (Store.id s) "My Store" "my-store" "store-my-store" "a@b.c" woocommerce 0%Z /\
      stores empty_db !! Store.id s = None /\
      stores db' = <[Store.id s := s]> (stores empty_db) /\
      getStoreCount db' = S (getStoreCount empty_db)
  | (Err e, db') =>
      (slug_taken "my-store" empty_db = true \/ namespace_taken "store-my-store" empty_db = true) /\
      stores db' = stores empty_db
  end.
Proof. split; [apply db_wf_empty|apply createStore_spec, db_wf_empty]. Defined.

(** ** The event log *)

(** The events of a store grow only at the end: [logEvent] appends its
    row to the events of its own store and leaves every other store's
    events as they were. *)
Lemma getEventsByStoreId_logEvent sid sid' step st msg now db :
  getEventsByStoreId sid (snd (logEvent sid' step st msg now db)) =
  (getEventsByStoreId sid db ++
   if bool_decide (sid' = sid) then [fst (logEvent sid' step st msg now db)] else [])%list.
Proof.
  unfold getEventsByStoreId, logEvent, next_uuid. simpl.
  rewrite List.filter_app. simpl. by case_bool_decide.
Qed.

Lemma getEventsByStoreId_updateStoreStatus sid id st em db :
  getEventsByStoreId sid (updateStoreStatus id st em db) = getEventsByStoreId sid db.
Proof. reflexivity. Qed.

(** Purging a store's events ([deleteEventsByStoreId]) empties that
    store's log and leaves the log of every other store unchanged. *)
Theorem getEventsByStoreId_deleteEvents sid sid' db :
  getEventsByStoreId sid (deleteEventsByStoreId sid' db) =
  if bool_decide (sid' = sid) then [] else getEventsByStoreId sid db.
Proof.
  unfold getEventsByStoreId, deleteEventsByStoreId, with_events. cbn [events].
  induction (events db) as [|e es IH]; simpl; [by case_bool_decide|].
  repeat (case_bool_decide; simpl); subst; try done; by rewrite IH.
Qed.

End Repository.
