(* ===== verification/Manifests.v ===== *)
(** * Manifests: the resource bodies of [k8s/resourceBuilder.ts] and
    [k8s/secretGenerator.ts]

    Each builder returns an object literal of [@kubernetes/client-node]'s
    types; it is a [Json] value here, field by field and in the order the
    literal writes them, with the spreads [...(cond ? {..} : {})] and
    [...secrets.wpKeys] as JavaScript evaluates them ([spread]).  The
    setup script of the WooCommerce job is the template literal, line by
    line ([L]), with the line continuations of its [\]-ended lines
    ([Cont]: the backslash and the newline are not part of the string).

    A [Resource] is what a [create] call sends: the kind (which
    [createNamespaced<Kind>] method), the namespace argument, the name,
    and the body.  The theorems check that these agree with the body
    ([store_manifests_wf]), that the fourteen resources of one store have
    distinct identities ([store_manifests_keys_nodup]), that every
    reference between them resolves ([store_manifests_consistent]), and
    what the setup job carries in its command line. *)

From S2P Require Import Prelude Model.
Local Open Scope string_scope.

Module Manifests.

(** ** JSON values *)

#[warnings="-register-all"]
Inductive Json :=
| JNull
| JBool (b : bool)
| JNum (n : Z)
| JStr (s : string)
| JArr (items : list Json)
| JObj (fields : list (string * Json)).

(** The value of key [k] of an object literal: its first occurrence. *)
Fixpoint assoc (k : string) (fs : list (string * Json)) : option Json :=
  match fs with
  | [] => None
  | (k', v) :: fs => if String.eqb k k' then Some v else assoc k fs
  end.

Definition field (k : string) (j : Json) : option Json :=
  match j with JObj fs => assoc k fs | _ => None end.

(** [j.k1.k2...] *)
Definition path (ks : list string) (j : Json) : option Json :=
  foldl (fun o k => o ≫= field k) (Some j) ks.

(** Assigning [k] in an object: an existing key keeps its position and
    takes the new value, a new key goes last. *)
Fixpoint js_set (k : string) (v : Json) (fs : list (string * Json)) : list (string * Json) :=
  match fs with
  | [] => [(k, v)]
  | (k', v') :: fs => if String.eqb k k' then (k, v) :: fs else (k', v') :: js_set k v fs
  end.

(** [{ ...fs, ...extra }] *)
Definition spread (fs extra : list (string * Json)) : list (string * Json) :=
  foldl (fun acc kv => js_set kv.1 kv.2 acc) fs extra.

(** A string is truthy when it is not empty. *)
Definition js_truthy (s : string) : bool := negb (String.eqb s EmptyString).

Fixpoint json_eqb (a b : Json) : bool :=
  match a, b with
  | JNull, JNull => true
  | JBool x, JBool y => Bool.eqb x y
  | JNum x, JNum y => Z.eqb x y
  | JStr x, JStr y => String.eqb x y
  | JArr xs, JArr ys =>
      (fix go xs ys := match xs, ys with
        | [], [] => true
        | x :: xs, y :: ys => json_eqb x y && go xs ys
        | _, _ => false end) xs ys
  | JObj xs, JObj ys =>
      (fix go xs ys := match xs, ys with
        | [], [] => true
        | (k, x) :: xs, (l, y) :: ys => String.eqb k l && json_eqb x y && go xs ys
        | _, _ => false end) xs ys
  | _, _ => false
  end.

(** The results of [f] at every object of a value, outermost first. *)
Fixpoint collect {A} (f : list (string * Json) -> list A) (j : Json) : list A :=
  match j with
  | JArr xs => (fix go xs := match xs with [] => [] | x :: xs => (collect f x ++ go xs)%list end) xs
  | JObj fs =>
      (f fs ++ (fix go fs := match fs with [] => [] | (_, v) :: fs => (collect f v ++ go fs)%list end) fs)%list
  | _ => []
  end.

(** ** Resources *)

Inductive Kind :=
| Namespace | Secret | ResourceQuota | LimitRange | PersistentVolumeClaim
| Deployment | Service | Job | Ingress | NetworkPolicy.

#[export] Instance Kind_eq_dec : EqDecision Kind.
Proof. solve_decision. Defined.

Definition kind_to_nat (k : Kind) : nat :=
  match k with
  | Namespace => 0 | Secret => 1 | ResourceQuota => 2 | LimitRange => 3
  | PersistentVolumeClaim => 4 | Deployment => 5 | Service => 6 | Job => 7
  | Ingress => 8 | NetworkPolicy => 9
  end.

Definition kind_of_nat (n : nat) : option Kind :=
  match n with
  | 0 => Some Namespace | 1 => Some Secret | 2 => Some ResourceQuota | 3 => Some LimitRange
  | 4 => Some PersistentVolumeClaim | 5 => Some Deployment | 6 => Some Service
  | 7 => Some Job | 8 => Some Ingress | 9 => Some NetworkPolicy | _ => None
  end.

#[export] Instance Kind_countable : Countable Kind.
Proof. apply (inj_countable kind_to_nat kind_of_nat). by intros []. Defined.

(** The [kind] field of each body. *)
Definition kind_name (k : Kind) : string :=
  match k with
  | Namespace => "Namespace" | Secret => "Secret" | ResourceQuota => "ResourceQuota"
  | LimitRange => "LimitRange" | PersistentVolumeClaim => "PersistentVolumeClaim"
  | Deployment => "Deployment" | Service => "Service" | Job => "Job"
  | Ingress => "Ingress" | NetworkPolicy => "NetworkPolicy"
  end.

(** A create call: the kind of its method, its namespace argument, the
    name of the object and the body. *)
Record Resource := mkResource {
  kind : Kind;
  namespace : string;
  name : string;
  body : Json
}.

(** A resource is identified by its kind, namespace and name. *)
Definition ResKey : Type := Kind * string * string.
Definition key (r : Resource) : ResKey := (kind r, namespace r, name r).

(** ** The builders of [resourceBuilder.ts] *)

Definition MANAGED_BY : string := "store-platform".

(** [StoreResourceConfig] *)
Record StoreResourceConfig := mkStoreResourceConfig {
  rc_namespace : string;
  rc_slug : string;
  rc_storeName : string;
  rc_adminEmail : string;
  rc_storeUrl : string;
  rc_adminPassword : string
}.

Definition buildNamespace (namespace storeId : string) : Resource :=
  mkResource Namespace namespace namespace (JObj [
    ("apiVersion", JStr "v1");
    ("kind", JStr "Namespace");
    ("metadata", JObj [
      ("name", JStr namespace);
      ("labels", JObj [
        ("app.kubernetes.io/managed-by", JStr MANAGED_BY);
        ("store-platform/store-id", JStr storeId)])])]).

(** [...(config.storageClass ? { storageClassName: config.storageClass } : {})] *)
Definition storage_class_field (cfg : Config.t) : list (string * Json) :=
  if js_truthy (Config.storageClass cfg)
  then [("storageClassName", JStr (Config.storageClass cfg))] else [].

Definition buildMySQLPVC (cfg : Config.t) (namespace : string) : Resource :=
  mkResource PersistentVolumeClaim namespace "mysql-data" (JObj [
    ("apiVersion", JStr "v1");
    ("kind", JStr "PersistentVolumeClaim");
    ("metadata", JObj [
      ("name", JStr "mysql-data");
      ("namespace", JStr namespace);
      ("labels", JObj [("app", JStr "mysql"); ("app.kubernetes.io/managed-by", JStr MANAGED_BY)])]);
    ("spec", JObj (spread [
      ("accessModes", JArr [JStr "ReadWriteOnce"]);
      ("resources", JObj [("requests", JObj [("storage", JStr (Config.mysqlStorageSize cfg))])])]
      (storage_class_field cfg)))]).

(** [valueFrom: { secretKeyRef: { name, key } }] *)
Definition secret_env (var secret k : string) : Json :=
  JObj [("name", JStr var);
        ("valueFrom", JObj [("secretKeyRef", JObj [("name", JStr secret); ("key", JStr k)])])].

Definition value_env (var value : string) : Json :=
  JObj [("name", JStr var); ("value", JStr value)].

Definition buildMySQLDeployment (cfg : Config.t) (namespace : string) : Resource :=
  mkResource Deployment namespace "mysql" (JObj [
    ("apiVersion", JStr "apps/v1");
    ("kind", JStr "Deployment");
    ("metadata", JObj [
      ("name", JStr "mysql");
      ("namespace", JStr namespace);
      ("labels", JObj [("app", JStr "mysql"); ("app.kubernetes.io/managed-by", JStr MANAGED_BY)])]);
    ("spec", JObj [
      ("replicas", JNum 1);
      ("selector", JObj [("matchLabels", JObj [("app", JStr "mysql")])]);
      ("strategy", JObj [("type", JStr "Recreate")]);
      ("template", JObj [
        ("metadata", JObj [("labels", JObj [("app", JStr "mysql")])]);
        ("spec", JObj [
          ("containers", JArr [JObj [
            ("name", JStr "mysql");
            ("image", JStr (Config.mysqlImage cfg));
            ("imagePullPolicy", JStr (Config.imagePullPolicy cfg));
            ("ports", JArr [JObj [("containerPort", JNum 3306)]]);
            ("env", JArr [
              secret_env "MYSQL_ROOT_PASSWORD" "mysql-credentials" "root-password";
              value_env "MYSQL_DATABASE" "wordpress";
              value_env "MYSQL_USER" "wordpress";
              secret_env "MYSQL_PASSWORD" "mysql-credentials" "wordpress-password"]);
            ("volumeMounts", JArr [JObj [("name", JStr "mysql-data"); ("mountPath", JStr "/var/lib/mysql")]]);
            ("readinessProbe", JObj [
              ("exec", JObj [("command", JArr [JStr "mysqladmin"; JStr "ping"; JStr "-h"; JStr "localhost"])]);
              ("initialDelaySeconds", JNum 10); ("periodSeconds", JNum 5); ("timeoutSeconds", JNum 3)]);
            ("livenessProbe", JObj [
              ("exec", JObj [("command", JArr [JStr "mysqladmin"; JStr "ping"; JStr "-h"; JStr "localhost"])]);
              ("initialDelaySeconds", JNum 30); ("periodSeconds", JNum 10); ("timeoutSeconds", JNum 3)]);
            ("resources", JObj [
              ("requests", JObj [("cpu", JStr "100m"); ("memory", JStr "256Mi")]);
              ("limits", JObj [("cpu", JStr "500m"); ("memory", JStr "512Mi")])])]]);
          ("volumes", JArr [JObj [
            ("name", JStr "mysql-data");
            ("persistentVolumeClaim", JObj [("claimName", JStr "mysql-data")])]])])])])]).

Definition buildMySQLService (namespace : string) : Resource :=
  mkResource Service namespace "mysql" (JObj [
    ("apiVersion", JStr "v1");
    ("kind", JStr "Service");
    ("metadata", JObj [
      ("name", JStr "mysql");
      ("namespace", JStr namespace);
      ("labels", JObj [("app", JStr "mysql"); ("app.kubernetes.io/managed-by", JStr MANAGED_BY)])]);
    ("spec", JObj [
      ("type", JStr "ClusterIP");
      ("ports", JArr [JObj [("port", JNum 3306); ("targetPort", JNum 3306)]]);
      ("selector", JObj [("app", JStr "mysql")])])]).

Definition buildWordPressPVC (cfg : Config.t) (namespace : string) : Resource :=
  mkResource PersistentVolumeClaim namespace "wordpress-data" (JObj [
    ("apiVersion", JStr "v1");
    ("kind", JStr "PersistentVolumeClaim");
    ("metadata", JObj [
      ("name", JStr "wordpress-data");
      ("namespace", JStr namespace);
      ("labels", JObj [("app", JStr "wordpress"); ("app.kubernetes.io/managed-by", JStr MANAGED_BY)])]);
    ("spec", JObj (spread [
      ("accessModes", JArr [JStr "ReadWriteOnce"]);
      ("resources", JObj [("requests", JObj [("storage", JStr (Config.wordpressStorageSize cfg))])])]
      (storage_class_field cfg)))]).

(** The deployment ignores its [StoreResourceConfig] argument ([_rc]). *)
Definition buildWordPressDeployment (cfg : Config.t) (namespace : string)
    (_rc : StoreResourceConfig) : Resource :=
  mkResource Deployment namespace "wordpress" (JObj [
    ("apiVersion", JStr "apps/v1");
    ("kind", JStr "Deployment");
    ("metadata", JObj [
      ("name", JStr "wordpress");
      ("namespace", JStr namespace);
      ("labels", JObj [("app", JStr "wordpress"); ("app.kubernetes.io/managed-by", JStr MANAGED_BY)])]);
    ("spec", JObj [
      ("replicas", JNum 1);
      ("selector", JObj [("matchLabels", JObj [("app", JStr "wordpress")])]);
      ("strategy", JObj [("type", JStr "Recreate")]);
      ("template", JObj [
        ("metadata", JObj [("labels", JObj [("app", JStr "wordpress")])]);
        ("spec", JObj [
          ("containers", JArr [JObj [
            ("name", JStr "wordpress");
            ("image", JStr (Config.wordpressImage cfg));
            ("imagePullPolicy", JStr (Config.imagePullPolicy cfg));
            ("ports", JArr [JObj [("containerPort", JNum 80)]]);
            ("env", JArr [
              value_env "WORDPRESS_DB_HOST" "mysql";
              value_env "WORDPRESS_DB_USER" "wordpress";
              secret_env "WORDPRESS_DB_PASSWORD" "mysql-credentials" "wordpress-password";
              value_env "WORDPRESS_DB_NAME" "wordpress"]);
            ("volumeMounts", JArr [JObj [("name", JStr "wordpress-data"); ("mountPath", JStr "/var/www/html")]]);
            ("readinessProbe", JObj [
              ("httpGet", JObj [("path", JStr "/wp-login.php"); ("port", JNum 80)]);
              ("initialDelaySeconds", JNum 15); ("periodSeconds", JNum 10); ("timeoutSeconds", JNum 5)]);
            ("livenessProbe", JObj [
              ("httpGet", JObj [("path", JStr "/wp-login.php"); ("port", JNum 80)]);
              ("initialDelaySeconds", JNum 60); ("periodSeconds", JNum 15); ("timeoutSeconds", JNum 5)]);
            ("resources", JObj [
              ("requests", JObj [("cpu", JStr "100m"); ("memory", JStr "256Mi")]);
              ("limits", JObj [("cpu", JStr "1000m"); ("memory", JStr "512Mi")])])]]);
          ("volumes", JArr [JObj [
            ("name", JStr "wordpress-data");
            ("persistentVolumeClaim", JObj [("claimName", JStr "wordpress-data")])]])])])])]).

Definition buildWordPressService (namespace : string) : Resource :=
  mkResource Service namespace "wordpress" (JObj [
    ("apiVersion", JStr "v1");
    ("kind", JStr "Service");
    ("metadata", JObj [
      ("name", JStr "wordpress");
      ("namespace", JStr namespace);
      ("labels", JObj [("app", JStr "wordpress"); ("app.kubernetes.io/managed-by", JStr MANAGED_BY)])]);
    ("spec", JObj [
      ("type", JStr "ClusterIP");
      ("ports", JArr [JObj [("port", JNum 80); ("targetPort", JNum 80)]]);
      ("selector", JObj [("app", JStr "wordpress")])])]).

(** *** The setup script *)

(** A line of a template literal: [L s] ends with a newline, [Cont s]
    with a backslash, which continues the line: neither the backslash nor
    the newline is part of the string. *)
Inductive line := L (s : string) | Cont (s : string).

Definition nl : string := String "010" EmptyString.
Definition dq : string := String "034" EmptyString.

Fixpoint cook (ls : list line) : string :=
  match ls with
  | [] => EmptyString
  | L s :: ls => s ++ nl ++ cook ls
  | Cont s :: ls => s ++ cook ls
  end.

Definition setupScript_lines (rc : StoreResourceConfig) : list line := [
    L "#!/bin/bash";
    L "set -e";
    L EmptyString;
    L ("echo " ++ dq ++ "Waiting for WordPress to be reachable..." ++ dq);
    L "until curl -sf http://wordpress/wp-login.php > /dev/null 2>&1; do";
    L ("  echo " ++ dq ++ "WordPress not ready yet, waiting..." ++ dq);
    L "  sleep 5";
    L "done";
    L ("echo " ++ dq ++ "WordPress is reachable." ++ dq);
    L EmptyString;
    L ("echo " ++ dq ++ "Downloading WP-CLI..." ++ dq);
    L "curl -sO https://raw.githubusercontent.com/wp-cli/builds/gh-pages/phar/wp-cli.phar";
    L "chmod +x wp-cli.phar";
    L EmptyString;
    L ("echo " ++ dq ++ "Installing WordPress core..." ++ dq);
    Cont "php wp-cli.phar core install ";
    Cont ("  --url=" ++ dq ++ rc_storeUrl rc ++ dq ++ " ");
    Cont ("  --title=" ++ dq ++ rc_storeName rc ++ dq ++ " ");
    Cont "  --admin_user=admin ";
    Cont ("  --admin_password=" ++ dq ++ rc_adminPassword rc ++ dq ++ " ");
    Cont ("  --admin_email=" ++ dq ++ rc_adminEmail rc ++ dq ++ " ");
    Cont "  --skip-email ";
    Cont "  --allow-root ";
    L "  --path=/var/www/html || true";
    L EmptyString;
    L ("echo " ++ dq ++ "Installing WooCommerce..." ++ dq);
    L "php wp-cli.phar plugin install woocommerce --activate --allow-root --path=/var/www/html || true";
    L EmptyString;
    L ("echo " ++ dq ++ "Setting permalink structure..." ++ dq);
    L "php wp-cli.phar rewrite structure '/%postname%/' --allow-root --path=/var/www/html || true";
    L EmptyString;
    L ("echo " ++ dq ++ "Creating sample product..." ++ dq);
    Cont "php wp-cli.phar wc product create ";
    Cont ("  --name=" ++ dq ++ "Sample Product" ++ dq ++ " ");
    Cont ("  --regular_price=" ++ dq ++ "19.99" ++ dq ++ " ");
    Cont ("  --description=" ++ dq ++ "A sample product for testing." ++ dq ++ " ");
    Cont ("  --short_description=" ++ dq ++ "Sample product" ++ dq ++ " ");
    Cont "  --status=publish ";
    Cont "  --user=admin ";
    Cont "  --allow-root ";
    L "  --path=/var/www/html || true";
    L EmptyString;
    L ("echo " ++ dq ++ "Enabling Cash on Delivery..." ++ dq);
    L ("php wp-cli.phar option update woocommerce_cod_settings '{" ++ dq ++ "enabled" ++ dq ++ ":" ++ dq ++ "yes" ++ dq ++ "," ++ dq ++ "title" ++ dq ++ ":" ++ dq ++ "Cash on Delivery" ++ dq ++ "," ++ dq ++ "description" ++ dq ++ ":" ++ dq ++ "Pay with cash upon delivery." ++ dq ++ "," ++ dq ++ "instructions" ++ dq ++ ":" ++ dq ++ "Pay with cash upon delivery." ++ dq ++ "}' --format=json --allow-root --path=/var/www/html || true");
    L EmptyString;
    L ("echo " ++ dq ++ "Setting up WooCommerce pages..." ++ dq);
    L "php wp-cli.phar wc tool run install_pages --user=admin --allow-root --path=/var/www/html || true";
    L EmptyString;
    L ("echo " ++ dq ++ "WooCommerce setup complete!" ++ dq)
].

(** [setupScript]: the literal opens with a newline after its backquote
    and its last line ends with one. *)
Definition setupScript (rc : StoreResourceConfig) : string :=
  nl ++ cook (setupScript_lines rc).

Arguments setupScript : simpl never.

Definition buildWooCommerceSetupJob (cfg : Config.t) (namespace : string)
    (rc : StoreResourceConfig) : Resource :=
  mkResource Job namespace "woocommerce-setup" (JObj [
    ("apiVersion", JStr "batch/v1");
    ("kind", JStr "Job");
    ("metadata", JObj [
      ("name", JStr "woocommerce-setup");
      ("namespace", JStr namespace);
      ("labels", JObj [("app.kubernetes.io/managed-by", JStr MANAGED_BY)])]);
    ("spec", JObj [
      ("backoffLimit", JNum 3);
      ("ttlSecondsAfterFinished", JNum 300);
      ("template", JObj [
        ("spec", JObj [
          ("restartPolicy", JStr "OnFailure");
          ("containers", JArr [JObj [
            ("name", JStr "wc-setup");
            ("image", JStr (Config.wordpressImage cfg));
            ("imagePullPolicy", JStr (Config.imagePullPolicy cfg));
            ("command", JArr [JStr "/bin/bash"; JStr "-c"; JStr (setupScript rc)]);
            ("env", JArr [
              value_env "WORDPRESS_DB_HOST" "mysql";
              value_env "WORDPRESS_DB_USER" "wordpress";
              secret_env "WORDPRESS_DB_PASSWORD" "mysql-credentials" "wordpress-password";
              value_env "WORDPRESS_DB_NAME" "wordpress"]);
            ("volumeMounts", JArr [JObj [("name", JStr "wordpress-data"); ("mountPath", JStr "/var/www/html")]]);
            ("resources", JObj [
              ("requests", JObj [("cpu", JStr "100m"); ("memory", JStr "256Mi")]);
              ("limits", JObj [("cpu", JStr "500m"); ("memory", JStr "512Mi")])])]]);
          ("volumes", JArr [JObj [
            ("name", JStr "wordpress-data");
            ("persistentVolumeClaim", JObj [("claimName", JStr "wordpress-data")])]])])])])]).

Definition buildStoreIngress (cfg : Config.t) (namespace host : string) : Resource :=
  mkResource Ingress namespace "wordpress-ingress" (JObj [
    ("apiVersion", JStr "networking.k8s.io/v1");
    ("kind", JStr "Ingress");
    ("metadata", JObj [
      ("name", JStr "wordpress-ingress");
      ("namespace", JStr namespace);
      ("labels", JObj [("app.kubernetes.io/managed-by", JStr MANAGED_BY)]);
      ("annotations", JObj [("nginx.ingress.kubernetes.io/proxy-body-size", JStr "50m")])]);
    ("spec", JObj [
      ("ingressClassName", JStr (Config.ingressClass cfg));
      ("rules", JArr [JObj [
        ("host", JStr host);
        ("http", JObj [
          ("paths", JArr [JObj [
            ("path", JStr "/");
            ("pathType", JStr "Prefix");
            ("backend", JObj [
              ("service", JObj [
                ("name", JStr "wordpress");
                ("port", JObj [("number", JNum 80)])])])]])])]])])]).

(** Ingress from the [ingress-nginx] namespace and from the pods of the
    same namespace only. *)
Definition buildNetworkPolicy (namespace : string) : Resource :=
  mkResource NetworkPolicy namespace "store-isolation" (JObj [
    ("apiVersion", JStr "networking.k8s.io/v1");
    ("kind", JStr "NetworkPolicy");
    ("metadata", JObj [
      ("name", JStr "store-isolation");
      ("namespace", JStr namespace);
      ("labels", JObj [("app.kubernetes.io/managed-by", JStr MANAGED_BY)])]);
    ("spec", JObj [
      ("podSelector", JObj []);
      ("policyTypes", JArr [JStr "Ingress"]);
      ("ingress", JArr [
        JObj [("from", JArr [JObj [
          ("namespaceSelector", JObj [
            ("matchLabels", JObj [("kubernetes.io/metadata.name", JStr "ingress-nginx")])])]])];
        JObj [("from", JArr [JObj [("podSelector", JObj [])]])]])])]).

Definition buildResourceQuota (namespace : string) : Resource :=
  mkResource ResourceQuota namespace "store-quota" (JObj [
    ("apiVersion", JStr "v1");
    ("kind", JStr "ResourceQuota");
    ("metadata", JObj [
      ("name", JStr "store-quota");
      ("namespace", JStr namespace);
      ("labels", JObj [("app.kubernetes.io/managed-by", JStr MANAGED_BY)])]);
    ("spec", JObj [
      ("hard", JObj [
        ("requests.cpu", JStr "2");
        ("requests.memory", JStr "2Gi");
        ("limits.cpu", JStr "4");
        ("limits.memory", JStr "4Gi");
        ("persistentvolumeclaims", JStr "4");
        ("pods", JStr "10")])])]).

(** The object literal names the container defaults [_default], the
    client library's name of the [default] field. *)
Definition buildLimitRange (namespace : string) : Resource :=
  mkResource LimitRange namespace "store-limits" (JObj [
    ("apiVersion", JStr "v1");
    ("kind", JStr "LimitRange");
    ("metadata", JObj [
      ("name", JStr "store-limits");
      ("namespace", JStr namespace);
      ("labels", JObj [("app.kubernetes.io/managed-by", JStr MANAGED_BY)])]);
    ("spec", JObj [
      ("limits", JArr [
        JObj [
          ("type", JStr "Container");
          ("_default", JObj [("cpu", JStr "500m"); ("memory", JStr "512Mi")]);
          ("defaultRequest", JObj [("cpu", JStr "100m"); ("memory", JStr "256Mi")]);
          ("max", JObj [("cpu", JStr "2"); ("memory", JStr "1Gi")]);
          ("min", JObj [("cpu", JStr "50m"); ("memory", JStr "64Mi")])];
        JObj [
          ("type", JStr "PersistentVolumeClaim");
          ("max", JObj [("storage", JStr "5Gi")]);
          ("min", JObj [("storage", JStr "256Mi")])]])])]).

(** ** Secrets ([k8s/secretGenerator.ts]) *)

(** [StoreSecrets]; [wpKeys] is the [Record<string, string>] in the order
    of its keys. *)
Record StoreSecrets := mkStoreSecrets {
  mysqlRootPassword : string;
  mysqlPassword : string;
  wpAdminPassword : string;
  wpKeys : list (string * string)
}.

Definition buildMySQLSecret (namespace : string) (secrets : StoreSecrets) : Resource :=
  mkResource Secret namespace "mysql-credentials" (JObj [
    ("apiVersion", JStr "v1");
    ("kind", JStr "Secret");
    ("metadata", JObj [
      ("name", JStr "mysql-credentials");
      ("namespace", JStr namespace);
      ("labels", JObj [("app.kubernetes.io/managed-by", JStr "store-platform")])]);
    ("type", JStr "Opaque");
    ("stringData", JObj [
      ("root-password", JStr (mysqlRootPassword secrets));
      ("wordpress-password", JStr (mysqlPassword secrets))])]).

Definition buildWordPressSecret (namespace : string) (secrets : StoreSecrets) : Resource :=
  mkResource Secret namespace "wordpress-secrets" (JObj [
    ("apiVersion", JStr "v1");
    ("kind", JStr "Secret");
    ("metadata", JObj [
      ("name", JStr "wordpress-secrets");
      ("namespace", JStr namespace);
      ("labels", JObj [("app.kubernetes.io/managed-by", JStr "store-platform")])]);
    ("type", JStr "Opaque");
    ("stringData", JObj (spread
      [("admin-password", JStr (wpAdminPassword secrets))]
      (map (fun kv => (kv.1, JStr kv.2)) (wpKeys secrets))))]).

(** ** The resources of one store

    The fourteen creates of [WooCommerceProvisioner.provision], in its
    order: the namespace, the two secrets, the quota and limits, the MySQL
    and WordPress PVC, deployment and service, the setup job, the ingress
    and the network policy. *)
Definition store_manifests (cfg : Config.t) (storeId namespace host : string)
    (secrets : StoreSecrets) (rc : StoreResourceConfig) : list Resource :=
  [buildNamespace namespace storeId; buildMySQLSecret namespace secrets;
   buildWordPressSecret namespace secrets; buildResourceQuota namespace;
   buildLimitRange namespace; buildMySQLPVC cfg namespace; buildMySQLDeployment cfg namespace;
   buildMySQLService namespace; buildWordPressPVC cfg namespace;
   buildWordPressDeployment cfg namespace rc; buildWordPressService namespace;
   buildWooCommerceSetupJob cfg namespace rc; buildStoreIngress cfg namespace host;
   buildNetworkPolicy namespace].

(** A resource agrees with its body: the body's [kind] is the kind of the
    call, its [metadata.name] the name, its [metadata.namespace] the
    namespace argument (a namespace has none, and is its own name), and
    it carries the [managed-by] label. *)
Definition manifest_wf (r : Resource) : Prop :=
  field "kind" (body r) = Some (JStr (kind_name (kind r))) /\
  path ["metadata"; "name"] (body r) = Some (JStr (name r)) /\
  path ["metadata"; "namespace"] (body r) =
    (match kind r with Namespace => None | _ => Some (JStr (namespace r)) end) /\
  (match kind r with Namespace => namespace r = name r | _ => True end) /\
  path ["metadata"; "labels"; "app.kubernetes.io/managed-by"] (body r) = Some (JStr MANAGED_BY).

Definition is_kind (k : Kind) (r : Resource) : bool := bool_decide (kind r = k).

Definition is_some {A} (o : option A) : bool := match o with Some _ => true | None => false end.

Definition opt_json_eqb (a b : option Json) : bool :=
  match a, b with Some x, Some y => json_eqb x y | None, None => true | _, _ => false end.

(** The [secretKeyRef]s of a body, as (secret, key). *)
Definition secret_refs : Json -> list (string * string) :=
  collect (fun fs => match assoc "secretKeyRef" fs with
    | Some (JObj r) => match assoc "name" r, assoc "key" r with
                       | Some (JStr n), Some (JStr k) => [(n, k)] | _, _ => [] end
    | _ => [] end).

(** Every secret a body names: [secretKeyRef.name], [envFrom]'s
    [secretRef.name] and a [secret] volume's [secretName]. *)
Definition secrets_named : Json -> list string :=
  collect (fun fs =>
    match assoc "secretKeyRef" fs with Some (JObj r) =>
      match assoc "name" r with Some (JStr n) => [n] | _ => [] end | _ => [] end ++
    match assoc "secretRef" fs with Some (JObj r) =>
      match assoc "name" r with Some (JStr n) => [n] | _ => [] end | _ => [] end ++
    match assoc "secretName" fs with Some (JStr n) => [n] | _ => [] end)%list.

(** The claims of the [persistentVolumeClaim] volumes of a body. *)
Definition claim_refs : Json -> list string :=
  collect (fun fs => match assoc "persistentVolumeClaim" fs with
    | Some (JObj o) => match assoc "claimName" o with Some (JStr n) => [n] | _ => [] end
    | _ => [] end).

(** The numbers under key [k] anywhere in a body. *)
Definition num_fields (k : string) : Json -> list Z :=
  collect (fun fs => match assoc k fs with Some (JNum n) => [n] | _ => [] end).

(** The (service, port) backends of an ingress. *)
Definition backends : Json -> list (string * Z) :=
  collect (fun fs => match assoc "service" fs with
    | Some (JObj o) => match assoc "name" o, assoc "port" o ≫= field "number" with
                       | Some (JStr n), Some (JNum p) => [(n, p)] | _, _ => [] end
    | _ => [] end).

Definition workloads (rs : list Resource) : list Resource :=
  List.filter (fun r => is_kind Deployment r || is_kind Job r) rs.

Definition secret_has (rs : list Resource) (n k : string) : bool :=
  existsb (fun r => is_kind Secret r && String.eqb (name r) n &&
                    is_some (path ["stringData"; k] (body r))) rs.

Definition pvc_exists (rs : list Resource) (n : string) : bool :=
  existsb (fun r => is_kind PersistentVolumeClaim r && String.eqb (name r) n) rs.

(** A deployment's selector selects its own pod template. *)
Definition deployment_ok (d : Resource) : bool :=
  opt_json_eqb (path ["spec"; "selector"; "matchLabels"] (body d))
               (path ["spec"; "template"; "metadata"; "labels"] (body d)).

(** A service selects the pods of a deployment, on ports they listen on. *)
Definition service_ok (rs : list Resource) (svc : Resource) : bool :=
  existsb (fun d => is_kind Deployment d &&
    opt_json_eqb (path ["spec"; "selector"] (body svc))
                 (path ["spec"; "template"; "metadata"; "labels"] (body d)) &&
    forallb (fun p => existsb (Z.eqb p) (num_fields "containerPort" (body d)))
            (num_fields "targetPort" (body svc))) rs.

(** An ingress backend is a port of a service. *)
Definition backend_ok (rs : list Resource) (b : string * Z) : bool :=
  existsb (fun s => is_kind Service s && String.eqb (name s) b.1 &&
                    existsb (Z.eqb b.2) (num_fields "port" (body s))) rs.

(** Every reference between the resources resolves. *)
Definition manifests_consistent (rs : list Resource) : bool :=
  forallb (fun r => forallb (fun nk => secret_has rs nk.1 nk.2) (secret_refs (body r))) (workloads rs) &&
  forallb (fun r => forallb (pvc_exists rs) (claim_refs (body r))) (workloads rs) &&
  forallb (fun r => negb (is_kind Deployment r) || deployment_ok r) rs &&
  forallb (fun r => negb (is_kind Service r) || service_ok rs r) rs &&
  forallb (fun r => negb (is_kind Ingress r) || forallb (backend_ok rs) (backends (body r))) rs.

(** [n] occurs in [h]. *)
Definition contains (h n : string) : Prop := exists a c, h = a ++ n ++ c.

Definition command_args : Json -> list Json :=
  collect (fun fs => match assoc "command" fs with Some (JArr xs) => xs | _ => [] end).


(** ** Theory *)

(** *** JSON equality *)

(** Induction on [Json] with hypotheses on every element of an array and
    every value of an object. *)
Definition Json_ind' (P : Json -> Prop)
    (fnull : P JNull) (fbool : forall b, P (JBool b)) (fnum : forall n, P (JNum n))
    (fstr : forall s, P (JStr s))
    (farr : forall xs, Forall P xs -> P (JArr xs))
    (fobj : forall fs, Forall (fun kv => P kv.2) fs -> P (JObj fs)) : forall j, P j :=
  fix F j := match j with
  | JNull => fnull | JBool b => fbool b | JNum n => fnum n | JStr s => fstr s
  | JArr xs => farr xs ((fix G xs : Forall P xs := match xs with
      | [] => List.Forall_nil _ | x :: xs => List.Forall_cons _ x xs (F x) (G xs) end) xs)
  | JObj fs => fobj fs ((fix G fs : Forall (fun kv => P kv.2) fs := match fs with
      | [] => List.Forall_nil _ | kv :: fs => List.Forall_cons _ kv fs (F kv.2) (G fs) end) fs)
  end.

Lemma json_eqb_eq a b : json_eqb a b = true <-> a = b.
Proof.
  revert b. induction a as [| | | |xs IH|fs IH] using Json_ind'; intros [];
    cbn [json_eqb]; try (split; congruence).
  - rewrite Bool.eqb_true_iff. split; congruence.
  - rewrite Z.eqb_eq. split; congruence.
  - rewrite String.eqb_eq. split; congruence.
  - revert items. induction IH as [|x xs Hx _ IHxs]; intros [|y ys]; try (split; congruence).
    rewrite andb_true_iff, Hx, IHxs. split; [intros [-> [= ->]]; done|intros [= -> ->]; done].
  - revert fields. induction IH as [|[k x] fs Hx _ IHfs]; intros [|[l y] gs]; try (split; congruence).
    cbn in Hx. rewrite !andb_true_iff, String.eqb_eq, Hx, IHfs.
    split; [intros [[-> ->] [= ->]]; done|intros [= -> -> ->]; done].
Qed.

#[export] Instance Json_eq_dec : EqDecision Json.
Proof.
  intros a b. destruct (json_eqb a b) eqn:E; [left; by apply json_eqb_eq|right].
  intros H. apply json_eqb_eq in H. congruence.
Defined.

Lemma opt_json_eqb_eq a b : opt_json_eqb a b = true <-> a = b.
Proof.
  destruct a, b; cbn; rewrite ?json_eqb_eq; split; congruence.
Qed.

(** What a consistent set of resources guarantees, as propositions. *)
Lemma manifests_consistent_secret_refs rs r n k :
  manifests_consistent rs = true -> r ∈ workloads rs -> (n, k) ∈ secret_refs (body r) ->
  exists s, s ∈ rs /\ kind s = Secret /\ name s = n /\ is_Some (path ["stringData"; k] (body s)).
Proof.
  unfold manifests_consistent. rewrite !andb_true_iff. intros [[[[Hs _] _] _] _] Hr Hnk.
  rewrite forallb_forall in Hs. specialize (Hs r (proj1 (list_elem_of_In _ _) Hr)).
  rewrite forallb_forall in Hs. specialize (Hs (n, k) (proj1 (list_elem_of_In _ _) Hnk)).
  unfold secret_has in Hs. apply existsb_exists in Hs as (s & Hin & Hb).
  rewrite !andb_true_iff, String.eqb_eq in Hb. destruct Hb as [[Hk Hn] Hp].
  exists s. split_and!; [by apply list_elem_of_In|by apply bool_decide_eq_true in Hk|done|].
  by destruct (path _ _).
Qed.

Lemma manifests_consistent_claims rs r n :
  manifests_consistent rs = true -> r ∈ workloads rs -> n ∈ claim_refs (body r) ->
  exists p, p ∈ rs /\ kind p = PersistentVolumeClaim /\ name p = n.
Proof.
  unfold manifests_consistent. rewrite !andb_true_iff. intros [[[[_ Hc] _] _] _] Hr Hn.
  rewrite forallb_forall in Hc. specialize (Hc r (proj1 (list_elem_of_In _ _) Hr)).
  rewrite forallb_forall in Hc. specialize (Hc n (proj1 (list_elem_of_In _ _) Hn)).
  apply existsb_exists in Hc as (p & Hin & Hb).
  rewrite andb_true_iff, String.eqb_eq in Hb. destruct Hb as [Hk Hn'].
  exists p. split_and!; [by apply list_elem_of_In|by apply bool_decide_eq_true in Hk|done].
Qed.

Lemma contains_trans h m n : contains h m -> contains m n -> contains h n.
Proof.
  intros (a & c & ->) (a' & c' & ->). exists (a ++ a'), (c' ++ c).
  rewrite !string_app_assoc. reflexivity.
Qed.

Lemma contains_includes h n : n <> EmptyString -> contains h n -> includes h n = true.
Proof. intros Hn (a & c & ->). by apply includes_app_mid. Qed.

Lemma cook_contains s l : In (Cont s) l -> contains (cook l) s.
Proof.
  induction l as [|[t|t] l IH]; [done| |]; intros [Heq|Hin]; try discriminate.
  - destruct (IH Hin) as (a & c & E). exists (t ++ nl ++ a), c. cbn [cook].
    rewrite E, !string_app_assoc. reflexivity.
  - injection Heq as ->. exists EmptyString, (cook l). reflexivity.
  - destruct (IH Hin) as (a & c & E). exists (t ++ a), c. cbn [cook].
    rewrite E, !string_app_assoc. reflexivity.
Qed.


(** *** The fourteen resources of a store *)


(** The fourteen resources of one store have distinct identities
    (kind, namespace, name): within one run no create can answer [409]
    because of another create of the same run. *)
Theorem store_manifests_keys_nodup cfg id ns host secrets rc :
  NoDup (key <$> store_manifests cfg id ns host secrets rc).
Proof.
  apply NoDup_ListNoDup. unfold key. simpl. repeat (constructor; [cbn [In]; intuition congruence|]). constructor.
Qed.

(** The resources of a store refer to one another consistently, for
    every configuration, namespace, host, secrets and store parameters:
    every [secretKeyRef] of a deployment or the job names a key of a
    secret the pipeline creates, every volume claim a PVC it creates, each
    deployment's selector matches its pod template, each service selects
    the pods of a deployment on a port they listen on, and the ingress
    backend is a port of a service. *)
Theorem store_manifests_consistent cfg id ns host secrets rc :
  manifests_consistent (store_manifests cfg id ns host secrets rc) = true.
Proof. reflexivity. Qed.

(** No deployment or job refers to the [wordpress-secrets] secret, by
    [secretKeyRef], [envFrom] or a secret volume: the admin password and
    the eight WordPress keys and salts it holds are used by no pod. *)
Theorem wordpress_secret_unused cfg id ns host secrets rc :
  forallb (fun r => forallb (fun n => negb (String.eqb n "wordpress-secrets")) (secrets_named (body r)))
    (workloads (store_manifests cfg id ns host secrets rc)) = true.
Proof. reflexivity. Qed.


(** The password is quoted in the [wp core install] line of the script. *)
Lemma setupScript_admin_password rc :
  includes (setupScript rc) ("--admin_password=" ++ dq ++ rc_adminPassword rc ++ dq) = true.
Proof.
  apply contains_includes; [discriminate|].
  apply (contains_trans _ ("  --admin_password=" ++ dq ++ rc_adminPassword rc ++ dq ++ " ")).
  - unfold setupScript. apply (contains_trans _ (cook (setupScript_lines rc))).
    + exists nl, EmptyString. by rewrite string_app_nil_r.
    + apply cook_contains. unfold setupScript_lines. do 19 right. left. reflexivity.
  - exists "  ", " ". rewrite !string_app_assoc. reflexivity.
Qed.

(** C38: the admin password is written in clear into the command line of
    the setup job ([--admin_password="..."]), part of the Job object. *)
Theorem setup_job_admin_password cfg ns rc :
  exists script, In (JStr script) (command_args (body (buildWooCommerceSetupJob cfg ns rc))) /\
    includes script ("--admin_password=" ++ dq ++ rc_adminPassword rc ++ dq) = true.
Proof.
  exists (setupScript rc). split; [|apply setupScript_admin_password].
  cbn. tauto.
Qed.

End Manifests.
