(* ===== verification/Crypto.v ===== *)
(** * Crypto: the random secrets of [utils/crypto.ts] and
    [k8s/secretGenerator.ts]

    [crypto.randomBytes(n)] returns [n] bytes; the functions here take the
    buffer that call returned as an argument, so that they are the pure
    functions of it the code computes: [generatePassword] is the first
    [length] characters of its hexadecimal rendering, [generateSalt] the
    first [length] characters of its base64 rendering ([Buffer.toString]
    with RFC 4648's alphabet and padding).  [generateStoreSecrets] makes
    its eleven calls in the order of the object literal; [draw k n] is the
    buffer of the [k]-th call, of length [n].

    The theorems: a password is [length] lowercase hexadecimal digits, and
    the [2k]-character password is determined by, and determines, the
    first [k] of the [2k] bytes drawn for it (half of the randomness drawn
    is thrown away); a salt is [length] base64 characters; no password or
    salt holds a character that ends or expands a double-quoted shell
    word. *)

From S2P Require Import Prelude Model Manifests.
From Stdlib Require Import Strings.Byte.
Local Open Scope string_scope.
Local Open Scope nat_scope.

Module Crypto.
Import Manifests.

(** ** Encodings of [Buffer.toString] *)

Definition hex_digit (n : nat) : ascii :=
  if Nat.ltb n 10 then ascii_of_nat (48 + n) else ascii_of_nat (87 + n).

Definition hex_byte (b : byte) : list ascii :=
  [hex_digit (Byte.to_nat b / 16); hex_digit (Byte.to_nat b mod 16)].

(** [buf.toString('hex')] *)
Definition toHex (bs : list byte) : string := string_of_list_ascii (flat_map hex_byte bs).

Definition b64_alphabet : string :=
  "ABCDEFGHIJKLMNOPQRSTUVWXYZabcdefghijklmnopqrstuvwxyz0123456789+/".

Definition b64_digit (n : nat) : ascii :=
  match String.get n b64_alphabet with Some c => c | None => "="%char end.

(** Three bytes [a b c] give four digits of six bits: the top six bits
    of [a]; the low two of [a] and the top four of [b]; the low four of
    [b] and the top two of [c]; the low six of [c].  A last group of one
    or two bytes is padded with [=]. *)
Definition b64_d1 (a : byte) : nat := Byte.to_nat a / 4.
Definition b64_d2 (a b : byte) : nat := Byte.to_nat a mod 4 * 16 + Byte.to_nat b / 16.
Definition b64_d3 (b c : byte) : nat := Byte.to_nat b mod 16 * 4 + Byte.to_nat c / 64.
Definition b64_d4 (c : byte) : nat := Byte.to_nat c mod 64.

Fixpoint base64_chars (bs : list byte) : list ascii :=
  match bs with
  | a :: b :: c :: rest =>
      b64_digit (b64_d1 a) :: b64_digit (b64_d2 a b) :: b64_digit (b64_d3 b c)
        :: b64_digit (b64_d4 c) :: base64_chars rest
  | [a; b] => [b64_digit (b64_d1 a); b64_digit (b64_d2 a b); b64_digit (b64_d3 b x00); "="%char]
  | [a] => [b64_digit (b64_d1 a); b64_digit (b64_d2 a x00); "="%char; "="%char]
  | [] => []
  end.

(** [buf.toString('base64')] *)
Definition toBase64 (bs : list byte) : string := string_of_list_ascii (base64_chars bs).

(** ** [utils/crypto.ts] *)

(** [crypto.randomBytes(length).toString('hex').substring(0, length)], for
    the buffer [randomBytes] that call returned. *)
Definition generatePassword (randomBytes : list byte) (length : nat) : string :=
  String.substring 0 length (toHex randomBytes).

(** [crypto.randomBytes(length).toString('base64').substring(0, length)] *)
Definition generateSalt (randomBytes : list byte) (length : nat) : string :=
  String.substring 0 length (toBase64 randomBytes).

(** [generateWordPressKeys()]: eight salts of the default length 64, the
    [k]-th from the buffer [draw k]. *)
Definition generateWordPressKeys (draw : nat -> list byte) : list (string * string) :=
  [("AUTH_KEY", generateSalt (draw 0) 64); ("SECURE_AUTH_KEY", generateSalt (draw 1) 64);
   ("LOGGED_IN_KEY", generateSalt (draw 2) 64); ("NONCE_KEY", generateSalt (draw 3) 64);
   ("AUTH_SALT", generateSalt (draw 4) 64); ("SECURE_AUTH_SALT", generateSalt (draw 5) 64);
   ("LOGGED_IN_SALT", generateSalt (draw 6) 64); ("NONCE_SALT", generateSalt (draw 7) 64)].

(** [generateStoreSecrets()]: [draw k n] is the buffer of the [k]-th call
    to [crypto.randomBytes], which asks for [n] bytes. *)
Definition generateStoreSecrets (draw : nat -> nat -> list byte) : StoreSecrets :=
  mkStoreSecrets (generatePassword (draw 0 32) 32) (generatePassword (draw 1 32) 32)
    (generatePassword (draw 2 16) 16) (generateWordPressKeys (fun k => draw (3 + k) 64)).

(** The byte source of the executable model: the [i]-th buffer of length
    [n].  The theorems about pipelines do not depend on its values. *)
Definition urandom (i n : nat) : list byte :=
  map (fun j => match Byte.of_N ((N.of_nat i * 37 + N.of_nat j * 101 + 17) mod 256)%N with
                | Some b => b | None => x00 end) (seq 0 n).

(** ** Character classes *)

Definition is_hex_char (c : ascii) : bool :=
  let n := nat_of_ascii c in ((48 <=? n) && (n <=? 57)) || ((97 <=? n) && (n <=? 102)).

Definition is_b64_char (c : ascii) : bool :=
  let n := nat_of_ascii c in
  ((65 <=? n) && (n <=? 90)) || ((97 <=? n) && (n <=? 122)) || ((48 <=? n) && (n <=? 57))
  || (n =? 43) || (n =? 47) || (n =? 61).

(** Inside double quotes the shell gives a meaning to the double quote,
    the dollar sign, the backquote and the backslash only. *)
Definition dq_word_safe (c : ascii) : bool :=
  let n := nat_of_ascii c in negb ((n =? 34) || (n =? 36) || (n =? 96) || (n =? 92)).

(** The inverse of [toHex] ([Buffer.from(s, 'hex')] on well-formed input),
    a reference decoder for the theorems. *)
Definition hex_val (c : ascii) : option nat :=
  let n := nat_of_ascii c in
  if (48 <=? n) && (n <=? 57) then Some (n - 48)
  else if (97 <=? n) && (n <=? 102) then Some (n - 87) else None.

Fixpoint fromHex_chars (cs : list ascii) : option (list byte) :=
  match cs with
  | [] => Some []
  | h :: l :: rest =>
      match hex_val h, hex_val l with
      | Some hi, Some lo =>
          match Byte.of_nat (16 * hi + lo), fromHex_chars rest with
          | Some b, Some bs => Some (b :: bs)
          | _, _ => None
          end
      | _, _ => None
      end
  | [_] => None
  end.

Definition fromHex (s : string) : option (list byte) := fromHex_chars (list_ascii_of_string s).

(** ** Strings as lists of characters *)

Lemma substring_0_of_list n l :
  String.substring 0 n (string_of_list_ascii l) = string_of_list_ascii (firstn n l).
Proof. revert n; induction l as [|c l IH]; intros [|n]; simpl; f_equal; auto. Qed.

Lemma length_of_list l : String.length (string_of_list_ascii l) = length l.
Proof. induction l; simpl; auto. Qed.

Lemma string_of_list_inj l1 l2 : string_of_list_ascii l1 = string_of_list_ascii l2 -> l1 = l2.
Proof.
  intros H. rewrite <- (list_ascii_of_string_of_list_ascii l1), H.
  apply list_ascii_of_string_of_list_ascii.
Qed.

Lemma substring_0_chars n l :
  list_ascii_of_string (String.substring 0 n (string_of_list_ascii l)) = firstn n l.
Proof. by rewrite substring_0_of_list, list_ascii_of_string_of_list_ascii. Qed.

(** ** Digits *)

Lemma byte_div_16 b : Byte.to_nat b / 16 < 16.
Proof. pose proof (Byte.to_nat_bounded b). apply Nat.Div0.div_lt_upper_bound; lia. Qed.

Lemma byte_mod_16 b : Byte.to_nat b mod 16 < 16.
Proof. apply Nat.mod_upper_bound; lia. Qed.

Tactic Notation "below" ident(n) int_or_var(k) :=
  do k (destruct n as [|n]; [reflexivity|]); lia.

Lemma hex_val_digit n : n < 16 -> hex_val (hex_digit n) = Some n.
Proof. intros. below n 16. Qed.

Lemma hex_digit_hex n : n < 16 -> is_hex_char (hex_digit n) = true.
Proof. intros. below n 16. Qed.

Lemma b64_digit_b64 n : n < 64 -> is_b64_char (b64_digit n) = true.
Proof. intros. below n 64. Qed.

Lemma byte_of_digits b :
  Byte.of_nat (16 * (Byte.to_nat b / 16) + Byte.to_nat b mod 16) = Some b.
Proof. rewrite <- Nat.div_mod by lia. apply Byte.of_to_nat. Qed.

Lemma hex_byte_length b : length (hex_byte b) = 2.
Proof. reflexivity. Qed.

Lemma flat_map_hex_length bs : length (flat_map hex_byte bs) = 2 * length bs.
Proof. induction bs; simpl; lia. Qed.

Lemma firstn_flat_map_hex k bs :
  firstn (2 * k) (flat_map hex_byte bs) = flat_map hex_byte (firstn k bs).
Proof.
  revert bs; induction k as [|k IH]; intros [|b bs]; try reflexivity.
  replace (2 * S k) with (S (S (2 * k))) by lia. simpl. by rewrite IH.
Qed.

Lemma fromHex_chars_flat_map bs : fromHex_chars (flat_map hex_byte bs) = Some bs.
Proof.
  induction bs as [|b bs IH]; [reflexivity|]. cbn [flat_map hex_byte app fromHex_chars].
  rewrite !hex_val_digit by (apply byte_div_16 || apply byte_mod_16).
  rewrite byte_of_digits. by rewrite IH.
Qed.

Lemma Forall_flat_map_hex bs : Forall (fun c => is_hex_char c = true) (flat_map hex_byte bs).
Proof.
  induction bs as [|b bs IH]; [constructor|]. cbn [flat_map hex_byte app].
  repeat constructor; auto; apply hex_digit_hex; auto using byte_div_16, byte_mod_16.
Qed.

Lemma byte_digit_bounds b :
  Byte.to_nat b mod 4 < 4 /\ Byte.to_nat b mod 16 < 16 /\ Byte.to_nat b mod 64 < 64 /\
  Byte.to_nat b / 4 < 64 /\ Byte.to_nat b / 16 < 16 /\ Byte.to_nat b / 64 < 4.
Proof.
  pose proof (Byte.to_nat_bounded b).
  repeat split; first [apply Nat.mod_upper_bound | apply Nat.Div0.div_lt_upper_bound]; lia.
Qed.

Lemma b64_digits_lt :
  (forall a, b64_d1 a < 64) /\ (forall a b, b64_d2 a b < 64) /\
  (forall a b, b64_d3 a b < 64) /\ (forall a, b64_d4 a < 64).
Proof.
  unfold b64_d1, b64_d2, b64_d3, b64_d4. repeat split; intros a; try intros b;
    pose proof (byte_digit_bounds a); try pose proof (byte_digit_bounds b); lia.
Qed.

Lemma base64_chars_b64 bs : Forall (fun c => is_b64_char c = true) (base64_chars bs).
Proof.
  induction bs as [bs IH] using (induction_ltof1 _ (@length _)); unfold ltof in IH.
  destruct b64_digits_lt as (L1 & L2 & L3 & L4).
  destruct bs as [|a [|b [|c bs]]]; simpl; repeat constructor;
    try (apply b64_digit_b64; auto); try reflexivity.
  apply IH. simpl. lia.
Qed.

Lemma base64_chars_length bs : length bs <= length (base64_chars bs).
Proof.
  induction bs as [bs IH] using (induction_ltof1 _ (@length _)); unfold ltof in IH.
  destruct bs as [|a [|b [|c bs]]]; simpl; try lia.
  specialize (IH bs). simpl in IH. lia.
Qed.

Lemma hex_dq_safe c : is_hex_char c = true -> dq_word_safe c = true.
Proof. destruct c as [[] [] [] [] [] [] [] []]; first [reflexivity | discriminate]. Qed.

Lemma b64_dq_safe c : is_b64_char c = true -> dq_word_safe c = true.
Proof. destruct c as [[] [] [] [] [] [] [] []]; first [reflexivity | discriminate]. Qed.

(** ** Passwords and salts *)

(** [n] characters, each a lowercase hexadecimal digit (hence safe inside
    a double-quoted shell word). *)
Definition password_ok (n : nat) (s : string) : Prop :=
  String.length s = n /\ Forall (fun c => is_hex_char c = true) (list_ascii_of_string s).

(** [n] characters of the base64 alphabet or padding. *)
Definition salt_ok (n : nat) (s : string) : Prop :=
  String.length s = n /\ Forall (fun c => is_b64_char c = true) (list_ascii_of_string s).

Lemma password_firstn k bs : generatePassword bs (2 * k) = toHex (firstn k bs).
Proof. unfold generatePassword, toHex. by rewrite substring_0_of_list, firstn_flat_map_hex. Qed.

Lemma fromHex_toHex bs : fromHex (toHex bs) = Some bs.
Proof.
  unfold fromHex, toHex. rewrite list_ascii_of_string_of_list_ascii.
  apply fromHex_chars_flat_map.
Qed.

Lemma toHex_inj bs1 bs2 : toHex bs1 = toHex bs2 -> bs1 = bs2.
Proof. intros H. apply (f_equal fromHex) in H. rewrite !fromHex_toHex in H. congruence. Qed.

(** A password of [2k] characters is a function of the first [k] bytes
    drawn, and a one-to-one one. *)
Lemma generatePassword_determined k bs1 bs2 :
  generatePassword bs1 (2 * k) = generatePassword bs2 (2 * k) <-> firstn k bs1 = firstn k bs2.
Proof.
  rewrite !password_firstn. split; [apply toHex_inj|]. intros ->. reflexivity.
Qed.

Lemma generatePassword_ok bs n : length bs = n -> password_ok n (generatePassword bs n).
Proof.
  intros Hn. unfold password_ok, generatePassword, toHex.
  rewrite substring_0_chars, substring_0_of_list, length_of_list, length_firstn,
    flat_map_hex_length.
  split; [lia|]. apply Forall_take, Forall_flat_map_hex.
Qed.

Lemma generateSalt_ok bs n : length bs = n -> salt_ok n (generateSalt bs n).
Proof.
  intros Hn. unfold salt_ok, generateSalt, toBase64.
  rewrite substring_0_chars, substring_0_of_list, length_of_list, length_firstn.
  pose proof (base64_chars_length bs).
  split; [lia|]. apply Forall_take, base64_chars_b64.
Qed.

Lemma toHex_ok bs : password_ok (2 * length bs) (toHex bs).
Proof.
  unfold password_ok, toHex. rewrite length_of_list, list_ascii_of_string_of_list_ascii.
  split; [apply flat_map_hex_length|apply Forall_flat_map_hex].
Qed.

Lemma password_ok_dq_safe n s : password_ok n s -> Forall (fun c => dq_word_safe c = true) (list_ascii_of_string s).
Proof. intros [_ H]. eapply Forall_impl; [exact H|]. apply hex_dq_safe. Qed.

(** ** Properties *)

(** C40: the password of [2k] characters that [generatePassword] cuts from
    the hexadecimal rendering of [2k] drawn bytes is the rendering of the
    first [k] bytes alone; two buffers give the same password exactly when
    their first [k] bytes agree. *)
Theorem generatePassword_half k bs bs' :
  generatePassword bs (2 * k) = toHex (firstn k bs) /\
  (generatePassword bs (2 * k) = generatePassword bs' (2 * k) <-> firstn k bs = firstn k bs').
Proof. split; [apply password_firstn | apply generatePassword_determined]. Qed.

(** The hexadecimal rendering [buf.toString('hex')] loses nothing:
    decoding it gives the buffer back. *)
Theorem toHex_roundtrip bs : fromHex (toHex bs) = Some bs.
Proof. exact (fromHex_toHex bs). Qed.

(** When every call to [crypto.randomBytes(n)] returns [n] bytes,
    [generateStoreSecrets] gives MySQL passwords of 32 and an admin
    password of 16 lowercase hexadecimal digits (safe in the double-quoted
    [--admin_password] argument of the setup script), and the eight
    WordPress keys and salts, in the order of the object literal, each of
    64 base64 characters. *)
Theorem generateStoreSecrets_shape draw (Hdraw : forall k n, length (draw k n) = n) :
  let s := generateStoreSecrets draw in
  password_ok 32 (mysqlRootPassword s) /\ password_ok 32 (mysqlPassword s) /\
  password_ok 16 (wpAdminPassword s) /\
  map fst (wpKeys s) = ["AUTH_KEY"; "SECURE_AUTH_KEY"; "LOGGED_IN_KEY"; "NONCE_KEY";
                        "AUTH_SALT"; "SECURE_AUTH_SALT"; "LOGGED_IN_SALT"; "NONCE_SALT"] /\
  Forall (fun kv => salt_ok 64 kv.2) (wpKeys s).
Proof.
  cbn zeta. refine (conj (generatePassword_ok _ _ (Hdraw 0 32))
    (conj (generatePassword_ok _ _ (Hdraw 1 32)) (conj (generatePassword_ok _ _ (Hdraw 2 16))
    (conj eq_refl _)))).
  repeat apply Forall_cons_2; try apply Forall_nil_2; apply generateSalt_ok, Hdraw.
Qed.

Lemma generateStoreSecrets_shape_witness :
  (forall k n, length (urandom k n) = n) /\ password_ok 16 (wpAdminPassword (generateStoreSecrets urandom)).
Proof.
  assert (H : forall k n, length (urandom k n) = n)
    by (intros; unfold urandom; by rewrite length_map, length_seq).
  split; [exact H|]. apply (generateStoreSecrets_shape urandom H).
Defined.

End Crypto.
