(* ===== verification/Cluster.v ===== *)
(** * Cluster: the gateway to the control plane ([k8s/client.ts])

    The core reaches the cluster only through the API clients of
    [k8s/client.ts].  [ClusterApi] is that interface, as a type class over
    the cluster's state: every [createNamespaced<Kind>] call and
    [createNamespace] is [create] of a [Resource]; the reads the readiness
    waits poll are pure in the state and depend on the time of the call
    (the cluster reconciles on its own); [deleteNamespace] changes the
    state.  [ClusterLaws] is what the core relies on: a successful create
    leaves the resource present, [409 Conflict] is the answer exactly when
    the resource was present, and then nothing changes, and a create
    neither removes nor adds any other resource.  The
    pipelines are verified against these two classes; [SimCluster]
    implements them. The resources sent are those of
    [Manifests]. *)

From S2P Require Import Prelude Model Manifests.
Local Open Scope string_scope.

Module Cluster.
Import Manifests.

(** [deployment.status?.readyReplicas] and [deployment.spec?.replicas] *)
Record DeploymentStatus := mkDeploymentStatus {
  readyReplicas : option Z;
  replicas : option Z
}.

(** [job.status?.succeeded] and [job.status?.failed] *)
Record JobStatus := mkJobStatus {
  succeeded : option Z;
  failed : option Z
}.

(** The calls of [k8s/client.ts] the core makes; the first argument of
    each is the time of the call in milliseconds. *)
Class ClusterApi (C : Type) := {
  create : Z -> Resource -> C -> outcome Error unit * C;
  readNamespacedDeployment : Z -> string -> string -> C -> outcome Error DeploymentStatus;
  readNamespacedJob : Z -> string -> string -> C -> outcome Error JobStatus;
  deleteNamespace : Z -> string -> C -> outcome Error unit * C;
  readNamespace : Z -> string -> C -> outcome Error unit
}.

Class ClusterLaws (C : Type) `{ClusterApi C} := {
  present : C -> ResKey -> Prop;
  create_ok_present : forall now r c c',
    create now r c = (Ok tt, c') -> present c' (key r);
  create_conflict : forall now r c e c',
    create now r c = (Err e, c') -> is_conflict e = true -> present c (key r) /\ c' = c;
  create_present : forall now r c,
    present c (key r) -> exists e, create now r c = (Err e, c) /\ is_conflict e = true;
  create_preserves : forall now r c o c' k,
    create now r c = (o, c') -> present c k -> present c' k;
  create_frame : forall now r c o c' k,
    create now r c = (o, c') -> k <> key r -> present c' k -> present c k
}.

End Cluster.
