(* ===== verification/SimCluster.v ===== *)
(** * SimCluster: an executable cluster that implements [ClusterApi]

    A small control plane used to run the pipelines on concrete inputs and
    to show that [ClusterLaws] is satisfiable: the objects by key with
    their creation time, and the namespaces being deleted with the time
    their deletion completes.  Its behaviour is configured per cluster:
    how long deployments take to become ready, what the setup job reports
    a given time after its creation, and errors to inject on creates.

    It follows the API server where the core depends on it: a create of an
    existing object answers [409], a create into a namespace that does not
    exist answers [404] and into a terminating one [403]; a read of an
    absent object answers [404]; a namespace is readable until its
    deletion completes.  An object of a namespace whose deletion has
    completed stays in the map (its namespace is never recreated in the
    runs the development makes). *)

From S2P Require Import Prelude Model Manifests Cluster.
Local Open Scope Z_scope.
Local Open Scope string_scope.

Module SimCluster.
Import Manifests Cluster.

Record SimConfig := mkSimConfig {
  (** milliseconds from its creation until a deployment has its replicas ready;
      [None]: never *)
  deploy_ready_after : string -> option Z;
  (** the status of the setup job, by milliseconds since its creation *)
  job_status_after : Z -> JobStatus;
  (** milliseconds from a namespace's deletion until it is gone *)
  namespace_gc_after : Z;
  (** an error a create answers with, whatever the state *)
  create_fault : ResKey -> option Error
}.

Record Sim := mkSim {
  sim_cfg : SimConfig;
  objects : gmap ResKey (Resource * Z);
  terminating : gmap string Z
}.

Definition conflict_error : Error := HttpError (Some 409) "HTTP request failed".
Definition not_found_error : Error := HttpError (Some 404) "HTTP request failed".
Definition forbidden_error : Error := HttpError (Some 403) "HTTP request failed".

Definition ns_key (ns : string) : ResKey := (Namespace, ns, ns).

Definition ns_exists (s : Sim) (ns : string) : bool :=
  bool_decide (is_Some (objects s !! ns_key ns)).

Definition ns_terminating (s : Sim) (ns : string) : bool :=
  bool_decide (is_Some (terminating s !! ns)).

Definition sim_create (now : Z) (r : Resource) (s : Sim) : outcome Error unit * Sim :=
  let k := key r in
  let add := mkSim (sim_cfg s) (<[k := (r, now)]> (objects s)) (terminating s) in
  if ns_terminating s (namespace r) then (Err forbidden_error, s)
  else if bool_decide (is_Some (objects s !! k)) then (Err conflict_error, s)
  else match create_fault (sim_cfg s) k with
  | Some e => if is_conflict e then (Err forbidden_error, s) else (Err e, s)
  | None =>
      if bool_decide (kind r = Namespace) then (Ok tt, add)
      else if ns_exists s (namespace r) then (Ok tt, add)
      else (Err not_found_error, s)
  end.

Definition sim_read_deployment (now : Z) (name ns : string) (s : Sim)
    : outcome Error DeploymentStatus :=
  match objects s !! (Deployment, ns, name) with
  | Some (_, created) =>
      let ready := match deploy_ready_after (sim_cfg s) name with
                   | Some d => bool_decide (created + d <= now)
                   | None => false
                   end in
      Ok (mkDeploymentStatus (if ready then Some 1 else None) (Some 1))
  | None => Err not_found_error
  end.

Definition sim_read_job (now : Z) (name ns : string) (s : Sim) : outcome Error JobStatus :=
  match objects s !! (Job, ns, name) with
  | Some (_, created) => Ok (job_status_after (sim_cfg s) (now - created))
  | None => Err not_found_error
  end.

Definition sim_delete_namespace (now : Z) (ns : string) (s : Sim) : outcome Error unit * Sim :=
  if negb (ns_exists s ns) then (Err not_found_error, s)
  else if ns_terminating s ns then (Ok tt, s)
  else (Ok tt, mkSim (sim_cfg s) (objects s)
                     (<[ns := now + namespace_gc_after (sim_cfg s)]> (terminating s))).

Definition sim_read_namespace (now : Z) (ns : string) (s : Sim) : outcome Error unit :=
  if negb (ns_exists s ns) then Err not_found_error
  else match terminating s !! ns with
       | Some gone => if bool_decide (gone <= now) then Err not_found_error else Ok tt
       | None => Ok tt
       end.

#[export] Instance sim_api : ClusterApi Sim := {|
  create := sim_create;
  readNamespacedDeployment := sim_read_deployment;
  readNamespacedJob := sim_read_job;
  deleteNamespace := sim_delete_namespace;
  readNamespace := sim_read_namespace
|}.

(** A cluster holding the given objects, all created at time 0. *)
Definition sim_of (cfg : SimConfig) (objs : list Resource) : Sim :=
  mkSim cfg (list_to_map ((fun r => (key r, (r, 0))) <$> objs)) ∅.

(** An object is present when it exists and its namespace is not being
    deleted. *)
Definition sim_present (s : Sim) (k : ResKey) : Prop :=
  is_Some (objects s !! k) /\ terminating s !! k.1.2 = None.

Lemma sim_create_cases now r s :
  sim_create now r s = (Ok tt, mkSim (sim_cfg s) (<[key r := (r, now)]> (objects s)) (terminating s)) /\
    ns_terminating s (namespace r) = false
  \/ (exists e, sim_create now r s = (Err e, s) /\
       (is_conflict e = true -> is_Some (objects s !! key r) /\
                                ns_terminating s (namespace r) = false)).
Proof.
  unfold sim_create.
  destruct (ns_terminating s _) eqn:Ht; [right; by eexists|].
  case_bool_decide as Hp; [right; eexists; split; [done|]; done|].
  destruct (create_fault _ _) as [e|].
  { right. destruct (is_conflict e) eqn:He; eexists; (split; [done|]); [done|]. by rewrite He. }
  case_bool_decide; [by left|]. destruct (ns_exists s _); [by left|right; by eexists].
Qed.

Lemma ns_terminating_false s ns : ns_terminating s ns = false -> terminating s !! ns = None.
Proof. unfold ns_terminating. case_bool_decide as H; [done|]. intros _. by apply eq_None_not_Some. Qed.

#[export] Instance sim_laws : ClusterLaws Sim.
Proof.
  refine {| present := sim_present |}; cbn.
  - intros now r c c' H. destruct (sim_create_cases now r c) as [[E Ht] | (e & E & _)];
      rewrite E in H; [|done]. injection H as <-.
    split; [cbn; by rewrite lookup_insert_eq|]. by apply ns_terminating_false.
  - intros now r c e c' H Hc. destruct (sim_create_cases now r c) as [[E _] | (e' & E & He)];
      rewrite E in H; [done|]. injection H as <- <-.
    destruct (He Hc) as [Hp Ht]. split; [|done]. split; [done|]. by apply ns_terminating_false.
  - intros now r c [Hk Ht]. exists conflict_error. split; [|done]. cbn in Ht.
    cbn. unfold sim_create, ns_terminating. rewrite bool_decide_false by (rewrite Ht; by intros []).
    by rewrite bool_decide_true.
  - intros now r c o c' k H [Hk Ht].
    destruct (sim_create_cases now r c) as [[E _] | (e & E & _)]; rewrite E in H;
      injection H as <- <-; [|done].
    split; [|done]. cbn. rewrite lookup_insert. case_decide; [done|]. done.
  - intros now r c o c' k H Hne [Hk Ht].
    destruct (sim_create_cases now r c) as [[E _] | (e & E & _)]; rewrite E in H;
      injection H as <- <-; [|done].
    split; [|done]. cbn in Hk. by rewrite lookup_insert_ne in Hk.
Defined.

(** ** A cooperative cluster

    A cluster whose API server accepts every create of an absent object
    (namespaces need not exist first), whose deployments are ready and
    whose jobs have succeeded as soon as they exist, and which removes a
    namespace and its objects at once.  It is the cluster the pipeline
    theorems' hypotheses describe. *)
Module IdealCluster.

Record Ideal := mkIdeal { ideal_objs : gset ResKey }.

Definition ideal_create (now : Z) (r : Resource) (s : Ideal) : outcome Error unit * Ideal :=
  if bool_decide (key r ∈ ideal_objs s) then (Err conflict_error, s)
  else (Ok tt, mkIdeal ({[key r]} ∪ ideal_objs s)).

Definition ideal_read_deployment (now : Z) (name ns : string) (s : Ideal)
    : outcome Error DeploymentStatus :=
  if bool_decide ((Deployment, ns, name) ∈ ideal_objs s)
  then Ok (mkDeploymentStatus (Some 1) (Some 1)) else Err not_found_error.

Definition ideal_read_job (now : Z) (name ns : string) (s : Ideal) : outcome Error JobStatus :=
  if bool_decide ((Job, ns, name) ∈ ideal_objs s)
  then Ok (mkJobStatus (Some 1) None) else Err not_found_error.

Definition ideal_delete_namespace (now : Z) (ns : string) (s : Ideal) : outcome Error unit * Ideal :=
  if bool_decide (ns_key ns ∈ ideal_objs s)
  then (Ok tt, mkIdeal (filter (fun k : ResKey => k.1.2 <> ns) (ideal_objs s)))
  else (Err not_found_error, s).

Definition ideal_read_namespace (now : Z) (ns : string) (s : Ideal) : outcome Error unit :=
  if bool_decide (ns_key ns ∈ ideal_objs s) then Ok tt else Err not_found_error.

#[export] Instance ideal_api : ClusterApi Ideal := {|
  create := ideal_create;
  readNamespacedDeployment := ideal_read_deployment;
  readNamespacedJob := ideal_read_job;
  deleteNamespace := ideal_delete_namespace;
  readNamespace := ideal_read_namespace
|}.

#[export] Instance ideal_laws : ClusterLaws Ideal.
Proof.
  refine {| present := fun s k => k ∈ ideal_objs s |}; cbn; unfold ideal_create.
  - intros now r c c'. case_bool_decide; [done|]. intros [= <-]. cbn. set_solver.
  - intros now r c e c'. case_bool_decide; [|done]. by intros [= _ <-].
  - intros now r c Hp. exists conflict_error. by rewrite bool_decide_true.
  - intros now r c o c' k. case_bool_decide; intros [= _ <-]; cbn; set_solver.
  - intros now r c o c' k. case_bool_decide; intros [= _ <-]; cbn; set_solver.
Defined.

(** Every create answers [Ok] or [409]. *)
Lemma ideal_create_benign now r c :
  (exists c', create now r c = (Ok tt, c')) \/
  (exists e c', create now r c = (Err e, c') /\ is_conflict e = true).
Proof.
  cbn. unfold ideal_create. case_bool_decide; [right; by do 2 eexists|left; by eexists].
Qed.

End IdealCluster.

End SimCluster.
