(* ===== verification/Wait.v ===== *)
(** * Wait: the deadline-bounded poll loops

    [waitForDeploymentReady] and [waitForJobComplete]
    ([services/provisioners/woocommerceProvisioner.ts]) and
    [waitForNamespaceDeletion] ([services/cleanupService.ts]) share one
    shape: compute [deadline = Date.now() + timeoutSeconds * 1000], then
    [while (Date.now() < deadline) { probe the cluster; await sleep(interval) }]
    and throw a timeout.  [poll] is that loop, over a virtual clock in
    milliseconds that only the sleeps advance (cluster calls take no
    time); each wait is [poll] with its own probe, interval, deadline and
    error.  The probe is the body of the [try]/[catch] of each loop.

    [poll] recurses on fuel; [poll_fuel] gives it one unit per
    millisecond before the deadline and one more, which is enough for any
    positive interval ([poll_fuel_enough]): more fuel never changes the
    result.  [poll_spec] characterises a run declaratively (the probes at
    the times [now + k * interval] before the deadline, then the first one
    that stops the loop, or the timeout at the first time past the
    deadline), and the corollaries give the timeout bound of the
    deployment wait and the [JobFailed] result of the job wait. *)

From S2P Require Import Prelude Model Manifests Cluster SimCluster.
Local Open Scope Z_scope.

Module Wait.
Import Manifests Cluster.

(** What one pass of the loop body decides. *)
Inductive Probe := Done | Fail (e : Error) | Continue.

Fixpoint poll (fuel : nat) (probe : Z -> Probe) (interval deadline : Z)
    (timeout : Error) (now : Z) : outcome Error unit * Z :=
  match fuel with
  | O => (Err timeout, now)
  | S fuel' =>
      if bool_decide (now < deadline) then
        match probe now with
        | Done => (Ok tt, now)
        | Fail e => (Err e, now)
        | Continue => poll fuel' probe interval deadline timeout (now + interval)
        end
      else (Err timeout, now)
  end.

Definition poll_fuel (deadline now : Z) : nat := S (Z.to_nat (deadline - now)).

(** JavaScript's [x || d] on an optional number: [undefined] and [0] are
    falsy. *)
Definition js_or (x : option Z) (d : Z) : Z :=
  match x with
  | Some n => if bool_decide (n = 0) then d else n
  | None => d
  end.

(** [x && x >= n] on an optional count. *)
Definition js_at_least (x : option Z) (n : Z) : bool :=
  match x with
  | Some v => bool_decide (v <> 0) && bool_decide (n <= v)
  | None => false
  end.

Section Probes.
Context `{ClusterApi C} (c : C).

(** The body of [waitForDeploymentReady]: a read error means the
    deployment may not exist yet, and the loop goes on. *)
Definition deployment_probe (ns name : string) (now : Z) : Probe :=
  match readNamespacedDeployment now name ns c with
  | Ok d =>
      let ready := js_or (readyReplicas d) 0 in
      let desired := js_or (replicas d) 1 in
      if bool_decide (desired <= ready) then Done else Continue
  | Err _ => Continue
  end.

Definition waitForDeploymentReady (ns name : string) (timeoutSeconds now : Z)
    : outcome Error unit * Z :=
  let deadline := now + timeoutSeconds * 1000 in
  poll (poll_fuel deadline now) (deployment_probe ns name) 5000 deadline
       (DeploymentTimeout name ns timeoutSeconds) now.

(** The body of [waitForJobComplete]: the [JobFailed] error thrown in
    the [try] is caught and rethrown because its message includes
    ["failed after"]; so is a read error whose message does. *)
Definition job_probe (ns name : string) (now : Z) : Probe :=
  match readNamespacedJob now name ns c with
  | Ok j =>
      if js_at_least (succeeded j) 1 then Done
      else if js_at_least (failed j) 3 then
        (if includes (message (JobFailed name)) "failed after" then Fail (JobFailed name)
         else Continue)
      else Continue
  | Err e => if includes (message e) "failed after" then Fail e else Continue
  end.

Definition waitForJobComplete (ns name : string) (timeoutSeconds now : Z)
    : outcome Error unit * Z :=
  let deadline := now + timeoutSeconds * 1000 in
  poll (poll_fuel deadline now) (job_probe ns name) 10000 deadline
       (JobTimeout name ns timeoutSeconds) now.

(** The body of [waitForNamespaceDeletion]: [404] ends the wait, any
    other error is rethrown. *)
Definition namespace_probe (ns : string) (now : Z) : Probe :=
  match readNamespace now ns c with
  | Ok _ => Continue
  | Err e => if is_not_found e then Done else Fail e
  end.

Definition waitForNamespaceDeletion (ns : string) (timeoutSeconds now : Z)
    : outcome Error unit * Z :=
  let deadline := now + timeoutSeconds * 1000 in
  poll (poll_fuel deadline now) (namespace_probe ns) 3000 deadline
       (NamespaceDeletionTimeout ns timeoutSeconds) now.
End Probes.

(** ** The loop *)

Section PollTheory.
Variables (probe : Z -> Probe) (interval deadline : Z) (timeout : Error).
Hypothesis interval_pos : 0 < interval.

Lemma poll_fuel_stable f1 f2 now :
  (Z.to_nat (deadline - now) < f1)%nat -> (Z.to_nat (deadline - now) < f2)%nat ->
  poll f1 probe interval deadline timeout now = poll f2 probe interval deadline timeout now.
Proof.
  revert f2 now. induction f1 as [|f1 IH]; intros [|f2] now H1 H2; try lia.
  simpl. case_bool_decide; [|done]. destruct (probe now); try done.
  apply IH; lia.
Qed.


(** The probes at the first [k] poll times all said [Continue], before
    the deadline. *)
Definition continued (now : Z) (k : nat) : Prop :=
  forall i, (i < k)%nat ->
    now + Z.of_nat i * interval < deadline /\
    probe (now + Z.of_nat i * interval) = Continue.

Lemma continued_S now k :
  now < deadline -> probe now = Continue -> continued (now + interval) k ->
  continued now (S k).
Proof.
  intros Hlt Hp Hc [|i] Hi.
  - rewrite Z.add_0_r. by split.
  - destruct (Hc i ltac:(lia)) as [H1 H2].
    replace (now + Z.of_nat (S i) * interval) with (now + interval + Z.of_nat i * interval) by lia.
    by split.
Qed.

Lemma poll_spec_fuel fuel now r t :
  (Z.to_nat (deadline - now) < fuel)%nat ->
  poll fuel probe interval deadline timeout now = (r, t) ->
  exists k, t = now + Z.of_nat k * interval /\ continued now k /\
    ((t < deadline /\ probe t = Done /\ r = Ok tt) \/
     (exists e, t < deadline /\ probe t = Fail e /\ r = Err e) \/
     (deadline <= t /\ r = Err timeout)).
Proof.
  revert now. induction fuel as [|fuel IH]; intros now Hf; [lia|]. simpl.
  case_bool_decide as Hlt.
  - destruct (probe now) as [|e|] eqn:Hp.
    + intros [= <- <-]. exists 0%nat. split; [lia|]. split; [intros i; lia|]. left. by rewrite Hp.
    + intros [= <- <-]. exists 0%nat. split; [lia|]. split; [intros i; lia|].
      right; left. exists e. by rewrite Hp.
    + intros Hrun. destruct (IH (now + interval) ltac:(lia) Hrun) as (k & Ht & Hc & Hcase).
      exists (S k). split; [lia|]. split; [by apply continued_S|done].
  - intros [= <- <-]. exists 0%nat. split; [lia|]. split; [intros i; lia|].
    right; right. split; [lia|done].
Qed.

(** A run of the loop, declaratively: it ends at a poll time
    [now + k * interval]; every earlier probe was before the deadline and
    said [Continue]; and the loop returned because the probe at that
    time said [Done] or failed, before the deadline, or because that time
    is past the deadline, with the timeout error. *)
Theorem poll_spec now r t :
  poll (poll_fuel deadline now) probe interval deadline timeout now = (r, t) ->
  exists k, t = now + Z.of_nat k * interval /\ continued now k /\
    ((t < deadline /\ probe t = Done /\ r = Ok tt) \/
     (exists e, t < deadline /\ probe t = Fail e /\ r = Err e) \/
     (deadline <= t /\ r = Err timeout)).
Proof. apply poll_spec_fuel. unfold poll_fuel. lia. Qed.

(** A probe that never stops the loop: the timeout comes at the first
    poll time past the deadline, so before [deadline + interval]. *)
Lemma poll_all_continue now :
  now < deadline -> (forall t, t < deadline -> probe t = Continue) ->
  exists t, poll (poll_fuel deadline now) probe interval deadline timeout now = (Err timeout, t) /\
            deadline <= t < deadline + interval.
Proof.
  intros Hlt Hall.
  destruct (poll _ _ _ _ _ _) as [r t] eqn:E. exists t.
  destruct (poll_spec_fuel (poll_fuel deadline now) now r t ltac:(unfold poll_fuel; lia) E)
    as (k & Ht & Hc & Hcase).
  destruct Hcase as [(Hd & Hp & _) | [(e & Hd & Hp & _) | (Hle & ->)]];
    [by rewrite Hall in Hp | by rewrite Hall in Hp |].
  split; [done|]. split; [done|].
  destruct k as [|k]; [lia|]. destruct (Hc k ltac:(lia)) as [Hk _]. lia.
Qed.

Definition probe_outcome (p : Probe) (t : Z) : outcome Error unit * Z :=
  match p with
  | Done => (Ok tt, t)
  | Fail e => (Err e, t)
  | Continue => (Err timeout, t)
  end.

(** The loop stops at the first poll time whose probe does not say
    [Continue], when that time is before the deadline. *)
Lemma poll_first_stop k now :
  continued now k -> now + Z.of_nat k * interval < deadline ->
  probe (now + Z.of_nat k * interval) <> Continue ->
  poll (poll_fuel deadline now) probe interval deadline timeout now =
  probe_outcome (probe (now + Z.of_nat k * interval)) (now + Z.of_nat k * interval).
Proof.
  revert now. induction k as [|k IH]; intros now Hc Hlt Hp.
  - rewrite Z.add_0_r in *. simpl. rewrite bool_decide_true by lia.
    by destruct (probe now).
  - destruct (Hc 0%nat ltac:(lia)) as [H0 Hp0]. rewrite Z.add_0_r in H0, Hp0.
    unfold poll_fuel. simpl. rewrite bool_decide_true, Hp0 by done.
    rewrite (poll_fuel_stable _ (poll_fuel deadline (now + interval))) by (unfold poll_fuel; lia).
    replace (now + Z.of_nat (S k) * interval) with (now + interval + Z.of_nat k * interval) in * by lia.
    apply IH; [|done|done].
    intros i Hi. destruct (Hc (S i) ltac:(lia)) as [H1 H2].
    replace (now + Z.of_nat (S i) * interval) with (now + interval + Z.of_nat i * interval) in * by lia.
    by split.
Qed.
End PollTheory.


Lemma poll_spec_witness :
  exists k, 5000 = 0 + Z.of_nat k * 5000 /\
    continued (fun t => if bool_decide (t < 5000) then Continue else Done) 5000 7000 0 k /\
    ((5000 < 7000 /\ (if bool_decide (5000 < 5000) then Continue else Done) = Done /\
      (Ok tt : outcome Error unit) = Ok tt) \/
     (exists e, 5000 < 7000 /\ (if bool_decide (5000 < 5000) then Continue else Done) = Fail e /\
                (Ok tt : outcome Error unit) = Err e) \/
     (7000 <= 5000 /\ (Ok tt : outcome Error unit) = Err (DeploymentTimeout "mysql" "store-demo" 7))).
Proof.
  apply (poll_spec (fun t => if bool_decide (t < 5000) then Continue else Done) 5000 7000
           (DeploymentTimeout "mysql" "store-demo" 7) ltac:(lia)).
  vm_compute. reflexivity.
Defined.

(** ** The three waits *)

Section Waits.
Context `{ClusterApi C} (c : C).

(** A deployment that never reports its replicas ready makes
    [waitForDeploymentReady] throw its timeout error, at a time within
    one poll interval (5 s) after the deadline. *)
Theorem waitForDeploymentReady_timeout ns name secs now :
  0 < secs ->
  (forall t d, readNamespacedDeployment t name ns c = Ok d ->
               js_or (readyReplicas d) 0 < js_or (replicas d) 1) ->
  exists t, waitForDeploymentReady c ns name secs now =
            (Err (DeploymentTimeout name ns secs), t) /\
            now + secs * 1000 <= t < now + secs * 1000 + 5000.
Proof.
  intros Hsecs Hnever. apply poll_all_continue; [lia|lia|].
  intros t _. unfold deployment_probe.
  destruct (readNamespacedDeployment t name ns c) as [d|] eqn:E; [|done].
  specialize (Hnever t d E). by rewrite bool_decide_false by lia.
Qed.

(** A setup job that has not succeeded at any poll and first
    reports three failed attempts at the [k]-th poll, before the
    deadline, makes [waitForJobComplete] throw [JobFailed] at that poll,
    not the timeout. *)
Theorem waitForJobComplete_failed ns name secs now k :
  (forall i, (i <= k)%nat -> exists j,
      readNamespacedJob (now + Z.of_nat i * 10000) name ns c = Ok j /\
      js_at_least (succeeded j) 1 = false /\
      js_at_least (failed j) 3 = bool_decide (i = k)) ->
  now + Z.of_nat k * 10000 < now + secs * 1000 ->
  waitForJobComplete c ns name secs now = (Err (JobFailed name), now + Z.of_nat k * 10000).
Proof.
  intros Hjob Hdl. unfold waitForJobComplete.
  assert (Hk : job_probe c ns name (now + Z.of_nat k * 10000) = Fail (JobFailed name)).
  { destruct (Hjob k ltac:(lia)) as (j & E & Hs & Hf). unfold job_probe.
    rewrite E, Hs, Hf, bool_decide_true, JobFailed_includes by done. done. }
  rewrite (poll_first_stop (job_probe c ns name) 10000 (now + secs * 1000)
             (JobTimeout name ns secs) ltac:(lia) k); [by rewrite Hk| |done|by rewrite Hk].
  intros i Hi. split; [lia|].
  destruct (Hjob i ltac:(lia)) as (j & E & Hs & Hf). unfold job_probe.
  rewrite E, Hs, Hf, bool_decide_false by lia. done.
Qed.

(** A wait whose first probe succeeds returns at once. *)
Lemma waitForDeploymentReady_now ns name secs now d :
  0 < secs -> readNamespacedDeployment now name ns c = Ok d ->
  js_or (replicas d) 1 <= js_or (readyReplicas d) 0 ->
  waitForDeploymentReady c ns name secs now = (Ok tt, now).
Proof.
  intros Hs E Hr. unfold waitForDeploymentReady, poll_fuel. cbn [poll].
  rewrite bool_decide_true by lia. unfold deployment_probe. rewrite E.
  by rewrite bool_decide_true.
Qed.

Lemma waitForJobComplete_now ns name secs now j :
  0 < secs -> readNamespacedJob now name ns c = Ok j -> js_at_least (succeeded j) 1 = true ->
  waitForJobComplete c ns name secs now = (Ok tt, now).
Proof.
  intros Hs E Hj. unfold waitForJobComplete, poll_fuel. cbn [poll].
  rewrite bool_decide_true by lia. unfold job_probe. by rewrite E, Hj.
Qed.
End Waits.

(** The cooperative cluster: its waits succeed at once for objects that
    exist. *)
Section Ideal.
Import SimCluster IdealCluster.

Lemma ideal_deployment_ready (c : Ideal) now ns name t :
  0 < t -> (Deployment, ns, name) ∈ ideal_objs c ->
  exists t', waitForDeploymentReady c ns name t now = (Ok tt, t').
Proof.
  intros Ht Hp. exists now.
  apply (waitForDeploymentReady_now _ _ _ _ _ (mkDeploymentStatus (Some 1) (Some 1)) Ht); [|done].
  cbn. unfold ideal_read_deployment. by rewrite bool_decide_true.
Qed.

Lemma ideal_job_completes (c : Ideal) now ns name t :
  0 < t -> (Job, ns, name) ∈ ideal_objs c ->
  exists t', waitForJobComplete c ns name t now = (Ok tt, t').
Proof.
  intros Ht Hp. exists now.
  apply (waitForJobComplete_now _ _ _ _ _ (mkJobStatus (Some 1) None) Ht); [|done].
  cbn. unfold ideal_read_job. by rewrite bool_decide_true.
Qed.
End Ideal.

Section Witnesses.
Import SimCluster.

Definition never_ready_cfg : SimConfig :=
  mkSimConfig (fun _ => None) (fun _ => mkJobStatus None (Some 3)) 6000 (fun _ => None).

Definition failing_job_sim : Sim :=
  sim_of never_ready_cfg
    [buildMySQLDeployment Config.default "store-demo"; buildWooCommerceSetupJob Config.default "store-demo"
       (mkStoreResourceConfig "store-demo" "demo" "Demo" "a@b.c" "http://demo" "pw")].

Lemma waitForDeploymentReady_timeout_witness :
  exists t, waitForDeploymentReady failing_job_sim "store-demo" "mysql" 120 0 =
            (Err (DeploymentTimeout "mysql" "store-demo" 120), t) /\
            0 + 120 * 1000 <= t < 0 + 120 * 1000 + 5000.
Proof.
  apply waitForDeploymentReady_timeout; [lia|].
  intros t d H. vm_compute in H. injection H as <-. vm_compute. reflexivity.
Defined.

Lemma waitForJobComplete_failed_witness :
  waitForJobComplete failing_job_sim "store-demo" "woocommerce-setup" 300 0 =
  (Err (JobFailed "woocommerce-setup"), 0 + Z.of_nat 0 * 10000).
Proof.
  apply waitForJobComplete_failed; [|lia].
  intros i Hi. assert (i = 0%nat) as -> by lia. eexists. split; [reflexivity|]. done.
Defined.
End Witnesses.

End Wait.
