(* ===== verification/World.v ===== *)
(** * World: the state the pipelines run against, and their primitive steps

    A pipeline run reads and writes three things: the SQLite database
    ([Repository.Db]), the cluster (any [ClusterApi] instance), and the
    wall clock, in milliseconds, that [Date.now()] reads and [sleep]
    advances; [generateStoreSecrets] also draws on the randomness of
    [crypto.randomBytes], which the world supplies as a counter of the
    secrets drawn so far.  [PM C A] is the monad of [Prelude] over this
    world with the program's [Error] values.

    The primitive steps are the repository functions at the current time
    (SQLite's [datetime('now')] is the clock in seconds), the cluster calls
    at the current time, and the waits of [Wait], which advance the clock
    to the time they end at.  [ignore_conflict] is the pattern the
    WooCommerce pipeline repeats for most creates:
    [try { await create(...) } catch (err) { if (err?.response?.statusCode !== 409) throw err; }]. *)

From S2P Require Import Prelude Model Manifests Crypto Repository Cluster Wait.
Local Open Scope string_scope.

Module World.
Import Manifests Repository Cluster.

Record World (C : Type) := mkWorld {
  db : Db;
  cluster : C;
  clock : Z;
  entropy : nat
}.
Arguments mkWorld {C} _ _ _ _.
Arguments db {C} _.
Arguments cluster {C} _.
Arguments clock {C} _.
Arguments entropy {C} _.

Definition PM (C A : Type) : Type := stM (World C) Error A.

Section Steps.
Context {C : Type} `{ClusterApi C}.

Definition set_db (d : Db) (w : World C) : World C := mkWorld d (cluster w) (clock w) (entropy w).
Definition set_cluster (c : C) (w : World C) : World C := mkWorld (db w) c (clock w) (entropy w).
Definition set_clock (t : Z) (w : World C) : World C := mkWorld (db w) (cluster w) t (entropy w).

(** [datetime('now')] *)
Definition now_seconds (w : World C) : timestamp := (clock w / 1000)%Z.

Definition db_step (f : timestamp -> Db -> Db) : PM C unit :=
  modify (fun w => set_db (f (now_seconds w) (db w)) w).

Definition logEvent (storeId step : string) (status : EventStatus) (message : string) : PM C unit :=
  db_step (fun now d => snd (Repository.logEvent storeId step status message now d)).

Definition updateStoreStatus (id : string) (status : StoreStatus) (em : option string) : PM C unit :=
  db_step (fun _ d => Repository.updateStoreStatus id status em d).

Definition updateStoreReady (id url adminUrl adminPassword : string) : PM C unit :=
  db_step (fun now d => Repository.updateStoreReady id url adminUrl adminPassword now d).

Definition deleteEventsByStoreId (id : string) : PM C unit :=
  db_step (fun _ d => Repository.deleteEventsByStoreId id d).

Definition deleteStore (id : string) : PM C unit :=
  db_step (fun _ d => Repository.deleteStore id d).

Definition getStoreById (id : string) : PM C (option Store.t) :=
  gets (fun w => Repository.getStoreById id (db w)).

(** [await api.create...(...)] *)
Definition k8s_create (r : Resource) : PM C unit :=
  fun w => let '(o, c') := create (clock w) r (cluster w) in (o, set_cluster c' w).

Definition k8s_deleteNamespace (ns : string) : PM C unit :=
  fun w => let '(o, c') := deleteNamespace (clock w) ns (cluster w) in (o, set_cluster c' w).

(** A wait of [Wait], started now, ending at the time it returns. *)
Definition await_wait (f : C -> Z -> outcome Error unit * Z) : PM C unit :=
  fun w => let '(o, t) := f (cluster w) (clock w) in (o, set_clock t w).

Definition ignore_conflict (c : PM C unit) : PM C unit :=
  catch c (fun err => if is_conflict err then mret tt else throw err).

(** [generateStoreSecrets()]: the [n]-th generation draws the buffers
    [urandom (11 n + k)] for its eleven calls [k] to [crypto.randomBytes]. *)
Definition secrets_of (n : nat) : StoreSecrets :=
  Crypto.generateStoreSecrets (fun k len => Crypto.urandom (11 * n + k) len).
Arguments secrets_of : simpl never.

Definition generateStoreSecrets : PM C StoreSecrets :=
  fun w => (Ok (secrets_of (entropy w)), mkWorld (db w) (cluster w) (clock w) (S (entropy w))).
End Steps.

(** The run equations of [Prelude] at the type [PM C], for rewriting. *)
Section PMRuns.
Context {C : Type}.

Lemma pm_bind_ok {A B} (m : PM C A) (k : A -> PM C B) w a w' :
  m w = (Ok a, w') -> (m ≫= k) w = k a w'.
Proof. apply run_bind_ok. Qed.

Lemma pm_bind_err {A B} (m : PM C A) (k : A -> PM C B) w e w' :
  m w = (Err e, w') -> (m ≫= k) w = (Err e, w').
Proof. apply run_bind_err. Qed.

Lemma pm_catch_ok {A} (m : PM C A) h w a w' :
  m w = (Ok a, w') -> catch m h w = (Ok a, w').
Proof. apply run_catch_ok. Qed.

Lemma pm_catch_err {A} (m : PM C A) h w e w' :
  m w = (Err e, w') -> catch m h w = h e w'.
Proof. apply run_catch_err. Qed.
End PMRuns.

(** ** Frame lemmas: which steps leave the store rows alone *)

Section RowFrames.
Context {C : Type} `{ClusterApi C}.

Definition rows (w : World C) : gmap string Store.t := stores (db w).

Lemma keeps_logEvent id step st msg : keeps rows (logEvent id step st msg).
Proof. by intros w o w' [= _ <-]. Qed.

Lemma keeps_create r : keeps rows (k8s_create r).
Proof. intros w o w'. unfold k8s_create. destruct (create _ _ _). by intros [= _ <-]. Qed.

Lemma keeps_deleteNamespace ns : keeps rows (k8s_deleteNamespace ns).
Proof. intros w o w'. unfold k8s_deleteNamespace. destruct (deleteNamespace _ _ _). by intros [= _ <-]. Qed.

Lemma keeps_await f : keeps rows (await_wait f).
Proof. intros w o w'. unfold await_wait. destruct (f _ _). by intros [= _ <-]. Qed.

Lemma keeps_secrets : keeps rows generateStoreSecrets.
Proof. by intros w o w' [= _ <-]. Qed.

Lemma keeps_deleteEvents id : keeps rows (deleteEventsByStoreId id).
Proof. by intros w o w' [= _ <-]. Qed.
End RowFrames.

#[export] Hint Resolve keeps_logEvent keeps_create keeps_deleteNamespace keeps_await
  keeps_secrets keeps_deleteEvents : platform.

(** ** The schema invariant along a pipeline *)

Section DbInvariant.
Context {C : Type} `{ClusterApi C}.

Definition wf_world (w : World C) : Prop := db_wf (db w).

Lemma preserves_db_step f :
  (forall now d, db_wf d -> db_wf (f now d)) -> preserves wf_world (db_step f).
Proof. intros Hf w o w' Hw [= _ <-]. by apply Hf. Qed.

Lemma wf_logEvent id step st msg : preserves wf_world (logEvent id step st msg).
Proof. apply preserves_db_step. intros now d. exact (write_wf (WLogEvent id step st msg now) d). Qed.

Lemma wf_updateStoreStatus id st em : preserves wf_world (updateStoreStatus id st em).
Proof. apply preserves_db_step. intros now d. exact (write_wf (WUpdateStoreStatus id st em) d). Qed.

Lemma wf_updateStoreReady id url aurl pw : preserves wf_world (updateStoreReady id url aurl pw).
Proof. apply preserves_db_step. intros now d. exact (write_wf (WUpdateStoreReady id url aurl pw now) d). Qed.

Lemma wf_deleteEvents id : preserves wf_world (deleteEventsByStoreId id).
Proof. apply preserves_db_step. intros now d. exact (write_wf (WDeleteEventsByStoreId id) d). Qed.

Lemma wf_deleteStore id : preserves wf_world (deleteStore id).
Proof. apply preserves_db_step. intros now d. exact (write_wf (WDeleteStore id) d). Qed.

(** The steps that do not write to the database. *)
Lemma wf_db_frame {A} (m : PM C A) :
  (forall w o w', m w = (o, w') -> db w' = db w) -> preserves wf_world m.
Proof. intros Hm w o w' Hw Hrun. unfold wf_world. by rewrite (Hm _ _ _ Hrun). Qed.

Lemma wf_create r : preserves wf_world (k8s_create r).
Proof. apply wf_db_frame. intros w o w'. unfold k8s_create. destruct (create _ _ _). by intros [= _ <-]. Qed.

Lemma wf_deleteNamespace ns : preserves wf_world (k8s_deleteNamespace ns).
Proof.
  apply wf_db_frame. intros w o w'. unfold k8s_deleteNamespace.
  destruct (deleteNamespace _ _ _). by intros [= _ <-].
Qed.

Lemma wf_await f : preserves wf_world (await_wait f).
Proof. apply wf_db_frame. intros w o w'. unfold await_wait. destruct (f _ _). by intros [= _ <-]. Qed.

Lemma wf_secrets : preserves wf_world generateStoreSecrets.
Proof. apply wf_db_frame. by intros w o w' [= _ <-]. Qed.

Lemma wf_getStoreById id : preserves wf_world (getStoreById id).
Proof. apply wf_db_frame. by intros w o w' [= _ <-]. Qed.
End DbInvariant.

#[export] Hint Resolve wf_logEvent wf_updateStoreStatus wf_updateStoreReady wf_deleteEvents
  wf_deleteStore wf_create wf_deleteNamespace wf_await wf_secrets wf_getStoreById : platform_wf.

(** [wf_tac] proves [preserves wf_world m] for a composition of the steps
    above. *)
Ltac wf_tac :=
  repeat first
    [ apply preserves_bind; [|intros ?] | apply preserves_catch; [|intros ?]
    | match goal with |- preserves _ (if ?b then _ else _) => destruct b end
    | match goal with |- preserves _ (match ?o with _ => _ end) => destruct o end
    | progress unfold ignore_conflict
    | solve [eauto with platform_wf] ].

(** [keeps_tac] proves [keeps rows m] for a composition of the steps
    above, through binds, [try]/[catch] and conditionals. *)
Ltac keeps_tac :=
  repeat first
    [ apply keeps_bind; [|intros ?] | apply keeps_catch; [|intros ?]
    | match goal with |- keeps _ (if ?b then _ else _) => destruct b end
    | progress unfold ignore_conflict
    | solve [eauto with platform] ].

End World.
