(* ===== verification/Provisioners.v ===== *)
(** * Provisioners: the provisioning pipelines ([services/provisioners/*.ts])

    [StoreProvisioner] is the strategy interface of
    [services/provisioners/index.ts], as a record of its two members; the
    registry [provisioners] maps a plan name to its provisioner and
    [getProvisioner] throws [UnknownPlan] for any other name.

    [WooCommerceProvisioner.provision] is one definition per numbered step
    of [woocommerceProvisioner.ts], in the monad of [World], composed in the
    source's order; each step has the source's events, its [try]/[catch]
    structure and its treatment of [409 Conflict].  The Medusa provisioner
    logs a failure, marks the store [Failed] and throws.

    The theorems are about one run of a pipeline against any cluster that
    satisfies [ClusterLaws]: which steps run, the event trace, the state
    the store ends in, what the cluster holds after a successful run, and
    where the first fatal error stops the run. *)

From S2P Require Import Prelude Model Manifests Repository Cluster SimCluster Wait World.
Local Open Scope string_scope.

Module Provisioners.
Import Manifests Repository Cluster Wait World.

Record StoreProvisioner (C : Type) := mkStoreProvisioner {
  engineName : string;
  provision : Store.t -> PM C unit
}.
Arguments mkStoreProvisioner {C} _ _.
Arguments engineName {C} _.
Arguments provision {C} _ _.

Section WooCommerce.
Context {C : Type} `{ClusterApi C} (cfg : Config.t).

(** [config.externalPort ? `:${config.externalPort}` : ''] *)
Definition portSuffix : string :=
  if bool_decide (Config.externalPort cfg = "") then "" else ":" ++ Config.externalPort cfg.

Definition storeUrl (slug : string) : string :=
  "http://" ++ slug ++ "." ++ Config.storeDomain cfg ++ portSuffix.

Definition adminUrl (slug : string) : string := storeUrl slug ++ "/wp-admin".

(** Step 1 *)
Definition create_namespace_step (id ns : string) : PM C unit :=
  logEvent id "create_namespace" started ("Creating namespace " ++ ns);;
  catch (k8s_create (buildNamespace ns id);;
         logEvent id "create_namespace" completed ("Namespace " ++ ns ++ " created"))
    (fun err =>
       if is_conflict err then
         logEvent id "create_namespace" completed ("Namespace " ++ ns ++ " already exists (idempotent)")
       else throw err).

(** Step 2: one [try] covers both secrets. *)
Definition create_secrets_step (id ns : string) : PM C StoreSecrets :=
  logEvent id "create_secrets" started "Generating and creating secrets";;
  secrets ← generateStoreSecrets;
  catch (k8s_create (buildMySQLSecret ns secrets);;
         k8s_create (buildWordPressSecret ns secrets);;
         logEvent id "create_secrets" completed "Secrets created")
    (fun err =>
       if is_conflict err then logEvent id "create_secrets" completed "Secrets already exist (idempotent)"
       else throw err);;
  mret secrets.

(** Step 3 *)
Definition create_quota_step (id ns : string) : PM C unit :=
  logEvent id "create_quota" started "Creating resource quota and limit range";;
  ignore_conflict (k8s_create (buildResourceQuota ns));;
  ignore_conflict (k8s_create (buildLimitRange ns));;
  logEvent id "create_quota" completed "Resource quota and limit range created".

(** Step 4 *)
Definition deploy_mysql_step (id ns : string) : PM C unit :=
  logEvent id "deploy_mysql" started "Deploying MySQL";;
  ignore_conflict (k8s_create (buildMySQLPVC cfg ns));;
  ignore_conflict (k8s_create (buildMySQLDeployment cfg ns));;
  ignore_conflict (k8s_create (buildMySQLService ns));;
  logEvent id "deploy_mysql" completed "MySQL resources created".

(** Step 5 *)
Definition wait_mysql_step (id ns : string) : PM C unit :=
  logEvent id "wait_mysql" started "Waiting for MySQL to be ready";;
  await_wait (fun c now => waitForDeploymentReady c ns "mysql" 120 now);;
  logEvent id "wait_mysql" completed "MySQL is ready".

(** Step 6 *)
Definition deploy_wordpress_step (id ns : string) (rc : StoreResourceConfig) : PM C unit :=
  logEvent id "deploy_wordpress" started "Deploying WordPress + WooCommerce";;
  ignore_conflict (k8s_create (buildWordPressPVC cfg ns));;
  ignore_conflict (k8s_create (buildWordPressDeployment cfg ns rc));;
  ignore_conflict (k8s_create (buildWordPressService ns));;
  logEvent id "deploy_wordpress" completed "WordPress resources created".

(** Step 7 *)
Definition wait_wordpress_step (id ns : string) : PM C unit :=
  logEvent id "wait_wordpress" started "Waiting for WordPress to be ready";;
  await_wait (fun c now => waitForDeploymentReady c ns "wordpress" (Config.woocommerceInitTimeout cfg) now);;
  logEvent id "wait_wordpress" completed "WordPress is ready".

(** Step 8 *)
Definition setup_woocommerce_step (id ns : string) (rc : StoreResourceConfig) : PM C unit :=
  logEvent id "setup_woocommerce" started "Installing WooCommerce and creating sample data";;
  ignore_conflict (k8s_create (buildWooCommerceSetupJob cfg ns rc));;
  await_wait (fun c now => waitForJobComplete c ns "woocommerce-setup" (Config.woocommerceInitTimeout cfg) now);;
  logEvent id "setup_woocommerce" completed "WooCommerce installed and configured".

(** Step 9 *)
Definition create_ingress_step (id ns slug : string) : PM C unit :=
  let host := slug ++ "." ++ Config.storeDomain cfg in
  logEvent id "create_ingress" started "Creating store ingress";;
  catch (k8s_create (buildStoreIngress cfg ns host);;
         logEvent id "create_ingress" completed ("Ingress created: " ++ host))
    (fun err =>
       if is_conflict err then logEvent id "create_ingress" completed "Ingress already exists (idempotent)"
       else throw err).

(** Step 10: on a conflict no [completed] event is logged. *)
Definition create_networkpolicy_step (id ns : string) : PM C unit :=
  logEvent id "create_networkpolicy" started "Creating network policy";;
  catch (k8s_create (buildNetworkPolicy ns);;
         logEvent id "create_networkpolicy" completed "Network policy created")
    (fun err => if is_conflict err then mret tt else throw err).

(** Step 11 *)
Definition mark_ready_step (id slug adminPassword : string) : PM C unit :=
  updateStoreReady id (storeUrl slug) (adminUrl slug) adminPassword;;
  logEvent id "ready" completed ("Store ready at " ++ storeUrl slug).

Definition woocommerce_provision (store : Store.t) : PM C unit :=
  let id := Store.id store in
  let slug := Store.slug store in
  let ns := Store.namespace store in
  create_namespace_step id ns;;
  secrets ← create_secrets_step id ns;
  let rc := mkStoreResourceConfig ns slug (Store.name store) (Store.adminEmail store)
              (storeUrl slug) (wpAdminPassword secrets) in
  create_quota_step id ns;;
  deploy_mysql_step id ns;;
  wait_mysql_step id ns;;
  deploy_wordpress_step id ns rc;;
  wait_wordpress_step id ns;;
  setup_woocommerce_step id ns rc;;
  create_ingress_step id ns slug;;
  create_networkpolicy_step id ns;;
  mark_ready_step id slug (wpAdminPassword secrets).

Definition WooCommerceProvisioner : StoreProvisioner C :=
  mkStoreProvisioner "WooCommerce" woocommerce_provision.

Definition medusa_provision (store : Store.t) : PM C unit :=
  logEvent (Store.id store) "provisioning" Types.failed
    ("MedusaJS provisioning is not yet implemented. Architecture is ready - requires "
     ++ "PostgreSQL, Redis, MedusaJS Backend, and Storefront resource builders.");;
  updateStoreStatus (Store.id store) Failed
    (Some "MedusaJS engine coming soon. Select WooCommerce for a fully functional store.");;
  throw MedusaNotImplemented.

Definition MedusaProvisioner : StoreProvisioner C :=
  mkStoreProvisioner "MedusaJS" medusa_provision.

Definition provisioners : list (string * StoreProvisioner C) :=
  [("woocommerce", WooCommerceProvisioner); ("medusa", MedusaProvisioner)].

Definition getProvisioner (plan : string) : outcome Error (StoreProvisioner C) :=
  match List.find (fun '(k, _) => bool_decide (k = plan)) provisioners with
  | Some (_, p) => Ok p
  | None => Err (UnknownPlan plan)
  end.
End WooCommerce.

(** ** Runs of the steps *)

(** The secrets drawn are an opaque value to the run lemmas. *)
#[local] Opaque secrets_of.

Section Runs.
Context {C : Type} `{ClusterLaws C}.
Local Open Scope list_scope.

(** The events of store [id], as (step, status) pairs, in order. *)
Definition trace (id : string) (w : World C) : list (string * EventStatus) :=
  map (fun e => (ProvisioningEvent.step e, ProvisioningEvent.status e))
      (getEventsByStoreId id (db w)).

(** The cluster [c'] keeps every resource [c] has, gains none outside
    [K], and has every resource of [P]. *)
Definition grows (K P : list ResKey) (c c' : C) : Prop :=
  (forall k, present c k -> present c' k) /\
  (forall k, k ∉ K -> present c' k -> present c k) /\
  (forall k, k ∈ P -> present c' k).

(** [m] succeeds from [w] with [a], appends [L] to the trace of [id],
    changes the store rows by [F], draws [n] times from the randomness
    source, and grows the cluster by [K] and [P]. *)
Definition quiet {A} (id : string) (K P : list ResKey) (F : gmap string Store.t -> gmap string Store.t)
    (n : nat) (m : PM C A) (w : World C) (a : A) (L : list (string * EventStatus)) (w' : World C)
    : Prop :=
  m w = (Ok a, w') /\ trace id w' = trace id w ++ L /\ entropy w' = (n + entropy w)%nat /\
  stores (db w') = F (stores (db w)) /\ grows K P (cluster w) (cluster w').

Lemma grows_app K1 P1 K2 P2 c c1 c2 :
  grows K1 P1 c c1 -> grows K2 P2 c1 c2 -> grows (K1 ++ K2) (P1 ++ P2) c c2.
Proof.
  intros (G1 & F1 & P1') (G2 & F2 & P2'). split_and!.
  - auto.
  - intros k [? ?]%not_elem_of_app ?. auto.
  - intros k [?|?]%elem_of_app; auto.
Qed.

Lemma grows_refl K c : grows K [] c c.
Proof. split_and!; [done|done|]. intros k Hk. by apply not_elem_of_nil in Hk. Qed.

Lemma quiet_bind {A B} id K1 P1 F1 n1 K2 P2 F2 n2 (m : PM C A) (k : A -> PM C B)
    w a L1 w1 b L2 w2 :
  quiet id K1 P1 F1 n1 m w a L1 w1 -> quiet id K2 P2 F2 n2 (k a) w1 b L2 w2 ->
  quiet id (K1 ++ K2) (P1 ++ P2) (fun s => F2 (F1 s)) (n1 + n2) (m ≫= k) w b (L1 ++ L2) w2.
Proof.
  intros (E1 & T1 & N1 & S1 & G1) (E2 & T2 & N2 & S2 & G2). split_and!.
  - by rewrite (run_bind_ok _ _ _ _ _ E1).
  - by rewrite T2, T1, app_assoc.
  - lia.
  - congruence.
  - by eapply grows_app.
Qed.

(** The lists, the row update and the draws of a run are determined up
    to computation. *)
Lemma quiet_conv {A} id K P F n K' P' F' n' (m : PM C A) w a L L' w' :
  quiet id K P F n m w a L w' -> K = K' -> P = P' -> F = F' -> n = n' -> L = L' ->
  quiet id K' P' F' n' m w a L' w'.
Proof. by intros ? -> -> -> -> ->. Qed.

Lemma quiet_ret {A} id (a : A) w : quiet id [] [] (fun s => s) 0 (mret a) w a [] w.
Proof. split_and!; [done|by rewrite app_nil_r|done|done|apply grows_refl]. Qed.

Lemma quiet_logEvent id step st msg w :
  quiet id [] [] (fun s => s) 0 (logEvent id step st msg) w tt [(step, st)]
    (set_db (snd (Repository.logEvent id step st msg (now_seconds w) (db w))) w).
Proof.
  split_and!; [done| |done|done|apply grows_refl].
  unfold trace, set_db. cbn [World.db].
  rewrite getEventsByStoreId_logEvent, bool_decide_true by done. by rewrite map_app.
Qed.

Lemma quiet_updateStoreReady id url admin pw w :
  quiet id [] [] (alter (set_ready url admin pw (now_seconds w)) id) 0
    (updateStoreReady id url admin pw) w tt []
    (set_db (Repository.updateStoreReady id url admin pw (now_seconds w) (db w)) w).
Proof. split_and!; [done|by rewrite app_nil_r|done|done|apply grows_refl]. Qed.

Lemma quiet_secrets id w :
  quiet id [] [] (fun s => s) 1 generateStoreSecrets w (secrets_of (entropy w)) []
    (mkWorld (db w) (cluster w) (clock w) (S (entropy w))).
Proof. split_and!; [done|by rewrite app_nil_r|done|done|apply grows_refl]. Qed.

Lemma quiet_await id f w t :
  f (cluster w) (clock w) = (Ok tt, t) ->
  quiet id [] [] (fun s => s) 0 (await_wait f) w tt [] (set_clock t w).
Proof.
  intros E.
  split_and!; [by unfold await_wait; rewrite E|by rewrite app_nil_r|done|done|apply grows_refl].
Qed.

(** A create the cluster accepts. *)
Lemma quiet_create_ok id r w c' :
  create (clock w) r (cluster w) = (Ok tt, c') ->
  quiet id [key r] [key r] (fun s => s) 0 (k8s_create r) w tt [] (set_cluster c' w).
Proof.
  intros E. split_and!; [by unfold k8s_create; rewrite E|by rewrite app_nil_r|done|done|].
  unfold grows; cbn; split_and!.
  - intros k. apply (create_preserves _ _ _ _ _ k E).
  - intros k ?%not_elem_of_cons. apply (create_frame _ _ _ _ _ k E). tauto.
  - intros k ->%list_elem_of_singleton. apply (create_ok_present _ _ _ _ E).
Qed.

Lemma set_cluster_same (w : World C) : set_cluster (cluster w) w = w.
Proof. by destruct w. Qed.

Lemma k8s_create_err r w e :
  create (clock w) r (cluster w) = (Err e, cluster w) -> k8s_create r w = (Err e, w).
Proof. intros E. unfold k8s_create. by rewrite E, set_cluster_same. Qed.

(** A create the cluster answers with [409]: the resource was there and
    nothing changed. *)
Lemma create_conflict_world r w e c' :
  create (clock w) r (cluster w) = (Err e, c') -> is_conflict e = true ->
  k8s_create r w = (Err e, w) /\ present (cluster w) (key r).
Proof.
  intros E Hc. destruct (create_conflict _ _ _ _ _ E Hc) as [Hp ->].
  unfold k8s_create. rewrite E, set_cluster_same. done.
Qed.

(** The resources a run may create can be over-approximated, and the
    ones it guarantees under-approximated by the ones it keeps. *)
Lemma quiet_mono {A} id K P K' P' F n (m : PM C A) w a L w' :
  quiet id K P F n m w a L w' -> K ⊆ K' ->
  (forall k, k ∈ P' -> k ∈ P \/ present (cluster w) k) ->
  quiet id K' P' F n m w a L w'.
Proof.
  intros (E & T & N & S & G & Fr & HP) HK HP'. do 4 (split; [done|]). split_and!; [done| |].
  - intros k Hk. apply Fr. intros Hk'. by apply Hk, HK.
  - intros k [?|?]%HP'; auto.
Qed.

Lemma quiet_widen {A} id K P (m : PM C A) w a L w' :
  quiet id [] [] (fun s => s) 0 m w a L w' -> (forall k, k ∈ P -> present (cluster w) k) ->
  quiet id K P (fun s => s) 0 m w a L w'.
Proof.
  intros Q HP. apply (quiet_mono _ _ _ _ _ _ _ _ _ _ _ _ Q); [apply list_subseteq_nil|]. auto.
Qed.

(** A create in the namespace of the store: the cluster accepts it or
    answers [409]; no other error. *)
Definition benign (r : Resource) (w : World C) : Prop :=
  (exists c', create (clock w) r (cluster w) = (Ok tt, c')) \/
  (exists e c', create (clock w) r (cluster w) = (Err e, c') /\ is_conflict e = true).

Lemma quiet_ignore_conflict id r w :
  benign r w ->
  exists w', quiet id [key r] [key r] (fun s => s) 0 (ignore_conflict (k8s_create r)) w tt [] w'.
Proof.
  unfold ignore_conflict. intros [[c' E] | (e & c' & E & Hc)].
  - destruct (quiet_create_ok id r w c' E) as (E' & Q). eexists. split; [|exact Q].
    by apply run_catch_ok.
  - destruct (create_conflict_world r w e c' E Hc) as [E' Hp].
    destruct (quiet_widen id [key r] [key r] _ w _ _ w (quiet_ret id tt w)) as (_ & Q).
    { by intros k ->%list_elem_of_singleton. }
    exists w. split; [|exact Q]. rewrite (run_catch_err _ _ _ _ _ E'), Hc. done.
Qed.

(** A [try] whose body fails after a quiet prefix: the handler runs
    after the prefix's effects. *)
Lemma quiet_catch_bind_err {A B} id K1 P1 F1 n1 K2 P2 F2 n2 (m : PM C A) (k : A -> PM C B) h
    w a L1 w1 e b L2 w2 :
  quiet id K1 P1 F1 n1 m w a L1 w1 -> k a w1 = (Err e, w1) ->
  quiet id K2 P2 F2 n2 (h e) w1 b L2 w2 ->
  quiet id (K1 ++ K2) (P1 ++ P2) (fun s => F2 (F1 s)) (n1 + n2) (catch (m ≫= k) h) w b (L1 ++ L2) w2.
Proof.
  intros Q1 Ek Q2.
  destruct (quiet_bind _ _ _ _ _ _ _ _ _ _ (fun _ => h e) _ _ _ _ _ _ _ Q1 Q2) as (_ & R).
  split; [|exact R]. destruct Q1 as (E1 & _), Q2 as (E2 & _).
  rewrite (run_catch_err _ _ _ e w1); [done|]. by rewrite (run_bind_ok _ _ _ _ _ E1).
Qed.

Lemma quiet_catch_ok {A} id K P F n (m : PM C A) h w a L w' :
  quiet id K P F n m w a L w' -> quiet id K P F n (catch m h) w a L w'.
Proof. intros (E & Q). split; [by apply run_catch_ok|exact Q]. Qed.

Lemma quiet_catch_err {A} id K P F n (m : PM C A) h w e a L w' :
  m w = (Err e, w) -> quiet id K P F n (h e) w a L w' -> quiet id K P F n (catch m h) w a L w'.
Proof. intros E (E' & Q). split; [by rewrite (run_catch_err _ _ _ _ _ E)|exact Q]. Qed.

(** [m] has a quiet run from [w]. *)
Definition qrun {A} id K P F n (m : PM C A) (w : World C) (a : A) L : Prop :=
  exists w', quiet id K P F n m w a L w'.

Lemma qrun_bind {A B} id K1 P1 F1 n1 K2 P2 F2 n2 (m : PM C A) (k : A -> PM C B) w a L1 b L2 :
  qrun id K1 P1 F1 n1 m w a L1 ->
  (forall w1, quiet id K1 P1 F1 n1 m w a L1 w1 -> qrun id K2 P2 F2 n2 (k a) w1 b L2) ->
  qrun id (K1 ++ K2) (P1 ++ P2) (fun s => F2 (F1 s)) (n1 + n2) (m ≫= k) w b (L1 ++ L2).
Proof.
  intros [w1 Q1] Hk. destruct (Hk w1 Q1) as [w2 Q2]. exists w2. by eapply quiet_bind.
Qed.

Lemma qrun_conv {A} id K P F n K' P' F' n' (m : PM C A) w a L L' :
  qrun id K P F n m w a L -> K = K' -> P = P' -> F = F' -> n = n' -> L = L' ->
  qrun id K' P' F' n' m w a L'.
Proof. by intros ? -> -> -> -> ->. Qed.

Lemma qrun_logEvent id step st msg w :
  qrun id [] [] (fun s => s) 0 (logEvent id step st msg) w tt [(step, st)].
Proof. eexists. apply quiet_logEvent. Qed.

Lemma qrun_secrets id w :
  qrun id [] [] (fun s => s) 1 generateStoreSecrets w (secrets_of (entropy w)) [].
Proof. eexists. apply quiet_secrets. Qed.

Lemma qrun_await id f w :
  (exists t, f (cluster w) (clock w) = (Ok tt, t)) ->
  qrun id [] [] (fun s => s) 0 (await_wait f) w tt [].
Proof. intros [t E]. eexists. by apply quiet_await. Qed.

Lemma qrun_ignore_conflict id r w :
  benign r w -> qrun id [key r] [key r] (fun s => s) 0 (ignore_conflict (k8s_create r)) w tt [].
Proof. apply quiet_ignore_conflict. Qed.

Lemma quiet_grows {A} id K P F n (m : PM C A) w a L w' :
  quiet id K P F n m w a L w' -> grows K P (cluster w) (cluster w').
Proof. by intros (_ & _ & _ & _ & G). Qed.

Lemma quiet_present {A} id K P F n (m : PM C A) w a L w' k :
  quiet id K P F n m w a L w' -> k ∈ P -> present (cluster w') k.
Proof. intros (_ & _ & _ & _ & _ & _ & HP). apply HP. Qed.

Lemma quiet_keeps {A} id K P F n (m : PM C A) w a L w' k :
  quiet id K P F n m w a L w' -> present (cluster w) k -> present (cluster w') k.
Proof. intros (_ & _ & _ & _ & HG & _). apply HG. Qed.

Lemma grows_then {A} K1 P1 c id K P F n (m : PM C A) w a L w' :
  grows K1 P1 c (cluster w) -> quiet id K P F n m w a L w' ->
  grows (K1 ++ K) (P1 ++ P) c (cluster w').
Proof. intros G Q. eapply grows_app; [exact G|]. by eapply quiet_grows. Qed.

(** [try { create; log completed } catch (409) { log completed }]: steps
    1 and 9. *)
Lemma qrun_try_log id r step m1 m2 w :
  benign r w ->
  qrun id [key r] [key r] (fun s => s) 0
    (catch (k8s_create r;; logEvent id step completed m1)
       (fun err => if is_conflict err then logEvent id step completed m2 else throw err))
    w tt [(step, completed)].
Proof.
  intros [[c' E] | (e & c' & E & Hc)]; eexists.
  - apply quiet_catch_ok. eapply quiet_conv;
      [eapply quiet_bind; [by apply quiet_create_ok|apply quiet_logEvent]|done..].
  - destruct (create_conflict_world r w e c' E Hc) as [E' Hp].
    eapply quiet_catch_err; [by apply run_bind_err|]. rewrite Hc.
    apply quiet_widen; [apply quiet_logEvent|]. by intros k ->%list_elem_of_singleton.
Qed.
End Runs.


Ltac qchain prim :=
  cbv beta;
  lazymatch goal with
  | |- qrun _ _ _ _ _ (_ ≫= _) _ _ _ =>
      eapply qrun_bind; [prim | let w := fresh "w" in let Q := fresh "Q" in intros w Q; qchain prim]
  | |- _ => prim
  end.

(** ** One run of the WooCommerce pipeline against a cooperative cluster *)

Section Pipeline.
Context {C : Type} `{ClusterLaws C} (cfg : Config.t) (ns : string).
Local Open Scope list_scope.

(** Every create into the store's namespace succeeds or answers [409]. *)
Hypothesis create_benign : forall now r c, namespace r = ns ->
  (exists c', create now r c = (Ok tt, c')) \/
  (exists e c', create now r c = (Err e, c') /\ is_conflict e = true).
(** A deployment that exists becomes ready within any positive timeout,
    and so does the setup job. *)
Hypothesis deployment_ready : forall c now name t, (0 < t)%Z ->
  present c (Deployment, ns, name) -> exists t', waitForDeploymentReady c ns name t now = (Ok tt, t').
Hypothesis job_completes : forall c now t, (0 < t)%Z ->
  present c (Job, ns, "woocommerce-setup") ->
  exists t', waitForJobComplete c ns "woocommerce-setup" t now = (Ok tt, t').
Hypothesis timeout_pos : (0 < Config.woocommerceInitTimeout cfg)%Z.

Lemma benign_ns r w : namespace r = ns -> benign r w.
Proof. apply create_benign. Qed.

Ltac prim :=
  first [ apply qrun_logEvent | apply qrun_secrets
        | apply qrun_ignore_conflict, benign_ns; reflexivity
        | apply qrun_try_log, benign_ns; reflexivity ].

Definition step_pair (step : string) : list (string * EventStatus) :=
  [(step, started); (step, completed)].

Lemma run_create_namespace id w :
  qrun id [key (buildNamespace ns id)] [key (buildNamespace ns id)] (fun s => s) 0
    (create_namespace_step id ns) w tt (step_pair "create_namespace").
Proof. unfold create_namespace_step. eapply qrun_conv; [qchain prim|done..]. Qed.

Lemma run_create_quota id w :
  let ks := [key (buildResourceQuota ns); key (buildLimitRange ns)] in
  qrun id ks ks (fun s => s) 0 (create_quota_step id ns) w tt (step_pair "create_quota").
Proof. unfold create_quota_step. eapply qrun_conv; [qchain prim|done..]. Qed.

Lemma run_deploy_mysql id w :
  let ks := [key (buildMySQLPVC cfg ns); key (buildMySQLDeployment cfg ns); key (buildMySQLService ns)] in
  qrun id ks ks (fun s => s) 0 (deploy_mysql_step cfg id ns) w tt (step_pair "deploy_mysql").
Proof. unfold deploy_mysql_step. eapply qrun_conv; [qchain prim|done..]. Qed.

Lemma run_deploy_wordpress id rc w :
  let ks := [key (buildWordPressPVC cfg ns); key (buildWordPressDeployment cfg ns rc);
             key (buildWordPressService ns)] in
  qrun id ks ks (fun s => s) 0 (deploy_wordpress_step cfg id ns rc) w tt (step_pair "deploy_wordpress").
Proof. unfold deploy_wordpress_step. eapply qrun_conv; [qchain prim|done..]. Qed.

Lemma run_create_ingress id slug w :
  let k := key (buildStoreIngress cfg ns (slug ++ "." ++ Config.storeDomain cfg)%string) in
  qrun id [k] [k] (fun s => s) 0 (create_ingress_step cfg id ns slug) w tt (step_pair "create_ingress").
Proof. unfold create_ingress_step. eapply qrun_conv; [qchain prim|done..]. Qed.

Definition mysql_secret_key : ResKey := (Secret, ns, "mysql-credentials").
Definition wordpress_secret_key : ResKey := (Secret, ns, "wordpress-secrets").

(** The [try] of step 2.  Only the MySQL secret is guaranteed: when it
    already exists the WordPress secret is not created. *)
Lemma run_secrets_try id sc w :
  qrun id [mysql_secret_key; wordpress_secret_key] [mysql_secret_key] (fun s => s) 0
    (catch (k8s_create (buildMySQLSecret ns sc);;
            k8s_create (buildWordPressSecret ns sc);;
            logEvent id "create_secrets" completed "Secrets created")
      (fun err =>
         if is_conflict err then logEvent id "create_secrets" completed "Secrets already exist (idempotent)"
         else throw err))
    w tt [("create_secrets", completed)].
Proof.
  destruct (benign_ns (buildMySQLSecret ns sc) w eq_refl) as [[c1 E1] | (e & c1 & E1 & Hc)].
  - pose proof (quiet_create_ok id _ _ _ E1) as Q1.
    destruct (benign_ns (buildWordPressSecret ns sc) (set_cluster c1 w) eq_refl)
      as [[c2 E2] | (e & c2 & E2 & Hc)]; eexists.
    + apply quiet_catch_ok. eapply quiet_mono.
      * eapply quiet_conv; [(eapply quiet_bind; [exact Q1|]);
          (eapply quiet_bind; [by apply quiet_create_ok|]); apply quiet_logEvent|done..].
      * cbn. set_solver.
      * intros k Hk. left. cbn. set_solver.
    + destruct (create_conflict_world _ _ _ _ E2 Hc) as [E2' Hp].
      eapply quiet_mono.
      * eapply quiet_conv; [(eapply quiet_catch_bind_err; [exact Q1|by apply run_bind_err|]);
          rewrite Hc; apply quiet_logEvent|done..].
      * cbn. set_solver.
      * intros k Hk. left. cbn. set_solver.
  - destruct (create_conflict_world _ _ _ _ E1 Hc) as [E1' Hp]. eexists.
    eapply quiet_catch_err; [by apply run_bind_err|]. rewrite Hc.
    apply quiet_widen; [apply quiet_logEvent|]. by intros k ->%list_elem_of_singleton.
Qed.

Lemma run_create_secrets id w :
  qrun id [mysql_secret_key; wordpress_secret_key] [mysql_secret_key] (fun s => s) 1
    (create_secrets_step id ns) w (secrets_of (entropy w)) (step_pair "create_secrets").
Proof.
  unfold create_secrets_step. eapply qrun_conv;
    [eapply qrun_bind; [apply qrun_logEvent|intros w1 [E1 _]; injection E1 as <-;
       qchain ltac:(first [prim | apply run_secrets_try | eexists; apply quiet_ret])]|done..].
Qed.

Ltac prim_wait :=
  first [ prim
        | apply qrun_await, deployment_ready;
          [lia|first [assumption | eapply quiet_keeps; [eassumption|assumption]]]
        | apply qrun_await, job_completes; [lia|];
          eapply quiet_present; [eassumption|by apply list_elem_of_singleton] ].

Lemma run_wait_mysql id w :
  present (cluster w) (Deployment, ns, "mysql") ->
  qrun id [] [] (fun s => s) 0 (wait_mysql_step id ns) w tt (step_pair "wait_mysql").
Proof. intros Hp. unfold wait_mysql_step. eapply qrun_conv; [qchain prim_wait|done..]. Qed.

Lemma run_wait_wordpress id w :
  present (cluster w) (Deployment, ns, "wordpress") ->
  qrun id [] [] (fun s => s) 0 (wait_wordpress_step cfg id ns) w tt (step_pair "wait_wordpress").
Proof. intros Hp. unfold wait_wordpress_step. eapply qrun_conv; [qchain prim_wait|done..]. Qed.

Lemma run_setup_woocommerce id rc w :
  let k := key (buildWooCommerceSetupJob cfg ns rc) in
  qrun id [k] [k] (fun s => s) 0 (setup_woocommerce_step cfg id ns rc) w tt (step_pair "setup_woocommerce").
Proof. unfold setup_woocommerce_step. eapply qrun_conv; [qchain prim_wait|done..]. Qed.

Definition networkpolicy_key : ResKey := key (buildNetworkPolicy ns).

(** Step 10 logs [completed] exactly when the policy did not exist. *)
Lemma run_networkpolicy id w :
  exists b, (b = true <-> present (cluster w) networkpolicy_key) /\
  qrun id [networkpolicy_key] [networkpolicy_key] (fun s => s) 0 (create_networkpolicy_step id ns) w tt
    ([("create_networkpolicy", started)] ++
     if b then [] else [("create_networkpolicy", completed)]).
Proof.
  pose (w1 := set_db (snd (Repository.logEvent id "create_networkpolicy" started
                             "Creating network policy" (now_seconds w) (db w))) w).
  destruct (benign_ns (buildNetworkPolicy ns) w1 eq_refl) as [[c' E] | (e & c' & E & Hc)].
  - exists false. split.
    + split; [done|]. intros Hp. destruct (create_present (clock w1) _ _ Hp) as (e & E' & _).
      change (cluster w1) with (cluster w) in E. congruence.
    + eexists. eapply quiet_conv; [(eapply quiet_bind; [apply quiet_logEvent|]); apply quiet_catch_ok;
        (eapply quiet_bind; [by apply quiet_create_ok|]); apply quiet_logEvent|done..].
  - destruct (create_conflict_world _ _ _ _ E Hc) as [E' Hp]. exists true. split; [done|].
    eexists. eapply quiet_conv; [(eapply quiet_bind; [apply quiet_logEvent|]);
      (eapply quiet_catch_err; [apply run_bind_err; exact E'|]); rewrite Hc;
      (apply (quiet_widen _ [networkpolicy_key] [networkpolicy_key]); [apply quiet_ret|]);
      by intros k ->%list_elem_of_singleton|done..].
Qed.

Lemma run_mark_ready id slug pw w :
  qrun id [] [] (alter (set_ready (storeUrl cfg slug) (adminUrl cfg slug) pw (now_seconds w)) id) 0
    (mark_ready_step cfg id slug pw) w tt [("ready", completed)].
Proof.
  unfold mark_ready_step. eapply qrun_conv;
    [eapply qrun_bind; [eexists; apply quiet_updateStoreReady|intros; apply qrun_logEvent]|done..].
Qed.

(** The trace of a run; [np_existed]: the network policy was already
    there, and step 10 logs no [completed] event. *)
Definition woo_trace (np_existed : bool) : list (string * EventStatus) :=
  step_pair "create_namespace" ++ step_pair "create_secrets" ++ step_pair "create_quota" ++
  step_pair "deploy_mysql" ++ step_pair "wait_mysql" ++ step_pair "deploy_wordpress" ++
  step_pair "wait_wordpress" ++ step_pair "setup_woocommerce" ++ step_pair "create_ingress" ++
  ([("create_networkpolicy", started)] ++
   if np_existed then [] else [("create_networkpolicy", completed)]) ++
  [("ready", completed)].

(** The resources a successful run guarantees: every resource the
    pipeline creates but the WordPress secret. *)
Definition provisioned_keys : list ResKey :=
  [(Namespace, ns, ns); mysql_secret_key;
   (ResourceQuota, ns, "store-quota"); (LimitRange, ns, "store-limits");
   (PersistentVolumeClaim, ns, "mysql-data"); (Deployment, ns, "mysql"); (Service, ns, "mysql");
   (PersistentVolumeClaim, ns, "wordpress-data"); (Deployment, ns, "wordpress");
   (Service, ns, "wordpress"); (Job, ns, "woocommerce-setup");
   (Ingress, ns, "wordpress-ingress"); networkpolicy_key].

(** The resources a run may create. *)
Definition touched_keys : list ResKey :=
  [(Namespace, ns, ns); mysql_secret_key; wordpress_secret_key] ++ tail (tail provisioned_keys).

Ltac qseq :=
  cbv beta;
  lazymatch goal with
  | |- quiet _ _ _ _ _ (_ ≫= _) _ _ _ _ => eapply quiet_bind; [eassumption|qseq]
  | |- _ => eassumption
  end.

(** A successful run of the WooCommerce pipeline (proof of
    [woocommerce_provision_run]). *)
Lemma woocommerce_provision_runs (store : Store.t) (w : World C) :
  Store.namespace store = ns ->
  exists b w' t,
    (b = true <-> present (cluster w) networkpolicy_key) /\
    woocommerce_provision cfg store w = (Ok tt, w') /\
    trace (Store.id store) w' = trace (Store.id store) w ++ woo_trace b /\
    stores (db w') =
      alter (set_ready (storeUrl cfg (Store.slug store)) (adminUrl cfg (Store.slug store))
               (wpAdminPassword (secrets_of (entropy w))) t)
            (Store.id store) (stores (db w)) /\
    (forall k, k ∈ provisioned_keys -> present (cluster w') k).
Proof.
  intros Hns.
  set (id := Store.id store). set (slug := Store.slug store).
  destruct (run_create_namespace id w) as (w1 & Q1).
  destruct (run_create_secrets id w1) as (w2 & Q2).
  set (rc := mkStoreResourceConfig ns slug (Store.name store) (Store.adminEmail store)
               (storeUrl cfg slug) (wpAdminPassword (secrets_of (entropy w1)))).
  destruct (run_create_quota id w2) as (w3 & Q3).
  destruct (run_deploy_mysql id w3) as (w4 & Q4).
  destruct (run_wait_mysql id w4) as (w5 & Q5); [eapply quiet_present; [exact Q4|set_solver]|].
  destruct (run_deploy_wordpress id rc w5) as (w6 & Q6).
  destruct (run_wait_wordpress id w6) as (w7 & Q7); [eapply quiet_present; [exact Q6|set_solver]|].
  destruct (run_setup_woocommerce id rc w7) as (w8 & Q8).
  destruct (run_create_ingress id slug w8) as (w9 & Q9).
  destruct (run_networkpolicy id w9) as (b & Hb & w10 & Q10).
  destruct (run_mark_ready id slug (wpAdminPassword (secrets_of (entropy w1))) w10) as (w11 & Q11).
  pose proof (quiet_grows _ _ _ _ _ _ _ _ _ _ Q1) as G.
  eapply grows_then in G; [|exact Q2]. eapply grows_then in G; [|exact Q3].
  eapply grows_then in G; [|exact Q4]. eapply grows_then in G; [|exact Q5].
  eapply grows_then in G; [|exact Q6]. eapply grows_then in G; [|exact Q7].
  eapply grows_then in G; [|exact Q8]. eapply grows_then in G; [|exact Q9].
  assert (Q : quiet id touched_keys provisioned_keys
                (alter (set_ready (storeUrl cfg slug) (adminUrl cfg slug)
                          (wpAdminPassword (secrets_of (entropy w1))) (now_seconds w10)) id) 1
                (woocommerce_provision cfg store) w tt (woo_trace b) w11).
  { unfold woocommerce_provision. cbv zeta. fold id slug. rewrite Hns.
    eapply quiet_conv; [qseq|reflexivity..]. }
  destruct Q1 as (_ & _ & N1 & _). rewrite N1 in Q.
  destruct Q as (E & T & _ & S & _ & _ & HP).
  exists b, w11, (now_seconds w10). split_and!; [|done..].
  rewrite Hb. destruct G as (Gk & Gf & _). split; [|apply Gk].
  apply Gf. set_solver.
Qed.

(** C1: a successful run of the WooCommerce pipeline: against a cluster that
    accepts every create into the namespace or answers [409], and whose
    deployments and setup job complete, [provision] returns normally;
    it logs the trace [woo_trace], where step 10's [completed] event is
    missing exactly when the network policy existed before the run; the
    only row it changes is the store's, which becomes [Ready] with its
    URLs and the admin password drawn by this run; and every resource of
    [provisioned_keys] exists afterwards. *)
Theorem woocommerce_provision_run (store : Store.t) (w : World C) :
  Store.namespace store = ns ->
  exists b w' t,
    (b = true <-> present (cluster w) networkpolicy_key) /\
    woocommerce_provision cfg store w = (Ok tt, w') /\
    trace (Store.id store) w' = trace (Store.id store) w ++ woo_trace b /\
    stores (db w') =
      alter (set_ready (storeUrl cfg (Store.slug store)) (adminUrl cfg (Store.slug store))
               (wpAdminPassword (secrets_of (entropy w))) t)
            (Store.id store) (stores (db w)) /\
    (forall k, k ∈ provisioned_keys -> present (cluster w') k).
Proof. exact (woocommerce_provision_runs store w). Qed.
End Pipeline.

(** ** Failed runs *)

Section Failures.
Context {C : Type} `{ClusterApi C} (cfg : Config.t).

(** Steps 1 to 10 leave every store row as it was. *)
Lemma woo_steps_keep_rows :
  (forall id ns, keeps rows (create_namespace_step id ns)) /\
  (forall id ns, keeps rows (create_secrets_step id ns)) /\
  (forall id ns, keeps rows (create_quota_step id ns)) /\
  (forall id ns, keeps rows (deploy_mysql_step cfg id ns)) /\
  (forall id ns, keeps rows (wait_mysql_step id ns)) /\
  (forall id ns rc, keeps rows (deploy_wordpress_step cfg id ns rc)) /\
  (forall id ns, keeps rows (wait_wordpress_step cfg id ns)) /\
  (forall id ns rc, keeps rows (setup_woocommerce_step cfg id ns rc)) /\
  (forall id ns slug, keeps rows (create_ingress_step cfg id ns slug)) /\
  (forall id ns, keeps rows (create_networkpolicy_step id ns)).
Proof.
  unfold create_namespace_step, create_secrets_step, create_quota_step, deploy_mysql_step,
    wait_mysql_step, deploy_wordpress_step, wait_wordpress_step, setup_woocommerce_step,
    create_ingress_step, create_networkpolicy_step.
  split_and!; intros; keeps_tac.
Qed.

Lemma mark_ready_total id slug pw : keeps_on_err (@rows C) (mark_ready_step cfg id slug pw).
Proof. apply keeps_on_err_total. intros w. by do 2 eexists. Qed.

(** The rows after a failed run (proof of [woocommerce_provision_err_rows]). *)
Lemma woo_failed_rows (store : Store.t) (w w' : World C) e :
  woocommerce_provision cfg store w = (Err e, w') -> rows w' = rows w.
Proof.
  revert w e w'. change (keeps_on_err (@rows C) (woocommerce_provision cfg store)).
  destruct woo_steps_keep_rows as (K1 & K2 & K3 & K4 & K5 & K6 & K7 & K8 & K9 & K10).
  unfold woocommerce_provision. cbv zeta.
  do 10 (apply keeps_on_err_bind; [eauto|intros ?]). apply mark_ready_total.
Qed.

(** C2: a run of the WooCommerce pipeline that throws, whatever the error
    and the cluster, leaves every store row as it was: the store is still
    [Provisioning] when the error reaches the provisioning queue. *)
Theorem woocommerce_provision_err_rows (store : Store.t) (w w' : World C) e :
  woocommerce_provision cfg store w = (Err e, w') -> rows w' = rows w.
Proof. exact (woo_failed_rows store w w' e). Qed.
End Failures.

(** ** The schema invariant *)

Section ProvisionInvariant.
Context {C : Type} `{ClusterApi C} (cfg : Config.t).

Lemma woocommerce_provision_wf store : preserves (@wf_world C) (woocommerce_provision cfg store).
Proof.
  unfold woocommerce_provision, create_namespace_step, create_secrets_step, create_quota_step,
    deploy_mysql_step, wait_mysql_step, deploy_wordpress_step, wait_wordpress_step,
    setup_woocommerce_step, create_ingress_step, create_networkpolicy_step, mark_ready_step.
  wf_tac.
Qed.

Lemma medusa_provision_wf store : preserves (@wf_world C) (medusa_provision store).
Proof. unfold medusa_provision. wf_tac. Qed.

(** Whatever provisioner [getProvisioner] returns keeps the invariant. *)
Lemma getProvisioner_wf plan p store :
  getProvisioner cfg plan = Ok p -> preserves (@wf_world C) (provision p store).
Proof.
  unfold getProvisioner. cbn [List.find provisioners].
  case_bool_decide; [intros [= <-]; apply woocommerce_provision_wf|].
  case_bool_decide; [intros [= <-]; apply medusa_provision_wf|done].
Qed.
End ProvisionInvariant.

(** ** Step 2 when the MySQL secret exists *)

Section SecretsReplay.
Context {C : Type} `{ClusterLaws C}.
Local Open Scope list_scope.

(** C39: when the MySQL secret already exists, step 2 answers [409] on it,
    leaves the cluster as it was (the WordPress secret is not created),
    logs [completed] all the same and returns freshly drawn secrets that
    the cluster does not hold. *)
Theorem create_secrets_step_existing (id ns : string) (w : World C) :
  present (cluster w) (Secret, ns, "mysql-credentials") ->
  exists w', create_secrets_step id ns w = (Ok (secrets_of (entropy w)), w') /\
             cluster w' = cluster w /\
             trace id w' = trace id w ++ step_pair "create_secrets".
Proof.
  intros Hp. destruct (quiet_logEvent id "create_secrets" started
                         "Generating and creating secrets" w) as (E1 & T1 & _).
  destruct (create_present (clock w) (buildMySQLSecret ns (secrets_of (entropy w))) (cluster w) Hp)
    as (e & E & Hc).
  unfold create_secrets_step. rewrite (run_bind_ok _ _ _ _ _ E1). cbv beta.
  erewrite run_bind_ok; [|apply (proj1 (quiet_secrets id _))].
  cbv beta. erewrite run_bind_ok.
  2:{ erewrite run_catch_err; [|apply run_bind_err, k8s_create_err; exact E].
      rewrite Hc. apply quiet_logEvent. }
  eexists. split_and!; [reflexivity|reflexivity|].
  rewrite (proj1 (proj2 (quiet_logEvent _ _ _ _ _))).
  unfold trace in *. cbn [World.db set_db] in *. rewrite T1, <- app_assoc. reflexivity.
Qed.
End SecretsReplay.

Section RunWitness.
Import SimCluster.
Import IdealCluster.
Local Open Scope list_scope.

Definition demo_store : Store.t :=
  new_store "s1" "Demo Shop" "demo-shop" "store-demo-shop" "admin@example.com" woocommerce 0%Z.

Definition demo_world : World Ideal := mkWorld empty_db (mkIdeal ∅) 0%Z 0.

Lemma woocommerce_provision_run_witness :
  exists w', woocommerce_provision Config.default demo_store demo_world = (Ok tt, w') /\
             trace "s1" w' = woo_trace false.
Proof.
  destruct (@woocommerce_provision_run Ideal _ ideal_laws Config.default "store-demo-shop"
              (fun now r c _ => ideal_create_benign now r c)
              (fun c now name t Ht Hp => ideal_deployment_ready c now "store-demo-shop" name t Ht Hp)
              (fun c now t Ht Hp => ideal_job_completes c now "store-demo-shop" "woocommerce-setup" t Ht Hp)
              ltac:(vm_compute; reflexivity) demo_store demo_world eq_refl)
    as (b & w' & t & Hb & E & T & _).
  exists w'. split; [exact E|]. destruct b.
  - destruct Hb as [Hin _]. specialize (Hin eq_refl).
    change (networkpolicy_key "store-demo-shop" ∈ (∅ : gset ResKey)) in Hin.
    exfalso. exact (not_elem_of_empty _ Hin).
  - change (trace (Store.id demo_store) w' = woo_trace false). rewrite T. reflexivity.
Defined.
(** A cluster whose API server answers [500] to the namespace create. *)
Definition failing_cfg : SimConfig :=
  mkSimConfig (fun _ => Some 0%Z) (fun _ => mkJobStatus (Some 1%Z) None) 0%Z
    (fun k => if bool_decide (k = ns_key "store-demo-shop")
              then Some (HttpError (Some 500%Z) "Internal Server Error") else None).

Definition failing_world : World Sim :=
  mkWorld (mkDb {[ "s1" := demo_store ]} [] [] 0) (mkSim failing_cfg ∅ ∅) 0%Z 0.

Lemma woocommerce_provision_err_rows_witness :
  exists e w', woocommerce_provision Config.default demo_store failing_world = (Err e, w') /\
               rows w' = rows failing_world.
Proof.
  destruct (woocommerce_provision Config.default demo_store failing_world) as [[u|e] w'] eqn:E.
  { vm_compute in E. discriminate. }
  exists e, w'. split; [reflexivity|]. exact (woocommerce_provision_err_rows _ _ _ _ _ E).
Defined.

(** A cluster left by an earlier run that created the MySQL secret
    only. *)
Definition half_world : World Ideal :=
  mkWorld empty_db (mkIdeal {[ (Secret, "store-demo-shop", "mysql-credentials") ]}) 0%Z 0.

Lemma create_secrets_step_existing_witness :
  exists w', create_secrets_step "s1" "store-demo-shop" half_world = (Ok (secrets_of 0), w') /\
             (Secret, "store-demo-shop", "wordpress-secrets") ∉ ideal_objs (cluster w').
Proof.
  destruct (create_secrets_step_existing "s1" "store-demo-shop" half_world)
    as (w' & E & Cl & _); [cbn; by apply elem_of_singleton|].
  exists w'. split; [exact E|]. rewrite Cl. cbn. rewrite not_elem_of_singleton. discriminate.
Defined.
End RunWitness.

End Provisioners.
