(* ===== verification/Cleanup.v ===== *)
(** * Cleanup: deleting a store ([services/cleanupService.ts])

    [cleanupStore] looks the store up, marks it [Deleting], logs the start
    of the cleanup, deletes its namespace (a [404] counts as already
    deleted), waits for the namespace to disappear, logs the end, and
    removes the store's events and its row.  Any error after the start is
    logged, the store is marked [Failed] with the message
    ["Cleanup failed: ..."], and the error is rethrown.

    The theorems give the outcome of each path: an unknown id throws
    before any write; a cleanup whose namespace deletion is accepted and
    completes removes exactly the store's row and events; a cleanup that
    fails leaves the row, marked [Failed] with the error's message; and a
    namespace that never disappears makes it fail with the timeout of
    [waitForNamespaceDeletion]. *)

From S2P Require Import Prelude Model Manifests Repository Cluster SimCluster Wait World.
Local Open Scope string_scope.

Module Cleanup.
Import Manifests Repository Cluster Wait World.

Section CleanupOps.
Context {C : Type} `{ClusterApi C}.

(** The inner [try] around [coreApi.deleteNamespace]. *)
Definition delete_namespace_step (storeId ns : string) : PM C unit :=
  catch (k8s_deleteNamespace ns)
    (fun err =>
       if is_not_found err then logEvent storeId "cleanup" completed "Namespace already deleted"
       else throw err).

(** The body of the outer [try]. *)
Definition cleanup_body (storeId ns : string) : PM C unit :=
  delete_namespace_step storeId ns;;
  await_wait (fun c now => waitForNamespaceDeletion c ns 120 now);;
  logEvent storeId "cleanup" completed ("Namespace " ++ ns ++ " deleted");;
  deleteEventsByStoreId storeId;;
  deleteStore storeId.

Definition cleanup_failed (storeId : string) (err : Error) : PM C unit :=
  logEvent storeId "cleanup" Types.failed (message err);;
  updateStoreStatus storeId Failed (Some ("Cleanup failed: " ++ message err));;
  throw err.

Definition cleanupStore (storeId : string) : PM C unit :=
  store ← World.getStoreById storeId;
  match store with
  | None => throw (StoreNotFound storeId)
  | Some s =>
      let ns := Store.namespace s in
      updateStoreStatus storeId Deleting None;;
      logEvent storeId "cleanup" started ("Deleting namespace " ++ ns);;
      catch (cleanup_body storeId ns) (cleanup_failed storeId)
  end.
End CleanupOps.

(** ** Theorems *)

Section CleanupTheory.
Context {C : Type} `{ClusterApi C}.
Local Open Scope list_scope.

(** The world once the store is marked [Deleting] and the start of the
    cleanup is logged. *)
Definition started_world (id : string) (s : Store.t) (w : World C) : World C :=
  set_db (snd (Repository.logEvent id "cleanup" started ("Deleting namespace " ++ Store.namespace s)
                 (now_seconds w) (Repository.updateStoreStatus id Deleting None (db w)))) w.

Lemma cleanupStore_start id s (w : World C) :
  Repository.getStoreById id (db w) = Some s ->
  cleanupStore id w =
  catch (cleanup_body id (Store.namespace s)) (cleanup_failed id) (started_world id s w).
Proof.
  intros Hs. unfold cleanupStore.
  rewrite (run_bind_ok _ _ _ (Repository.getStoreById id (db w)) w) by reflexivity. rewrite Hs.
  do 2 (erewrite run_bind_ok; [|reflexivity]). reflexivity.
Qed.

(** An unknown id throws [Store <id> not found] and changes nothing. *)
Theorem cleanupStore_not_found id (w : World C) :
  Repository.getStoreById id (db w) = None ->
  cleanupStore id w = (Err (StoreNotFound id), w).
Proof.
  intros Hs. unfold cleanupStore.
  rewrite (run_bind_ok _ _ _ (Repository.getStoreById id (db w)) w) by reflexivity. by rewrite Hs.
Qed.

Lemma k8s_deleteNamespace_run ns (w : World C) o c' :
  deleteNamespace (clock w) ns (cluster w) = (o, c') ->
  k8s_deleteNamespace ns w = (o, set_cluster c' w).
Proof. intros E. unfold k8s_deleteNamespace. by rewrite E. Qed.

Lemma await_run f (w : World C) o t :
  f (cluster w) (clock w) = (o, t) -> await_wait f w = (o, set_clock t w).
Proof. intros E. unfold await_wait. by rewrite E. Qed.

(** The events of the other stores. *)
Definition others (id : string) (d : Db) : list ProvisioningEvent.t :=
  List.filter (fun e => bool_decide (ProvisioningEvent.storeId e <> id)) (events d).

Lemma others_logEvent id step st msg now d :
  others id (snd (Repository.logEvent id step st msg now d)) = others id d.
Proof.
  unfold others, Repository.logEvent, next_uuid, with_events. cbn [snd events].
  rewrite List.filter_app. cbn [List.filter ProvisioningEvent.storeId].
  rewrite bool_decide_false by (cbn; tauto). apply app_nil_r.
Qed.

(** The events left once a store's events are deleted after some events
    of the store were logged. *)
Ltac clear_logs :=
  unfold others; rewrite ?List.filter_app; cbn [List.filter ProvisioningEvent.storeId];
  rewrite ?bool_decide_false by (cbn; tauto); rewrite ?app_nil_r; reflexivity.

(** C13: a cleanup whose namespace deletion is accepted (or finds the
    namespace already gone) and whose wait sees the namespace disappear
    returns normally, removes the store's row and every event of the
    store, keeps every other row and event, and leaves the cluster as the
    deletion and the wait left it. *)
Theorem cleanupStore_success id s (w : World C) c' t :
  Repository.getStoreById id (db w) = Some s ->
  (deleteNamespace (clock w) (Store.namespace s) (cluster w) = (Ok tt, c') \/
   exists e, deleteNamespace (clock w) (Store.namespace s) (cluster w) = (Err e, c') /\
             is_not_found e = true) ->
  waitForNamespaceDeletion c' (Store.namespace s) 120 (clock w) = (Ok tt, t) ->
  exists w', cleanupStore id w = (Ok tt, w') /\ rows w' = delete id (rows w) /\
             events (db w') = others id (db w) /\ cluster w' = c' /\ clock w' = t.
Proof.
  intros Hs Hdel Hwait. rewrite (cleanupStore_start _ _ _ Hs).
  destruct Hdel as [Hdel | (e & Hdel & Hnf)]; eexists; split.
  - apply pm_catch_ok. unfold cleanup_body, delete_namespace_step.
    erewrite pm_bind_ok; [|apply pm_catch_ok, k8s_deleteNamespace_run; exact Hdel].
    erewrite pm_bind_ok; [reflexivity|apply await_run; exact Hwait].
  - cbn. split_and!; [apply delete_alter_eq|clear_logs|done..].
  - apply pm_catch_ok. unfold cleanup_body, delete_namespace_step.
    erewrite pm_bind_ok.
    2:{ erewrite pm_catch_err; [|apply k8s_deleteNamespace_run; exact Hdel]. rewrite Hnf. reflexivity. }
    erewrite pm_bind_ok; [reflexivity|apply await_run; exact Hwait].
  - cbn. split_and!; [apply delete_alter_eq|clear_logs|done..].
Qed.

Lemma cleanup_body_keeps_on_err id ns : keeps_on_err (@rows C) (cleanup_body id ns).
Proof.
  unfold cleanup_body, delete_namespace_step.
  do 4 (apply keeps_on_err_bind; [keeps_tac|intros ?]).
  apply keeps_on_err_total. intros w. by do 2 eexists.
Qed.

Lemma cleanup_message_truthy m : truthy (Some ("Cleanup failed: " ++ m)%string) = Some ("Cleanup failed: " ++ m)%string.
Proof. unfold truthy. by rewrite bool_decide_false. Qed.

(** The state a failed cleanup leaves (proof of [cleanupStore_failure]). *)
Lemma cleanup_failed_state id s (w w' : World C) e :
  Repository.getStoreById id (db w) = Some s ->
  cleanupStore id w = (Err e, w') ->
  rows w' = <[id := set_status Failed (Some ("Cleanup failed: " ++ message e)%string)
                      (set_status Deleting None s)]> (rows w) /\
  exists evs ev, getEventsByStoreId id (db w') = evs ++ [ev] /\
    ProvisioningEvent.step ev = "cleanup" /\ ProvisioningEvent.status ev = Types.failed /\
    ProvisioningEvent.message ev = message e.
Proof.
  intros Hs. rewrite (cleanupStore_start _ _ _ Hs).
  destruct (cleanup_body id (Store.namespace s) (started_world id s w)) as [[u|e'] w3] eqn:Eb.
  { by rewrite (pm_catch_ok _ _ _ _ _ Eb). }
  rewrite (pm_catch_err _ _ _ _ _ Eb). intros [= <- <-].
  pose proof (cleanup_body_keeps_on_err id (Store.namespace s) _ _ _ Eb) as Hr.
  split.
  - transitivity (alter (set_status Failed (truthy (Some ("Cleanup failed: " ++ message e')%string)))
                    id (rows w3)); [reflexivity|].
    rewrite cleanup_message_truthy, Hr.
    change (rows (started_world id s w)) with (alter (set_status Deleting None) id (rows w)).
    by apply alter_alter_lookup.
  - do 2 eexists. split.
    { transitivity (getEventsByStoreId id (snd (Repository.logEvent id "cleanup" Types.failed
                                                  (message e') (now_seconds w3) (db w3))));
        [reflexivity|].
      rewrite getEventsByStoreId_logEvent, bool_decide_true by done. reflexivity. }
    split_and!; reflexivity.
Qed.

(** A cleanup that throws, whatever the error, leaves the store's row
    marked [Failed] with the message ["Cleanup failed: " ++ message]
    (the [Deleting] mark of the start is overwritten) and every other
    row as it was; the last event of the store is the cleanup's
    [failed]. *)
Theorem cleanupStore_failure id s (w w' : World C) e :
  Repository.getStoreById id (db w) = Some s ->
  cleanupStore id w = (Err e, w') ->
  rows w' = <[id := set_status Failed (Some ("Cleanup failed: " ++ message e)%string)
                      (set_status Deleting None s)]> (rows w) /\
  exists evs ev, getEventsByStoreId id (db w') = evs ++ [ev] /\
    ProvisioningEvent.step ev = "cleanup" /\ ProvisioningEvent.status ev = Types.failed /\
    ProvisioningEvent.message ev = message e.
Proof. exact (cleanup_failed_state id s w w' e). Qed.

(** A namespace that stays readable after its deletion was accepted
    makes [waitForNamespaceDeletion] time out. *)
Lemma namespace_wait_timeout (c : C) ns now :
  (forall t, (t < now + 120 * 1000)%Z -> readNamespace t ns c = Ok tt) ->
  exists t, waitForNamespaceDeletion c ns 120 now = (Err (NamespaceDeletionTimeout ns 120), t).
Proof.
  intros Hr. unfold waitForNamespaceDeletion.
  destruct (poll_all_continue (namespace_probe c ns) 3000 (now + 120 * 1000)
              (NamespaceDeletionTimeout ns 120) ltac:(lia) now ltac:(lia)) as (t & E & _).
  { intros t Ht. unfold namespace_probe. by rewrite Hr. }
  by exists t.
Qed.

(** When the namespace deletion is accepted but the namespace is still
    there 120 s later, the cleanup throws the timeout of
    [waitForNamespaceDeletion] after 120 s and the store's row is marked
    [Failed] with ["Cleanup failed: Namespace <ns> deletion timed out
    after 120s"]. *)
Theorem cleanupStore_timeout id s (w : World C) c' :
  Repository.getStoreById id (db w) = Some s ->
  deleteNamespace (clock w) (Store.namespace s) (cluster w) = (Ok tt, c') ->
  (forall t, (t < clock w + 120 * 1000)%Z -> readNamespace t (Store.namespace s) c' = Ok tt) ->
  exists w', cleanupStore id w = (Err (NamespaceDeletionTimeout (Store.namespace s) 120), w') /\
    rows w' !! id =
    Some (set_status Failed
            (Some ("Cleanup failed: Namespace " ++ Store.namespace s ++ " deletion timed out after 120s")%string)
            (set_status Deleting None s)).
Proof.
  intros Hs Hdel Hr. destruct (namespace_wait_timeout c' (Store.namespace s) (clock w) Hr) as (t & Hw).
  assert (E : exists w', cleanupStore id w = (Err (NamespaceDeletionTimeout (Store.namespace s) 120), w')).
  { rewrite (cleanupStore_start _ _ _ Hs). erewrite pm_catch_err; [by eexists|].
    unfold cleanup_body, delete_namespace_step.
    erewrite pm_bind_ok; [|apply pm_catch_ok, k8s_deleteNamespace_run; exact Hdel].
    apply pm_bind_err, await_run. exact Hw. }
  destruct E as (w' & E). exists w'. split; [done|].
  destruct (cleanup_failed_state _ _ _ _ _ Hs E) as [-> _]. by rewrite lookup_insert_eq.
Qed.
(** The part of [cleanupStore] after its first [await]. *)
Lemma cleanup_rest_wf id ns : preserves (@wf_world C) (catch (cleanup_body id ns) (cleanup_failed id)).
Proof. unfold cleanup_body, delete_namespace_step, cleanup_failed. wf_tac. Qed.

Lemma cleanupStore_wf id : preserves (@wf_world C) (cleanupStore id).
Proof. unfold cleanupStore. wf_tac. Qed.
End CleanupTheory.

Section CleanupWitnesses.
Import SimCluster.
Import IdealCluster.
Local Open Scope Z_scope.

Definition cl_store : Store.t :=
  new_store "s1" "Demo Shop" "demo-shop" "store-demo-shop" "admin@example.com" woocommerce 0.

Definition cl_db : Db := mkDb {[ "s1" := cl_store ]} [] [] 0.

(** A cooperative cluster holding the store's namespace. *)
Definition ideal_cleanup_world : World Ideal :=
  mkWorld cl_db (mkIdeal {[ ns_key "store-demo-shop" ]}) 0 0.

Lemma cleanupStore_not_found_witness :
  cleanupStore "nope" ideal_cleanup_world = (Err (StoreNotFound "nope"), ideal_cleanup_world).
Proof. apply cleanupStore_not_found. reflexivity. Defined.

Lemma cleanupStore_success_witness :
  exists w', cleanupStore "s1" ideal_cleanup_world = (Ok tt, w') /\
             rows w' = delete "s1" (rows ideal_cleanup_world).
Proof.
  destruct (cleanupStore_success "s1" cl_store ideal_cleanup_world
              (mkIdeal (filter (fun k : ResKey => k.1.2 <> "store-demo-shop") {[ ns_key "store-demo-shop" ]}))
              0) as (w' & E & R & _).
  - reflexivity.
  - left. reflexivity.
  - vm_compute. reflexivity.
  - exists w'. split; assumption.
Defined.

(** A simulated cluster whose namespaces take 200 s to disappear. *)
Definition slow_gc_cfg : SimConfig :=
  mkSimConfig (fun _ => Some 0) (fun _ => mkJobStatus (Some 1) None) 200000 (fun _ => None).

Definition slow_world : World Sim :=
  mkWorld cl_db (sim_of slow_gc_cfg [buildNamespace "store-demo-shop" "s1"]) 0 0.

Definition slow_deleted : Sim :=
  mkSim slow_gc_cfg (objects (cluster slow_world)) (<[ "store-demo-shop" := 200000 ]> ∅).

Lemma cleanupStore_timeout_witness :
  exists w', cleanupStore "s1" slow_world =
               (Err (NamespaceDeletionTimeout "store-demo-shop" 120), w') /\
    rows w' !! "s1" =
    Some (set_status Failed
            (Some "Cleanup failed: Namespace store-demo-shop deletion timed out after 120s")
            (set_status Deleting None cl_store)).
Proof.
  apply (cleanupStore_timeout "s1" cl_store slow_world slow_deleted).
  - reflexivity.
  - reflexivity.
  - intros t Ht. change (sim_read_namespace t "store-demo-shop" slow_deleted = Ok tt).
    unfold sim_read_namespace.
    replace (ns_exists slow_deleted "store-demo-shop") with true by reflexivity.
    replace (terminating slow_deleted !! "store-demo-shop") with (Some 200000) by reflexivity.
    cbn [negb]. rewrite bool_decide_false by (cbn in Ht; lia). reflexivity.
Defined.

Lemma cleanupStore_failure_witness :
  exists e w', cleanupStore "s1" slow_world = (Err e, w') /\
    rows w' = <[ "s1" := set_status Failed (Some ("Cleanup failed: " ++ message e)%string)
                           (set_status Deleting None cl_store) ]> (rows slow_world).
Proof.
  destruct (cleanupStore "s1" slow_world) as [[u|e] w'] eqn:E.
  { vm_compute in E. discriminate. }
  exists e, w'. split; [reflexivity|].
  exact (proj1 (cleanupStore_failure "s1" cl_store slow_world w' e eq_refl E)).
Defined.
End CleanupWitnesses.

End Cleanup.
