(* ===== verification/Queue.v ===== *)
(** * Queue: the provisioning queue ([services/provisioningService.ts])

    [enqueueProvisioning] hands a job to a [p-queue] instance of
    concurrency [config.provisioningConcurrency]; the job looks the
    store's provisioner up, runs it, and turns any error into an event
    [("provisioning", failed)] and the status [Failed] with the error's
    message.  [getQueueSize] is [queue.size + queue.pending].

    [PQueue] is the part of the [p-queue] library the service relies on:
    jobs wait in arrival order; [add] enqueues and starts the head job if
    fewer than [concurrency] run; when a job settles the next one starts.
    Its state is the list of waiting jobs and the list of running ones,
    with a ghost list [started] of the jobs started so far, in order.  The
    scheduler is a step relation over [add] and [settle] events; its
    theorems are proved by induction on the runs it allows: at most
    [concurrency] jobs run, no job waits while a slot is free, jobs start
    in arrival order, and [getQueueSize] counts the jobs added and not
    settled; and, for liveness, runs of settlements ([settles]): a job
    waiting at position [p] runs after any [p + 1] of them, and while jobs
    wait one is always possible.

    A job's run is the whole [provisioning_job] computation of the world
    monad; the interleaving of the steps of concurrent jobs is not
    modelled (each job touches only its own store's row, events and
    namespace). *)

From S2P Require Import Prelude Model Manifests Repository Cluster SimCluster Wait World Provisioners.
Local Open Scope string_scope.

Module Queue.
Import Manifests Repository Cluster World Provisioners.

(** ** The scheduler *)

Section Scheduler.
Context {A : Type} `{EqDecision A}.

Record PQueue := mkPQueue {
concurrency : nat;
waiting : list A;
running : list A;
started : list A
}.

Definition size (q : PQueue) : nat := length (waiting q).
Definition pending (q : PQueue) : nat := length (running q).

(** [queue.size + queue.pending] *)
Definition getQueueSize (q : PQueue) : nat := size q + pending q.

(** [_tryToStartAnother]: start the head job when a slot is free. *)
Definition try_start (q : PQueue) : PQueue :=
match waiting q with
| j :: rest =>
    if bool_decide (pending q < concurrency q)%nat
    then mkPQueue (concurrency q) rest (running q ++ [j])%list (started q ++ [j])%list
    else q
| [] => q
end.

(** [queue.add(job)] *)
Definition add (j : A) (q : PQueue) : PQueue :=
try_start (mkPQueue (concurrency q) (waiting q ++ [j])%list (running q) (started q)).

(** The first occurrence of [j] removed. *)
Fixpoint remove_first (j : A) (l : list A) : list A :=
match l with
| [] => []
| k :: l' => if bool_decide (k = j) then l' else k :: remove_first j l'
end.

(** A running job settles, freeing its slot. *)
Definition settle (j : A) (q : PQueue) : PQueue :=
try_start (mkPQueue (concurrency q) (waiting q) (remove_first j (running q)) (started q)).

Definition empty_queue (n : nat) : PQueue := mkPQueue n [] [] [].

Inductive event := Add (j : A) | Settle (j : A).

(** A scheduler step: a job settles only while it runs. *)
Inductive step : PQueue -> event -> PQueue -> Prop :=
| step_add q j : step q (Add j) (add j q)
| step_settle q j : j ∈ running q -> step q (Settle j) (settle j q).

(** The runs from the empty queue, with the jobs added so far. *)
Inductive reachable (n : nat) : PQueue -> list A -> Prop :=
| reach_empty : reachable n (empty_queue n) []
| reach_add q added j : reachable n q added -> reachable n (add j q) (added ++ [j])%list
| reach_settle q added j : reachable n q added -> j ∈ running q -> reachable n (settle j q) added.

(** The scheduler's invariant. *)
Record queue_wf (q : PQueue) (added : list A) : Prop := {
wf_bound : (pending q <= concurrency q)%nat;
wf_busy : waiting q <> [] -> pending q = concurrency q;
wf_fifo : (started q ++ waiting q)%list = added;
wf_running : forall j, j ∈ running q -> j ∈ started q
}.

Lemma remove_first_length j l : j ∈ l -> length (remove_first j l) = pred (length l).
Proof.
induction l as [|k l IH]; intros Hj; [by apply not_elem_of_nil in Hj|]. cbn [remove_first].
case_bool_decide; [done|]. apply elem_of_cons in Hj as [->|Hj]; [done|].
rewrite length_cons, (IH Hj). destruct l; [by apply not_elem_of_nil in Hj|done].
Qed.

Lemma remove_first_subseteq j l k : k ∈ remove_first j l -> k ∈ l.
Proof.
induction l as [|k' l IH]; cbn; [done|]. case_bool_decide; [intros; by right|].
intros [->|?]%elem_of_cons; [left|right; auto].
Qed.

Lemma try_start_cases q :
try_start q = q \/
exists j rest, waiting q = j :: rest /\ (pending q < concurrency q)%nat /\
  try_start q = mkPQueue (concurrency q) rest (running q ++ [j])%list (started q ++ [j])%list.
Proof.
unfold try_start. destruct (waiting q) as [|j rest] eqn:Hw; [by left|].
case_bool_decide; [right; by exists j, rest|by left].
Qed.

(** Starting the head job restores the invariant when the bound holds
  and, if more than one job waits, at most one slot is free. *)
Lemma try_start_wf q added :
(pending q <= concurrency q)%nat ->
(forall j rest, waiting q = j :: rest -> rest <> [] -> (concurrency q <= S (pending q))%nat) ->
(started q ++ waiting q)%list = added ->
(forall j, j ∈ running q -> j ∈ started q) ->
queue_wf (try_start q) added.
Proof.
intros Hb Hbusy Hf Hr. unfold try_start. destruct (waiting q) as [|j rest] eqn:Hw.
{ split; by rewrite ?Hw. }
case_bool_decide as Hlt; split; cbn; unfold pending in *; rewrite ?length_app; cbn.
- lia.
- intros Hne. specialize (Hbusy j rest eq_refl Hne). lia.
- by rewrite <- app_assoc.
- intros k Hk. apply elem_of_app in Hk as [Hk|Hk]; apply elem_of_app; [left; auto|right].
  apply list_elem_of_singleton in Hk. subst. by apply list_elem_of_singleton.
- lia.
- intros _. unfold pending in *. lia.
- by rewrite ?Hw.
- done.
Qed.

Lemma add_wf q added j : queue_wf q added -> queue_wf (add j q) (added ++ [j])%list.
Proof.
intros [Hb Hbusy Hf Hr]. apply try_start_wf; cbn; [done| |rewrite <- Hf; apply List.app_assoc|done].
intros j' rest Hw Hne. unfold pending in *. rewrite Hbusy; [lia|].
intros Hq. rewrite Hq in Hw. injection Hw as _ <-. done.
Qed.

Lemma settle_wf q added j : queue_wf q added -> j ∈ running q -> queue_wf (settle j q) added.
Proof.
intros [Hb Hbusy Hf Hr] Hj. unfold pending in *.
pose proof (remove_first_length j _ Hj) as Hl.
assert (length (running q) <> 0%nat) by (destruct (running q); [by apply not_elem_of_nil in Hj|done]).
apply try_start_wf; cbn; unfold pending; cbn; rewrite ?Hl; [lia| |done|].
- intros j' rest Hw _. rewrite Hbusy by congruence. lia.
- intros k Hk. by apply Hr, (remove_first_subseteq j).
Qed.


Lemma try_start_size q : getQueueSize (try_start q) = getQueueSize q.
Proof.
destruct (try_start_cases q) as [-> | (j & rest & Hw & _ & ->)]; [done|].
unfold getQueueSize, size, pending in *. cbn. rewrite Hw, length_app. cbn. lia.
Qed.

Lemma try_start_concurrency q : concurrency (try_start q) = concurrency q.
Proof. by destruct (try_start_cases q) as [-> | (j & rest & Hw & _ & ->)]. Qed.

(** The invariant of the runs (proof of [reachable_wf]). *)
Lemma reachable_invariant n q added :
reachable n q added -> queue_wf q added /\ concurrency q = n.
Proof.
induction 1 as [|q added j _ [Hwf Hn]|q added j _ [Hwf Hn] Hj].
- split; [|done]. split; cbn; [unfold pending; cbn; lia|done|done|done].
- split; [by apply add_wf|]. unfold add. by rewrite try_start_concurrency.
- split; [by apply settle_wf|]. unfold settle. by rewrite try_start_concurrency.
Qed.


(** [getQueueSize] counts the jobs added and not yet settled: an
  [add] raises it by one and the settling of a running job lowers it by
  one. *)
Theorem getQueueSize_step q j :
getQueueSize (add j q) = S (getQueueSize q) /\
(j ∈ running q -> getQueueSize (settle j q) = pred (getQueueSize q)).
Proof.
split.
- unfold add. rewrite try_start_size. unfold getQueueSize, size, pending. cbn.
  rewrite length_app. cbn. lia.
- intros Hj. unfold settle. rewrite try_start_size. unfold getQueueSize, size, pending. cbn.
  rewrite (remove_first_length _ _ Hj). destruct (running q); [by apply not_elem_of_nil in Hj|].
  cbn. lia.
Qed.

(** A settlement while jobs wait starts the head job at once: no slot
  stays idle while the queue is not empty. *)
Lemma settle_start_head n q added j h rest :
reachable n q added -> j ∈ running q -> waiting q = h :: rest ->
waiting (settle j q) = rest /\ h ∈ running (settle j q) /\
pending (settle j q) = pending q /\ started (settle j q) = (started q ++ [h])%list.
Proof.
intros Hr Hj Hw. destruct (reachable_invariant _ _ _ Hr) as [[Hb Hbusy _ _] _].
pose proof (remove_first_length _ _ Hj) as Hl.
assert (Hp : length (running q) <> 0%nat)
  by (destruct (running q); [by apply not_elem_of_nil in Hj|done]).
unfold settle, try_start, pending in *. cbn. rewrite Hw, bool_decide_true by lia. cbn.
split_and!; [done| |rewrite length_app, Hl; cbn; lia|done].
apply elem_of_app. right. by apply list_elem_of_singleton.
Qed.

(** [k] settlements in a row, each of a job running at that moment. *)
Inductive settles : PQueue -> nat -> PQueue -> Prop :=
| settles_nil q : settles q 0 q
| settles_cons q j k q' : j ∈ running q -> settles (settle j q) k q' -> settles q (S k) q'.

Lemma last_take_S {B} (l : list B) p y : l !! p = Some y -> last (take (S p) l) = Some y.
Proof.
revert p; induction l as [|x l IH]; intros [|p] Hp; [done..|].
cbn in Hp |- *. rewrite <- (IH p Hp). destruct l; [by destruct p|done].
Qed.

(** While at least [k] jobs wait, [k] settlements start the first [k]
  waiting jobs in order, the last of them still running at the end. *)
Lemma settles_fifo n q added k q' :
reachable n q added -> settles q k q' -> (k <= length (waiting q))%nat ->
reachable n q' added /\ waiting q' = drop k (waiting q) /\
started q' = (started q ++ take k (waiting q))%list /\
(forall h, last (take k (waiting q)) = Some h -> h ∈ running q').
Proof.
intros Hr Hs. revert Hr. induction Hs as [q|q j k q' Hj Hs IH]; intros Hr Hk.
{ split_and!; [done|done|by rewrite app_nil_r|done]. }
destruct (waiting q) as [|h rest] eqn:Hw; [cbn in Hk; lia|].
destruct (settle_start_head n q added j h rest Hr Hj Hw) as (Hw1 & Hh & _ & Hs1).
destruct IH as (Hr' & Hw' & Hs' & Hlast); [by constructor|rewrite Hw1; cbn in Hk; lia|].
rewrite Hw1 in Hw', Hs', Hlast. rewrite Hs1, <- app_assoc in Hs'.
split_and!; [done|done|done|]. intros h' Hl.
destruct k as [|k]; [inversion Hs; subst; cbn in Hl; injection Hl as <-; exact Hh|].
apply Hlast. rewrite <- Hl. cbn [take]. destruct rest; [cbn in Hk; lia|reflexivity].
Qed.

(** While jobs wait in a queue of positive concurrency, some job runs, so
  a settlement is always possible. *)
Lemma settles_enabled n q added k :
reachable n q added -> (0 < n)%nat -> (k <= length (waiting q))%nat -> exists q', settles q k q'.
Proof.
revert q. induction k as [|k IH]; intros q Hr Hn Hk; [eexists; constructor|].
destruct (reachable_invariant _ _ _ Hr) as [[_ Hbusy _ _] Hc].
destruct (waiting q) as [|h rest] eqn:Hw; [cbn in Hk; lia|].
destruct (running q) as [|j rs] eqn:Hrun.
{ specialize (Hbusy ltac:(done)). unfold pending in Hbusy. rewrite Hrun in Hbusy. cbn in Hbusy. lia. }
assert (Hj : j ∈ running q) by (rewrite Hrun; left).
destruct (settle_start_head n q added j h rest Hr Hj Hw) as (Hw1 & _).
destruct (IH (settle j q)) as [q' Hs]; [by constructor|done|rewrite Hw1; cbn in Hk; lia|].
exists q'. by econstructor.
Qed.

End Scheduler.

Arguments PQueue : clear implicits.

(** ** The job *)

Section Job.
Context {C : Type} `{ClusterApi C} (cfg : Config.t).

(** The job [enqueueProvisioning] adds. *)
Definition provisioning_job (store : Store.t) : PM C unit :=
  catch (p ← lift_outcome (getProvisioner cfg (plan_name (Store.plan store)));
         provision p store)
    (fun err =>
       logEvent (Store.id store) "provisioning" Types.failed (message err);;
       updateStoreStatus (Store.id store) Failed (Some (message err))).
End Job.

Section JobTheory.
Context {C : Type} `{ClusterApi C} (cfg : Config.t).
Local Open Scope list_scope.

Lemma job_handler_run (store : Store.t) err (w : World C) :
  (logEvent (Store.id store) "provisioning" Types.failed (message err);;
   updateStoreStatus (Store.id store) Failed (Some (message err))) w =
  (Ok tt, set_db (Repository.updateStoreStatus (Store.id store) Failed (Some (message err))
                    (snd (Repository.logEvent (Store.id store) "provisioning" Types.failed
                            (message err) (now_seconds w) (db w)))) w).
Proof. reflexivity. Qed.


(** C10: a WooCommerce run that throws [e] ends, through the job, with the
    store's row marked [Failed] with the error's message (when that
    message is not empty) and every other row unchanged, and with the
    event [("provisioning", failed, message e)] appended to the events
    the run logged. *)
Theorem provisioning_job_woo_failure (store : Store.t) (w w1 : World C) e :
  Store.plan store = woocommerce ->
  woocommerce_provision cfg store w = (Err e, w1) ->
  exists w', provisioning_job cfg store w = (Ok tt, w') /\
    rows w' = alter (set_status Failed (truthy (Some (message e)))) (Store.id store) (rows w) /\
    exists ev, getEventsByStoreId (Store.id store) (db w') =
               getEventsByStoreId (Store.id store) (db w1) ++ [ev] /\
               ProvisioningEvent.step ev = "provisioning" /\
               ProvisioningEvent.status ev = Types.failed /\
               ProvisioningEvent.message ev = message e.
Proof.
  intros Hplan E. pose proof (woo_failed_rows cfg _ _ _ _ E) as Hr.
  unfold provisioning_job. rewrite Hplan. erewrite pm_catch_err; [|exact E].
  rewrite job_handler_run. eexists. split; [reflexivity|]. split.
  - change (alter (set_status Failed (truthy (Some (message e)))) (Store.id store) (rows w1) =
            alter (set_status Failed (truthy (Some (message e)))) (Store.id store) (rows w)).
    by rewrite Hr.
  - eexists. split.
    { transitivity (getEventsByStoreId (Store.id store)
                      (snd (Repository.logEvent (Store.id store) "provisioning" Types.failed
                              (message e) (now_seconds w1) (db w1)))); [reflexivity|].
      rewrite getEventsByStoreId_logEvent, bool_decide_true by done. reflexivity. }
    split_and!; reflexivity.
Qed.

Definition medusa_guidance : string :=
  "MedusaJS engine coming soon. Select WooCommerce for a fully functional store.".

(** The job of a Medusa store ends with two [("provisioning",
    failed)] events, one from the provisioner and one from the queue,
    and the row marked [Failed] with the queue's copy of the error
    message: the provisioner's guidance ["MedusaJS engine coming soon.
    ..."] is overwritten by ["MedusaJS provisioning is not yet
    implemented."]. *)
Theorem provisioning_job_medusa (store s : Store.t) (w : World C) :
  Store.plan store = medusa -> Repository.getStoreById (Store.id store) (db w) = Some s ->
  exists w', provisioning_job cfg store w = (Ok tt, w') /\
    rows w' !! Store.id store =
      Some (set_status Failed (Some "MedusaJS provisioning is not yet implemented.")
              (set_status Failed (Some medusa_guidance) s)) /\
    trace (Store.id store) w' =
      trace (Store.id store) w ++ [("provisioning", Types.failed); ("provisioning", Types.failed)].
Proof.
  intros Hplan Hs. unfold provisioning_job. rewrite Hplan. eexists. split; [reflexivity|]. split.
  - transitivity (alter (set_status Failed (Some "MedusaJS provisioning is not yet implemented."))
                    (Store.id store)
                    (alter (set_status Failed (Some medusa_guidance)) (Store.id store) (rows w)) !!
                    Store.id store); [reflexivity|].
    by rewrite (alter_alter_lookup _ _ _ _ _ Hs), lookup_insert_eq.
  - unfold trace. cbn [World.db set_db].
    repeat first [rewrite getEventsByStoreId_updateStoreStatus | rewrite getEventsByStoreId_logEvent].
    rewrite !bool_decide_true by done.
    rewrite !map_app, <- ?List.app_assoc. reflexivity.
Qed.
(** The job keeps the schema invariant, whatever the plan. *)
Lemma provisioning_job_wf store : preserves (@wf_world C) (provisioning_job cfg store).
Proof.
  unfold provisioning_job. apply preserves_catch; [|intros ?; wf_tac].
  apply preserves_lift_bind. intros p Hp. by apply (getProvisioner_wf cfg _ _ _ Hp).
Qed.
End JobTheory.

Section QueueWitnesses.
Import SimCluster.
Import IdealCluster.
Local Open Scope list_scope.

(** Three jobs added to a queue of concurrency 2: "a" and "b" start,
    "c" waits. *)
Definition three_jobs : PQueue string := add "c" (add "b" (add "a" (empty_queue 2))).

Lemma three_jobs_reachable : reachable 2 three_jobs ((([] ++ ["a"]) ++ ["b"]) ++ ["c"]).
Proof. repeat constructor. Qed.



Definition medusa_store : Store.t :=
  new_store "m1" "Medusa Shop" "medusa-shop" "store-medusa-shop" "admin@example.com" medusa 0%Z.

Definition medusa_world : World Ideal :=
  mkWorld (mkDb {[ "m1" := medusa_store ]} [] [] 0) (mkIdeal ∅) 0%Z 0.

Lemma provisioning_job_medusa_witness :
  exists w', provisioning_job Config.default medusa_store medusa_world = (Ok tt, w') /\
    rows w' !! "m1" =
      Some (set_status Failed (Some "MedusaJS provisioning is not yet implemented.")
              (set_status Failed (Some medusa_guidance) medusa_store)) /\
    trace "m1" w' =
      trace "m1" medusa_world ++ [("provisioning", Types.failed); ("provisioning", Types.failed)].
Proof. apply provisioning_job_medusa; reflexivity. Defined.

Lemma provisioning_job_woo_failure_witness :
  exists e w1 w', woocommerce_provision Config.default demo_store failing_world = (Err e, w1) /\
    provisioning_job Config.default demo_store failing_world = (Ok tt, w') /\
    rows w' = alter (set_status Failed (truthy (Some (message e)))) "s1" (rows failing_world).
Proof.
  destruct (woocommerce_provision Config.default demo_store failing_world) as [[u|e] w1] eqn:E.
  { vm_compute in E. discriminate. }
  destruct (provisioning_job_woo_failure Config.default demo_store failing_world w1 e eq_refl E)
    as (w' & Ej & Hr & _).
  exists e, w1, w'. split_and!; [reflexivity|exact Ej|exact Hr].
Defined.
End QueueWitnesses.

End Queue.
