(* ===== verification/Routes.v ===== *)
(** * Routes: the store API of [routes/stores.ts] over the whole platform

    The platform's state is the world of the pipelines, the provisioning
    queue and the cleanups whose first [await] has been reached.  Each
    handler is a function from a request and the state to a response and
    the new state: the handlers of [routes/stores.ts] have no [await], so
    each one runs to its end before any other code.  [cleanupStore],
    called without [await] by the delete handler, runs synchronously up to
    its [await coreApi.deleteNamespace]: that prefix is part of the
    handler, the rest is a pending continuation.

    [pstep] is the platform's step relation: a request, a queued job that
    runs to its end and settles, or a pending cleanup that runs to its
    end.  The theorems give the behaviour of each handler on each branch,
    the refinement of [cleanupStore] by the delete handler and its
    continuation, the invariant of the schema along every run, and runs
    on which a store being deleted comes back [Ready], the store limit is
    exceeded, and a namespace outlives its store. *)

From S2P Require Import Prelude Model NameGenerator Manifests Repository Cluster SimCluster Wait World Provisioners Cleanup Queue.
Local Open Scope string_scope.

Module Routes.
Import NameGenerator Manifests Repository Cluster World Provisioners Cleanup Queue.

(** ** Responses *)

(** The JSON bodies [res.json] sends, by shape. *)
Inductive Payload :=
(** [{ error }] *)
| PError (error : string)
(** [{ error: 'Validation failed', details: parsed.error.issues }] *)
| PValidationFailed
(** [{ store }] *)
| PStore (store : Store.t)
(** [{ stores, queueSize }] *)
| PStores (stores : list Store.t) (queueSize : nat)
(** [{ message: 'Deletion initiated', storeId }] *)
| PDeletion (storeId : string)
(** [{ events }] *)
| PEvents (events : list ProvisioningEvent.t).

Record Response := mkResponse { status : Z; payload : Payload }.

(** ** The platform *)

Record Platform (C : Type) := mkPlatform {
  world : World C;
  queue : PQueue Store.t;
  (** [(storeId, namespace)] of each [cleanupStore] waiting on its
      [deleteNamespace] call *)
  cleanups : list (string * string)
}.
Arguments mkPlatform {C} _ _ _.
Arguments world {C} _.
Arguments queue {C} _.
Arguments cleanups {C} _.

Section Handlers.
Context {C : Type} `{ClusterApi C} (cfg : Config.t).
(** zod's [z.string().email()] *)
Context (is_email : string -> bool).

Definition set_world (w : World C) (p : Platform C) : Platform C :=
  mkPlatform w (queue p) (cleanups p).

(** [z.enum(['woocommerce', 'medusa']).default('woocommerce')]: an absent
    field takes the default; anything else than the two strings fails. *)
Definition parse_plan (j : option Json) : option StorePlan :=
  match j with
  | None => Some woocommerce
  | Some (JStr s) =>
      if String.eqb s "woocommerce" then Some woocommerce
      else if String.eqb s "medusa" then Some medusa else None
  | Some _ => None
  end.

(** [createStoreSchema.safeParse(req.body)]: an object whose [name]
    passes the name rule and whose [adminEmail] is an e-mail address. *)
Definition parse_body (body : Json) : option (string * string * StorePlan) :=
  match body with
  | JObj fs =>
      match assoc "name" fs, assoc "adminEmail" fs with
      | Some (JStr name), Some (JStr adminEmail) =>
          if valid_store_name name && is_email adminEmail then
            plan ← parse_plan (assoc "plan" fs); Some (name, adminEmail, plan)
          else None
      | _, _ => None
      end
  | _ => None
  end.

Definition limit_message : string :=
  "Maximum number of stores (" ++ string_of_nat (Config.maxStores cfg) ++
  ") reached. Delete a store first.".

Definition slug_message (slug : string) : string :=
  "A store with slug " ++ dq ++ slug ++ dq ++ " already exists.".

(** [POST /api/stores] *)
Definition createRoute (body : Json) (ip : option string) (p : Platform C) : Response * Platform C :=
  let w := world p in
  match parse_body body with
  | None => (mkResponse 400 PValidationFailed, p)
  | Some (name, adminEmail, plan) =>
      if bool_decide (Config.maxStores cfg <= getStoreCount (db w))%nat then
        (mkResponse 429 (PError limit_message), p)
      else
        let slug := generateSlug name in
        let namespace := generateNamespace slug in
        match getStoreBySlug slug (db w) with
        | Some _ => (mkResponse 409 (PError (slug_message slug)), p)
        | None =>
            match createStore name slug namespace adminEmail plan (now_seconds w) (db w) with
            | (Err _, d) => (mkResponse 500 (PError "Failed to create store"), set_world (set_db d w) p)
            | (Ok store, d) =>
                let d' := logAudit "create" "store" (Some (Store.id store)) (Some name)
                            (Some ("plan=" ++ plan_name plan ++ ", email=" ++ adminEmail))
                            (truthy ip) (now_seconds w) d in
                (mkResponse 201 (PStore store),
                 mkPlatform (set_db d' w) (add store (queue p)) (cleanups p))
            end
        end
  end.

(** [cleanupStore] up to its first [await]: the lookup, [Deleting] and
    the [started] event; it returns the namespace. *)
Definition cleanup_prefix (storeId : string) : PM C string :=
  store ← World.getStoreById storeId;
  match store with
  | None => throw (StoreNotFound storeId)
  | Some s =>
      let ns := Store.namespace s in
      World.updateStoreStatus storeId Deleting None;;
      World.logEvent storeId "cleanup" Types.started ("Deleting namespace " ++ ns);;
      mret ns
  end.

(** The rest of [cleanupStore], from [await coreApi.deleteNamespace]. *)
Definition cleanup_rest (storeId ns : string) : PM C unit :=
  catch (cleanup_body storeId ns) (cleanup_failed storeId).

(** [DELETE /api/stores/:id] *)
Definition deleteRoute (id : string) (ip : option string) (p : Platform C) : Response * Platform C :=
  let w := world p in
  match Repository.getStoreById id (db w) with
  | None => (mkResponse 404 (PError "Store not found"), p)
  | Some s =>
      if bool_decide (Store.status s = Deleting) then
        (mkResponse 409 (PError "Store is already being deleted"), p)
      else
        let w1 := set_db (logAudit "delete" "store" (Some (Store.id s)) (Some (Store.name s)) None
                            (truthy ip) (now_seconds w) (db w)) w in
        match cleanup_prefix (Store.id s) w1 with
        | (Ok ns, w2) =>
            (mkResponse 202 (PDeletion (Store.id s)),
             mkPlatform w2 (queue p) (cleanups p ++ [(Store.id s, ns)])%list)
        | (Err _, w2) =>
            (** the rejection is caught by [.catch] and logged *)
            (mkResponse 202 (PDeletion (Store.id s)), set_world w2 p)
        end
  end.

(** [GET /api/stores]; the rows are not ordered in the model. *)
Definition listRoute (p : Platform C) : Response :=
  mkResponse 200 (PStores (snd <$> map_to_list (getAllStores (db (world p))))
                          (getQueueSize (queue p))).

(** [GET /api/stores/:id] *)
Definition getRoute (id : string) (p : Platform C) : Response :=
  match Repository.getStoreById id (db (world p)) with
  | None => mkResponse 404 (PError "Store not found")
  | Some s => mkResponse 200 (PStore s)
  end.

(** [GET /api/stores/:id/events] *)
Definition eventsRoute (id : string) (p : Platform C) : Response :=
  match Repository.getStoreById id (db (world p)) with
  | None => mkResponse 404 (PError "Store not found")
  | Some _ => mkResponse 200 (PEvents (getEventsByStoreId id (db (world p))))
  end.

(** ** The platform's steps *)

Inductive pstep : Platform C -> Platform C -> Prop :=
| ps_create body ip p : pstep p (snd (createRoute body ip p))
| ps_delete id ip p : pstep p (snd (deleteRoute id ip p))
(** a running job runs to its end, and its slot goes to the next one *)
| ps_job p s : s ∈ running (queue p) ->
    pstep p (mkPlatform (snd (provisioning_job cfg s (world p))) (settle s (queue p)) (cleanups p))
(** a pending cleanup resumes and runs to its end *)
| ps_cleanup p id ns : (id, ns) ∈ cleanups p ->
    pstep p (mkPlatform (snd (cleanup_rest id ns (world p))) (queue p)
                        (remove_first (id, ns) (cleanups p))).

Definition psteps : Platform C -> Platform C -> Prop := rtc pstep.
End Handlers.

(** ** Theorems *)

Section RouteTheory.
Context {C : Type} `{ClusterApi C} (cfg : Config.t) (is_email : string -> bool).

Lemma logAudit_stores a rt rid rn d ip now db :
  stores (logAudit a rt rid rn d ip now db) = stores db.
Proof. reflexivity. Qed.

(** [cleanupStore] is its synchronous prefix followed by the rest. *)
Lemma cleanupStore_split id (w : World C) :
  cleanupStore id w = (cleanup_prefix id ≫= cleanup_rest id) w.
Proof.
  unfold cleanupStore, cleanup_prefix, cleanup_rest.
  unfold mbind, stM_bind, World.getStoreById, gets. cbn.
  destruct (Repository.getStoreById id (db w)); reflexivity.
Qed.

(** The run of the create handler that creates a store (proof of
    [createRoute_created]). *)
Lemma createRoute_created_run body ip (p : Platform C) name email plan :
  db_wf (db (world p)) ->
  parse_body is_email body = Some (name, email, plan) ->
  (getStoreCount (db (world p)) < Config.maxStores cfg)%nat ->
  slug_taken (generateSlug name) (db (world p)) = false ->
  namespace_taken (generateNamespace (generateSlug name)) (db (world p)) = false ->
  exists s p', createRoute cfg is_email body ip p = (mkResponse 201 (PStore s), p') /\
    s = new_store (Store.id s) name (generateSlug name) (generateNamespace (generateSlug name))
          email plan (now_seconds (world p)) /\
    Repository.getStoreById (Store.id s) (db (world p)) = None /\
    stores (db (world p')) = <[Store.id s := s]> (stores (db (world p))) /\
    getStoreCount (db (world p')) = S (getStoreCount (db (world p))) /\
    queue p' = add s (queue p) /\ cleanups p' = cleanups p.
Proof.
  intros Hwf Hparse Hcount Hslug Hns. unfold createRoute. rewrite Hparse.
  rewrite bool_decide_false by lia.
  rewrite (proj2 (getStoreBySlug_None _ _) Hslug).
  pose proof (createStore_cases name (generateSlug name) (generateNamespace (generateSlug name))
                email plan (now_seconds (world p)) (db (world p)) Hwf) as Hc.
  destruct (createStore _ _ _ _ _ _ _) as [[s|e] d]; [|destruct Hc as [[Hx|Hx] _]; congruence].
  destruct Hc as (_ & _ & Hs & Hfresh & Hrows & Hcnt).
  eexists _, _. split; [reflexivity|]. split_and!; done.
Qed.

(** C4: [DELETE /api/stores/:id] on a store that is not being deleted
    answers [202], records the audit entry, runs [cleanupStore] up to its
    first [await] (the store is [Deleting] and the [cleanup]/[started]
    event is logged) and leaves the rest pending; running that rest
    afterwards gives exactly what [cleanupStore] gives on the world after
    the audit entry: the handler and its continuation refine the cleanup
    service. *)
Theorem deleteRoute_refines_cleanupStore id ip (p : Platform C) s :
  db_wf (db (world p)) ->
  Repository.getStoreById id (db (world p)) = Some s -> Store.status s <> Deleting ->
  let w1 := set_db (logAudit "delete" "store" (Some id) (Some (Store.name s)) None (truthy ip)
                      (now_seconds (world p)) (db (world p))) (world p) in
  exists w2, deleteRoute id ip p =
      (mkResponse 202 (PDeletion id),
       mkPlatform w2 (queue p) (cleanups p ++ [(id, Store.namespace s)])%list) /\
    cleanup_prefix id w1 = (Ok (Store.namespace s), w2) /\
    cleanup_rest id (Store.namespace s) w2 = cleanupStore id w1.
Proof.
  intros Hwf Hs Hst w1.
  assert (Hid : Store.id s = id) by exact (wf_keys _ Hwf id s Hs).
  assert (Hpre : cleanup_prefix id w1 =
            (Ok (Store.namespace s),
             snd (World.logEvent id "cleanup" Types.started ("Deleting namespace " ++ Store.namespace s)
                   (snd (World.updateStoreStatus id Deleting None w1))))).
  { assert (Hs1 : Repository.getStoreById id (db w1) = Some s) by exact Hs.
    unfold cleanup_prefix, mbind, stM_bind, World.getStoreById, gets. cbv beta.
    rewrite Hs1. reflexivity. }
  eexists. split_and!; [|exact Hpre|].
  - unfold deleteRoute. rewrite Hs, bool_decide_false by done. rewrite Hid. fold w1.
    rewrite Hpre. reflexivity.
  - rewrite cleanupStore_split. unfold mbind, stM_bind at 1. rewrite Hpre. reflexivity.
Qed.

(** The create handler at the store limit (proof of [createRoute_limit]). *)
Lemma createRoute_at_limit body ip (p : Platform C) name email plan :
  parse_body is_email body = Some (name, email, plan) ->
  (Config.maxStores cfg <= getStoreCount (db (world p)))%nat ->
  createRoute cfg is_email body ip p = (mkResponse 429 (PError (limit_message cfg)), p).
Proof. intros Hparse Hcount. unfold createRoute. rewrite Hparse, bool_decide_true by done. done. Qed.

(** A valid create request when [getStoreCount] has reached
    [maxStores] answers [429] with the limit message and changes nothing. *)
Theorem createRoute_limit body ip (p : Platform C) name email plan :
  parse_body is_email body = Some (name, email, plan) ->
  (Config.maxStores cfg <= getStoreCount (db (world p)))%nat ->
  createRoute cfg is_email body ip p = (mkResponse 429 (PError (limit_message cfg)), p).
Proof. exact (createRoute_at_limit body ip p name email plan). Qed.

(** A valid create request under the limit whose name gives the slug
    of an existing store answers [409] with the slug message and changes
    nothing. *)
Theorem createRoute_slug_conflict body ip (p : Platform C) name email plan :
  parse_body is_email body = Some (name, email, plan) ->
  (getStoreCount (db (world p)) < Config.maxStores cfg)%nat ->
  slug_taken (generateSlug name) (db (world p)) = true ->
  createRoute cfg is_email body ip p =
    (mkResponse 409 (PError (slug_message (generateSlug name))), p).
Proof.
  intros Hparse Hcount Hslug. unfold createRoute. rewrite Hparse, bool_decide_false by lia.
  destruct (getStoreBySlug _ _) eqn:E; [done|].
  apply getStoreBySlug_None in E. congruence.
Qed.

Lemma createRoute_invalid body ip (p : Platform C) :
  parse_body is_email body = None ->
  createRoute cfg is_email body ip p = (mkResponse 400 PValidationFailed, p).
Proof. intros Hparse. unfold createRoute. by rewrite Hparse. Qed.

(** The handlers, the jobs and the cleanups keep the schema invariant. *)
Lemma createRoute_wf body ip (p : Platform C) :
  db_wf (db (world p)) -> db_wf (db (world (snd (createRoute cfg is_email body ip p)))).
Proof.
  intros Hwf. unfold createRoute.
  destruct (parse_body _ _) as [[[name email] plan]|]; [|done].
  case_bool_decide; [done|]. destruct (getStoreBySlug _ _); [done|].
  pose proof (createStore_wf name (generateSlug name) (generateNamespace (generateSlug name))
                email plan (now_seconds (world p)) (db (world p)) Hwf) as Hc.
  destruct (createStore _ _ _ _ _ _ _) as [[s|e] d]; cbn [snd] in *; [|done].
  exact (write_wf (WLogAudit _ _ _ _ _ _ _) d Hc).
Qed.

Lemma deleteRoute_wf id ip (p : Platform C) :
  db_wf (db (world p)) -> db_wf (db (world (snd (deleteRoute id ip p)))).
Proof.
  intros Hwf. unfold deleteRoute.
  destruct (Repository.getStoreById _ _) as [s|]; [|done]. case_bool_decide; [done|].
  set (w1 := set_db _ (world p)).
  assert (Hw1 : wf_world w1) by exact (write_wf (WLogAudit _ _ _ _ _ _ _) _ Hwf).
  assert (Hpre : preserves (@wf_world C) (cleanup_prefix (Store.id s))) by (unfold cleanup_prefix; wf_tac).
  destruct (cleanup_prefix _ w1) as [[ns|e] w2] eqn:E; exact (Hpre _ _ _ Hw1 E).
Qed.

Lemma pstep_wf (p p' : Platform C) :
  pstep cfg is_email p p' -> db_wf (db (world p)) -> db_wf (db (world p')).
Proof.
  intros [body ip|id ip|q s _|q id ns _] Hwf.
  - by apply createRoute_wf.
  - by apply deleteRoute_wf.
  - cbn [world]. destruct (provisioning_job cfg s (world q)) as [o w'] eqn:E.
    exact (provisioning_job_wf cfg s _ _ _ Hwf E).
  - cbn [world]. destruct (cleanup_rest id ns (world q)) as [o w'] eqn:E.
    exact (cleanup_rest_wf id ns _ _ _ Hwf E).
Qed.
(** C3: [POST /api/stores] with a valid body, under the store limit, for
    a name whose slug and namespace are free, answers [201] with a new
    [Provisioning] store under a fresh id, with the slug and namespace
    derived from the name and the request's e-mail and plan; the store is
    inserted, the count of stores grows by one, and the store is added to
    the provisioning queue. *)
Theorem createRoute_created body ip (p : Platform C) name email plan :
  db_wf (db (world p)) ->
  parse_body is_email body = Some (name, email, plan) ->
  (getStoreCount (db (world p)) < Config.maxStores cfg)%nat ->
  slug_taken (generateSlug name) (db (world p)) = false ->
  namespace_taken (generateNamespace (generateSlug name)) (db (world p)) = false ->
  exists s p', createRoute cfg is_email body ip p = (mkResponse 201 (PStore s), p') /\
    s = new_store (Store.id s) name (generateSlug name) (generateNamespace (generateSlug name))
          email plan (now_seconds (world p)) /\
    Repository.getStoreById (Store.id s) (db (world p)) = None /\
    stores (db (world p')) = <[Store.id s := s]> (stores (db (world p))) /\
    getStoreCount (db (world p')) = S (getStoreCount (db (world p))) /\
    queue p' = add s (queue p) /\ cleanups p' = cleanups p.
Proof. exact (createRoute_created_run body ip p name email plan). Qed.

(** A created store is found by [getRoute] (proof of [createRoute_getRoute]). *)
Lemma createRoute_then_getRoute body ip (p p' : Platform C) s :
  db_wf (db (world p)) ->
  createRoute cfg is_email body ip p = (mkResponse 201 (PStore s), p') ->
  getRoute (Store.id s) p' = mkResponse 200 (PStore s).
Proof.
  intros Hwf. unfold createRoute.
  destruct (parse_body _ _) as [[[name email] plan]|]; [|done].
  case_bool_decide; [done|]. destruct (getStoreBySlug _ _); [done|].
  pose proof (createStore_cases name (generateSlug name) (generateNamespace (generateSlug name))
                email plan (now_seconds (world p)) (db (world p)) Hwf) as Hc.
  destruct (createStore _ _ _ _ _ _ _) as [[s'|e] d]; [|done].
  intros [= <- <-]. destruct Hc as (_ & _ & _ & _ & Hrows & _).
  unfold getRoute, Repository.getStoreById. cbn [world World.db set_db].
  rewrite logAudit_stores, Hrows, lookup_insert_eq. reflexivity.
Qed.

(** A store the create handler answers with is what [GET
    /api/stores/:id] then returns. *)
Theorem createRoute_getRoute body ip (p p' : Platform C) s :
  db_wf (db (world p)) ->
  createRoute cfg is_email body ip p = (mkResponse 201 (PStore s), p') ->
  getRoute (Store.id s) p' = mkResponse 200 (PStore s).
Proof. exact (createRoute_then_getRoute body ip p p' s). Qed.

(** The schema invariant holds in every state a run of the platform
    reaches from a state where it holds: creates, deletes, provisioning
    jobs and cleanups, in any interleaving. *)
Theorem psteps_wf (p p' : Platform C) :
  psteps cfg is_email p p' -> db_wf (db (world p)) -> db_wf (db (world p')).
Proof. induction 1 as [|p1 p2 p3 Hstep _ IH]; [done|]. intros Hwf. by apply IH, (pstep_wf p1). Qed.
End RouteTheory.


Section Scenarios.
Import SimCluster IdealCluster.
Local Open Scope list_scope.

Definition email_like (s : string) : bool := includes s "@".

Definition status_of {C} (id : string) (p : Platform C) : option StoreStatus :=
  Store.status <$> Repository.getStoreById id (db (world p)).

(** The oldest running job runs to its end. *)
Definition run_job {C} `{ClusterApi C} (cfg : Config.t) (p : Platform C) : Platform C :=
  match running (queue p) with
  | s :: _ => mkPlatform (snd (provisioning_job cfg s (world p))) (settle s (queue p)) (cleanups p)
  | [] => p
  end.

(** The oldest pending cleanup runs to its end. *)
Definition run_cleanup {C} `{ClusterApi C} (p : Platform C) : Platform C :=
  match cleanups p with
  | (id, ns) :: _ => mkPlatform (snd (cleanup_rest id ns (world p))) (queue p)
                                (remove_first (id, ns) (cleanups p))
  | [] => p
  end.

Lemma run_job_step {C} `{ClusterApi C} cfg is_email (p : Platform C) :
  running (queue p) <> [] -> pstep cfg is_email p (run_job cfg p).
Proof.
  unfold run_job. destruct (running (queue p)) as [|s r] eqn:E; [done|]. intros _.
  apply ps_job. rewrite E. apply elem_of_cons. by left.
Qed.

Lemma run_cleanup_step {C} `{ClusterApi C} cfg is_email (p : Platform C) :
  cleanups p <> [] -> pstep cfg is_email p (run_cleanup p).
Proof.
  unfold run_cleanup. destruct (cleanups p) as [|[id ns] r] eqn:E; [done|]. intros _.
  rewrite <- E. apply ps_cleanup. rewrite E. apply elem_of_cons. by left.
Qed.

Definition p0 : Platform Ideal := mkPlatform (mkWorld empty_db (mkIdeal ∅) 0 0) (empty_queue 3) [].

Definition shop (name : string) : Json := JObj [("name", JStr name); ("adminEmail", JStr "owner@example.com")].

Definition created : Platform Ideal := snd (createRoute Config.default email_like (shop "Shop A") None p0).
Definition deleting : Platform Ideal := snd (deleteRoute "0" None created).

(** C5: a store deleted while its provisioning job waits in the queue is
    [Deleting], and when the job runs it marks the store [Ready]: the
    delete handler does not cancel the job, and [updateStoreReady] does
    not look at the status. *)
Theorem deleting_store_comes_back_ready :
  psteps Config.default email_like p0 deleting /\ status_of "0" deleting = Some Deleting /\
  pstep Config.default email_like deleting (run_job Config.default deleting) /\
  status_of "0" (run_job Config.default deleting) = Some Ready.
Proof.
  split_and!.
  - unfold deleting, created.
    eapply rtc_l; [exact (ps_create _ _ (shop "Shop A") None p0)|].
    eapply rtc_l; [exact (ps_delete _ _ "0" None _)|]. apply rtc_refl.
  - vm_compute. reflexivity.
  - apply run_job_step. vm_compute. discriminate.
  - vm_compute. reflexivity.
Qed.

(** A configuration allowing one store. *)
Definition one_store : Config.t :=
  Config.mk (Config.storeDomain Config.default) (Config.externalPort Config.default)
    (Config.provisioningConcurrency Config.default) (Config.woocommerceInitTimeout Config.default)
    1 (Config.ingressClass Config.default) (Config.mysqlImage Config.default)
    (Config.wordpressImage Config.default) (Config.imagePullPolicy Config.default)
    (Config.mysqlStorageSize Config.default) (Config.wordpressStorageSize Config.default)
    (Config.storageClass Config.default).

Definition two_creates : Platform Ideal :=
  snd (createRoute one_store email_like (shop "Shop B") None
         (snd (deleteRoute "0" None (snd (createRoute one_store email_like (shop "Shop A") None p0))))).

(** C7: with [maxStores = 1], creating a store, deleting it and creating
    another is allowed ([Deleting] stores are not counted), and the first
    store's job then marks it [Ready]: two stores count against a limit of
    one. *)
Theorem store_limit_exceeded :
  psteps one_store email_like p0 (run_job one_store two_creates) /\
  getStoreCount (db (world two_creates)) = 1%nat /\
  getStoreCount (db (world (run_job one_store two_creates))) = 2%nat /\
  (Config.maxStores one_store < 2)%nat.
Proof.
  split_and!; [|vm_compute; reflexivity..|cbv; lia].
  unfold two_creates.
  eapply rtc_l; [exact (ps_create _ _ (shop "Shop A") None p0)|].
  eapply rtc_l; [exact (ps_delete _ _ "0" None _)|].
  eapply rtc_l; [exact (ps_create _ _ (shop "Shop B") None _)|].
  eapply rtc_l; [apply run_job_step; vm_compute; discriminate|]. apply rtc_refl.
Qed.

Definition orphaned : Platform Ideal := run_job Config.default (run_cleanup deleting).

Lemma createRoute_created_witness :
  exists s p', createRoute Config.default email_like (shop "Shop A") None p0 = (mkResponse 201 (PStore s), p') /\
    s = new_store (Store.id s) "Shop A" (generateSlug "Shop A") (generateNamespace (generateSlug "Shop A"))
          "owner@example.com" woocommerce (now_seconds (world p0)) /\
    Repository.getStoreById (Store.id s) (db (world p0)) = None /\
    stores (db (world p')) = <[Store.id s := s]> (stores (db (world p0))) /\
    getStoreCount (db (world p')) = S (getStoreCount (db (world p0))) /\
    queue p' = add s (queue p0) /\ cleanups p' = cleanups p0.
Proof.
  apply (createRoute_created Config.default email_like (shop "Shop A") None p0 "Shop A"
           "owner@example.com" woocommerce db_wf_empty);
    vm_compute; first [reflexivity|lia].
Defined.

Lemma createRoute_getRoute_witness :
  db_wf (db (world p0)) /\
  forall s p', createRoute Config.default email_like (shop "Shop A") None p0 = (mkResponse 201 (PStore s), p') ->
  getRoute (Store.id s) p' = mkResponse 200 (PStore s).
Proof.
  split; [exact db_wf_empty|].
  intros s p'. apply (createRoute_getRoute Config.default email_like (shop "Shop A") None p0 p' s db_wf_empty).
Defined.

Lemma deleteRoute_refines_cleanupStore_witness :
  exists s, Repository.getStoreById "0" (db (world created)) = Some s /\
  let w1 := set_db (logAudit "delete" "store" (Some "0") (Some (Store.name s)) None (truthy None)
                      (now_seconds (world created)) (db (world created))) (world created) in
  exists w2, deleteRoute "0" None created =
      (mkResponse 202 (PDeletion "0"),
       mkPlatform w2 (queue created) (cleanups created ++ [("0", Store.namespace s)])%list) /\
    cleanup_prefix "0" w1 = (Ok (Store.namespace s), w2) /\
    cleanup_rest "0" (Store.namespace s) w2 = cleanupStore "0" w1.
Proof.
  destruct (Repository.getStoreById "0" (db (world created))) as [s|] eqn:E;
    [|vm_compute in E; discriminate].
  exists s. split; [reflexivity|].
  apply (deleteRoute_refines_cleanupStore "0" None created s).
  - exact (createRoute_wf Config.default email_like (shop "Shop A") None p0 db_wf_empty).
  - exact E.
  - vm_compute in E. injection E as <-. discriminate.
Defined.

Lemma createRoute_limit_witness :
  let p1 := snd (createRoute one_store email_like (shop "Shop A") None p0) in
  createRoute one_store email_like (shop "Shop B") None p1 =
    (mkResponse 429 (PError (limit_message one_store)), p1).
Proof.
  apply (createRoute_limit one_store email_like (shop "Shop B") None _ "Shop B" "owner@example.com" woocommerce);
    vm_compute; [reflexivity|lia].
Defined.

Lemma createRoute_slug_conflict_witness :
  createRoute Config.default email_like (shop "Shop  A") None created =
    (mkResponse 409 (PError (slug_message (generateSlug "Shop  A"))), created).
Proof.
  apply (createRoute_slug_conflict Config.default email_like (shop "Shop  A") None created
           "Shop  A" "owner@example.com" woocommerce); vm_compute; [reflexivity|lia|reflexivity].
Defined.

Lemma psteps_wf_witness :
  psteps Config.default email_like p0 deleting /\ db_wf (db (world deleting)).
Proof.
  assert (Hrun : psteps Config.default email_like p0 deleting).
  { unfold deleting, created.
    eapply rtc_l; [exact (ps_create _ _ (shop "Shop A") None p0)|].
    eapply rtc_l; [exact (ps_delete _ _ "0" None _)|]. apply rtc_refl. }
  split; [exact Hrun|exact (psteps_wf Config.default email_like p0 deleting Hrun db_wf_empty)].
Defined.

End Scenarios.

End Routes.
