(* ===== verification/Actions.v ===== *)
(** * Actions: the restart and reset-password routes of [routes/stores.ts]

    [POST /api/stores/:id/actions/restart] patches the pod template of the
    store's deployments with a [store-platform/restartedAt] annotation,
    one [try] per target, and answers with the targets whose patch
    succeeded; [POST /api/stores/:id/actions/reset-password] draws
    [crypto.randomBytes(8)], runs WP-CLI in the first WordPress pod to set
    the admin password to its hexadecimal rendering, and stores it.

    Both use API calls the pipelines do not make: listing the pods of a
    namespace by label, patching a deployment, and [Exec].  [PodApi] is
    that interface over the cluster's state, [PodLaws] what the handlers
    rely on (a patch answers OK only for a present deployment and changes
    no resource's presence); [IdealCluster] implements both.  Each handler
    is one step of the platform ([astep] extends [Routes.pstep]); the
    interleaving of other steps at its [await]s is not modelled. *)

From S2P Require Import Prelude Model Manifests Crypto Repository Cluster SimCluster World Queue Routes.
From Stdlib Require Import Strings.Byte.
Local Open Scope string_scope.

Module Actions.
Import Manifests Repository Cluster World Queue Routes.

(** ** The pod API *)

(** The calls of the two handlers; the first argument of each is the
    time of the call in milliseconds. *)
Class PodApi (C : Type) := {
  (** [coreApi.listNamespacedPod(ns, ..., labelSelector)]: the names of
      the pods, in the order of [podList.items] *)
  listNamespacedPod : Z -> string -> string -> C -> outcome Error (list string);
  (** [appsApi.patchNamespacedDeployment(name, ns, patch)] with the
      restart annotation *)
  patchNamespacedDeployment : Z -> string -> string -> C -> outcome Error unit * C;
  (** [exec.exec(ns, pod, container, command, ...)]: whether the final
      status is [Success], and what the command wrote on stderr *)
  execInPod : Z -> string -> string -> string -> list string -> C -> bool * string
}.

Class PodLaws (C : Type) `{ClusterLaws C} `{PodApi C} := {
  patch_ok_present : forall now ns name c c',
    patchNamespacedDeployment now ns name c = (Ok tt, c') -> present c (Deployment, ns, name);
  patch_keys : forall now ns name c o c' k,
    patchNamespacedDeployment now ns name c = (o, c') -> present c' k <-> present c k
}.

(** ** Responses *)

Inductive ActionPayload :=
(** [{ error }] *)
| AError (error : string)
(** [{ message: 'Restart initiated', restarted }] *)
| ARestarted (restarted : list string)
(** [{ message: 'Password reset successful', newPassword }] *)
| APassword (newPassword : string).

Record ActionResponse := mkActionResponse { astatus : Z; apayload : ActionPayload }.

(** ** The handlers *)

Section Handlers.
Context {C : Type} `{ClusterApi C} `{PodApi C}.

(** [await appsApi.patchNamespacedDeployment(app, store.namespace, patch, ...)] *)
Definition patch_deployment (ns app : string) : PM C unit :=
  fun w => let '(o, c') := patchNamespacedDeployment (clock w) ns app (cluster w) in
           (o, set_cluster c' w).

(** The [for] loop over the targets: a failed patch is caught and
    logged, a successful one pushes the target on [restarted]. *)
Fixpoint restart_loop (ns : string) (targets restarted : list string) : PM C (list string) :=
  match targets with
  | [] => mret restarted
  | app :: rest =>
      restarted' ← catch (patch_deployment ns app;; mret (restarted ++ [app])%list)
                         (fun _ => mret restarted);
      restart_loop ns rest restarted'
  end.

Definition restart_targets (target : string) : list string :=
  if String.eqb target "all" then ["wordpress"; "mysql"] else [target].

(** [POST /api/stores/:id/actions/restart] *)
Definition restartRoute (id : string) (query_target ip : option string) (p : Platform C)
    : ActionResponse * Platform C :=
  let w := world p in
  match Repository.getStoreById id (db w) with
  | None => (mkActionResponse 404 (AError "Store not found"), p)
  | Some store =>
      if negb (bool_decide (Store.status store = Ready)) then
        (mkActionResponse 409 (AError "Can only restart ready stores"), p)
      else
        (* [(req.query.target as string) || 'all'] *)
        let target := js_or_str query_target "all" in
        match restart_loop (Store.namespace store) (restart_targets target) [] w with
        | (Ok restarted, w1) =>
            let d := logAudit "restart" "store" (Some (Store.id store)) (Some (Store.name store))
                       (Some ("target=" ++ target)) (truthy ip) (now_seconds w1) (db w1) in
            (mkActionResponse 200 (ARestarted restarted), set_world (set_db d w1) p)
        | (Err _, w1) => (mkActionResponse 500 (AError "Failed to restart pods"), set_world w1 p)
        end
  end.

(** The WP-CLI command run in the WordPress container. *)
Definition reset_command (newPassword : string) : string :=
  "curl -sO https://raw.githubusercontent.com/wp-cli/builds/gh-pages/phar/wp-cli.phar && " ++
  "chmod +x wp-cli.phar && " ++
  "php wp-cli.phar user update admin --user_pass=" ++ dq ++ newPassword ++ dq ++
  " --allow-root --path=/var/www/html".

(** [POST /api/stores/:id/actions/reset-password]; [randomBytes] is the
    buffer [crypto.randomBytes(8)] returned. *)
Definition resetPasswordRoute (id : string) (randomBytes : list byte) (ip : option string)
    (p : Platform C) : ActionResponse * Platform C :=
  let w := world p in
  match Repository.getStoreById id (db w) with
  | None => (mkActionResponse 404 (AError "Store not found"), p)
  | Some store =>
      if negb (bool_decide (Store.status store = Ready)) then
        (mkActionResponse 409 (AError "Can only reset password for ready stores"), p)
      else
        let newPassword := Crypto.toHex randomBytes in
        match listNamespacedPod (clock w) (Store.namespace store) "app=wordpress" (cluster w) with
        | Err _ => (mkActionResponse 500 (AError "Failed to reset password"), p)
        | Ok [] => (mkActionResponse 404 (AError "WordPress pod not found"), p)
        | Ok (podName :: _) =>
            match execInPod (clock w) (Store.namespace store) podName "wordpress"
                    ["/bin/bash"; "-c"; reset_command newPassword] (cluster w) with
            | (false, _) => (mkActionResponse 500 (AError "Failed to reset password"), p)
            | (true, _) =>
                let d := updateAdminPassword id newPassword (db w) in
                let d' := logAudit "reset-password" "store" (Some (Store.id store))
                            (Some (Store.name store)) None (truthy ip) (now_seconds w) d in
                (mkActionResponse 200 (APassword newPassword), set_world (set_db d' w) p)
            end
        end
  end.
End Handlers.

(** ** The handlers against the laws *)

Section ActionTheory.
Context {C : Type} `{PodLaws C}.

(** One iteration of the loop: a patch, caught. *)
Lemma restart_iteration ns app restarted (w : World C) :
  catch (patch_deployment ns app;; mret (restarted ++ [app])%list) (fun _ => mret restarted) w =
  let '(o, c1) := patchNamespacedDeployment (clock w) ns app (cluster w) in
  (Ok (match o with Ok _ => (restarted ++ [app])%list | Err _ => restarted end), set_cluster c1 w).
Proof.
  unfold catch, patch_deployment, mbind, stM_bind.
  by destruct (patchNamespacedDeployment _ _ _ _) as [[[]|e] c1].
Qed.

(** The loop never throws, touches only the cluster, changes no
    resource's presence, and adds to [restarted] only targets whose
    deployment is present, in the order of the targets. *)
Lemma restart_loop_run ns targets restarted (w : World C) :
  exists rs c', restart_loop ns targets restarted w = (Ok (restarted ++ rs)%list, set_cluster c' w) /\
    (forall k, present c' k <-> present (cluster w) k) /\
    rs `sublist_of` targets /\
    (forall app, app ∈ rs -> present (cluster w) (Deployment, ns, app)).
Proof.
  revert restarted w. induction targets as [|app rest IH]; intros restarted w.
  { exists [], (cluster w). rewrite app_nil_r. split_and!; [by destruct w|done|constructor|set_solver]. }
  cbn [restart_loop]. pose proof (restart_iteration ns app restarted w) as Hit.
  destruct (patchNamespacedDeployment (clock w) ns app (cluster w)) as [o c1] eqn:Ep.
  erewrite pm_bind_ok by exact Hit.
  pose proof (fun k => patch_keys _ _ _ _ _ _ k Ep) as Hk.
  destruct (IH (match o with Ok _ => (restarted ++ [app])%list | Err _ => restarted end)
              (set_cluster c1 w)) as (rs & c' & Hrun & Hk' & Hsub & Hpres).
  cbn [cluster set_cluster] in *. rewrite Hrun.
  destruct o as [[]|e].
  - exists (app :: rs), c'. rewrite <- app_assoc. split_and!; [done| |by constructor|].
    + intros k. by rewrite Hk', Hk.
    + intros a [->|Ha]%elem_of_cons; [exact (patch_ok_present _ _ _ _ _ Ep)|by apply Hk, Hpres].
  - exists rs, c'. split_and!; [done| |by constructor|].
    + intros k. by rewrite Hk', Hk.
    + intros a Ha. by apply Hk, Hpres.
Qed.

(** C33: [POST /api/stores/:id/actions/restart] on a [Ready] store always
    answers [200], even when every patch fails; the targets reported
    restarted are, in order, among the requested ones ([wordpress] and
    [mysql] for [all] or no target) and only those whose deployment is
    present; no resource appears or disappears, no store row changes, and
    one audit entry [restart] with the target is appended. *)
Theorem restartRoute_ready id target ip (p : Platform C) s :
  Repository.getStoreById id (db (world p)) = Some s -> Store.status s = Ready ->
  exists restarted p' e,
    restartRoute id target ip p = (mkActionResponse 200 (ARestarted restarted), p') /\
    restarted `sublist_of` restart_targets (js_or_str target "all") /\
    (forall app, app ∈ restarted -> present (cluster (world p)) (Deployment, Store.namespace s, app)) /\
    (forall k, present (cluster (world p')) k <-> present (cluster (world p)) k) /\
    stores (db (world p')) = stores (db (world p)) /\
    audit_log (db (world p')) = (audit_log (db (world p)) ++ [e])%list /\
    AuditEntry.action e = "restart" /\
    AuditEntry.details e = Some ("target=" ++ js_or_str target "all") /\
    queue p' = queue p /\ cleanups p' = cleanups p.
Proof.
  intros Hs Hr. unfold restartRoute. rewrite Hs, bool_decide_true by done. cbn [negb].
  destruct (restart_loop_run (Store.namespace s) (restart_targets (js_or_str target "all")) []
              (world p)) as (rs & c' & Hrun & Hk & Hsub & Hpres).
  rewrite Hrun. do 3 eexists. split_and!; [reflexivity|exact Hsub|exact Hpres|exact Hk|..];
    reflexivity.
Qed.

(** C34: [POST /api/stores/:id/actions/reset-password] on a [Ready] store
    whose WordPress pod runs the WP-CLI command successfully answers [200]
    with the new password, the hexadecimal rendering of the 8 bytes drawn:
    16 lowercase hexadecimal digits, so that the double quotes of the
    command's [--user_pass] argument hold it; the store's row gets it as
    admin password, every other field and every other row unchanged, and
    the cluster, the queue and the pending cleanups do not change. *)
Theorem resetPasswordRoute_success id randomBytes ip (p : Platform C) s pod pods err :
  Repository.getStoreById id (db (world p)) = Some s -> Store.status s = Ready ->
  length randomBytes = 8 ->
  listNamespacedPod (clock (world p)) (Store.namespace s) "app=wordpress" (cluster (world p)) =
    Ok (pod :: pods) ->
  execInPod (clock (world p)) (Store.namespace s) pod "wordpress"
    ["/bin/bash"; "-c"; reset_command (Crypto.toHex randomBytes)] (cluster (world p)) = (true, err) ->
  exists p', resetPasswordRoute id randomBytes ip p =
      (mkActionResponse 200 (APassword (Crypto.toHex randomBytes)), p') /\
    Crypto.password_ok 16 (Crypto.toHex randomBytes) /\
    Repository.getStoreById id (db (world p')) = Some (set_password (Crypto.toHex randomBytes) s) /\
    (forall id', id' <> id ->
       Repository.getStoreById id' (db (world p')) = Repository.getStoreById id' (db (world p))) /\
    cluster (world p') = cluster (world p) /\ queue p' = queue p /\ cleanups p' = cleanups p.
Proof.
  intros Hs Hr Hlen Hpods Hexec. unfold resetPasswordRoute.
  rewrite Hs, bool_decide_true by done. cbn [negb]. rewrite Hpods, Hexec.
  eexists. split_and!; [reflexivity| | | |reflexivity..].
  - pose proof (Crypto.toHex_ok randomBytes) as Hok. by rewrite Hlen in Hok.
  - unfold Repository.getStoreById. cbn. rewrite lookup_alter_eq. unfold Repository.getStoreById in Hs.
    by rewrite Hs.
  - intros id' Hne. unfold Repository.getStoreById. cbn. by rewrite lookup_alter_ne.
Qed.

End ActionTheory.

(** ** The platform with the actions *)

Section Steps.
Context {C : Type} `{PodLaws C} (cfg : Config.t) (is_email : string -> bool).

(** A step of [Routes.pstep], a restart request, or a reset-password
    request with the 8 bytes it draws. *)
Inductive astep : Platform C -> Platform C -> Prop :=
| as_route p p' : pstep cfg is_email p p' -> astep p p'
| as_restart id target ip p : astep p (snd (restartRoute id target ip p))
| as_reset id randomBytes ip p : length randomBytes = 8 ->
    astep p (snd (resetPasswordRoute id randomBytes ip p)).

Lemma restartRoute_wf id target ip (p : Platform C) :
  db_wf (db (world p)) -> db_wf (db (world (snd (restartRoute id target ip p)))).
Proof.
  intros Hwf. unfold restartRoute.
  destruct (Repository.getStoreById _ _) as [s|]; [|done]. destruct (negb _); [done|].
  destruct (restart_loop_run (Store.namespace s) (restart_targets (js_or_str target "all")) []
              (world p)) as (rs & c' & Hrun & _). rewrite Hrun.
  exact (write_wf (WLogAudit _ _ _ _ _ _ _) _ Hwf).
Qed.

Lemma resetPasswordRoute_wf id randomBytes ip (p : Platform C) :
  db_wf (db (world p)) -> db_wf (db (world (snd (resetPasswordRoute id randomBytes ip p)))).
Proof.
  intros Hwf. unfold resetPasswordRoute.
  destruct (Repository.getStoreById _ _) as [s|]; [|done]. destruct (negb _); [done|].
  destruct (listNamespacedPod _ _ _ _) as [[|pod pods]|e]; [done| |done].
  destruct (execInPod _ _ _ _ _ _) as [[] err]; [|done].
  exact (write_wf (WLogAudit _ _ _ _ _ _ _) _ (write_wf (WUpdateAdminPassword _ _) _ Hwf)).
Qed.

(** The schema invariant holds along every run of the platform with
    the restart and reset-password actions: creates, deletes, jobs,
    cleanups, restarts and password resets in any interleaving. *)
Theorem asteps_wf (p p' : Platform C) :
  rtc astep p p' -> db_wf (db (world p)) -> db_wf (db (world p')).
Proof.
  induction 1 as [|p1 p2 p3 Hstep _ IH]; [done|]. intros Hwf. apply IH.
  destruct Hstep as [q q' Hq|id target ip q|id bs ip q _].
  - exact (pstep_wf cfg is_email q q' Hq Hwf).
  - by apply restartRoute_wf.
  - by apply resetPasswordRoute_wf.
Qed.
End Steps.

(** ** The cooperative cluster *)

Section IdealPods.
Import SimCluster IdealCluster.

(** A present deployment [app] runs one pod [app-0]. *)
Definition ideal_list_pods (now : Z) (ns selector : string) (s : Ideal) : outcome Error (list string) :=
  Ok (List.flat_map (fun app => if bool_decide ((Deployment, ns, app) ∈ ideal_objs s)
                                   then [app ++ "-0"] else [])
        (if String.eqb selector "app=wordpress" then ["wordpress"]
         else if String.eqb selector "app=mysql" then ["mysql"] else [])).

Definition ideal_patch (now : Z) (ns name : string) (s : Ideal) : outcome Error unit * Ideal :=
  if bool_decide ((Deployment, ns, name) ∈ ideal_objs s) then (Ok tt, s) else (Err not_found_error, s).

#[export] Instance ideal_pods : PodApi Ideal := {|
  listNamespacedPod := ideal_list_pods;
  patchNamespacedDeployment := ideal_patch;
  execInPod := fun _ _ _ _ _ _ => (true, "")
|}.

#[export] Instance ideal_pod_laws : PodLaws Ideal.
Proof.
  split; cbn; unfold ideal_patch.
  - intros now ns name c c'. case_bool_decide; [done|intros [=]].
  - intros now ns name c o c' k. case_bool_decide; intros [= _ <-]; done.
Qed.

(** A store made [Ready] by its provisioning job. *)
Definition ready : Platform Ideal := run_job Config.default created.

Definition ready_store : Store.t :=
  default (new_store "" "" "" "" "" woocommerce 0%Z) (Repository.getStoreById "0" (db (world ready))).

Lemma ready_store_lookup : Repository.getStoreById "0" (db (world ready)) = Some ready_store.
Proof. vm_compute. reflexivity. Qed.

Lemma ready_store_status : Store.status ready_store = Ready.
Proof. vm_compute. reflexivity. Qed.

(** A restart of the target [foo], which names no deployment, answers
    [200] with nothing restarted. *)
Lemma restartRoute_ready_witness :
  exists restarted p', restartRoute "0" (Some "foo") None ready =
    (mkActionResponse 200 (ARestarted restarted), p') /\ restarted = [].
Proof.
  destruct (restartRoute_ready "0" (Some "foo") None ready ready_store ready_store_lookup
              ready_store_status) as (rs & p' & e & Hrun & Hsub & Hpres & _).
  exists rs, p'. split; [exact Hrun|].
  destruct rs as [|a rs]; [reflexivity|exfalso].
  assert (Ha : a ∈ restart_targets (js_or_str (Some "foo") "all"))
    by (apply (elem_of_sublist (a :: rs)); [left|exact Hsub]).
  vm_compute in Ha. apply list_elem_of_singleton in Ha. subst a.
  specialize (Hpres "foo" ltac:(left)).
  assert (Hn : bool_decide ((Deployment, Store.namespace ready_store, "foo") ∈ ideal_objs (cluster (world ready))) = false)
    by (vm_compute; reflexivity).
  apply bool_decide_eq_false in Hn. exact (Hn Hpres).
Defined.

Lemma resetPasswordRoute_success_witness :
  exists p', resetPasswordRoute "0" (Crypto.urandom 99 8) None ready =
    (mkActionResponse 200 (APassword (Crypto.toHex (Crypto.urandom 99 8))), p').
Proof.
  destruct (resetPasswordRoute_success "0" (Crypto.urandom 99 8) None ready ready_store
              "wordpress-0" [] "" ready_store_lookup ready_store_status)
    as (p' & Hrun & _); [reflexivity|vm_compute; reflexivity|reflexivity|].
  exists p'. exact Hrun.
Defined.

Lemma asteps_wf_witness :
  db_wf (db (world (snd (restartRoute "0" None None ready)))).
Proof.
  apply (asteps_wf Config.default email_like p0); [|exact db_wf_empty].
  eapply rtc_l; [apply as_route; exact (ps_create _ _ (shop "Shop A") None p0)|].
  eapply rtc_l; [apply as_route, run_job_step; vm_compute; discriminate|].
  eapply rtc_l; [apply as_restart|]. apply rtc_refl.
Defined.
End IdealPods.

End Actions.
