(* ===== verification/Observe.v ===== *)
(** * Observe: the read-only routes

    The routes that read a store's pods, volumes and quota, and the
    audit trail: [GET /api/stores/:id/logs/:pod] and
    [GET /api/stores/:id/health] of [routes/stores.ts], and [/healthz],
    [/readyz] and [GET /api/audit] of [routes/health.ts].  They write
    nothing, so each handler is a function from the platform to its
    answer.  The cluster reads they make are the class [ObserveApi]
    (the pods with their status and spec, a pod's log, the claims and the
    quotas of a namespace); [ObserveLaws] ties its pod listing to the
    names [PodApi.listNamespacedPod] returns, since both are the one call
    [coreApi.listNamespacedPod].  The query parameters are read by
    JavaScript's [parseInt(s, 10)], and the timestamps are rendered by
    [Date.prototype.toISOString]. *)

From S2P Require Import Prelude Model NameGenerator Repository Manifests Cluster SimCluster World Queue Routes Actions.
From Stdlib Require Import DecimalString DecimalZ.
Local Open Scope string_scope.

Module Observe.
Import NameGenerator Repository Manifests Cluster SimCluster IdealCluster World Routes Actions.

(** ** [parseInt(s, 10)]

    Leading white space is skipped, one sign is read, then the longest
    run of decimal digits; no digit gives [NaN] ([None]).  A [0x]
    prefix is not special in base 10, and what follows the digits is
    ignored. *)

Definition is_digit (c : ascii) : bool :=
  let n := nat_of_ascii c in ((48 <=? n) && (n <=? 57))%nat.

Fixpoint take_digits (l : list ascii) : list ascii :=
  match l with
  | c :: l' => if is_digit c then c :: take_digits l' else []
  | [] => []
  end.

Definition parseInt (s : string) : option Z :=
  let l := trim_start (list_ascii_of_string s) in
  let '(neg, rest) := match l with
                      | "-"%char :: r => (true, r)
                      | "+"%char :: r => (false, r)
                      | _ => (false, l)
                      end in
  match take_digits rest with
  | [] => None
  | ds =>
      match NilEmpty.uint_of_string (string_of_list_ascii ds) with
      | Some u => Some (if neg then - Z.of_uint u else Z.of_uint u)%Z
      | None => None
      end
  end.

(** ** [Date.prototype.toISOString]

    A time in milliseconds since the epoch, as [YYYY-MM-DDTHH:mm:ss.sssZ]
    in UTC; the civil date of a day number is the usual computation by
    eras of 400 years.  Years outside [0..9999] are written with a sign
    and six digits. *)

Definition civil_from_days (z : Z) : Z * Z * Z :=
  let z := (z + 719468)%Z in
  let era := (z / 146097)%Z in
  let doe := (z - era * 146097)%Z in
  let yoe := ((doe - doe / 1460 + doe / 36524 - doe / 146096) / 365)%Z in
  let doy := (doe - (365 * yoe + yoe / 4 - yoe / 100))%Z in
  let mp := ((5 * doy + 2) / 153)%Z in
  let d := (doy - (153 * mp + 2) / 5 + 1)%Z in
  let m := if (mp <? 10)%Z then (mp + 3)%Z else (mp - 9)%Z in
  ((yoe + era * 400 + (if (m <=? 2)%Z then 1 else 0))%Z, m, d).

Definition pad (width : nat) (n : Z) : string :=
  let s := string_of_Z n in
  String.append (string_of_list_ascii (repeat "0"%char (width - String.length s))) s.

Definition toISOString (t : Z) : string :=
  let '(y, m, d) := civil_from_days (t / 86400000) in
  let ms := (t mod 86400000)%Z in
  let year := if ((0 <=? y) && (y <=? 9999))%Z then pad 4 y
              else (if (y <? 0)%Z then "-" else "+") ++ pad 6 (Z.abs y) in
  year ++ "-" ++ pad 2 m ++ "-" ++ pad 2 d ++ "T" ++
  pad 2 (ms / 3600000) ++ ":" ++ pad 2 (ms / 60000 mod 60) ++ ":" ++
  pad 2 (ms / 1000 mod 60) ++ "." ++ pad 3 (ms mod 1000) ++ "Z".

(** ** The objects the cluster returns *)

(** [pod.status.containerStatuses[0]] *)
Record ContainerStatus := mkContainerStatus { cs_ready : bool; cs_restartCount : Z; cs_image : string }.

(** [pod.spec.containers[0]]: its image and [resources.requests] /
    [resources.limits] as maps of quantities. *)
Record Container := mkContainer {
  c_image : option string;
  c_requests : option (list (string * string));
  c_limits : option (list (string * string))
}.

Module V1Pod.
Record t := mk {
  name : string;
  phase : option string;
  startTime : option Z;
  containerStatus : option ContainerStatus;
  container : option Container
}.
End V1Pod.

Module V1PersistentVolumeClaim.
Record t := mk {
  name : string;
  phase : option string;
  (** [status.capacity.storage] and [spec.resources.requests.storage] *)
  capacity : option string;
  requested : option string;
  storageClassName : option string
}.
End V1PersistentVolumeClaim.

(** [status.hard] and [status.used] of a resource quota *)
Record V1ResourceQuota := mkQuota {
  q_hard : option (list (string * string));
  q_used : option (list (string * string))
}.

(** The reads of [coreApi] the observing routes make; the first argument
    is the time of the call. *)
Class ObserveApi (C : Type) := {
  listPods : Z -> string -> string -> C -> outcome Error (list V1Pod.t);
  (** [readNamespacedPodLog(pod, ns, ..., tailLines)]: the body, [None]
      when it is not a string *)
  readNamespacedPodLog : Z -> string -> string -> option Z -> C -> outcome Error (option string);
  listNamespacedPersistentVolumeClaim : Z -> string -> C -> outcome Error (list V1PersistentVolumeClaim.t);
  listNamespacedResourceQuota : Z -> string -> C -> outcome Error (list V1ResourceQuota)
}.

(** [listNamespacedPod] is one call: the names [PodApi] reads are the
    names of the pods [ObserveApi] reads. *)
Class ObserveLaws (C : Type) `{PodApi C} `{ObserveApi C} := {
  listPods_names : forall now ns sel c,
    listNamespacedPod now ns sel c = outcome_map (map V1Pod.name) (listPods now ns sel c)
}.

(** ** Answers *)

Record Resources := mkResources { cpuRequest : string; cpuLimit : string; memRequest : string; memLimit : string }.

Module PodHealth.
Record t := mk {
  name : string;
  app : string;
  phase : option string;
  ready : bool;
  restartCount : Z;
  startTime : option string;
  uptime : Z;
  resources : Resources;
  image : string
}.
End PodHealth.

Module PvcInfo.
Record t := mk { name : string; status : option string; capacity : string; storageClass : string }.
End PvcInfo.

Record QuotaInfo := mkQuotaInfo { hard : list (string * string); used : list (string * string) }.

Inductive ObservePayload :=
| OError (error : string)
(** [{ pod, container, logs }] *)
| OLogs (pod container logs : string)
(** [{ pods, pvcs, quota, namespace }] *)
| OHealth (pods : list PodHealth.t) (pvcs : list PvcInfo.t) (quota : option QuotaInfo) (namespace : string)
(** [{ entries }] *)
| OAudit (entries : list AuditEntry.t)
(** [{ status, timestamp }] of the probes *)
| OProbe (status : string) (timestamp : option string).

Record ObserveResponse := mkObserveResponse { ostatus : Z; opayload : ObservePayload }.

(** ** The handlers *)

(** [obj.k] of a JSON object of strings *)
Definition field (k : string) (o : list (string * string)) : option string :=
  option_map snd (List.find (fun kv => String.eqb kv.1 k) o).

Section Handlers.
Context {C : Type} `{ClusterApi C} `{PodApi C} `{ObserveApi C}.

(** [GET /api/stores/:id/logs/:pod]; [tail] is [req.query.tail]. *)
Definition logsRoute (id podType : string) (tail : option string) (p : Platform C) : ObserveResponse :=
  let w := world p in
  match Repository.getStoreById id (db w) with
  | None => mkObserveResponse 404 (OError "Store not found")
  | Some store =>
      let tailLines := parseInt (js_or_str tail "100") in
      match listNamespacedPod (clock w) (Store.namespace store) ("app=" ++ podType) (cluster w) with
      | Err _ => mkObserveResponse 500 (OError "Failed to fetch logs")
      | Ok [] => mkObserveResponse 404 (OError ("No " ++ podType ++ " pod found"))
      | Ok (podName :: _) =>
          match readNamespacedPodLog (clock w) podName (Store.namespace store) tailLines (cluster w) with
          | Err _ => mkObserveResponse 500 (OError "Failed to fetch logs")
          | Ok logs => mkObserveResponse 200 (OLogs podName podType (default "" logs))
          end
      end
  end.

(** The object pushed for one pod, at time [now]. *)
Definition pod_health (now : Z) (app : string) (pod : V1Pod.t) : PodHealth.t :=
  let cs := V1Pod.containerStatus pod in
  let container := V1Pod.container pod in
  let requests := default [] (container ≫= c_requests) in
  let limits := default [] (container ≫= c_limits) in
  {| PodHealth.name := V1Pod.name pod;
     PodHealth.app := app;
     PodHealth.phase := V1Pod.phase pod;
     PodHealth.ready := match cs with Some s => cs_ready s | None => false end;
     PodHealth.restartCount := match cs with Some s => cs_restartCount s | None => 0%Z end;
     PodHealth.startTime := option_map toISOString (V1Pod.startTime pod);
     PodHealth.uptime := match V1Pod.startTime pod with Some t => ((now - t) / 1000)%Z | None => 0%Z end;
     PodHealth.resources := mkResources (js_or_str (field "cpu" requests) "N/A")
                              (js_or_str (field "cpu" limits) "N/A")
                              (js_or_str (field "memory" requests) "N/A")
                              (js_or_str (field "memory" limits) "N/A");
     PodHealth.image := js_or_str (option_map cs_image cs)
                          (js_or_str (container ≫= c_image) "unknown") |}.

(** The [for] loop over the two apps; a failed listing is caught. *)
Definition health_pods (now : Z) (ns : string) (c : C) : list PodHealth.t :=
  List.flat_map (fun app =>
    match listPods now ns ("app=" ++ app) c with
    | Ok pods => map (pod_health now app) pods
    | Err _ => []
    end) ["wordpress"; "mysql"].

Definition pvc_info (pvc : V1PersistentVolumeClaim.t) : PvcInfo.t :=
  {| PvcInfo.name := V1PersistentVolumeClaim.name pvc;
     PvcInfo.status := V1PersistentVolumeClaim.phase pvc;
     PvcInfo.capacity := js_or_str (V1PersistentVolumeClaim.capacity pvc)
                           (js_or_str (V1PersistentVolumeClaim.requested pvc) "N/A");
     PvcInfo.storageClass := js_or_str (V1PersistentVolumeClaim.storageClassName pvc) "default" |}.

Definition quota_info (qs : list V1ResourceQuota) : option QuotaInfo :=
  match qs with
  | [] => None
  | q :: _ => Some (mkQuotaInfo (default [] (q_hard q)) (default [] (q_used q)))
  end.

(** [GET /api/stores/:id/health]: every cluster read is caught. *)
Definition healthRoute (id : string) (p : Platform C) : ObserveResponse :=
  let w := world p in
  match Repository.getStoreById id (db w) with
  | None => mkObserveResponse 404 (OError "Store not found")
  | Some store =>
      let ns := Store.namespace store in
      let pvcs := match listNamespacedPersistentVolumeClaim (clock w) ns (cluster w) with
                  | Ok l => map pvc_info l
                  | Err _ => []
                  end in
      let quota := match listNamespacedResourceQuota (clock w) ns (cluster w) with
                   | Ok l => quota_info l
                   | Err _ => None
                   end in
      mkObserveResponse 200 (OHealth (health_pods (clock w) ns (cluster w)) pvcs quota ns)
  end.

(** [GET /healthz] *)
Definition healthz (p : Platform C) : ObserveResponse :=
  mkObserveResponse 200 (OProbe "ok" (Some (toISOString (clock (world p))))).

(** [GET /readyz]; [db_answers] is whether [SELECT 1] returns. *)
Definition readyz (db_answers : bool) (p : Platform C) : ObserveResponse :=
  if db_answers then mkObserveResponse 200 (OProbe "ready" (Some (toISOString (clock (world p)))))
  else mkObserveResponse 503 (OProbe "not ready" None).

(** [GET /api/audit]: the route has no [try]; a [limit] that is not a
    number binds [NaN], which SQLite stores as [NULL], and [LIMIT NULL]
    throws [datatype mismatch] ([None]: the error reaches Express's error
    middleware). *)
Definition auditRoute (limit : option string) (p : Platform C) : option ObserveResponse :=
  match parseInt (js_or_str limit "50") with
  | Some l => Some (mkObserveResponse 200 (OAudit (getAuditLog l (db (world p)))))
  | None => None
  end.
End Handlers.

(** ** [parseInt] reads back a rendered number *)

Section ParseIntTheory.

Lemma trim_start_cons c l : is_space c = false -> trim_start (c :: l) = c :: l.
Proof. intros Hc. cbn. by rewrite Hc. Qed.

Lemma take_digits_uint u :
  take_digits (list_ascii_of_string (NilEmpty.string_of_uint u)) =
  list_ascii_of_string (NilEmpty.string_of_uint u).
Proof. induction u; cbn; rewrite ?IHu; reflexivity. Qed.

Lemma parseInt_uint (neg : bool) u : u <> Decimal.Nil ->
  parseInt (if neg then String "-" (NilEmpty.string_of_uint u) else NilEmpty.string_of_uint u) =
  Some (if neg then - Z.of_uint u else Z.of_uint u)%Z.
Proof.
  intros Hu. unfold parseInt.
  pose proof (take_digits_uint u) as Ht.
  pose proof (string_of_list_ascii_of_string (NilEmpty.string_of_uint u)) as Hs.
  pose proof (NilEmpty.usu u) as Hp.
  destruct u; [done|..]; destruct neg; cbn [list_ascii_of_string NilEmpty.string_of_uint] in *;
    rewrite trim_start_cons by reflexivity;
    cbn - [take_digits string_of_list_ascii NilEmpty.uint_of_string list_ascii_of_string
           NilEmpty.string_of_uint is_space];
    by rewrite Ht, Hs, Hp.
Qed.

Lemma parseInt_string_of_Z_eq z : parseInt (string_of_Z z) = Some z.
Proof.
  unfold string_of_Z. rewrite <- (DecimalZ.of_to z) at 2.
  destruct z as [|p|p]; cbn [Z.to_int Z.of_int].
  - by apply (parseInt_uint false).
  - apply (parseInt_uint false), DecimalPos.Unsigned.to_uint_nonnil.
  - apply (parseInt_uint true), DecimalPos.Unsigned.to_uint_nonnil.
Qed.
End ParseIntTheory.

(** ** The routes *)

(** The first pod of an app in the list the health route answers. *)
Definition first_pod_of (app : string) (pods : list PodHealth.t) : option string :=
  option_map PodHealth.name (List.find (fun ph => String.eqb (PodHealth.app ph) app) pods).

Section RouteTheory.
Context {C : Type} `{ClusterApi C} `{ObserveLaws C}.

Lemma find_pod_health now app app' pods :
  List.find (fun ph => String.eqb (PodHealth.app ph) app') (map (pod_health now app) pods) =
  if String.eqb app app' then head (map (pod_health now app) pods) else None.
Proof. induction pods as [|pod pods IH]; cbn; by destruct (String.eqb app app'). Qed.

(** The first [wordpress] or [mysql] pod of the health answer is the
    first pod the listing of that app names. *)
Lemma first_pod_of_health now ns app (c : C) :
  app = "wordpress" \/ app = "mysql" ->
  first_pod_of app (health_pods now ns c) =
  match listNamespacedPod now ns ("app=" ++ app) c with Ok (n :: _) => Some n | _ => None end.
Proof.
  intros Happ. unfold first_pod_of, health_pods. cbn [flat_map]. rewrite app_nil_r, find_app.
  destruct Happ as [->| ->]; rewrite listPods_names;
    destruct (listPods now ns ("app=" ++ "wordpress") c) as [[|w ws]|];
    destruct (listPods now ns ("app=" ++ "mysql") c) as [[|m ms]|];
    cbn [map outcome_map List.find]; rewrite ?find_pod_health; reflexivity.
Qed.

Lemma health_pods_listing now ns (c : C) :
  map (fun ph => (PodHealth.app ph, PodHealth.name ph)) (health_pods now ns c) =
  flat_map (fun app => match listNamespacedPod now ns ("app=" ++ app) c with
                       | Ok names => map (pair app) names | Err _ => [] end) ["wordpress"; "mysql"].
Proof.
  unfold health_pods. cbn [flat_map]. rewrite !map_app, !listPods_names.
  destruct (listPods now ns ("app=" ++ "wordpress") c), (listPods now ns ("app=" ++ "mysql") c);
    cbn [outcome_map]; by rewrite ?map_map.
Qed.

(** C22: [GET /api/stores/:id/health] of a known store answers [200] with
    the store's namespace whatever the cluster answers: a failed listing
    of pods, claims or quotas is caught and leaves its part empty.  The
    pods listed are the [wordpress] pods then the [mysql] pods, each
    tagged with its app, in the order the cluster lists them. *)
Theorem healthRoute_known id (p : Platform C) s :
  Repository.getStoreById id (db (world p)) = Some s ->
  exists pods pvcs quota,
    healthRoute id p = mkObserveResponse 200 (OHealth pods pvcs quota (Store.namespace s)) /\
    map (fun ph => (PodHealth.app ph, PodHealth.name ph)) pods =
    flat_map (fun app => match listNamespacedPod (clock (world p)) (Store.namespace s) ("app=" ++ app)
                                 (cluster (world p)) with
                         | Ok names => map (pair app) names | Err _ => [] end) ["wordpress"; "mysql"].
Proof.
  intros Hs. unfold healthRoute. rewrite Hs.
  eexists _, _, _. split; [reflexivity|]. apply health_pods_listing.
Qed.

(** The logs the logs route shows for [wordpress] or [mysql] are
    those of the first pod of that app in the answer of the health route
    at the same moment, and the [container] it reports is the app asked
    for. *)
Theorem logs_pod_first_in_health id app tail (p : Platform C) pod container logs :
  app = "wordpress" \/ app = "mysql" ->
  logsRoute id app tail p = mkObserveResponse 200 (OLogs pod container logs) ->
  container = app /\
  exists pods pvcs quota ns,
    healthRoute id p = mkObserveResponse 200 (OHealth pods pvcs quota ns) /\
    first_pod_of app pods = Some pod.
Proof.
  intros Happ. unfold logsRoute, healthRoute.
  destruct (Repository.getStoreById id (db (world p))) as [s|]; [|discriminate].
  destruct (listNamespacedPod _ _ _ _) as [[|n names]|e] eqn:El; try discriminate.
  destruct (readNamespacedPodLog _ _ _ _ _); [|discriminate].
  intros [= <- <- _]. split; [done|].
  eexists _, _, _, _. split; [reflexivity|]. by rewrite (first_pod_of_health _ _ _ _ Happ), El.
Qed.

Lemma string_of_Z_nonempty n : String.eqb (string_of_Z n) "" = false.
Proof.
  destruct (String.eqb_spec (string_of_Z n) "") as [E|]; [|done].
  pose proof (parseInt_string_of_Z_eq n) as P. rewrite E in P. discriminate.
Qed.


(** A [limit] without a leading digit makes the audit route throw. *)
Lemma auditRoute_nan (p : Platform C) : auditRoute (Some "abc") p = None.
Proof. reflexivity. Qed.
End RouteTheory.

(** ** The cooperative cluster

    A present deployment [app] runs one pod [app-0], running and ready,
    with an empty log; the claims of the namespace are bound; there is no
    quota object. *)

Definition ideal_pod (name : string) : V1Pod.t :=
  V1Pod.mk name (Some "Running") None (Some (mkContainerStatus true 0 "")) None.

#[export] Instance ideal_observe : ObserveApi Ideal := {|
  listPods := fun now ns sel s => outcome_map (map ideal_pod) (ideal_list_pods now ns sel s);
  readNamespacedPodLog := fun _ _ _ _ _ => Ok (Some "");
  listNamespacedPersistentVolumeClaim := fun _ ns s =>
    Ok (map (fun k => V1PersistentVolumeClaim.mk k.2 (Some "Bound") None None None)
            (List.filter (fun k => bool_decide (k.1 = (PersistentVolumeClaim, ns))) (elements (ideal_objs s))));
  listNamespacedResourceQuota := fun _ _ _ => Ok []
|}.

#[export] Instance ideal_observe_laws : ObserveLaws Ideal.
Proof. split. intros now ns sel c. cbn. by rewrite map_map, map_id. Qed.

Lemma healthRoute_known_witness :
  Repository.getStoreById "0" (db (world ready)) = Some ready_store /\
  exists pods pvcs quota,
    healthRoute "0" ready = mkObserveResponse 200 (OHealth pods pvcs quota (Store.namespace ready_store)).
Proof.
  split; [vm_compute; reflexivity|].
  destruct (healthRoute_known "0" ready ready_store) as (pods & pvcs & quota & E & _);
    [vm_compute; reflexivity|].
  exists pods, pvcs, quota. exact E.
Defined.

Lemma logs_pod_first_in_health_witness :
  logsRoute "0" "wordpress" None ready = mkObserveResponse 200 (OLogs "wordpress-0" "wordpress" "") /\
  exists pods pvcs quota ns,
    healthRoute "0" ready = mkObserveResponse 200 (OHealth pods pvcs quota ns) /\
    first_pod_of "wordpress" pods = Some "wordpress-0".
Proof.
  assert (E : logsRoute "0" "wordpress" None ready = mkObserveResponse 200 (OLogs "wordpress-0" "wordpress" ""))
    by (vm_compute; reflexivity).
  split; [exact E|].
  exact (proj2 (logs_pod_first_in_health "0" "wordpress" None ready _ _ _ (or_introl eq_refl) E)).
Defined.
End Observe.
