(* ===== verification/Server.v ===== *)
(** * Server: the start-up of the back end ([index.ts], [k8s/client.ts])

    Loading [index.ts] evaluates its imports first: [config.ts], the
    routers, and through them [provisioningService.ts], whose module
    body builds the [p-queue] (which throws on a concurrency below 1 or
    [NaN]).  The module body then installs the middleware (with the
    morgan format chosen by [NODE_ENV]), runs [runMigrations()] and calls
    [app.listen(config.port, '0.0.0.0', ...)], which throws for a port
    that is [NaN] or outside [0 .. 65535] and otherwise logs three lines
    once the server listens.  [startup] is this sequence as a function
    of the environment and of the schema, returning the lines logged and
    the outcome; an exception at the top level ends the process.

    [k8s/client.ts] loads its configuration from the cluster when
    [KUBERNETES_SERVICE_HOST] is set and non-empty, from the default
    kubeconfig otherwise ([kube_source]).

    The theorems: a first start on an empty database logs the three
    migrations, the completion line and the listen lines; a restart runs
    no migration; a bad concurrency stops the start before any
    migration, a bad port after them. *)

From S2P Require Import Prelude Model Migrate Observe Env.
Local Open Scope string_scope.

Module Server.
Import Migrate Env.

(** [morgan(config.nodeEnv === 'development' ? 'dev' : 'combined')] *)
Definition log_format (c : JsConfig) : string :=
  if String.eqb (nodeEnv c) "development" then "dev" else "combined".

(** [validatePort] of [server.listen]: an integer of [0 .. 65535]. *)
Definition port_valid (port : option Z) : bool :=
  match port with Some p => ((0 <=? p) && (p <=? 65535))%Z | None => false end.

(** [`${n}`] of a JavaScript number that [parseInt] produced. *)
Definition js_number (n : option Z) : string :=
  match n with Some z => string_of_Z z | None => "NaN" end.

(** The three lines of the [listen] callback. *)
Definition listen_logs (c : JsConfig) : list string :=
  ["Store Platform Backend running on port " ++ js_number (port c);
   "Environment: " ++ nodeEnv c;
   "Store domain: " ++ storeDomain c].

(** The module body of [index.ts], after its imports. *)
Definition startup (env : Environ) (d : Schema) : list string * outcome string Schema :=
  let c := config env in
  if negb (pqueue_accepts (provisioningConcurrency c)) then
    ([], Err "TypeError: Expected `concurrency` to be a number from 1 and up")
  else
    let '(logs, r) := runMigrations d in
    match r with
    | Err e => (logs, Err e)
    | Ok d' =>
        if port_valid (port c) then ((logs ++ listen_logs c)%list, Ok d')
        else (logs, Err "RangeError [ERR_SOCKET_BAD_PORT]")
    end.

(** [k8s/client.ts]: where [KubeConfig] is loaded from. *)
Inductive KubeSource := FromCluster | FromDefault.

Definition kube_source (env : Environ) : KubeSource :=
  match env "KUBERNETES_SERVICE_HOST" with
  | Some h => if String.eqb h "" then FromDefault else FromCluster
  | None => FromDefault
  end.

(** The empty database and the empty environment. *)
Definition empty_schema : Schema := mkSchema [] [].
Definition no_env : Environ := fun _ => None.

(** ** Theory *)

Lemma startup_pqueue env d :
  pqueue_accepts (provisioningConcurrency (config env)) = true ->
  startup env d =
    let '(logs, r) := runMigrations d in
    match r with
    | Err e => (logs, Err e)
    | Ok d' => if port_valid (port (config env)) then ((logs ++ listen_logs (config env))%list, Ok d')
               else (logs, Err "RangeError [ERR_SOCKET_BAD_PORT]")
    end.
Proof. intros H. unfold startup. by rewrite H. Qed.

(** ** Claims *)

(** C37: the start-up order of [index.ts]: when the concurrency and the
    port are valid, a start logs the lines of [runMigrations] and then the
    three listen lines, and a second start on the schema it leaves runs
    no migration; a concurrency that is not a number of at least 1 stops
    the start before any migration, leaving the schema as it was; a port
    that is not valid stops it after the migrations, which have run. *)
Theorem startup_order env d :
  let c := config env in
  (pqueue_accepts (provisioningConcurrency c) = true -> port_valid (port c) = true ->
   exists d', startup env d =
       ((map run_log (pending (applied_rows d) migrations) ++
         ["Database migrations complete."] ++ listen_logs c)%list, Ok d') /\
     startup env d' = (("Database migrations complete." :: listen_logs c)%list, Ok d')) /\
  (pqueue_accepts (provisioningConcurrency c) = false -> exists e, startup env d = ([], Err e)) /\
  (pqueue_accepts (provisioningConcurrency c) = true -> port_valid (port c) = false ->
   exists d' e, runMigrations d = (fst (startup env d), Ok d') /\ snd (startup env d) = Err e).
Proof.
  cbv zeta. destruct (runMigrations_spec d) as (d' & Hrun & _ & _ & _ & _ & Hrun2).
  split_and!.
  - intros Hq Hp. exists d'. rewrite !startup_pqueue by done. rewrite Hrun, Hrun2. cbn beta iota zeta.
    rewrite Hp. by rewrite <- app_assoc.
  - intros Hq. unfold startup. rewrite Hq. by eexists.
  - intros Hq Hp. exists d'. rewrite startup_pqueue by done. rewrite Hrun. cbn beta iota zeta.
    rewrite Hp. by eexists.
Qed.

(** ** Witnesses *)

Definition env_port (v : string) : Environ :=
  fun x => if String.eqb x "PORT" then Some v else None.

Lemma startup_order_witness :
  startup no_env empty_schema =
    (["Running migration: 001_create_stores"; "Running migration: 002_create_events";
      "Running migration: 003_create_audit_log"; "Database migrations complete.";
      "Store Platform Backend running on port 3000"; "Environment: development";
      "Store domain: store.127.0.0.1.nip.io"],
     snd (runMigrations empty_schema)) /\
  fst (startup (env_port "http") empty_schema) = fst (runMigrations empty_schema) /\
  (exists d', startup no_env empty_schema =
     ((map run_log (pending (applied_rows empty_schema) migrations) ++
       ["Database migrations complete."] ++ listen_logs (config no_env))%list, Ok d') /\
   startup no_env d' = (("Database migrations complete." :: listen_logs (config no_env))%list, Ok d')).
Proof.
  split_and!; [vm_compute; reflexivity|vm_compute; reflexivity|].
  destruct (startup_order no_env empty_schema) as (Hok & _ & _).
  exact (Hok eq_refl eq_refl).
Defined.
End Server.
