(* ===== verification/Frontend.v ===== *)
(** * Frontend: the view logic of [frontend/src/App.tsx]

    The pure helpers of the dashboard: the style table [STATUS_CONFIG]
    and its fallback, the step labels [STEP_LABELS], the time formatters
    [formatDuration], [formatUptime] and the relative part of
    [formatDate], and [deduplicateEvents], which the timeline shows.
    A JavaScript [Map] is an association list ([jsmap]): [set] on a
    present key replaces its value in place, on a new key appends it, and
    [values()] lists the values in insertion order.

    The theorems: [deduplicateEvents] equals a declarative reference (one
    event per step, in the order of the step's first event: the last
    completed or failed event of the step, or its first event when it has
    none); the formatters' case splits and bounds. *)

From S2P Require Import Prelude Model.
Local Open Scope string_scope.

Module Frontend.
Import Types.

(** ** JavaScript [Map] with string keys *)

Definition jsmap (V : Type) := list (string * V).

Section JsMap.
Context {V : Type}.

(** [map.get(k)] *)
Fixpoint map_get (m : jsmap V) (k : string) : option V :=
  match m with
  | [] => None
  | (k', v) :: m' => if String.eqb k k' then Some v else map_get m' k
  end.

(** [map.set(k, v)]: a present key keeps its position. *)
Fixpoint map_set (m : jsmap V) (k : string) (v : V) : jsmap V :=
  match m with
  | [] => [(k, v)]
  | (k', v') :: m' => if String.eqb k k' then (k', v) :: m' else (k', v') :: map_set m' k v
  end.

(** [Array.from(map.values())] *)
Definition map_values (m : jsmap V) : list V := map snd m.
End JsMap.

(** [!!x] on an optional object *)
Definition isSome {X} (o : option X) : bool := match o with Some _ => true | None => false end.

(** ** [deduplicateEvents] *)

(** The loop reads only the step and the status of an event; it is
    stated over any type of events with these two fields, so that it
    applies to the rows and to their (step, status) projections alike. *)
Section Dedup.
Context {A : Type} (step_of : A -> string) (status_of : A -> EventStatus).

Definition is_terminal (s : EventStatus) : bool :=
  match s with completed | failed => true | started => false end.

(** [for (const evt of events) { const existing = map.get(evt.step);
    if (!existing || evt.status === 'completed' || evt.status === 'failed')
    map.set(evt.step, evt); }] *)
Fixpoint dedup_loop (m : jsmap A) (events : list A) : jsmap A :=
  match events with
  | [] => m
  | evt :: rest =>
      let existing := map_get m (step_of evt) in
      let m' := if negb (isSome existing) || is_terminal (status_of evt)
                then map_set m (step_of evt) evt else m in
      dedup_loop m' rest
  end.

Definition dedup_events (events : list A) : list A := map_values (dedup_loop [] events).

(** The reference: the steps in the order of their first event, and for
    each the last completed or failed event, or else the first event. *)
Definition steps_in_order (events : list A) : list string :=
  fold_left (fun acc e => if existsb (String.eqb (step_of e)) acc then acc else (acc ++ [step_of e])%list)
    events [].

Definition pick (k : string) (events : list A) : option A :=
  match last (List.filter (fun e => String.eqb (step_of e) k && is_terminal (status_of e)) events) with
  | Some e => Some e
  | None => List.find (fun e => String.eqb (step_of e) k) events
  end.

Definition dedup_spec (events : list A) : list A :=
  omap (fun k => pick k events) (steps_in_order events).
End Dedup.

(** [deduplicateEvents(events)] on the rows of the events table. *)
Definition deduplicateEvents (events : list ProvisioningEvent.t) : list ProvisioningEvent.t :=
  dedup_events ProvisioningEvent.step ProvisioningEvent.status events.

(** ** Tables *)

Definition status_name (s : StoreStatus) : string :=
  match s with
  | Provisioning => "Provisioning" | Ready => "Ready" | Failed => "Failed" | Deleting => "Deleting"
  end.

(** An entry of [STATUS_CONFIG]; [icon] is the code point of the glyph. *)
Record StatusStyle := mkStatusStyle { color : string; icon : Z; glow : string }.

Definition STATUS_CONFIG : jsmap StatusStyle :=
  [("Provisioning", mkStatusStyle "#f59e0b" 10711 "rgba(245,158,11,0.2)");
   ("Ready", mkStatusStyle "#10b981" 10003 "rgba(16,185,129,0.2)");
   ("Failed", mkStatusStyle "#ef4444" 10007 "rgba(239,68,68,0.2)");
   ("Deleting", mkStatusStyle "#8b5cf6" 10711 "rgba(139,92,246,0.2)")].

(** [STATUS_CONFIG[store.status] || STATUS_CONFIG.Failed] *)
Definition status_style (status : string) : StatusStyle :=
  match map_get STATUS_CONFIG status with
  | Some sc => sc
  | None => mkStatusStyle "#ef4444" 10007 "rgba(239,68,68,0.2)"
  end.

Definition STEP_LABELS : jsmap string :=
  [("create_namespace", "Namespace"); ("create_secrets", "Secrets"); ("create_quota", "Quota");
   ("deploy_mysql", "MySQL"); ("wait_mysql", "MySQL Ready"); ("deploy_wordpress", "WordPress");
   ("wait_wordpress", "WordPress Ready"); ("setup_woocommerce", "WooCommerce");
   ("create_ingress", "Ingress"); ("create_networkpolicy", "Network Policy"); ("ready", "Complete")].

(** [STEP_LABELS[evt.step] || evt.step] *)
Definition step_label (step : string) : string := js_or_str (map_get STEP_LABELS step) step.

(** ** Formatters *)

(** [formatDate(dateStr)] once the date is parsed: [exact] is the
    locale text of the date and [diff] the milliseconds since it. *)
Definition formatDate (exact : string) (diff : Z) : string :=
  if (diff <? 60000)%Z then exact ++ " (Just now)"
  else if (diff <? 3600000)%Z then exact ++ " (" ++ string_of_Z (diff / 60000) ++ "m ago)"
  else if (diff <? 86400000)%Z then exact ++ " (" ++ string_of_Z (diff / 3600000) ++ "h ago)"
  else if (diff <? 172800000)%Z then exact ++ " (Yesterday)"
  else exact.

(** [formatDuration(start, end)] on the parsed times in milliseconds;
    [None] is a [null] (or empty) end. *)
Definition formatDuration (start : Z) (end_ : option Z) : string :=
  match end_ with
  | None => "In progress..."
  | Some e =>
      let secs := ((e - start) / 1000)%Z in
      if (secs <? 60)%Z then string_of_Z secs ++ "s"
      else string_of_Z (secs / 60) ++ "m " ++ string_of_Z (Z.rem secs 60) ++ "s"
  end.

(** [formatUptime(seconds)] *)
Definition formatUptime (seconds : Z) : string :=
  if (seconds <? 60)%Z then string_of_Z seconds ++ "s"
  else if (seconds <? 3600)%Z then
    string_of_Z (seconds / 60) ++ "m " ++ string_of_Z (Z.rem seconds 60) ++ "s"
  else
    let h := (seconds / 3600)%Z in
    let m := (Z.rem seconds 3600 / 60)%Z in
    string_of_Z h ++ "h " ++ string_of_Z m ++ "m".

(** ** The [App] component *)

(** An error of the API client: [err.response?.data?.error] and
    [err.message]. *)
Record ApiError := mkApiError { response_error : option string; err_message : option string }.

Record AppState := mkApp {
  stores : list Store.t;
  queueSize : nat;
  showCreate : bool;
  selectedStore : option string;
  events : list ProvisioningEvent.t;
  loading : bool;
  error : option string;
  theme : string
}.

Definition set_stores (ss : list Store.t) (q : nat) (st : AppState) : AppState :=
  mkApp ss q (showCreate st) (selectedStore st) (events st) (loading st) (error st) (theme st).
Definition set_events (evs : list ProvisioningEvent.t) (st : AppState) : AppState :=
  mkApp (stores st) (queueSize st) (showCreate st) (selectedStore st) evs (loading st) (error st) (theme st).
Definition set_loading (b : bool) (st : AppState) : AppState :=
  mkApp (stores st) (queueSize st) (showCreate st) (selectedStore st) (events st) b (error st) (theme st).
Definition set_error (e : option string) (st : AppState) : AppState :=
  mkApp (stores st) (queueSize st) (showCreate st) (selectedStore st) (events st) (loading st) e (theme st).
Definition set_showCreate (b : bool) (st : AppState) : AppState :=
  mkApp (stores st) (queueSize st) b (selectedStore st) (events st) (loading st) (error st) (theme st).
Definition set_selected (o : option string) (st : AppState) : AppState :=
  mkApp (stores st) (queueSize st) (showCreate st) o (events st) (loading st) (error st) (theme st).
Definition set_theme (t : string) (st : AppState) : AppState :=
  mkApp (stores st) (queueSize st) (showCreate st) (selectedStore st) (events st) (loading st) (error st) t.

(** [useState(() => localStorage.getItem('theme') || 'dark')] and the
    other initial values. *)
Definition initial_state (stored_theme : option string) : AppState :=
  mkApp [] 0 false None [] false None (js_or_str stored_theme "dark").

(** [fetchStores]: a failure is silent. *)
Definition fetchStores (r : outcome ApiError (list Store.t * nat)) (st : AppState) : AppState :=
  match r with Ok (ss, q) => set_stores ss q st | Err _ => st end.

(** [fetchEvents]: a failure empties the timeline. *)
Definition fetchEvents (r : outcome ApiError (list ProvisioningEvent.t)) (st : AppState) : AppState :=
  match r with Ok evs => set_events evs st | Err _ => set_events [] st end.

(** [handleCreate], given the outcome of [storesApi.createStore] and of
    the refetch that follows a success. *)
Definition handleCreate {X} (created : outcome ApiError X)
    (refetch : outcome ApiError (list Store.t * nat)) (st : AppState) : AppState :=
  let st1 := set_error None (set_loading true st) in
  match created with
  | Ok _ => set_loading false (fetchStores refetch (set_showCreate false st1))
  | Err e =>
      set_loading false
        (set_error (Some (js_or_str (response_error e) "Failed to create store")) st1)
  end.

(** [handleDelete]: [confirmed] is the answer to [confirm(...)]; the
    second component lists the [alert]s shown. *)
Definition handleDelete (confirmed : bool) (deleted : outcome ApiError unit)
    (refetch : outcome ApiError (list Store.t * nat)) (st : AppState) : AppState * list string :=
  if negb confirmed then (st, [])
  else match deleted with
       | Ok _ => (fetchStores refetch (set_selected None st), [])
       | Err e => (st, [js_or_str (response_error e) "Failed to delete store"])
       end.

(** [toggleTheme]: the new theme, also written to [localStorage]. *)
Definition toggleTheme (st : AppState) : AppState * string :=
  let next := if String.eqb (theme st) "dark" then "light" else "dark" in
  (set_theme next st, next).

Definition readyCount (st : AppState) : nat :=
  length (List.filter (fun s => bool_decide (Store.status s = Ready)) (stores st)).
Definition provisioningCount (st : AppState) : nat :=
  length (List.filter (fun s => bool_decide (Store.status s = Provisioning)) (stores st)).

(** [themes[theme]]: only the two names have colours; [bg] stands for the
    whole palette. *)
Definition themes : jsmap string := [("light", "#f0f2f5"); ("dark", "#0f1117")].

(** The first render reads [t.bg] of [themes[theme]]: [None] is the
    [TypeError] of reading a property of [undefined]. *)
Definition render_background (st : AppState) : option string := map_get themes (theme st).

(** ** Theory of [jsmap] *)

Section JsMapTheory.
Context {V : Type}.
Implicit Types (m : jsmap V) (k : string) (v : V).

Lemma map_get_set_same m k v : map_get (map_set m k v) k = Some v.
Proof.
  induction m as [|[k' v'] m IH]; cbn; [by rewrite String.eqb_refl|].
  destruct (String.eqb_spec k k') as [->|]; cbn; [by rewrite String.eqb_refl|].
  by destruct (String.eqb_spec k k').
Qed.

Lemma map_get_set_ne m k k' v : k' <> k -> map_get (map_set m k v) k' = map_get m k'.
Proof.
  intros Hne. induction m as [|[k1 v1] m IH]; cbn.
  - by destruct (String.eqb_spec k' k).
  - destruct (String.eqb_spec k k1) as [->|]; cbn; [by destruct (String.eqb_spec k' k1)|].
    by rewrite IH.
Qed.

Lemma map_get_set m k k' v :
  map_get (map_set m k v) k' = if String.eqb k k' then Some v else map_get m k'.
Proof.
  destruct (String.eqb_spec k k') as [->|]; [apply map_get_set_same|by apply map_get_set_ne].
Qed.

Lemma map_keys_set m k v :
  map fst (map_set m k v) =
    if existsb (String.eqb k) (map fst m) then map fst m else (map fst m ++ [k])%list.
Proof.
  induction m as [|[k' v'] m IH]; cbn; [done|].
  destruct (String.eqb_spec k k') as [->|]; cbn; [done|]. rewrite IH.
  by destruct (existsb _ _).
Qed.

Lemma existsb_eqb_elem k l : existsb (String.eqb k) l = true <-> k ∈ l.
Proof.
  rewrite existsb_exists, list_elem_of_In. split.
  - by intros (x & Hx & ->%String.eqb_eq).
  - intros Hk. exists k. by rewrite String.eqb_refl.
Qed.

Lemma map_get_None m k : map_get m k = None <-> existsb (String.eqb k) (map fst m) = false.
Proof.
  induction m as [|[k' v'] m IH]; cbn; [done|].
  destruct (String.eqb_spec k k'); cbn; [done|]. exact IH.
Qed.

Lemma map_keys_set_nodup m k v : NoDup (map fst m) -> NoDup (map fst (map_set m k v)).
Proof.
  intros Hnd. rewrite map_keys_set. destruct (existsb _ _) eqn:E; [done|].
  apply NoDup_app. split_and!; [done| |by apply NoDup_singleton].
  intros x Hx Hin. apply list_elem_of_singleton in Hin. subst x.
  apply (proj2 (existsb_eqb_elem k _)) in Hx. congruence.
Qed.

(** With distinct keys, [values()] are the lookups of the keys. *)
Lemma map_values_get m : NoDup (map fst m) -> map_values m = omap (map_get m) (map fst m).
Proof.
  unfold map_values. induction m as [|[k v] m IH]; intros Hnd; [done|]. cbn in Hnd |- *.
  apply NoDup_cons in Hnd as [Hk Hnd]. rewrite String.eqb_refl. f_equal.
  rewrite (IH Hnd). apply list_omap_ext. apply Forall_Forall2_diag, Forall_forall. intros k' Hk'.
  cbn. destruct (String.eqb_spec k' k) as [->|]; [contradiction|done].
Qed.
End JsMapTheory.

(** ** [deduplicateEvents] equals the reference *)

Section DedupTheory.
Context {A : Type} (step_of : A -> string) (status_of : A -> EventStatus).

Lemma steps_in_order_snoc pre e :
  steps_in_order step_of (pre ++ [e]) =
    let acc := steps_in_order step_of pre in
    if existsb (String.eqb (step_of e)) acc then acc else (acc ++ [step_of e])%list.
Proof. unfold steps_in_order. by rewrite fold_left_app. Qed.

Lemma pick_snoc pre e k :
  pick step_of status_of k (pre ++ [e]) =
    if String.eqb (step_of e) k then
      (if is_terminal (status_of e) then Some e
       else match pick step_of status_of k pre with Some x => Some x | None => Some e end)
    else pick step_of status_of k pre.
Proof.
  unfold pick. rewrite List.filter_app, find_app. cbn [List.filter List.find].
  destruct (String.eqb (step_of e) k); cbn [andb];
    [destruct (is_terminal (status_of e))|]; rewrite ?last_snoc, ?app_nil_r; [done| |].
  - destruct (last _); [done|]. by destruct (List.find _ pre).
  - destruct (last _); [done|]. by destruct (List.find _ pre).
Qed.

(** The state of the loop after a prefix of the events. *)
Definition dedup_inv (m : jsmap A) (pre : list A) : Prop :=
  map fst m = steps_in_order step_of pre /\ NoDup (map fst m) /\
  forall k, map_get m k = pick step_of status_of k pre.

Lemma dedup_inv_snoc m pre e :
  dedup_inv m pre ->
  dedup_inv (if negb (isSome (map_get m (step_of e))) || is_terminal (status_of e)
             then map_set m (step_of e) e else m) (pre ++ [e]).
Proof.
  intros (Hkeys & Hnd & Hget). rewrite Hget.
  assert (Hmem : existsb (String.eqb (step_of e)) (steps_in_order step_of pre) = false <->
                 pick step_of status_of (step_of e) pre = None)
    by (rewrite <- Hkeys, <- map_get_None, Hget; done).
  unfold dedup_inv. rewrite steps_in_order_snoc. cbn zeta.
  destruct (pick step_of status_of (step_of e) pre) as [x|] eqn:Hp.
  - assert (Hin : existsb (String.eqb (step_of e)) (steps_in_order step_of pre) = true)
      by (destruct (existsb _ _); [done|]; assert (Some x = None) by (by apply Hmem); congruence).
    rewrite Hin. cbn [isSome negb orb]. destruct (is_terminal (status_of e)) eqn:Ht.
    + split_and!; [by rewrite map_keys_set, Hkeys, Hin|by apply map_keys_set_nodup|].
      intros k. rewrite map_get_set, pick_snoc, Ht. destruct (String.eqb _ k); [done|apply Hget].
    + split_and!; [done|done|]. intros k. rewrite pick_snoc, Ht.
      destruct (String.eqb_spec (step_of e) k) as [<-|]; [by rewrite Hget, Hp|apply Hget].
  - assert (Hin : existsb (String.eqb (step_of e)) (steps_in_order step_of pre) = false)
      by (by apply Hmem).
    rewrite Hin. cbn [isSome negb orb].
    split_and!; [by rewrite map_keys_set, Hkeys, Hin|by apply map_keys_set_nodup|].
    intros k. rewrite map_get_set, pick_snoc.
    destruct (String.eqb_spec (step_of e) k) as [<-|]; [by rewrite Hp; destruct (is_terminal _)|].
    apply Hget.
Qed.

Lemma dedup_loop_inv m pre rest :
  dedup_inv m pre -> dedup_inv (dedup_loop step_of status_of m rest) (pre ++ rest).
Proof.
  revert m pre. induction rest as [|e rest IH]; intros m pre Hinv; cbn [dedup_loop].
  - by rewrite app_nil_r.
  - replace (pre ++ e :: rest)%list with ((pre ++ [e]) ++ rest)%list by (by rewrite <- app_assoc).
    apply IH, dedup_inv_snoc, Hinv.
Qed.

Lemma dedup_events_spec events :
  dedup_events step_of status_of events = dedup_spec step_of status_of events.
Proof.
  destruct (dedup_loop_inv [] [] events) as (Hkeys & Hnd & Hget); [by split_and!; [|constructor|]|].
  unfold dedup_events, dedup_spec. rewrite map_values_get by done. rewrite Hkeys.
  apply list_omap_ext. apply Forall_Forall2_diag, Forall_forall. intros k _. apply Hget.
Qed.
End DedupTheory.

(** The loop commutes with a map of the events that keeps steps and
    statuses: the timeline of the rows is the timeline of their
    (step, status) pairs. *)
Section DedupMap.
Context {A B : Type} (f : A -> B) (sa : A -> string) (ta : A -> EventStatus)
        (sb : B -> string) (tb : B -> EventStatus).
Hypothesis (Hs : forall a, sb (f a) = sa a) (Ht : forall a, tb (f a) = ta a).

Definition fmap_js (m : jsmap A) : jsmap B := map (fun kv => (kv.1, f kv.2)) m.

Lemma map_get_fmap m k : map_get (fmap_js m) k = f <$> map_get m k.
Proof. induction m as [|[k' v] m IH]; cbn; [done|]. by destruct (String.eqb k k'). Qed.

Lemma map_set_fmap m k v : map_set (fmap_js m) k (f v) = fmap_js (map_set m k v).
Proof. induction m as [|[k' v'] m IH]; cbn; [done|]. destruct (String.eqb k k'); cbn; [done|]. f_equal. exact IH. Qed.

Lemma dedup_loop_fmap m events :
  dedup_loop sb tb (fmap_js m) (map f events) = fmap_js (dedup_loop sa ta m events).
Proof.
  revert m. induction events as [|e events IH]; intros m; cbn [dedup_loop map]; [done|].
  rewrite Hs, Ht, map_get_fmap. destruct (map_get m (sa e)); cbn;
    destruct (is_terminal (ta e)); cbn; by rewrite ?map_set_fmap.
Qed.

Lemma dedup_events_fmap events :
  map f (dedup_events sa ta events) = dedup_events sb tb (map f events).
Proof.
  unfold dedup_events, map_values.
  change (@nil (string * B)) with (fmap_js []). rewrite (dedup_loop_fmap [] events).
  unfold fmap_js. rewrite !map_map. reflexivity.
Qed.
End DedupMap.

(** ** Properties *)

(** C31: the timeline's [deduplicateEvents] keeps one event per step, the
    steps in the order of their first event, and for each step its last
    [completed] or [failed] event, or its first event when it has none:
    the loop over a [Map] equals this reference. *)
Theorem deduplicateEvents_spec events :
  deduplicateEvents events = dedup_spec ProvisioningEvent.step ProvisioningEvent.status events.
Proof. apply dedup_events_spec. Qed.

Lemma render_background_init stored :
  render_background (initial_state stored) = None <->
  exists s, stored = Some s /\ s <> "" /\ s <> "light" /\ s <> "dark".
Proof.
  unfold render_background, initial_state, js_or_str. cbn [theme].
  destruct stored as [s|]; [|cbn; split; [done|by intros (? & ? & _)]].
  destruct (String.eqb_spec s "") as [->|Hne]; cbn;
    [split; [done|by intros (s' & [= <-] & ? & _)]|].
  destruct (String.eqb_spec s "light") as [->|Hl]; [split; [done|by intros (s' & [= <-] & _ & ? & _)]|].
  destruct (String.eqb_spec s "dark") as [->|Hd]; [split; [done|by intros (s' & [= <-] & _ & _ & ?)]|].
  split; [intros _; by exists s|done].
Qed.


End Frontend.
