(* ===== verification/Tabs.v ===== *)
(** * Tabs: the store card's tabs and the audit panel of [App.tsx]

    A selected [StoreCard] shows one of four tabs; [HealthTab] and
    [AuditLogPanel] poll the API from an effect that owns a [mounted]
    variable, [LogsTab] polls without one, and [ActionsTab] runs one
    action at a time.  A component's state is a record with one
    definition per handler; a request in flight is an entry of a list,
    and the answer to it arrives as a separate event ([poll_settle]), so that
    the answers of concurrent requests can arrive in any order.

    - [Poller]: the effect of [HealthTab] (keyed by [store.id]) and of
      [AuditLogPanel] (keyed by [limit]).  Each run of the effect is an
      entry [(dependency, mounted)] of [runs]: React's cleanup sets the
      previous run's [mounted] to [false] before the next run starts, and
      [fetch] of a run writes state only while its own [mounted] holds.
      [poll_step] is the component's step relation (a run of the effect,
      an interval tick, the answer to a request, the unmount).
    - [LogsTab]: [fetchLogs], re-created when the pod or the tail changes.
    - [ActionsTab]: [runAction] and the four actions' messages.

    The theorems: along every run of a poller only an answer to a request
    of the live run of the effect, for the current store or limit,
    changes what is shown; the log view, which has no such guard, can
    show the logs of the pod it has just switched away from. *)

From S2P Require Import Prelude Model Frontend.
Local Open Scope string_scope.

Module Tabs.
Import Types Frontend.

(** ** The tabs of a store card *)

(** [TabType]: [overview], [health], [logs], [actions]. *)
Inductive TabType := Overview | Health | Logs | Actions.

(** [{isSelected && ...}] and [{activeTab === ... && <...Tab/>}] *)
Definition card_tab (isSelected : bool) (activeTab : TabType) : option TabType :=
  if isSelected then Some activeTab else None.

(** ** Polling from an effect with a [mounted] variable *)

Section Poller.
Context {Q A D : Type}.

Record Poller := mkPoller {
  (** [health] / [entries] *)
  shown : D;
  ploading : bool;
  (** each run of the effect: its dependency and its [mounted] *)
  runs : list (Q * bool);
  (** each request in flight: the run whose [fetch] sent it *)
  inflight : list nat
}.

(** [useState(null)] / [useState([])] and [useState(true)] *)
Definition poll_init (d0 : D) : Poller := mkPoller d0 true [] [].

(** The cleanup [() => { mounted = false; clearInterval(interval); }] of
    the last run. *)
Definition cleanup (s : Poller) : Poller :=
  mkPoller (shown s) (ploading s) (alter (fun '(q, _) => (q, false)) (pred (length (runs s))) (runs s))
           (inflight s).

(** The effect for dependency [q]: the previous run is cleaned up, then
    [let mounted = true; fetch(); setInterval(fetch, ...)]. *)
Definition effect_run (q : Q) (s : Poller) : Poller :=
  let s := cleanup s in
  mkPoller (shown s) (ploading s) (runs s ++ [(q, true)]) (inflight s ++ [length (runs s)]).

(** The interval fires [fetch] of the last run. *)
Definition tick (s : Poller) : Poller :=
  mkPoller (shown s) (ploading s) (runs s) (inflight s ++ [pred (length (runs s))]).

(** The answer to request [i]: [if (mounted) set(data)] in the [try],
    [if (mounted) setLoading(false)] in the [finally]; [inj] is how the
    data is stored. *)
Definition poll_settle (inj : A -> D) (i : nat) (r : outcome ApiError A) (s : Poller) : Poller :=
  let g := default 0 (inflight s !! i) in
  let mounted := match runs s !! g with Some (_, m) => m | None => false end in
  let d := match r with Ok a => if mounted then inj a else shown s | Err _ => shown s end in
  mkPoller d (if mounted then false else ploading s) (runs s) (delete i (inflight s)).

Definition current (s : Poller) : option Q := option_map fst (last (runs s)).

Inductive poll_step (inj : A -> D) : Poller -> Poller -> Prop :=
| PollRun q s : poll_step inj s (effect_run q s)
| PollTick s q : last (runs s) = Some (q, true) -> poll_step inj s (tick s)
| PollSettle s i g r : inflight s !! i = Some g -> poll_step inj s (poll_settle inj i r s)
| PollUnmount s : poll_step inj s (cleanup s).
End Poller.
Arguments Poller : clear implicits.

(** [HealthTab]: keyed by [store.id]; [setHealth(data)]. *)
Definition fetchHealth {H} := @poll_settle string H (option H) Some.
Definition healthTab_init {H} : Poller string (option H) := poll_init None.

(** [AuditLogPanel]: keyed by [limit]; [setEntries(data)]. *)
Definition auditFetch {E} := @poll_settle Z (list E) (list E) id.
Definition auditPanel_init {E} : Poller Z (list E) := poll_init [].

(** ** The rows of the audit panel *)

(** [actionColors] and [actionLabels] *)
Definition actionColors : jsmap string :=
  [("store.create", "#10b981"); ("store.delete", "#ef4444"); ("store.restart", "#326CE5");
   ("store.reset_password", "#f59e0b"); ("store.provision_complete", "#10b981");
   ("store.provision_failed", "#ef4444")].

Definition actionLabels : jsmap string :=
  [("store.create", "Created"); ("store.delete", "Deleted"); ("store.restart", "Restarted");
   ("store.reset_password", "Password Reset"); ("store.provision_complete", "Provisioned");
   ("store.provision_failed", "Failed")].

(** One row of the table, but its time column; [textSecondary] is the
    theme's colour. *)
Record AuditRow := mkAuditRow {
  row_color : string;
  row_label : string;
  row_resource : string;
  row_details : string;
  row_ip : string
}.

Definition audit_row (textSecondary : string) (e : AuditEntry.t) : AuditRow :=
  mkAuditRow (js_or_str (map_get actionColors (AuditEntry.action e)) textSecondary)
             (js_or_str (map_get actionLabels (AuditEntry.action e)) (AuditEntry.action e))
             (js_or_str (AuditEntry.resourceName e) (js_or_str (AuditEntry.resourceId e) "-"))
             (js_or_str (AuditEntry.details e) "-")
             (js_or_str (AuditEntry.ipAddress e) "-").

Inductive AuditView := AuditLoading | AuditEmpty | AuditTable (rows : list AuditRow).

(** [loading ? ... : entries.length === 0 ? ... : <table>] *)
Definition auditPanel_view (textSecondary : string) (s : Poller Z (list AuditEntry.t)) : AuditView :=
  if ploading s then AuditLoading
  else match shown s with
       | [] => AuditEmpty
       | es => AuditTable (map (audit_row textSecondary) es)
       end.

(** ** The log view *)

Record LogsTab := mkLogsTab {
  logPod : string;
  logs : string;
  lloading : bool;
  tailLines : Z;
  (** the pod and tail of each request in flight *)
  lpending : list (string * Z)
}.

Definition logsTab_init : LogsTab := mkLogsTab "wordpress" "" false 80 [].

(** [fetchLogs]: [setLoading(true)] and the request. *)
Definition fetchLogs (s : LogsTab) : LogsTab :=
  mkLogsTab (logPod s) (logs s) true (tailLines s) (lpending s ++ [(logPod s, tailLines s)]).

(** The answer to request [i]: [setLogs(data.logs)], or the failure
    text; [setLoading(false)] in the [finally]. *)
Definition fetchLogs_settle (i : nat) (r : outcome ApiError string) (s : LogsTab) : LogsTab :=
  let l := match r with Ok l => l | Err _ => "Failed to fetch logs. Pod may not be running." end in
  mkLogsTab (logPod s) l false (tailLines s) (delete i (lpending s)).

(** [setLogPod] re-creates [fetchLogs], and the effect on it calls it. *)
Definition setLogPod (pod : string) (s : LogsTab) : LogsTab :=
  fetchLogs (mkLogsTab pod (logs s) (lloading s) (tailLines s) (lpending s)).

Definition setTailLines (n : Z) (s : LogsTab) : LogsTab :=
  fetchLogs (mkLogsTab (logPod s) (logs s) (lloading s) n (lpending s)).

(** ** The actions tab *)

Inductive ResultType := success | failure.

Record ActionsTab := mkActionsTab {
  actionResult : option (ResultType * string);
  aloading : option string
}.

Definition actionsTab_init : ActionsTab := mkActionsTab None None.

(** [runAction(label, fn)] up to [await fn()]. *)
Definition runAction_start (label : string) (s : ActionsTab) : ActionsTab :=
  mkActionsTab None (Some label).

(** The rest of [runAction] once [fn()] settles; the flag says whether
    [onRefresh()] is called. *)
Definition runAction_settle (r : outcome ApiError string) (s : ActionsTab) : ActionsTab * bool :=
  match r with
  | Ok msg => (mkActionsTab (Some (success, msg)) None, true)
  | Err e => (mkActionsTab (Some (failure, js_or_str (response_error e)
                                              (js_or_str (err_message e) "Action failed"))) None, false)
  end.

(** [Array.prototype.join(sep)] *)
Fixpoint join (sep : string) (l : list string) : string :=
  match l with
  | [] => ""
  | [x] => x
  | x :: l' => x ++ sep ++ join sep l'
  end.

(** The [fn] of the three restart actions and of the password reset. *)
Definition restart_fn (res : outcome ApiError (list string)) : outcome ApiError string :=
  outcome_map (fun restarted => "Restarted: " ++ join ", " restarted) res.

Definition reset_fn (res : outcome ApiError string) : outcome ApiError string :=
  outcome_map (fun newPassword => "New password: " ++ newPassword) res.

(** The four actions: label, the target of the restart ([None]: the
    password reset), and [disabled]. *)
Definition actions_of (store : Store.t) : list (string * option string * bool) :=
  let disabled := negb (bool_decide (Store.status store = Ready)) in
  [("Restart All Pods", Some "all", disabled); ("Restart WordPress", Some "wordpress", disabled);
   ("Restart MySQL", Some "mysql", disabled); ("Reset Admin Password", None, disabled)].

(** ** Only the live run of the effect writes *)

Section PollerTheory.
Context {Q A D : Type} (inj : A -> D).
Implicit Types (s : Poller Q D).

(** At most the last run of the effect is mounted. *)
Definition poll_inv s : Prop :=
  forall g q, runs s !! g = Some (q, true) -> g = pred (length (runs s)).

Lemma cleanup_unmounted s g q : poll_inv s -> runs (cleanup s) !! g <> Some (q, true).
Proof.
  intros Hinv. cbn [runs cleanup]. destruct (decide (g = pred (length (runs s)))) as [->|Hne].
  - rewrite list_lookup_alter. destruct (runs s !! _) as [[]|]; cbn;
      case_decide; try done; intros [=].
  - rewrite list_lookup_alter_ne by done. intros Hg. by apply Hne, (Hinv g q).
Qed.

Lemma poll_step_inv s s' : poll_step inj s s' -> poll_inv s -> poll_inv s'.
Proof.
  intros Hstep Hinv g q Hg. destruct Hstep as [q' s|s q' _|s i g' r _|s]; cbn [runs effect_run tick poll_settle] in *.
  - rewrite length_app. cbn [length]. rewrite Nat.add_1_r. cbn [pred].
    apply lookup_app_Some in Hg as [Hl|[Hlen Hr]].
    + by apply cleanup_unmounted in Hl.
    + apply list_lookup_singleton_Some in Hr as [Hr _]. lia.
  - by apply Hinv in Hg.
  - by apply Hinv in Hg.
  - by apply cleanup_unmounted in Hg.
Qed.

Lemma poll_reachable_inv d0 s : rtc (poll_step inj) (poll_init d0) s -> poll_inv s.
Proof.
  intros Hr. assert (H0 : poll_inv (poll_init d0)) by (intros g q Hg; discriminate Hg).
  revert H0. induction Hr as [|x y z Hxy _ IH]; intros H0; [done|].
  apply IH. by apply (poll_step_inv x).
Qed.

(** C26: along every run of [HealthTab] or [AuditLogPanel] (store or
    limit switches, interval ticks, answers in any order, unmount), an
    answer changes the data shown or the spinner only when it answers a
    request of the live run of the effect, and that run is the one for
    the current store id (limit): the [mounted] flag of each run shuts
    out the answers of every earlier store, and every answer after the
    unmount. *)
Theorem poller_only_live_run d0 s i g r :
  rtc (poll_step inj) (poll_init d0) s -> inflight s !! i = Some g ->
  (shown (poll_settle inj i r s), ploading (poll_settle inj i r s)) <> (shown s, ploading s) ->
  exists q, runs s !! g = Some (q, true) /\ current s = Some q.
Proof.
  intros Hr Hi Hch. pose proof (poll_reachable_inv d0 s Hr) as Hinv.
  unfold poll_settle in Hch. cbn [shown ploading] in Hch. rewrite Hi in Hch. cbn [default id] in Hch.
  revert Hch. destruct (runs s !! g) as [[q [|]]|] eqn:Hg; intros Hch; [|destruct r; by destruct Hch..].
  exists q. split; [done|]. unfold current. rewrite last_lookup, <- (Hinv g q Hg), Hg. done.
Qed.
End PollerTheory.

(** ** The log view has no such guard *)

(** C27: the log view shows the logs of a pod it is no longer on: when a
    fetch for the current pod is in flight and the user picks another
    pod, the answer for the new pod may arrive first, turning the spinner
    off while the first request is still in flight, and the late answer
    for the old pod then replaces the logs, under the new pod's name. *)
Theorem logsTab_stale_pod s pod lw lm :
  let s1 := setLogPod pod (fetchLogs s) in
  let n := length (lpending s) in
  let s2 := fetchLogs_settle (S n) (Ok lm) s1 in
  let s3 := fetchLogs_settle n (Ok lw) s2 in
  lpending s1 !! n = Some (logPod s, tailLines s) /\ lpending s1 !! S n = Some (pod, tailLines s) /\
  logs s2 = lm /\ lloading s2 = false /\ lpending s2 !! n = Some (logPod s, tailLines s) /\
  logPod s3 = pod /\ logs s3 = lw.
Proof.
  cbn zeta. unfold setLogPod, fetchLogs, fetchLogs_settle. cbn [lpending logPod logs lloading tailLines].
  rewrite <- app_assoc. cbn [app].
  assert (Hd : delete (S (length (lpending s))) (lpending s ++ [(logPod s, tailLines s); (pod, tailLines s)])%list =
               (lpending s ++ [(logPod s, tailLines s)])%list).
  { generalize (lpending s). intros l. induction l as [|x l IH]; [done|]. cbn. f_equal. exact IH. }
  rewrite Hd. split_and!; try done.
  - by rewrite lookup_app_r, Nat.sub_diag.
  - rewrite lookup_app_r by lia. by replace (S (length (lpending s)) - length (lpending s)) with 1 by lia.
  - by rewrite lookup_app_r, Nat.sub_diag.
Qed.

(** ** Witnesses *)

(** [HealthTab] on store [7], its first fetch in flight. *)
Definition health_run : Poller string (option string) := effect_run "7" healthTab_init.

Lemma poller_only_live_run_witness :
  rtc (poll_step Some) (poll_init None) health_run /\ inflight health_run !! 0 = Some 0 /\
  exists q, runs health_run !! 0 = Some (q, true) /\ current health_run = Some q.
Proof.
  assert (Hr : rtc (poll_step Some) (poll_init None) health_run) by (apply rtc_once; constructor).
  split_and!; [exact Hr|reflexivity|].
  apply (poller_only_live_run Some None health_run 0 0 (Ok "healthy")); [exact Hr|reflexivity|].
  cbn. congruence.
Defined.

End Tabs.
