(* ===== verification/Board.v ===== *)
(** * Board: what [App.tsx] renders, its events effect and the create form

    [App] renders a header with counters, one [StoreCard] per store and,
    on demand, the [AuditLogPanel] and the [CreateStoreModal].  The
    selected card shows its tabs; its timeline ([TimelineTab]) receives
    the [events] state of [App], which the events effect of [App] fills
    for the selected store.

    - Views: [timelineTab], [storeCard] and [app_view] compute, from the
      state, what the JSX shows (texts, icons, which parts are present);
      styles are left out.  JavaScript's [x && <.../>] on a string is
      [js_truthy]: the empty string renders nothing.
    - [Board]: the state of [App] ([Frontend.AppState]) with the parts
      [AppState] leaves out: [showAuditLog], the [activeTab] of each card
      (React keeps it per [store.id]) and the requests of the events
      effect in flight.  [onSelect], [events_tick] and [events_answer]
      are the effect's steps; an answer lands whatever the selection is
      by then, since [fetchEvents] has no guard.
    - [Modal]: [CreateStoreModal] with its three inputs and its
      [handleSubmit], behind the browser's constraint validation.

    The theorems: the plan the form submits is always [woocommerce]; the
    selected card's timeline shows the events of the store selected
    before it, and a late answer for that store replaces those of the
    new one. *)

From S2P Require Import Prelude Model Frontend Tabs.
Local Open Scope string_scope.

Module Board.
Import Types Frontend Tabs.

(** [x && ...] on an optional string: [null], [undefined] and [""]
    render nothing. *)
Definition js_truthy (o : option string) : option string :=
  match o with Some s => if String.eqb s "" then None else Some s | None => None end.

(** ** [TimelineTab] *)

Record TimelineRow := mkTimelineRow {
  tl_icon : Z;          (** ✓, ✗ or • *)
  tl_pulse : bool;      (** [evt.status === 'started'] *)
  tl_label : string;
  tl_message : string
}.

Definition timeline_icon (s : EventStatus) : Z :=
  match s with completed => 10003 | failed => 10007 | started => 8226 end%Z.

Definition timeline_row (evt : ProvisioningEvent.t) : TimelineRow :=
  mkTimelineRow (timeline_icon (ProvisioningEvent.status evt))
                (bool_decide (ProvisioningEvent.status evt = started))
                (step_label (ProvisioningEvent.step evt))
                (ProvisioningEvent.message evt).

Inductive TimelineView := NoEvents | Timeline (rows : list TimelineRow).

(** [if (events.length === 0) return <p>No events yet</p>] and the rows
    of [deduplicateEvents(events)]. *)
Definition timelineTab (events : list ProvisioningEvent.t) : TimelineView :=
  match events with
  | [] => NoEvents
  | _ => Timeline (map timeline_row (deduplicateEvents events))
  end.

(** ** [StoreCard] *)

(** What the tab area shows: the timeline, or the component of the tab. *)
Inductive Panel := PTimeline (v : TimelineView) | PHealth | PLogs | PActions.

Record Links := mkLinks {
  link_url : string;
  link_admin : option (string * option string)   (** admin URL, [admin / password] *)
}.

Record CardView := mkCard {
  card_bar : bool;                (** the progress bar of a provisioning store *)
  card_name : string;
  card_plan : string;
  card_created : string;
  card_duration : option string;
  card_spin : bool;
  card_icon : Z;
  card_color : string;
  card_status : string;
  card_links : option Links;
  card_error : option string;
  card_panel : option Panel
}.

Section Card.
(** [formatDate] reads the locale text of a date and the clock. *)
Variable (locale : timestamp -> string) (now : timestamp).

Definition card_panel_of (isSelected : bool) (activeTab : TabType)
    (events : list ProvisioningEvent.t) : option Panel :=
  match card_tab isSelected activeTab with
  | Some Overview => Some (PTimeline (timelineTab events))
  | Some Health => Some PHealth
  | Some Logs => Some PLogs
  | Some Actions => Some PActions
  | None => None
  end.

Definition card_links_of (s : Store.t) : option Links :=
  match js_truthy (Store.url s) with
  | None => None
  | Some u =>
      Some (mkLinks u (match js_truthy (Store.adminUrl s) with
                       | None => None
                       | Some a => Some (a, js_truthy (Store.adminPassword s))
                       end))
  end.

Definition storeCard (isSelected : bool) (activeTab : TabType)
    (events : list ProvisioningEvent.t) (s : Store.t) : CardView :=
  let status := status_name (Store.status s) in
  let sc := status_style status in
  mkCard (bool_decide (Store.status s = Provisioning))
         (Store.name s) (plan_name (Store.plan s))
         (formatDate (locale (Store.createdAt s)) (now - Store.createdAt s)%Z)
         (option_map (fun e => formatDuration (Store.createdAt s) (Some e)) (Store.provisionedAt s))
         (bool_decide (Store.status s = Provisioning \/ Store.status s = Deleting))
         (icon sc) (color sc) status
         (card_links_of s) (js_truthy (Store.errorMessage s))
         (card_panel_of isSelected activeTab events).
End Card.

(** ** [App]: the header, the cards, the panels *)

Record Board := mkBoard {
  app : AppState;
  showAuditLog : bool;
  activeTabs : jsmap TabType;    (** each card's [activeTab], by [store.id] *)
  inflight : list string         (** the store ids of [fetchEvents] calls in flight *)
}.

Definition board_init (stored_theme : option string) : Board :=
  mkBoard (initial_state stored_theme) false [] [].

Definition set_app (st : AppState) (b : Board) : Board :=
  mkBoard st (showAuditLog b) (activeTabs b) (inflight b).

(** [useState<TabType>('overview')] of the card of [id]. *)
Definition active_tab (b : Board) (id : string) : TabType :=
  default Overview (map_get (activeTabs b) id).

(** [selectedStore === store.id] *)
Definition is_selected (st : AppState) (id : string) : bool :=
  bool_decide (selectedStore st = Some id).

(** [events={selectedStore === store.id ? events : []}] *)
Definition card_events (b : Board) (id : string) : list ProvisioningEvent.t :=
  if is_selected (app b) id then events (app b) else [].

Record Header := mkHeader {
  active_badge : nat;               (** [{readyCount} Active] *)
  provisioning_badge : option nat;  (** [provisioningCount > 0 && ...] *)
  queued_badge : option nat;        (** [queueSize > 0 && ...] *)
  theme_icon : Z                    (** ☀ in the dark theme, ☾ otherwise *)
}.

Inductive MainView := NoStores | Cards (cards : list CardView).

Record AppView := mkAppView {
  header : Header;
  main : MainView;
  audit_shown : bool;
  modal : option (bool * option string)   (** the form's [loading] and [error] *)
}.

Definition badge (n : nat) : option nat := if (0 <? n)%nat then Some n else None.

Definition app_view (locale : timestamp -> string) (now : timestamp) (b : Board) : AppView :=
  let st := app b in
  mkAppView
    (mkHeader (readyCount st) (badge (provisioningCount st)) (badge (queueSize st))
              (if String.eqb (theme st) "dark" then 9728 else 9790)%Z)
    (match stores st with
     | [] => NoStores
     | ss => Cards (map (fun s => storeCard locale now (is_selected st (Store.id s))
                                            (active_tab b (Store.id s))
                                            (card_events b (Store.id s)) s) ss)
     end)
    (showAuditLog b)
    (if showCreate st then Some (loading st, js_truthy (error st)) else None).

(** [onClick={() => setShowAuditLog(!showAuditLog)}] *)
Definition toggleAuditLog (b : Board) : Board :=
  mkBoard (app b) (negb (showAuditLog b)) (activeTabs b) (inflight b).

(** [setActiveTab(tab.key)] in the card of [id] *)
Definition setActiveTab (id : string) (tab : TabType) (b : Board) : Board :=
  mkBoard (app b) (showAuditLog b) (map_set (activeTabs b) id tab) (inflight b).

(** ** The events effect of [App]

    [useEffect(() => { if (selectedStore) { fetchEvents(selectedStore);
    setInterval(...) } }, [selectedStore, ...])]: a new selection clears
    the previous interval and calls [fetchEvents] at once; the interval
    calls it again every three seconds.  A call in flight is the store id
    it asked for. *)

Definition events_effect (old : option string) (b : Board) : Board :=
  if bool_decide (selectedStore (app b) = old) then b
  else match selectedStore (app b) with
       | Some id => mkBoard (app b) (showAuditLog b) (activeTabs b) (inflight b ++ [id])
       | None => b
       end.

(** [onSelect={() => setSelectedStore(store.id === selectedStore ? null : store.id)}] *)
Definition onSelect (id : string) (b : Board) : Board :=
  let old := selectedStore (app b) in
  let sel := if bool_decide (old = Some id) then None else Some id in
  events_effect old (set_app (set_selected sel (app b)) b).

(** The interval fires: [fetchEvents(selectedStore)]. *)
Definition events_tick (b : Board) : Board :=
  match selectedStore (app b) with
  | Some id => mkBoard (app b) (showAuditLog b) (activeTabs b) (inflight b ++ [id])
  | None => b
  end.

(** The [i]-th call in flight returns what the server answers for its
    store ([getStoreEvents]); [fetchEvents] sets [events] whatever the
    selection is by then. *)
Definition events_answer (srv : string -> outcome ApiError (list ProvisioningEvent.t))
    (i : nat) (b : Board) : Board :=
  match inflight b !! i with
  | Some id => mkBoard (fetchEvents (srv id) (app b)) (showAuditLog b) (activeTabs b)
                       (delete i (inflight b))
  | None => b
  end.

(** [handleDelete] also changes the selection, so the effect runs again;
    the second component lists the [alert]s. *)
Definition board_delete (confirmed : bool) (deleted : outcome ApiError unit)
    (refetch : outcome ApiError (list Store.t * nat)) (b : Board) : Board * list string :=
  let '(st', alerts) := handleDelete confirmed deleted refetch (app b) in
  (events_effect (selectedStore (app b)) (set_app st' b), alerts).

(** [onClick={() => setShowCreate(true)}] *)
Definition openCreate (b : Board) : Board := set_app (set_showCreate true (app b)) b.

(** [onClose={() => { setShowCreate(false); setError(null); }}] *)
Definition closeCreate (b : Board) : Board :=
  set_app (set_error None (set_showCreate false (app b))) b.

(** ** [CreateStoreModal]

    The modal is mounted while [showCreate] holds, so its inputs start
    empty each time it opens. *)

Record Modal := mkModal { mname : string; memail : string; mplan : StorePlan }.

(** [useState('')], [useState('')], [useState('woocommerce')] *)
Definition modal_init : Modal := mkModal "" "" woocommerce.

Inductive ModalInput := SetName (v : string) | SetEmail (v : string) | ClickPlan (p : StorePlan).

(** [onChange={(e) => setName(e.target.value)}], the same for the
    e-mail, and the plan buttons' [onClick={() => p === 'woocommerce' && setPlan(p)}]. *)
Definition modal_input (i : ModalInput) (m : Modal) : Modal :=
  match i with
  | SetName v => mkModal v (memail m) (mplan m)
  | SetEmail v => mkModal (mname m) v (mplan m)
  | ClickPlan p => if bool_decide (p = woocommerce) then mkModal (mname m) (memail m) p else m
  end.

Definition modal_inputs (ins : list ModalInput) (m : Modal) : Modal :=
  fold_left (fun m i => modal_input i m) ins m.

Section Submit.
(** The browser's check of an [<input type="email">]. *)
Variable browser_email : string -> bool.

(** The form's constraint validation: [required minLength={2}
    maxLength={50}] on the name, [required] and [type="email"] on the
    e-mail (lengths in code units: one per character of an ASCII name). *)
Definition form_valid (m : Modal) : bool :=
  let n := String.length (mname m) in
  (2 <=? n)%nat && (n <=? 50)%nat && negb (String.eqb (memail m) "") && browser_email (memail m).

(** [handleSubmit]: the submit button is [disabled={loading}] and an
    invalid form is not submitted; otherwise
    [onCreate({ name, adminEmail: email, plan })]. *)
Definition modal_submit (loading : bool) (m : Modal) : option (string * string * StorePlan) :=
  if loading then None
  else if form_valid m then Some (mname m, memail m, mplan m) else None.
End Submit.

(** ** Theory of the events effect *)

Lemma onSelect_other b c :
  selectedStore (app b) <> Some c ->
  selectedStore (app (onSelect c b)) = Some c /\ events (app (onSelect c b)) = events (app b) /\
  inflight (onSelect c b) = (inflight b ++ [c])%list.
Proof.
  intros Hne. unfold onSelect. rewrite bool_decide_false by done.
  unfold events_effect. cbn. rewrite bool_decide_false by (intros H; apply Hne; by rewrite H).
  done.
Qed.

Lemma events_answer_lookup srv i b id :
  inflight b !! i = Some id ->
  app (events_answer srv i b) = fetchEvents (srv id) (app b) /\
  inflight (events_answer srv i b) = delete i (inflight b).
Proof. intros H. unfold events_answer. by rewrite H. Qed.

Lemma delete_last {X} (l : list X) x : delete (length l) (l ++ [x])%list = l.
Proof. by rewrite delete_middle, app_nil_r. Qed.

Lemma events_answer_inflight srv i b id :
  inflight b !! i = Some id -> inflight (events_answer srv i b) = delete i (inflight b).
Proof. intros H. unfold events_answer. by rewrite H. Qed.

(** An answer, for whichever store, lands in the selected card. *)
Lemma card_events_answer srv i b id c evs :
  inflight b !! i = Some id -> srv id = Ok evs -> selectedStore (app b) = Some c ->
  selectedStore (app (events_answer srv i b)) = Some c /\ card_events (events_answer srv i b) c = evs.
Proof.
  intros Hi Hsrv Hsel. unfold card_events, is_selected, events_answer. rewrite Hi, Hsrv. cbn.
  by rewrite Hsel, bool_decide_true.
Qed.

(** ** Theory of the form *)

Lemma modal_inputs_plan ins m :
  mplan m = woocommerce -> mplan (modal_inputs ins m) = woocommerce.
Proof.
  revert m. induction ins as [|i ins IH]; intros m Hm; [done|].
  apply IH. destruct i as [v|v|p]; cbn; try done.
  case_bool_decide; [done|exact Hm].
Qed.

(** A name of 2 to 50 characters and an e-mail the browser accepts,
    typed into a fresh form, are submitted as they are. *)
Lemma modal_submit_typed browser_email name email :
  (2 <= String.length name <= 50)%nat -> email <> "" -> browser_email email = true ->
  modal_submit browser_email false (modal_inputs [SetName name; SetEmail email] modal_init) =
    Some (name, email, woocommerce).
Proof.
  intros [H1 H2] He Hb. unfold modal_submit, form_valid, modal_inputs, modal_init.
  cbn [fold_left modal_input mname memail mplan].
  rewrite (proj2 (Nat.leb_le _ _) H1), (proj2 (Nat.leb_le _ _) H2), Hb.
  by destruct (String.eqb_spec email "").
Qed.

(** ** Claims *)

(** C28: the timeline of a newly selected card is not that store's:
    clicking card [c] while [a] is selected first shows [a]'s events
    under [c]; the answer for [c] then shows [c]'s events, and a request
    for [a] still in flight, answered later, puts [a]'s events back
    under [c], which stays selected. *)
Theorem timeline_stale_store b srv a c i evs_a evs_c :
  selectedStore (app b) = Some a -> a <> c -> inflight b !! i = Some a ->
  srv a = Ok evs_a -> srv c = Ok evs_c ->
  let b1 := onSelect c b in
  let b2 := events_answer srv (length (inflight b)) b1 in
  let b3 := events_answer srv i b2 in
  card_events b1 c = events (app b) /\ card_events b2 c = evs_c /\
  selectedStore (app b3) = Some c /\ card_events b3 c = evs_a.
Proof.
  intros Hsel Hac Hi Ha Hc. cbv zeta.
  destruct (onSelect_other b c) as (S1 & E1 & I1); [rewrite Hsel; congruence|].
  set (b1 := onSelect c b) in *.
  assert (L2 : inflight b1 !! length (inflight b) = Some c).
  { rewrite I1, lookup_app_r, Nat.sub_diag by lia. done. }
  destruct (card_events_answer srv _ b1 _ _ _ L2 Hc S1) as [S2 C2].
  pose proof (events_answer_inflight srv _ b1 _ L2) as I2.
  set (b2 := events_answer srv (length (inflight b)) b1) in *.
  assert (L3 : inflight b2 !! i = Some a) by (by rewrite I2, I1, delete_last).
  destruct (card_events_answer srv _ b2 _ _ _ L3 Ha S2) as [S3 C3].
  split_and!; [|exact C2|exact S3|exact C3].
  unfold card_events, is_selected. by rewrite S1, bool_decide_true, E1.
Qed.

(** C29: whatever the user does in the create form, a submission asks
    for a WooCommerce store: the MedusaJS button does not change the
    plan. *)
Theorem modal_plan_woocommerce browser_email ins loading name email plan :
  modal_submit browser_email loading (modal_inputs ins modal_init) = Some (name, email, plan) ->
  plan = woocommerce.
Proof.
  unfold modal_submit. pose proof (modal_inputs_plan ins modal_init eq_refl) as Hp.
  destruct loading; [done|]. case_match; [|done]. intros [= _ _ <-]. exact Hp.
Qed.

(** ** Witnesses *)

Definition ev (id sid : string) : ProvisioningEvent.t :=
  ProvisioningEvent.mk id sid "create_namespace" completed "Namespace created" 0%Z.

Definition events_of (sid : string) : outcome ApiError (list ProvisioningEvent.t) :=
  Ok [ev sid sid].

(** Store ["1"] was selected and its first request is in flight. *)
Definition selected_one : Board := onSelect "1" (board_init None).

Lemma timeline_stale_store_witness :
  selectedStore (app selected_one) = Some "1" /\
  (let b1 := onSelect "2" selected_one in
   let b2 := events_answer events_of 1 b1 in
   let b3 := events_answer events_of 0 b2 in
   card_events b1 "2" = events (app selected_one) /\ card_events b2 "2" = [ev "2" "2"] /\
   selectedStore (app b3) = Some "2" /\ card_events b3 "2" = [ev "1" "1"]).
Proof.
  split; [reflexivity|].
  exact (timeline_stale_store selected_one events_of "1" "2" 0 [ev "1" "1"] [ev "2" "2"]
           eq_refl ltac:(discriminate) eq_refl eq_refl eq_refl).
Defined.

Lemma modal_plan_woocommerce_witness :
  modal_submit (fun e => String.eqb e "owner@example.com") false
    (modal_inputs [SetName "Shop A"; SetEmail "owner@example.com"; ClickPlan medusa] modal_init) =
    Some ("Shop A", "owner@example.com", woocommerce) /\ woocommerce = woocommerce.
Proof.
  split; [reflexivity|].
  exact (modal_plan_woocommerce (fun e => String.eqb e "owner@example.com")
           [SetName "Shop A"; SetEmail "owner@example.com"; ClickPlan medusa] false
           "Shop A" "owner@example.com" woocommerce eq_refl).
Defined.
End Board.
