(* ===== verification/Dashboard.v ===== *)
(** * Dashboard: the front end against the back end

    The API client of [frontend/src/api/stores.ts] builds requests and
    reads the [data] of the answers; the back end of [index.ts] mounts
    the router of [routes/stores.ts] at [/api/stores] and dispatches a
    request by method and path to a handler ([serve]).  The client's
    [apiClient] (not in the sources) is read as an axios instance whose
    base URL is [/api]: its promise resolves with the body of a [2xx]
    answer and rejects otherwise, with the body as [err.response.data].

    The theorems compose the layers: a store the dashboard creates is the
    store it then reads back; a create at the store limit shows the
    limit message in the [App]; and the timeline of a store after a
    successful WooCommerce run lists its eleven steps once each, with the
    network-policy step left [started] exactly when the policy existed. *)

From S2P Require Import Prelude NameGenerator Model Manifests Repository Cluster SimCluster Wait World Provisioners Queue Routes Actions Observe Frontend Tabs Board.
From Stdlib Require Import Strings.Byte DecimalString.
Local Open Scope string_scope.

Module Dashboard.
Import NameGenerator Manifests Repository Cluster Wait World Provisioners Queue Routes Actions Observe Frontend Tabs Board.

(** ** Requests of the API client *)

Inductive Method := GET | POST | DELETE.

Record Request := mkRequest { rmethod : Method; rpath : string; rbody : option Json }.

Definition getStores_req : Request := mkRequest GET "/stores" None.
Definition getStore_req (id : string) : Request := mkRequest GET ("/stores/" ++ id) None.
Definition createStore_req (payload : Json) : Request := mkRequest POST "/stores" (Some payload).
Definition deleteStore_req (id : string) : Request := mkRequest DELETE ("/stores/" ++ id) None.
Definition getStoreEvents_req (id : string) : Request :=
  mkRequest GET ("/stores/" ++ id ++ "/events") None.
Definition getStoreLogs_req (id pod : string) (tail : Z) : Request :=
  mkRequest GET ("/stores/" ++ id ++ "/logs/" ++ pod ++ "?tail=" ++ string_of_Z tail) None.
Definition getStoreHealth_req (id : string) : Request :=
  mkRequest GET ("/stores/" ++ id ++ "/health") None.
Definition restartStore_req (id target : string) : Request :=
  mkRequest POST ("/stores/" ++ id ++ "/actions/restart?target=" ++ target) None.
Definition resetPassword_req (id : string) : Request :=
  mkRequest POST ("/stores/" ++ id ++ "/actions/reset-password") None.
Definition getAuditLog_req (limit : Z) : Request :=
  mkRequest GET ("/audit?limit=" ++ string_of_Z limit) None.

(** [CreateStoreRequest] as the JSON body axios sends. *)
Definition create_payload (name adminEmail : string) (plan : StorePlan) : Json :=
  JObj [("name", JStr name); ("adminEmail", JStr adminEmail); ("plan", JStr (plan_name plan))].

(** ** Answers as the client reads them *)

(** The error axios rejects with for an answer of status [code]:
    [err.response.data.error] is the body's [error] field, and
    [err.message] is axios's own text. *)
Definition api_error (code : Z) (pl : Payload) : ApiError :=
  mkApiError (match pl with
              | PError e => Some e
              | PValidationFailed => Some "Validation failed"
              | _ => None
              end)
             (Some ("Request failed with status code " ++ string_of_Z code)).

(** axios: a [2xx] answer resolves with its body, another rejects. *)
Definition axios (r : Response) : outcome ApiError Payload :=
  if ((200 <=? status r) && (status r <? 300))%Z then Ok (payload r) else Err (api_error (status r) (payload r)).

(** [return data] of [getStores]; the route answers [2xx] only with this
    shape, any other is read as a failure. *)
Definition getStores_dec (r : Response) : outcome ApiError (list Store.t * nat) :=
  match axios r with
  | Ok (PStores ss q) => Ok (ss, q)
  | Ok _ => Err (mkApiError None None)
  | Err e => Err e
  end.

(** [return data.store] of [getStore] and [createStore]. *)
Definition store_dec (r : Response) : outcome ApiError Store.t :=
  match axios r with
  | Ok (PStore s) => Ok s
  | Ok _ => Err (mkApiError None None)
  | Err e => Err e
  end.

(** [return data.events] of [getStoreEvents]. *)
Definition events_dec (r : Response) : outcome ApiError (list ProvisioningEvent.t) :=
  match axios r with
  | Ok (PEvents evs) => Ok evs
  | Ok _ => Err (mkApiError None None)
  | Err e => Err e
  end.

(** axios on the answers of the action routes. *)
Definition action_axios (r : ActionResponse) : outcome ApiError ActionPayload :=
  if ((200 <=? astatus r) && (astatus r <? 300))%Z then Ok (apayload r)
  else Err (mkApiError (match apayload r with AError e => Some e | _ => None end)
                       (Some ("Request failed with status code " ++ string_of_Z (astatus r)))).

(** [res.restarted] of [restartStore] and [res.newPassword] of
    [resetPassword]. *)
Definition restartStore_dec (r : ActionResponse) : outcome ApiError (list string) :=
  match action_axios r with
  | Ok (ARestarted rs) => Ok rs
  | Ok _ => Err (mkApiError None None)
  | Err e => Err e
  end.

Definition resetPassword_dec (r : ActionResponse) : outcome ApiError string :=
  match action_axios r with
  | Ok (APassword pw) => Ok pw
  | Ok _ => Err (mkApiError None None)
  | Err e => Err e
  end.

(** ** Paths *)

(** [s.split(c)] *)
Fixpoint split_on (c : ascii) (s : string) : list string :=
  match s with
  | EmptyString => [""]
  | String x r =>
      if (x =? c)%char then "" :: split_on c r
      else match split_on c r with
           | [] => [String x ""]
           | h :: t => String x h :: t
           end
  end.

(** The path and the query string of a URL. *)
Fixpoint split_query (s : string) : string * option string :=
  match s with
  | EmptyString => ("", None)
  | String x r =>
      if (x =? "?")%char then ("", Some r)
      else let '(p, q) := split_query r in (String x p, q)
  end.

Fixpoint strip_prefix (pre s : string) : option string :=
  match pre, s with
  | EmptyString, _ => Some s
  | String a pre', String b s' => if (a =? b)%char then strip_prefix pre' s' else None
  | String _ _, EmptyString => None
  end.

(** [req.query[k]] of a query string [k1=v1&k2=v2]. *)
Definition query_get (k : string) (q : option string) : option string :=
  match q with
  | None => None
  | Some q =>
      List.fold_right (fun item acc => match strip_prefix (k ++ "=") item with
                                       | Some v => Some v
                                       | None => acc
                                       end) None (split_on "&" q)
  end.

(** The segments after [/stores] (the mount point [/api/stores] of
    [index.ts], the client's base [/api] removed). *)
Definition stores_segments (path : string) : option (list string) :=
  match strip_prefix "/stores" path with
  | Some EmptyString => Some []
  | Some (String c r) => if (c =? "/")%char then Some (split_on "/" r) else None
  | None => None
  end.

(** ** The back end's dispatch *)

(** The answer of a handler, or [RThrown] when it throws to Express's
    error middleware ([middleware/errorHandler], not in the sources). *)
Inductive Reply := RRoute (r : Response) | RAction (r : ActionResponse) | RObserve (r : ObserveResponse) | RThrown.

Section Serve.
Context {C : Type} `{ClusterApi C} `{PodApi C} `{ObserveApi C} (cfg : Config.t) (is_email : string -> bool).

(** The routes of [routes/stores.ts] (list, create, get, delete,
    events, logs, health, restart and reset-password) and [/api/audit] of
    [routes/health.ts], whose router [index.ts] mounts first; a path is
    relative to the client's base [/api].  [randomBytes] is what
    [crypto.randomBytes(8)] returns to a reset.  [None]: no route
    matches. *)
Definition serve (req : Request) (ip : option string) (randomBytes : list byte) (p : Platform C)
    : option (Reply * Platform C) :=
  let '(path, query) := split_query (rpath req) in
  if String.eqb path "/audit" && match rmethod req with GET => true | _ => false end then
    match auditRoute (query_get "limit" query) p with
    | Some r => Some (RObserve r, p)
    | None => Some (RThrown, p)
    end
  else
  match stores_segments path with
  | None => None
  | Some segs =>
      match rmethod req, segs with
      | GET, [] => Some (RRoute (listRoute p), p)
      | GET, [id] =>
          if String.eqb id "" then Some (RRoute (listRoute p), p)
          else Some (RRoute (getRoute id p), p)
      | POST, [] =>
          let '(r, p') := createRoute cfg is_email (default (JObj []) (rbody req)) ip p in
          Some (RRoute r, p')
      | POST, [id] =>
          if String.eqb id "" then
            let '(r, p') := createRoute cfg is_email (default (JObj []) (rbody req)) ip p in
            Some (RRoute r, p')
          else None
      | DELETE, [id] =>
          if String.eqb id "" then None
          else let '(r, p') := deleteRoute id ip p in Some (RRoute r, p')
      | GET, [id; sub] =>
          if String.eqb id "" then None
          else if String.eqb sub "events" then Some (RRoute (eventsRoute id p), p)
          else if String.eqb sub "health" then Some (RObserve (healthRoute id p), p)
          else None
      | GET, [id; sub; pod] =>
          if negb (String.eqb id "") && String.eqb sub "logs" && negb (String.eqb pod "")
          then Some (RObserve (logsRoute id pod (query_get "tail" query) p), p) else None
      | POST, [id; a; act] =>
          if negb (String.eqb id "") && String.eqb a "actions" then
            if String.eqb act "restart" then
              let '(r, p') := restartRoute id (query_get "target" query) ip p in Some (RAction r, p')
            else if String.eqb act "reset-password" then
              let '(r, p') := resetPasswordRoute id randomBytes ip p in Some (RAction r, p')
            else None
          else None
      | _, _ => None
      end
  end.
End Serve.

(** ** Paths of ids *)

(** A path segment Express reads back as the same [:id]: non-empty,
    without [/] or [?]. *)
Definition path_safe (s : string) : bool :=
  negb (String.eqb s "") &&
  forallb (fun c => negb ((c =? "/")%char || (c =? "?")%char)) (list_ascii_of_string s).

Lemma path_safe_chars s :
  path_safe s = true -> forallb (fun c => negb ((c =? "/")%char || (c =? "?")%char)) (list_ascii_of_string s) = true.
Proof. by intros [_ ?]%andb_prop. Qed.

Lemma split_on_none c s :
  forallb (fun x => negb (x =? c)%char) (list_ascii_of_string s) = true -> split_on c s = [s].
Proof.
  induction s as [|x s IH]; [done|]. cbn. intros [Hx Hs]%andb_prop.
  apply negb_true_iff in Hx. rewrite Hx, IH by done. done.
Qed.

Lemma split_query_app a b :
  forallb (fun x => negb (x =? "?")%char) (list_ascii_of_string a) = true ->
  split_query (a ++ b) = let '(p, q) := split_query b in (a ++ p, q).
Proof.
  induction a as [|x a IH]; simpl; [intros _; unfold append; fold append; by destruct (split_query b)|]. intros [Hx Ha]%andb_prop.
  apply negb_true_iff in Hx. rewrite Hx, IH by done. by destruct (split_query b).
Qed.

Lemma split_query_none s :
  forallb (fun x => negb (x =? "?")%char) (list_ascii_of_string s) = true -> split_query s = (s, None).
Proof.
  intros Hs. pose proof (split_query_app s "" Hs) as E.
  rewrite string_app_nil_r in E. rewrite E. cbn. by rewrite string_app_nil_r.
Qed.

Lemma forallb_weaken_safe (f g : ascii -> bool) l :
  (forall c, f c = true -> g c = true) -> forallb f l = true -> forallb g l = true.
Proof. intros Hfg. rewrite !forallb_forall. eauto. Qed.

Lemma path_safe_no_q s : path_safe s = true ->
  forallb (fun x => negb (x =? "?")%char) (list_ascii_of_string s) = true.
Proof.
  intros H%path_safe_chars. revert H. apply forallb_weaken_safe.
  intros c. by destruct (c =? "/")%char, (c =? "?")%char.
Qed.

Lemma path_safe_no_slash s : path_safe s = true ->
  forallb (fun x => negb (x =? "/")%char) (list_ascii_of_string s) = true.
Proof.
  intros H%path_safe_chars. revert H. apply forallb_weaken_safe.
  intros c. by destruct (c =? "/")%char, (c =? "?")%char.
Qed.

Lemma stores_segments_slash r : stores_segments ("/stores/" ++ r) = Some (split_on "/" r).
Proof. reflexivity. Qed.

(** The ids the repository issues are decimal numerals. *)
Lemma uuid_of_path_safe n : path_safe (uuid_of n) = true.
Proof.
  unfold path_safe, uuid_of, string_of_nat. apply andb_true_intro. split.
  - destruct (Nat.to_uint n) eqn:E; [|done..].
    pose proof (f_equal Nat.of_uint E) as E'. rewrite DecimalNat.Unsigned.of_to in E'.
    cbn in E'. subst n. discriminate E.
  - generalize (Nat.to_uint n). induction u; cbn; auto.
Qed.

Lemma split_on_sep c a b :
  forallb (fun x => negb (x =? c)%char) (list_ascii_of_string a) = true ->
  split_on c (a ++ String c b) = a :: split_on c b.
Proof.
  induction a as [|x a IH]; intros Ha; unfold append; fold append; cbn [split_on].
  - by rewrite Ascii.eqb_refl.
  - cbn in Ha. apply andb_prop in Ha as [Hx Ha]. apply negb_true_iff in Hx. by rewrite Hx, IH.
Qed.

Lemma strip_prefix_app a b : strip_prefix a (a ++ b) = Some b.
Proof. induction a as [|x a IH]; unfold append; fold append; cbn; [done|]. by rewrite Ascii.eqb_refl. Qed.

Lemma uint_digits u : forallb Observe.is_digit (list_ascii_of_string (NilEmpty.string_of_uint u)) = true.
Proof. induction u; cbn; auto. Qed.

(** A rendered number has only digits and a minus sign. *)
Lemma string_of_Z_safe z (c : ascii) :
  Observe.is_digit c = false -> c <> "-"%char ->
  forallb (fun x => negb (x =? c)%char) (list_ascii_of_string (string_of_Z z)) = true.
Proof.
  intros Hd Hm. assert (Hu : forall u, forallb (fun x => negb (x =? c)%char)
                                 (list_ascii_of_string (NilEmpty.string_of_uint u)) = true).
  { intros u. eapply forallb_weaken_safe; [|apply uint_digits].
    intros x Hx. apply negb_true_iff, Ascii.eqb_neq. congruence. }
  unfold string_of_Z. destruct (Z.to_int z); cbn [NilEmpty.string_of_int list_ascii_of_string forallb];
    [apply Hu|].
  apply andb_true_intro. split; [|apply Hu].
  apply negb_true_iff, Ascii.eqb_neq. congruence.
Qed.

Lemma query_get_single k v :
  forallb (fun x => negb (x =? "&")%char) (list_ascii_of_string v) = true ->
  forallb (fun x => negb (x =? "&")%char) (list_ascii_of_string k) = true ->
  query_get k (Some (k ++ "=" ++ v)) = Some v.
Proof.
  intros Hv Hk. unfold query_get.
  rewrite split_on_none.
  - cbn [List.fold_right]. by rewrite <- string_app_assoc, strip_prefix_app.
  - rewrite list_ascii_of_string_app, forallb_app, Hk. cbn. exact Hv.
Qed.

Section ServeTheory.
Context {C : Type} `{ClusterApi C} `{PodApi C} `{ObserveApi C} (cfg : Config.t) (is_email : string -> bool).

Lemma serve_getStore id ip rb (p : Platform C) :
  path_safe id = true -> serve cfg is_email (getStore_req id) ip rb p = Some (RRoute (getRoute id p), p).
Proof.
  intros Hid. unfold serve, getStore_req. cbn [rpath rmethod].
  rewrite (split_query_app "/stores/" id) by done.
  rewrite (split_query_none id) by (by apply path_safe_no_q). cbn.
  rewrite stores_segments_slash, split_on_none by (by apply path_safe_no_slash).
  apply andb_prop in Hid as [Hne _]. apply negb_true_iff in Hne. by rewrite Hne.
Qed.

Lemma stores_not_audit r : String.eqb ("/stores/" ++ r) "/audit" = false.
Proof. reflexivity. Qed.

Lemma serve_getStoreLogs id pod tail ip rb (p : Platform C) :
  path_safe id = true -> path_safe pod = true ->
  serve cfg is_email (getStoreLogs_req id pod tail) ip rb p =
    Some (RObserve (logsRoute id pod (Some (string_of_Z tail)) p), p).
Proof.
  intros Hid Hpod. unfold serve, getStoreLogs_req. cbn [rpath rmethod].
  rewrite (split_query_app "/stores/") by done.
  rewrite (split_query_app id) by (by apply path_safe_no_q).
  rewrite (split_query_app "/logs/") by done.
  rewrite (split_query_app pod) by (by apply path_safe_no_q).
  change (split_query ("?tail=" ++ string_of_Z tail)) with ("", Some ("tail=" ++ string_of_Z tail)).
  cbv iota beta.
  rewrite stores_not_audit, andb_false_l, stores_segments_slash, string_app_nil_r.
  change ("/logs/" ++ pod) with (String "/" ("logs" ++ String "/" pod)).
  rewrite split_on_sep by (by apply path_safe_no_slash).
  rewrite split_on_sep, split_on_none by (done || by apply path_safe_no_slash).
  change ("tail=" ++ string_of_Z tail) with ("tail" ++ "=" ++ string_of_Z tail).
  rewrite query_get_single by (done || by apply string_of_Z_safe).
  apply andb_prop in Hid as [Hid _], Hpod as [Hpod _].
  apply negb_true_iff in Hid, Hpod. cbn [rmethod]. by rewrite Hid, Hpod.
Qed.
Lemma serve_restartStore id target ip rb (p : Platform C) :
  path_safe id = true -> forallb (fun x => negb (x =? "&")%char) (list_ascii_of_string target) = true ->
  serve cfg is_email (restartStore_req id target) ip rb p =
    let '(r, p') := restartRoute id (Some target) ip p in Some (RAction r, p').
Proof.
  intros Hid Ht. unfold serve, restartStore_req. cbn [rpath rmethod].
  rewrite (split_query_app "/stores/") by done.
  rewrite (split_query_app id) by (by apply path_safe_no_q).
  change ("/actions/restart?target=" ++ target) with ("/actions/restart" ++ "?" ++ "target=" ++ target).
  rewrite (split_query_app "/actions/restart") by done.
  change (split_query ("?" ++ "target=" ++ target)) with ("", Some ("target=" ++ target)).
  cbv iota beta.
  rewrite stores_not_audit, andb_false_l, stores_segments_slash, string_app_nil_r.
  change ("/actions/restart") with (String "/" ("actions" ++ String "/" "restart")).
  rewrite split_on_sep by (by apply path_safe_no_slash).
  rewrite split_on_sep by done. cbn [split_on].
  change ("target=" ++ target) with ("target" ++ "=" ++ target).
  rewrite query_get_single by done.
  apply andb_prop in Hid as [Hid _]. apply negb_true_iff in Hid. cbn [rmethod]. by rewrite Hid.
Qed.

Lemma serve_createStore body ip rb (p : Platform C) :
  serve cfg is_email (createStore_req body) ip rb p =
    let '(r, p') := createRoute cfg is_email body ip p in Some (RRoute r, p').
Proof. reflexivity. Qed.

(** The create handler answers a store only with [201]. *)
Lemma createRoute_store_dec body ip (p p' : Platform C) r s :
  createRoute cfg is_email body ip p = (r, p') -> store_dec r = Ok s -> r = mkResponse 201 (PStore s).
Proof.
  unfold createRoute. destruct (parse_body _ _) as [[[name email] plan]|]; [|by intros [= <- _]].
  case_bool_decide; [by intros [= <- _]|]. destruct (getStoreBySlug _ _); [by intros [= <- _]|].
  destruct (createStore _ _ _ _ _ _ _) as [[s'|e] d]; intros [= <- _]; [|done].
  by intros [= ->].
Qed.

(** The id of a store in a well-formed table is path-safe. *)
Lemma stored_id_path_safe (p : Platform C) id s :
  db_wf (db (world p)) -> Repository.getStoreById id (db (world p)) = Some s -> path_safe id = true.
Proof.
  intros Hwf Hs. destruct (wf_issued _ Hwf id ltac:(by eexists)) as (j & _ & ->).
  apply uuid_of_path_safe.
Qed.
End ServeTheory.

(** ** The dashboard against the back end *)

Section Composition.
Context {C : Type} `{ClusterApi C} `{PodApi C} `{ObserveApi C} (cfg : Config.t) (is_email : string -> bool).

(** C15: a store the dashboard's [createStore] receives is what its
    [getStore] of that id then receives: the client's [POST /stores]
    goes to the create handler, a store in the answer comes with [201],
    the id is a decimal numeral that routes [GET /stores/:id] to the get
    handler, and that answers [200] with the same store. *)
Theorem dashboard_create_then_get body ip rb (p p' : Platform C) r s :
  db_wf (db (world p)) ->
  serve cfg is_email (createStore_req body) ip rb p = Some (RRoute r, p') ->
  store_dec r = Ok s ->
  exists r2, serve cfg is_email (getStore_req (Store.id s)) ip rb p' = Some (RRoute r2, p') /\
             store_dec r2 = Ok s.
Proof.
  intros Hwf Hserve Hdec. rewrite serve_createStore in Hserve.
  destruct (createRoute cfg is_email body ip p) as [r1 p1] eqn:Ec. injection Hserve as <- <-.
  pose proof (createRoute_store_dec _ _ _ _ _ _ _ _ Ec Hdec) as ->.
  pose proof (createRoute_then_getRoute cfg is_email body ip p p1 s Hwf Ec) as Hget.
  assert (Hwf1 : db_wf (db (world p1))).
  { pose proof (createRoute_wf cfg is_email body ip p Hwf) as W. by rewrite Ec in W. }
  assert (Hsafe : path_safe (Store.id s) = true).
  { unfold getRoute in Hget. destruct (Repository.getStoreById _ _) as [s'|] eqn:Es; [|done].
    exact (stored_id_path_safe p1 _ _ Hwf1 Es). }
  exists (getRoute (Store.id s) p1). rewrite serve_getStore by done. split; [done|].
  by rewrite Hget.
Qed.

(** C16: submitting the create form when the platform already has
    [maxStores] stores: the back end answers [429] and changes nothing,
    and the [App] shows the limit message of the back end, clears its
    loading flag and keeps the form and the store list as they were. *)
Theorem App_create_at_limit name email plan ip rb (p : Platform C) st refetch :
  parse_body is_email (create_payload name email plan) = Some (name, email, plan) ->
  (Config.maxStores cfg <= getStoreCount (db (world p)))%nat ->
  exists r, serve cfg is_email (createStore_req (create_payload name email plan)) ip rb p =
      Some (RRoute r, p) /\
    let st' := handleCreate (store_dec r) refetch st in
    error st' = Some (limit_message cfg) /\ loading st' = false /\
    showCreate st' = showCreate st /\ stores st' = stores st.
Proof.
  intros Hparse Hcount. rewrite serve_createStore.
  rewrite (createRoute_at_limit cfg is_email _ ip p name email plan Hparse Hcount).
  eexists. split; [reflexivity|]. cbn. unfold js_or_str.
  destruct (String.eqb_spec (limit_message cfg) "") as [E|]; [|done].
  exfalso. unfold limit_message in E. destruct (string_of_nat _); discriminate.
Qed.
(** The schema refuses a body whose name breaks the name rule. *)
Lemma parse_body_bad_name name email plan :
  valid_store_name name = false -> parse_body is_email (create_payload name email plan) = None.
Proof. intros Hn. unfold parse_body, create_payload. cbn. by rewrite Hn. Qed.

(** C17: the create form checks the length of the name, not its
    characters: a name of 2 to 50 characters that breaks the back end's
    rule (a character other than a letter, a digit, a space or a
    hyphen), typed with an e-mail the browser accepts, is submitted; the
    back end answers [400] and changes nothing, and the form shows the
    bare ["Validation failed"], not the rule's message, which the answer
    carries in [details]. *)
Theorem create_form_bad_name browser_email ip rb (p : Platform C) st refetch name email :
  (2 <= String.length name <= 50)%nat -> email <> "" -> browser_email email = true ->
  valid_store_name name = false ->
  modal_submit browser_email false (modal_inputs [SetName name; SetEmail email] modal_init) =
    Some (name, email, woocommerce) /\
  exists r, serve cfg is_email (createStore_req (create_payload name email woocommerce)) ip rb p =
      Some (RRoute r, p) /\ status r = 400%Z /\
    let st' := handleCreate (store_dec r) refetch st in
    error st' = Some "Validation failed" /\ loading st' = false /\
    showCreate st' = showCreate st /\ stores st' = stores st.
Proof.
  intros Hlen He Hb Hname. split; [exact (modal_submit_typed browser_email name email Hlen He Hb)|].
  rewrite serve_createStore.
  rewrite (createRoute_invalid cfg is_email _ ip p (parse_body_bad_name name email woocommerce Hname)).
  eexists. split; [reflexivity|]. cbn. split_and!; reflexivity.
Qed.

End Composition.

(** The timeline's rows after a successful WooCommerce run of a store
    without earlier events. *)
Definition woo_timeline (np_existed : bool) : list (string * EventStatus) :=
  [("create_namespace", completed); ("create_secrets", completed); ("create_quota", completed);
   ("deploy_mysql", completed); ("wait_mysql", completed); ("deploy_wordpress", completed);
   ("wait_wordpress", completed); ("setup_woocommerce", completed); ("create_ingress", completed);
   ("create_networkpolicy", if np_existed then Types.started else completed); ("ready", completed)].

Section ActionsComposition.
Context {C : Type} `{PodLaws C} `{ObserveApi C} (cfg : Config.t) (is_email : string -> bool).

(** C19: a restart button of the actions tab ([all], [wordpress] or
    [mysql]) on a stored store: its request reaches the restart handler;
    when the store is [Ready] the tab reports success with
    ["Restarted: "] and the back end's list joined by [", "] (requested
    targets whose deployment exists, in order) and refreshes the list;
    otherwise it shows the back end's ["Can only restart ready stores"]
    as a failure, refreshes nothing, and the platform is unchanged. *)
Theorem actionsTab_restart id target label ip rb (p : Platform C) s st :
  path_safe id = true -> target = "all" \/ target = "wordpress" \/ target = "mysql" ->
  Repository.getStoreById id (db (world p)) = Some s ->
  exists r p', serve cfg is_email (restartStore_req id target) ip rb p = Some (RAction r, p') /\
    (Store.status s = Ready -> exists restarted,
       runAction_settle (restart_fn (restartStore_dec r)) (runAction_start label st) =
         (mkActionsTab (Some (success, "Restarted: " ++ join ", " restarted)) None, true) /\
       restarted `sublist_of` restart_targets target /\
       (forall app, app ∈ restarted -> present (cluster (world p)) (Deployment, Store.namespace s, app))) /\
    (Store.status s <> Ready ->
       runAction_settle (restart_fn (restartStore_dec r)) (runAction_start label st) =
         (mkActionsTab (Some (failure, "Can only restart ready stores")) None, false) /\ p' = p).
Proof.
  intros Hid Ht Hs.
  assert (Hamp : forallb (fun x => negb (x =? "&")%char) (list_ascii_of_string target) = true)
    by (destruct Ht as [->|[->| ->]]; reflexivity).
  assert (Hjs : js_or_str (Some target) "all" = target) by (destruct Ht as [->|[->| ->]]; reflexivity).
  rewrite serve_restartStore by done. unfold restartRoute. rewrite Hs, Hjs.
  destruct (decide (Store.status s = Ready)) as [Hr|Hr].
  - rewrite bool_decide_true by done. cbn [negb].
    destruct (restart_loop_run (Store.namespace s) (restart_targets target) [] (world p))
      as (rs & c' & Hrun & _ & Hsub & Hpres).
    rewrite Hrun. do 2 eexists. split; [reflexivity|]. split; [|done].
    intros _. exists rs. by split_and!.
  - rewrite bool_decide_false by done. cbn [negb].
    do 2 eexists. split; [reflexivity|]. split; [done|]. by intros _.
Qed.
End ActionsComposition.

(** ** What the audit panel shows of what the back end logs *)

(** The actions the handlers pass to [auditRepository.logAudit]. *)
Definition backend_actions : list string := ["create"; "delete"; "restart"; "reset-password"].

Definition logs_backend_actions (before after : list AuditEntry.t) : Prop :=
  exists es, after = (before ++ es)%list /\ Forall (fun e => AuditEntry.action e ∈ backend_actions) es.

Lemma logs_backend_actions_refl l : logs_backend_actions l l.
Proof. exists []. by rewrite app_nil_r. Qed.

Lemma logAudit_logs a rt rid rn det ip now d :
  a ∈ backend_actions ->
  logs_backend_actions (audit_log d) (audit_log (logAudit a rt rid rn det ip now d)).
Proof. intros Ha. eexists [_]. split; [reflexivity|]. by constructor. Qed.

Lemma createStore_audit name slug ns email plan now d :
  audit_log (snd (createStore name slug ns email plan now d)) = audit_log d.
Proof. unfold createStore. cbn. by repeat case_match. Qed.

Section AuditTheory.
Context {C : Type} `{PodLaws C} `{ObserveApi C} (cfg : Config.t) (is_email : string -> bool).

Lemma cleanup_prefix_audit id (w w' : World C) o :
  cleanup_prefix id w = (o, w') -> audit_log (db w') = audit_log (db w).
Proof.
  unfold cleanup_prefix, World.getStoreById, gets, mbind, stM_bind.
  destruct (Repository.getStoreById id (db w)); [|by intros [= _ <-]].
  by intros [= _ <-].
Qed.

Lemma createRoute_audit body ip (p p' : Platform C) r :
  createRoute cfg is_email body ip p = (r, p') ->
  logs_backend_actions (audit_log (db (world p))) (audit_log (db (world p'))).
Proof.
  unfold createRoute. destruct (parse_body _) as [[[name email] plan]|];
    [|intros [= _ <-]; apply logs_backend_actions_refl].
  case_bool_decide; [intros [= _ <-]; apply logs_backend_actions_refl|].
  destruct (getStoreBySlug _ _); [intros [= _ <-]; apply logs_backend_actions_refl|].
  destruct (createStore _ _ _ _ _ _ _) as [o d] eqn:Ec.
  assert (Ha : audit_log d = audit_log (db (world p))) by (change d with (snd (o, d)); rewrite <- Ec; apply createStore_audit).
  destruct o as [s|e]; intros [= _ <-]; cbn; rewrite <- Ha.
  - apply logAudit_logs. by constructor.
  - apply logs_backend_actions_refl.
Qed.

Lemma deleteRoute_audit id ip (p p' : Platform C) r :
  deleteRoute id ip p = (r, p') ->
  logs_backend_actions (audit_log (db (world p))) (audit_log (db (world p'))).
Proof.
  unfold deleteRoute. destruct (Repository.getStoreById _ _) as [s|];
    [|intros [= _ <-]; apply logs_backend_actions_refl].
  case_bool_decide; [intros [= _ <-]; apply logs_backend_actions_refl|].
  destruct (cleanup_prefix _ _) as [o w2] eqn:E. apply cleanup_prefix_audit in E. cbn in E.
  destruct o; intros [= _ <-]; cbn; rewrite E; apply logAudit_logs; set_solver.
Qed.

Lemma restartRoute_audit id target ip (p p' : Platform C) r :
  restartRoute id target ip p = (r, p') ->
  logs_backend_actions (audit_log (db (world p))) (audit_log (db (world p'))).
Proof.
  unfold restartRoute. destruct (Repository.getStoreById _ _) as [s|];
    [|intros [= _ <-]; apply logs_backend_actions_refl].
  destruct (negb _); [intros [= _ <-]; apply logs_backend_actions_refl|].
  destruct (restart_loop_run (Store.namespace s) (restart_targets (js_or_str target "all")) []
              (world p)) as (rs & c' & Hrun & _). rewrite Hrun.
  intros [= _ <-]. apply logAudit_logs. set_solver.
Qed.

Lemma resetPasswordRoute_audit id rb ip (p p' : Platform C) r :
  resetPasswordRoute id rb ip p = (r, p') ->
  logs_backend_actions (audit_log (db (world p))) (audit_log (db (world p'))).
Proof.
  unfold resetPasswordRoute. destruct (Repository.getStoreById _ _) as [s|];
    [|intros [= _ <-]; apply logs_backend_actions_refl].
  destruct (negb _); [intros [= _ <-]; apply logs_backend_actions_refl|].
  destruct (listNamespacedPod _ _ _ _) as [[|pod pods]|e];
    [intros [= _ <-]; apply logs_backend_actions_refl| |intros [= _ <-]; apply logs_backend_actions_refl].
  destruct (execInPod _ _ _ _ _ _) as [[] err]; [|intros [= _ <-]; apply logs_backend_actions_refl].
  intros [= _ <-]. cbn [world set_world set_db db].
  change (audit_log (db (world p))) with (audit_log (updateAdminPassword id (Crypto.Crypto.toHex rb) (db (world p)))).
  apply logAudit_logs. set_solver.
Qed.

(** Every request the back end serves appends to the audit log only
    entries of the four actions. *)
Lemma serve_audit req ip rb (p p' : Platform C) r :
  serve cfg is_email req ip rb p = Some (r, p') ->
  logs_backend_actions (audit_log (db (world p))) (audit_log (db (world p'))).
Proof.
  unfold serve. destruct (split_query (rpath req)) as [path query].
  destruct (_ && _).
  { destruct (auditRoute _ _); intros [= _ <-]; apply logs_backend_actions_refl. }
  repeat case_match; try discriminate; intros Hs; injection Hs as _ <-;
    try apply logs_backend_actions_refl;
    first [ by eapply createRoute_audit | by eapply deleteRoute_audit
          | by eapply restartRoute_audit | by eapply resetPasswordRoute_audit ].
Qed.

(** C20: the audit panel shows neither a label nor a colour for any entry
    the back end writes: every request it serves appends only [create],
    [delete], [restart] and [reset-password] entries, while [actionLabels]
    and [actionColors] are keyed by [store.create], [store.restart], ...;
    each such row shows the raw action name in the theme's secondary
    colour. *)
Theorem auditPanel_unlabelled req ip rb (p p' : Platform C) r textSecondary :
  serve cfg is_email req ip rb p = Some (r, p') ->
  exists es, audit_log (db (world p')) = (audit_log (db (world p)) ++ es)%list /\
    Forall (fun e => row_label (audit_row textSecondary e) = AuditEntry.action e /\
                     row_color (audit_row textSecondary e) = textSecondary) es.
Proof.
  intros Hs. destruct (serve_audit req ip rb p p' r Hs) as (es & Heq & Hall).
  exists es. split; [done|]. eapply Forall_impl; [exact Hall|]. intros e He.
  apply list_elem_of_In in He. unfold audit_row. cbn [row_label row_color].
  destruct He as [He|[He|[He|[He|[]]]]]; rewrite <- He; split; reflexivity.
Qed.
End AuditTheory.

Section Timeline.
Context {C : Type} `{ClusterLaws C} (cfg : Config.t) (ns : string).
Hypothesis create_benign : forall now r c, namespace r = ns ->
  (exists c', create now r c = (Ok tt, c')) \/
  (exists e c', create now r c = (Err e, c') /\ is_conflict e = true).
Hypothesis deployment_ready : forall c now name t, (0 < t)%Z ->
  present c (Deployment, ns, name) -> exists t', waitForDeploymentReady c ns name t now = (Ok tt, t').
Hypothesis job_completes : forall c now t, (0 < t)%Z ->
  present c (Job, ns, "woocommerce-setup") ->
  exists t', waitForJobComplete c ns "woocommerce-setup" t now = (Ok tt, t').
Hypothesis timeout_pos : (0 < Config.woocommerceInitTimeout cfg)%Z.

(** C18: after a successful WooCommerce run of a store with no earlier
    events, the dashboard's timeline ([deduplicateEvents] of the store's
    events) lists the eleven steps once each, in order, all [completed]
    but the network-policy step, which stays [started] (and keeps its
    pulse animation) exactly when the policy existed before the run,
    although the store is [Ready]. *)
Theorem timeline_after_provision (store : Store.t) (w : World C) :
  Store.namespace store = ns -> getEventsByStoreId (Store.id store) (db w) = [] ->
  exists b w',
    (b = true <-> present (cluster w) (networkpolicy_key ns)) /\
    woocommerce_provision cfg store w = (Ok tt, w') /\
    map (fun e => (ProvisioningEvent.step e, ProvisioningEvent.status e))
      (deduplicateEvents (getEventsByStoreId (Store.id store) (db w'))) = woo_timeline b.
Proof.
  intros Hns Hnone.
  destruct (woocommerce_provision_runs cfg ns create_benign deployment_ready job_completes
              timeout_pos store w Hns) as (b & w' & t & Hb & E & T & _).
  exists b, w'. split_and!; [done|done|].
  unfold deduplicateEvents.
  rewrite (dedup_events_fmap (fun e => (ProvisioningEvent.step e, ProvisioningEvent.status e))
             ProvisioningEvent.step ProvisioningEvent.status fst snd) by done.
  change (map _ (getEventsByStoreId (Store.id store) (db w'))) with (trace (Store.id store) w').
  rewrite T. unfold trace. rewrite Hnone. by destruct b.
Qed.
End Timeline.

Section Witnesses.
Import SimCluster IdealCluster.
Local Open Scope list_scope.

(** The store the first create of [Routes.p0] answers. *)
Definition created_store : Store.t :=
  match store_dec (fst (createRoute Config.default email_like (shop "Shop A") None p0)) with
  | Ok s => s
  | Err _ => new_store "" "" "" "" "" woocommerce 0%Z
  end.

Lemma dashboard_create_then_get_witness :
  exists r2, serve Config.default email_like (getStore_req (Store.id created_store)) None [] created =
      Some (RRoute r2, created) /\ store_dec r2 = Ok created_store.
Proof.
  apply (dashboard_create_then_get Config.default email_like (shop "Shop A") None [] p0 created
           (fst (createRoute Config.default email_like (shop "Shop A") None p0)) created_store
           db_wf_empty); vm_compute; reflexivity.
Defined.

(** One store under a limit of one. *)
Definition full : Platform Ideal := snd (createRoute one_store email_like (shop "Shop A") None p0).

Lemma App_create_at_limit_witness :
  exists r, serve one_store email_like (createStore_req (create_payload "Shop B" "owner@example.com" woocommerce))
      None [] full = Some (RRoute r, full) /\
    let st' := handleCreate (store_dec r) (Err (mkApiError None None)) (initial_state None) in
    error st' = Some (limit_message one_store) /\ loading st' = false /\
    showCreate st' = showCreate (initial_state None) /\ stores st' = stores (initial_state None).
Proof.
  apply (App_create_at_limit one_store email_like "Shop B" "owner@example.com" woocommerce None [] full
           (initial_state None) (Err (mkApiError None None))); vm_compute; [reflexivity|lia].
Defined.

Lemma create_form_bad_name_witness :
  (2 <= String.length "Shop!" <= 50)%nat /\ valid_store_name "Shop!" = false /\
  (modal_submit email_like false (modal_inputs [SetName "Shop!"; SetEmail "owner@example.com"] modal_init) =
     Some ("Shop!", "owner@example.com", woocommerce) /\
   exists r, serve Config.default email_like
       (createStore_req (create_payload "Shop!" "owner@example.com" woocommerce)) None [] p0 =
       Some (RRoute r, p0) /\ status r = 400%Z /\
     let st' := handleCreate (store_dec r) (Err (mkApiError None None)) (initial_state None) in
     error st' = Some "Validation failed" /\ loading st' = false /\
     showCreate st' = showCreate (initial_state None) /\ stores st' = stores (initial_state None)).
Proof.
  split; [cbn; lia|]. split; [reflexivity|].
  exact (create_form_bad_name Config.default email_like email_like None [] p0 (initial_state None)
           (Err (mkApiError None None)) "Shop!" "owner@example.com"
           ltac:(cbn; lia) ltac:(discriminate) eq_refl eq_refl).
Defined.

(** A replay: the namespace of the demo store already holds its network
    policy. *)
Definition np_world : World Ideal :=
  mkWorld empty_db (mkIdeal {[ networkpolicy_key "store-demo-shop" ]}) 0%Z 0.

Lemma timeline_after_provision_witness :
  exists w', woocommerce_provision Config.default demo_store np_world = (Ok tt, w') /\
    map (fun e => (ProvisioningEvent.step e, ProvisioningEvent.status e))
      (deduplicateEvents (getEventsByStoreId "s1" (db w'))) = woo_timeline true.
Proof.
  destruct (@timeline_after_provision Ideal _ ideal_laws Config.default "store-demo-shop"
              (fun now r c _ => ideal_create_benign now r c)
              (fun c now name t Ht Hp => ideal_deployment_ready c now "store-demo-shop" name t Ht Hp)
              (fun c now t Ht Hp => ideal_job_completes c now "store-demo-shop" "woocommerce-setup" t Ht Hp)
              ltac:(vm_compute; reflexivity) demo_store np_world eq_refl eq_refl)
    as (b & w' & Hb & E & T).
  exists w'. split; [exact E|].
  assert (b = true) as ->; [apply Hb; cbn; by apply elem_of_singleton|exact T].
Defined.
Lemma actionsTab_restart_witness :
  path_safe "0" = true /\ Repository.getStoreById "0" (db (world ready)) = Some ready_store /\
  exists r p', serve Config.default email_like (restartStore_req "0" "all") None [] ready = Some (RAction r, p').
Proof.
  assert (H1 : path_safe "0" = true) by reflexivity.
  assert (H2 : Repository.getStoreById "0" (db (world ready)) = Some ready_store) by (vm_compute; reflexivity).
  split_and!; [exact H1|exact H2|].
  destruct (actionsTab_restart Config.default email_like "0" "all" "Restart All Pods" None [] ready
              ready_store actionsTab_init H1 (or_introl eq_refl) H2) as (r & p' & E & _).
  by exists r, p'.
Defined.
Lemma auditPanel_unlabelled_witness :
  serve Config.default email_like (createStore_req (shop "Shop A")) None [] p0 =
    Some (RRoute (fst (createRoute Config.default email_like (shop "Shop A") None p0)),
          snd (createRoute Config.default email_like (shop "Shop A") None p0)) /\
  exists es, audit_log (db (world (snd (createRoute Config.default email_like (shop "Shop A") None p0)))) =
    (audit_log (db (world p0)) ++ es)%list.
Proof.
  assert (E : serve Config.default email_like (createStore_req (shop "Shop A")) None [] p0 =
    Some (RRoute (fst (createRoute Config.default email_like (shop "Shop A") None p0)),
          snd (createRoute Config.default email_like (shop "Shop A") None p0))) by reflexivity.
  split; [exact E|].
  destruct (auditPanel_unlabelled Config.default email_like _ _ _ _ _ _ "#6b7280" E) as (es & Hes & _).
  by exists es.
Defined.
End Witnesses.

End Dashboard.
