(* ===== verification/Panels.v ===== *)
(** * Panels: what the health, logs and actions tabs and the audit panel show

    The views of the tabs of a selected store card in [App.tsx]: the
    [HealthTab] body (namespace, a card per pod with its metrics, the
    storage volumes, the quota table), the [LogsTab] controls and log
    viewer, the [ActionsTab] warning, result banner and buttons with
    their click handler, and the limit selector of the [AuditLogPanel].
    The states are those of [Tabs]; the data the health tab shows is
    the body of the health route of [Observe].

    JavaScript's [s.replace(p, r)] with a string pattern replaces the
    first occurrence only ([replace_first]); [s.split('/').pop()] is the
    last segment of the split, which is never empty.

    The theorems: within one mounting of the actions tab at most one
    action is in flight, and exactly while the tab shows a spinner; the
    quota table of the quota a store is created with has six distinct
    rows. *)

From S2P Require Import Prelude Model Manifests Actions Observe Frontend Tabs Dashboard.
Local Open Scope string_scope.

Module Panels.
Import Types Observe Frontend Tabs Dashboard.

(** [s.replace(pat, rep)] for a string [pat]. *)
Fixpoint replace_first (pat rep s : string) : string :=
  match strip_prefix pat s with
  | Some rest => rep ++ rest
  | None => match s with
            | EmptyString => EmptyString
            | String c s' => String c (replace_first pat rep s')
            end
  end.

(** [s.split('/').pop()] *)
Definition last_segment (s : string) : string := List.last (split_on "/" s) "".

(** ** [HealthTab] *)

Record PodCard := mkPodCard {
  pc_ready : bool;          (** the green or red dot *)
  pc_app : string;
  pc_running : bool;        (** [pod.phase === 'Running'] colours the phase badge *)
  pc_phase : string;
  pc_image : string;
  pc_uptime : string;
  pc_restarts : string;
  pc_restart_warn : bool;   (** [pod.restartCount > 0] *)
  pc_cpu : string;
  pc_memory : string
}.

Definition pod_card (pod : PodHealth.t) : PodCard :=
  let r := PodHealth.resources pod in
  mkPodCard (PodHealth.ready pod) (PodHealth.app pod)
    (bool_decide (PodHealth.phase pod = Some "Running")) (default "" (PodHealth.phase pod))
    (last_segment (PodHealth.image pod))
    (formatUptime (PodHealth.uptime pod))
    (string_of_Z (PodHealth.restartCount pod)) (0 <? PodHealth.restartCount pod)%Z
    (cpuRequest r ++ " / " ++ cpuLimit r) (memRequest r ++ " / " ++ memLimit r).

(** [{pvc.capacity} | {pvc.status} | {pvc.storageClass}] *)
Definition pvc_card (pvc : PvcInfo.t) : string * string :=
  (PvcInfo.name pvc,
   PvcInfo.capacity pvc ++ " | " ++ default "" (PvcInfo.status pvc) ++ " | " ++ PvcInfo.storageClass pvc).

(** [key.replace('requests.', '').replace('limits.', 'lim.')] *)
Definition quota_label (key : string) : string :=
  replace_first "limits." "lim." (replace_first "requests." "" key).

(** A row of the quota table: label, [used[key] || '0'], limit. *)
Definition quota_rows (q : QuotaInfo) : list (string * string * string) :=
  map (fun '(key, limit) => (quota_label key, js_or_str (field key (used q)) "0", limit)) (hard q).

Inductive HealthView :=
| HLoading                  (** [Loading health data...] *)
| HFailed                   (** [Could not fetch health data] *)
| HShown (namespace : string) (pods : list PodCard)
         (pvcs : option (list (string * string)))
         (quota : option (list (string * string * string))).

(** The body of [HealthTab] for its [loading] and [health] states. *)
Definition healthTab_view (loading : bool)
    (health : option (list PodHealth.t * list PvcInfo.t * option QuotaInfo * string)) : HealthView :=
  if loading then HLoading
  else match health with
       | None => HFailed
       | Some (pods, pvcs, quota, ns) =>
           HShown ns (map pod_card pods)
                  (match pvcs with [] => None | _ => Some (map pvc_card pvcs) end)
                  (option_map quota_rows quota)
       end.

(** ** [LogsTab] *)

Record LogsView := mkLogsView {
  lv_pods : list (string * bool);   (** the two pod buttons, the chosen one marked *)
  lv_tail : Z;
  lv_spinning : bool;               (** the refresh icon spins while loading *)
  lv_text : string
}.

(** [{logs || (loading ? 'Loading...' : 'No logs available')}] *)
Definition logsTab_view (s : LogsTab) : LogsView :=
  mkLogsView (map (fun p => (p, String.eqb (logPod s) p)) ["wordpress"; "mysql"])
             (tailLines s) (lloading s)
             (js_or_str (Some (logs s)) (if lloading s then "Loading..." else "No logs available")).

(** The options of the tail selector, [setTailLines(Number(e.target.value))]. *)
Definition tail_options : list Z := [50; 80; 200; 500]%Z.

(** ** [ActionsTab] *)

Record ActionButton := mkActionButton {
  ab_label : string;
  ab_enabled : bool;        (** [disabled={action.disabled || loading !== null}] *)
  ab_spinning : bool        (** [loading === action.label] *)
}.

Record ActionsView := mkActionsView {
  av_warning : bool;        (** [store.status !== 'Ready'] *)
  av_result : option (ResultType * string);
  av_buttons : list ActionButton
}.

Definition actionsTab_view (store : Store.t) (s : ActionsTab) : ActionsView :=
  mkActionsView (negb (bool_decide (Store.status store = Ready))) (actionResult s)
    (map (fun '(label, _, disabled) =>
            mkActionButton label (negb (disabled || isSome (aloading s)))
                           (bool_decide (aloading s = Some label)))
         (actions_of store)).

(** Whether the button of [label] takes a click: a disabled button gets
    none, and the handler checks [!action.disabled] again. *)
Definition action_enabled (store : Store.t) (label : string) (s : ActionsTab) : bool :=
  match List.find (fun a => String.eqb a.1.1 label) (actions_of store) with
  | Some (_, _, disabled) => negb (disabled || isSome (aloading s))
  | None => false
  end.

(** [onClick]: [if (!action.disabled) runAction(action.label, action.fn)]. *)
Definition click_action (store : Store.t) (label : string) (s : ActionsTab) : ActionsTab :=
  if action_enabled store label s then runAction_start label s else s.

(** The ✕ of the result banner: [setActionResult(null)]. *)
Definition dismiss_result (s : ActionsTab) : ActionsTab := mkActionsTab None (aloading s).

(** One mounting of the tab: its state and the labels of the actions
    in flight.  A click starts a run when the button takes it; a run in
    flight settles ([runAction]'s [try/catch/finally]); the banner is
    dismissed. *)
Inductive action_step (store : Store.t) : ActionsTab * list string -> ActionsTab * list string -> Prop :=
| AClick label s fl :
    action_step store (s, fl)
      (click_action store label s, if action_enabled store label s then (fl ++ [label])%list else fl)
| ASettle i label r s fl :
    fl !! i = Some label -> action_step store (s, fl) ((runAction_settle r s).1, delete i fl)
| ADismiss s fl : action_step store (s, fl) (dismiss_result s, fl).

(** ** [AuditLogPanel] *)

(** The options of the limit selector, [setLimit(Number(e.target.value))]. *)
Definition limit_options : list Z := [25; 50; 100]%Z.

(** ** Theory *)

(** The runs in flight are the one the spinner shows, if any. *)
Definition actions_inv (x : ActionsTab * list string) : Prop :=
  x.2 = match aloading x.1 with Some l => [l] | None => [] end.

Lemma action_step_inv store x y : action_step store x y -> actions_inv x -> actions_inv y.
Proof.
  unfold actions_inv. intros Hs Hinv. destruct Hs as [label s fl|i label r s fl Hi|s fl]; cbn in *.
  - unfold click_action. destruct (action_enabled store label s) eqn:He; [|done].
    unfold action_enabled in He. destruct (List.find _ _) as [[[? ?] d]|]; [|done].
    destruct (aloading s); [by rewrite orb_true_r in He|]. by rewrite Hinv.
  - assert (Hset : aloading (runAction_settle r s).1 = None) by (by destruct r).
    rewrite Hset. destruct (aloading s); subst fl; [|by rewrite lookup_nil in Hi].
    by apply list_lookup_singleton_Some in Hi as [-> _].
  - done.
Qed.

(** The string fields of [spec.hard] of a resource quota, as the
    cluster reports them in [status.hard]. *)
Definition spec_hard (r : Manifests.Resource) : list (string * string) :=
  match Manifests.path ["spec"; "hard"] (Manifests.body r) with
  | Some (Manifests.JObj fs) =>
      omap (fun '(k, v) => match v with Manifests.JStr s => Some (k, s) | _ => None end) fs
  | _ => []
  end.

(** Before the quota controller fills [status.used], the quota table of
    the quota every store is created with shows its six limits, under
    six distinct labels, all with ["0"] used. *)
Lemma store_quota_rows ns :
  quota_rows (mkQuotaInfo (spec_hard (Manifests.buildResourceQuota ns)) []) =
    [("cpu", "0", "2"); ("memory", "0", "2Gi"); ("lim.cpu", "0", "4"); ("lim.memory", "0", "4Gi");
     ("persistentvolumeclaims", "0", "4"); ("pods", "0", "10")].
Proof. reflexivity. Qed.

(** ** Claims *)

(** C30: within one mounting of the actions tab at most one action is in
    flight, and exactly the one whose button spins: while an action
    runs, every button is disabled. *)
Theorem actions_one_at_a_time store x :
  rtc (action_step store) (actionsTab_init, []) x ->
  x.2 = match aloading x.1 with Some l => [l] | None => [] end.
Proof.
  intros Hr. change (actions_inv x). assert (H0 : actions_inv (actionsTab_init, [])) by done.
  revert H0. induction Hr as [|a b c Hab _ IH]; intros H0; [done|].
  apply IH, (action_step_inv store a b Hab H0).
Qed.

(** ** Witnesses *)

Lemma actions_one_at_a_time_witness :
  let st := Actions.ready_store in
  rtc (action_step st) (actionsTab_init, [])
      (runAction_start "Restart All Pods" actionsTab_init, ["Restart All Pods"]) /\
  ["Restart All Pods"] = ["Restart All Pods"].
Proof.
  split.
  - apply rtc_once. exact (AClick Actions.ready_store "Restart All Pods" actionsTab_init []).
  - exact (actions_one_at_a_time Actions.ready_store
             (runAction_start "Restart All Pods" actionsTab_init, ["Restart All Pods"])
             (rtc_once _ _ (AClick Actions.ready_store "Restart All Pods" actionsTab_init []))).
Defined.
End Panels.
